(** * ZEO asyncio client: a shallow embedding of [ZEO/asyncio/client.py]

    The development follows the layering of the source: Python values and
    exceptions, completions (the three future kinds the module uses), the
    [Protocol] of one connection, the [Client] that owns the cache and the
    candidate protocols, and the [ClientRunner] call surface.

    Everything the module calls but does not define (the persistent cache,
    the embedding storage, the event bus, the event loop, the wire codec) is
    external: the cache and the embedder are interfaces whose implementation
    is a parameter, and every call that crosses the boundary is recorded, in
    program order, in the [trace] of the world. *)

From Stdlib Require Import ZArith String List Ascii Bool Lia.
From stdpp Require Import base option list gmap strings.

Open Scope string_scope.
Open Scope list_scope.
Set Warnings "-register-all".

(** ** Python values *)

(** A class object: its qualified name, the names of its proper ancestors,
    and whether its metaclass is plain [type] (what
    [type(c) == type(Exception)] tests). *)
Record pyclass := PyClass {
  cls_name : string;
  cls_bases : list string;
  cls_plain : bool
}.

(** Values that travel through the module: replies decoded from the wire,
    transaction and object ids (byte strings), exception instances, and
    references to protocol objects (by their number) where an exception
    names one. *)
Inductive pyval :=
| PNone
| PBool (b : bool)
| PInt (n : Z)
| PBytes (s : string)
| PStr (s : string)
| PTuple (l : list pyval)
| PList (l : list pyval)
| PDict (l : list (pyval * pyval))
| PClass (c : pyclass)
| PInst (c : pyclass) (args : list pyval)
| PRef (id : nat).

(** [issubclass(c, name)] *)
Definition issubclass (c : pyclass) (name : string) : bool :=
  String.eqb (cls_name c) name || existsb (String.eqb name) (cls_bases c).

(** [isinstance(v, name)] *)
Definition isinstance (v : pyval) (name : string) : bool :=
  match v with
  | PInst c _ => issubclass c name
  | _ => false
  end.

(** [bool(v)] *)
Definition truthy (v : pyval) : bool :=
  match v with
  | PNone => false
  | PBool b => b
  | PInt n => negb (n =? 0)%Z
  | PBytes s | PStr s => negb (String.eqb s "")
  | PTuple l | PList l => negb (Nat.eqb (length l) 0)
  | PDict l => negb (Nat.eqb (length l) 0)
  | PClass _ | PInst _ _ | PRef _ => true
  end.

Definition exc_class (name : string) (bases : list string) : pyclass :=
  PyClass name (bases ++ ["Exception"; "BaseException"]) true.

Definition Exception_cls := PyClass "Exception" ["BaseException"] true.
Definition AssertionError_cls := exc_class "AssertionError" [].
Definition AttributeError_cls := exc_class "AttributeError" [].
Definition KeyError_cls := exc_class "KeyError" ["LookupError"].
Definition TypeError_cls := exc_class "TypeError" [].
Definition ValueError_cls := exc_class "ValueError" [].
Definition TimeoutError_cls := exc_class "concurrent.futures.TimeoutError" [].
Definition CancelledError_cls := exc_class "concurrent.futures.CancelledError" [].
Definition InvalidStateError_cls := exc_class "asyncio.InvalidStateError" [].
Definition ClientDisconnected_cls :=
  exc_class "ZEO.Exceptions.ClientDisconnected"
    ["ZEO.Exceptions.ClientStorageError"; "ZODB.POSException.StorageError";
     "ZODB.POSException.POSError"; "transaction.interfaces.TransientError"].
Definition ProtocolError_cls :=
  exc_class "ZEO.Exceptions.ProtocolError"
    ["ZEO.Exceptions.ClientStorageError"; "ZODB.POSException.StorageError";
     "ZODB.POSException.POSError"].
Definition ReadOnlyError_cls :=
  exc_class "ZODB.POSException.ReadOnlyError"
    ["ZODB.POSException.StorageError"; "ZODB.POSException.POSError"].
Definition POSKeyError_cls :=
  exc_class "ZODB.POSException.POSKeyError"
    ["ZODB.POSException.POSError"; "KeyError"; "LookupError"].
Definition ConflictError_cls :=
  exc_class "ZODB.POSException.ConflictError"
    ["ZODB.POSException.POSError"; "transaction.interfaces.TransientError"].

Definition ClientDisconnected (args : list pyval) : pyval :=
  PInst ClientDisconnected_cls args.
Definition ProtocolError (v : pyval) : pyval := PInst ProtocolError_cls [v].
Definition AttributeError (name : string) : pyval :=
  PInst AttributeError_cls [PStr name].
Definition KeyError (v : pyval) : pyval := PInst KeyError_cls [v].
Definition TypeError (msg : string) : pyval := PInst TypeError_cls [PStr msg].
Definition ValueError (msg : string) : pyval := PInst ValueError_cls [PStr msg].
Definition AssertionError (args : list pyval) : pyval :=
  PInst AssertionError_cls args.
Definition TimeoutError : pyval := PInst TimeoutError_cls [].
Definition CancelledError : pyval := PInst CancelledError_cls [].
Definition InvalidStateError : pyval := PInst InvalidStateError_cls [].

(** Ordering of two values, [None] when Python 3 raises [TypeError].  The
    scalar types are ordered; byte strings (transaction ids, protocol tags)
    lexicographically by byte, a proper prefix first. *)
Definition py_compare (a b : pyval) : option comparison :=
  match a, b with
  | PBytes x, PBytes y => Some (String.compare x y)
  | PStr x, PStr y => Some (String.compare x y)
  | PInt x, PInt y => Some (Z.compare x y)
  | _, _ => None
  end.

(** [a == b], structurally. *)
Fixpoint py_eqb (a b : pyval) : bool :=
  let fix all2 (l1 l2 : list pyval) : bool :=
    match l1, l2 with
    | [], [] => true
    | x :: l1', y :: l2' => py_eqb x y && all2 l1' l2'
    | _, _ => false
    end in
  match a, b with
  | PNone, PNone => true
  | PBool x, PBool y => Bool.eqb x y
  | PInt x, PInt y => (x =? y)%Z
  | PBytes x, PBytes y => String.eqb x y
  | PStr x, PStr y => String.eqb x y
  | PTuple x, PTuple y => all2 x y
  | PList x, PList y => all2 x y
  | PClass c, PClass d => String.eqb (cls_name c) (cls_name d)
  | PInst c x, PInst d y => String.eqb (cls_name c) (cls_name d) && all2 x y
  | PRef x, PRef y => Nat.eqb x y
  | _, _ => false
  end.

(** [min(a, b)] on byte strings: [b] when [b < a], else [a]. *)
Definition bytes_min (a b : string) : string :=
  if String.ltb b a then b else a.

(** Iterating a value ([for x in v]); [None] when it is not iterable. *)
Definition py_iter (v : pyval) : option (list pyval) :=
  match v with
  | PTuple l | PList l => Some l
  | _ => None
  end.

(** ** Identities, frames and the trace *)

(** Objects with identity live in heaps of the world and are named by
    number: protocols ([pid]) and completions ([fid]). *)
Definition pid := nat.
Definition fid := nat.

(** A key of the pending table: the integer counter of [Protocol.call], or
    the structural [(oid, tid)] key of [Protocol.load_before]. *)
Inductive msgid :=
| MsgInt (n : Z)
| MsgKey (oid tid : string).

Global Instance msgid_eq_dec : EqDecision msgid.
Proof. solve_decision. Defined.

Global Instance msgid_countable : Countable msgid.
Proof.
  refine (inj_countable'
    (fun m => match m with MsgInt n => inl n | MsgKey o t => inr (o, t) end)
    (fun x => match x with inl n => MsgInt n | inr (o, t) => MsgKey o t end) _).
  by intros [].
Defined.

(** A decoded frame [(msgid, async, name, args)]; the codec is opaque. *)
Record frame := Frame {
  f_msgid : msgid;
  f_async : bool;
  f_name : string;
  f_args : pyval
}.

(** What [_write] hands to the transport. *)
Inductive wire :=
| WVersion (tag : string)
| WFrame (f : frame)
| WHeartbeat.

(** The tri-valued read-only mode. *)
Inductive ro_mode := RoTrue | RoFalse | RoFallback.

(** [bool(m)]: the [Fallback] marker is a plain object, hence true. *)
Definition ro_truthy (m : ro_mode) : bool :=
  match m with RoFalse => false | _ => true end.

(** [m is Fallback] *)
Definition is_Fallback (m : ro_mode) : bool :=
  match m with RoFallback => true | _ => false end.

(** How a completion was resolved. *)
Inductive outcome :=
| Result (v : pyval)
| Failure (e : pyval)
| Cancelled.

(** The three completion classes: [Fut] of this module, whose callback runs
    inside [set_result]; [asyncio.Future], whose callbacks the loop runs
    later; [concurrent.futures.Future], observed from other threads. *)
Inductive fut_kind := SyncFut | LoopFuture | ThreadFuture.

(** What [_when_ready] retries once the client is ready. *)
Inductive ready_func :=
| RF_call (method : string) (args : pyval)
| RF_load_before (oid tid : string).

(** The rest of a suspended generator (or a stored closure): what the
    callback that [future_generator] attaches to a yielded future resumes. *)
Inductive cont :=
| K_register (p : pid)
| K_register_ro (p : pid)
| K_lastTransaction (p : pid)
| K_getInvalidations (p : pid) (server_tid : pyval)
| K_get_info (p : pid)
| K_load_before (future : fid) (oid tid : string)
| K_prefetch (oid tid : string)
| K_tpc_finish (future : fid) (updates : list (pyval * pyval * pyval)) (f : nat)
| K_when_ready (func : ready_func) (result_future : fid).

(** Mutating calls on the cache ([IClientCache]). *)
Inductive cache_call :=
| setLastTid (tid : pyval)
| invalidate (oid tid : pyval)
| store (oid start_tid end_tid data : pyval)
| clear
| cache_close.

(** Calls on the embedding storage, the event bus and the commit hook. *)
Inductive emb_call :=
| notify_connected (info : pyval)
| notify_disconnected
| emb_invalidateTransaction (tid oids : pyval)
| emb_invalidateCache
| emb_serialnos (serials : pyval)
| emb_delegated (name : string) (args : pyval)
| StaleCache
| on_commit (f : nat) (tid : pyval).

Inductive loglevel := Debug | Info | Error | Critical.

(** Deferred work handed to the event loop from its own thread. *)
Inductive task :=
| T_try_connecting
| T_callback (k : cont) (future : fid).

(** The client methods the runner schedules from other threads; each takes
    the completion to resolve as its first argument. *)
Inductive client_meth :=
| CM_call_threadsafe (method : string) (args : pyval)
| CM_load_before_threadsafe (oid tid : string)
| CM_prefetch (oids : list string) (tid : string)
| CM_tpc_finish_threadsafe (tid : pyval)
    (updates : list (pyval * pyval * pyval)) (f : nat)
| CM_close_threadsafe.

(** What the module does to the outside, in order.  A log record keeps its
    level and format string; [EvLogException] is the record of
    [register_failed], at error level, kept with the exception it formats,
    which is all that handler does with it. *)
Inductive event :=
| EvLog (lvl : loglevel) (msg : string)
| EvLogException (msg : string) (exc : pyval)
| EvWrite (p : pid) (w : wire)
| EvCache (c : cache_call)
| EvEmb (c : emb_call)
| EvResolve (f : fid) (o : outcome)
| EvConnect (p : pid) (addr : string)
| EvCancelConnecting (p : pid)
| EvTransportClose (p : pid)
| EvTimerCancel (handle : nat)
| EvCallLater (t : task)
| EvCallSoon (t : task)
| EvCallSoonThreadsafe (m : client_meth) (result : fid).

(** ** External interfaces *)

(** [ZEO.interfaces.IClientCache]: queries are pure, mutators may raise. *)
Class IClientCache (C : Type) := {
  cache_nonempty : C -> bool;
  getLastTid : C -> pyval;
  loadBefore : string -> string -> C -> pyval;
  cache_step : cache_call -> C -> C * option pyval
}.

(** The embedding storage: any call may raise. *)
Class Embedder (E : Type) := {
  emb_step : emb_call -> E -> E * option pyval
}.

(** ** Objects and the world *)

(** A completion object.  [fo_exc] and [fo_result] are the attributes the
    setters write; [fo_cbs] the callbacks attached so far. *)
Record fut_obj := FutObj {
  fo_kind : fut_kind;
  fo_exc : option pyval;
  fo_result : option pyval;
  fo_cancelled : bool;
  fo_cbs : list cont
}.

Definition fo_done (o : fut_obj) : bool :=
  bool_decide (is_Some (fo_exc o)) || bool_decide (is_Some (fo_result o))
  || fo_cancelled o.

Record Protocol := MkProtocol {
  p_addr : string;
  p_storage_key : string;
  p_read_only : ro_mode;
  p_closed : bool;
  p_transport : bool;
  p_futures : gmap msgid fid;
  p_message_id : Z;
  p_protocol_version : option string;
  p_heartbeat_handle : option nat
}.

(** [c_protocol] is the instance attribute [protocol]: [None] when the
    instance has none (after [del self.protocol]; reads then fall back to
    the class attribute, which is [None]). *)
Record Client := MkClient {
  c_addrs : list string;
  c_storage_key : string;
  c_read_only : ro_mode;
  c_protocol : option (option pid);
  c_ready : option bool;
  c_connected : fid;
  c_protocols : list pid;
  c_closed : bool;
  c_verify_result : option string
}.

Record World (C E : Type) := MkWorld {
  client : Client;
  protocols : gmap pid Protocol;
  futures : gmap fid fut_obj;
  cache : C;
  embedder : E;
  trace : list event;
  next_id : nat;
  runner_closed : bool
}.
Arguments MkWorld {C E}.
Arguments client {C E}.
Arguments protocols {C E}.
Arguments futures {C E}.
Arguments cache {C E}.
Arguments embedder {C E}.
Arguments trace {C E}.
Arguments next_id {C E}.
Arguments runner_closed {C E}.

(** The outcome of running a piece of the program: a value, a raised
    exception, or [Diverge] when the chain of nested callbacks exceeds the
    recursion budget. *)
Inductive res (A : Type) :=
| Ret (a : A)
| Raise (e : pyval)
| Diverge.
Arguments Ret {A}.
Arguments Raise {A}.
Arguments Diverge {A}.

(** Field updates. *)
Definition set_p_read_only (m : ro_mode) (P : Protocol) : Protocol :=
  MkProtocol (p_addr P) (p_storage_key P) m (p_closed P) (p_transport P)
    (p_futures P) (p_message_id P) (p_protocol_version P) (p_heartbeat_handle P).
Definition set_p_closed (b : bool) (P : Protocol) : Protocol :=
  MkProtocol (p_addr P) (p_storage_key P) (p_read_only P) b (p_transport P)
    (p_futures P) (p_message_id P) (p_protocol_version P) (p_heartbeat_handle P).
Definition set_p_transport (b : bool) (P : Protocol) : Protocol :=
  MkProtocol (p_addr P) (p_storage_key P) (p_read_only P) (p_closed P) b
    (p_futures P) (p_message_id P) (p_protocol_version P) (p_heartbeat_handle P).
Definition set_p_futures (m : gmap msgid fid) (P : Protocol) : Protocol :=
  MkProtocol (p_addr P) (p_storage_key P) (p_read_only P) (p_closed P)
    (p_transport P) m (p_message_id P) (p_protocol_version P)
    (p_heartbeat_handle P).
Definition set_p_message_id (n : Z) (P : Protocol) : Protocol :=
  MkProtocol (p_addr P) (p_storage_key P) (p_read_only P) (p_closed P)
    (p_transport P) (p_futures P) n (p_protocol_version P)
    (p_heartbeat_handle P).
Definition set_p_protocol_version (v : option string) (P : Protocol) : Protocol :=
  MkProtocol (p_addr P) (p_storage_key P) (p_read_only P) (p_closed P)
    (p_transport P) (p_futures P) (p_message_id P) v (p_heartbeat_handle P).
Definition set_p_heartbeat_handle (h : option nat) (P : Protocol) : Protocol :=
  MkProtocol (p_addr P) (p_storage_key P) (p_read_only P) (p_closed P)
    (p_transport P) (p_futures P) (p_message_id P) (p_protocol_version P) h.

Definition set_c_addrs (a : list string) (c : Client) : Client :=
  MkClient a (c_storage_key c) (c_read_only c) (c_protocol c) (c_ready c)
    (c_connected c) (c_protocols c) (c_closed c) (c_verify_result c).
Definition set_c_protocol (p : option (option pid)) (c : Client) : Client :=
  MkClient (c_addrs c) (c_storage_key c) (c_read_only c) p (c_ready c)
    (c_connected c) (c_protocols c) (c_closed c) (c_verify_result c).
Definition set_c_ready (r : option bool) (c : Client) : Client :=
  MkClient (c_addrs c) (c_storage_key c) (c_read_only c) (c_protocol c) r
    (c_connected c) (c_protocols c) (c_closed c) (c_verify_result c).
Definition set_c_connected (f : fid) (c : Client) : Client :=
  MkClient (c_addrs c) (c_storage_key c) (c_read_only c) (c_protocol c)
    (c_ready c) f (c_protocols c) (c_closed c) (c_verify_result c).
Definition set_c_protocols (l : list pid) (c : Client) : Client :=
  MkClient (c_addrs c) (c_storage_key c) (c_read_only c) (c_protocol c)
    (c_ready c) (c_connected c) l (c_closed c) (c_verify_result c).
Definition set_c_closed (b : bool) (c : Client) : Client :=
  MkClient (c_addrs c) (c_storage_key c) (c_read_only c) (c_protocol c)
    (c_ready c) (c_connected c) (c_protocols c) b (c_verify_result c).
Definition set_c_verify_result (s : option string) (c : Client) : Client :=
  MkClient (c_addrs c) (c_storage_key c) (c_read_only c) (c_protocol c)
    (c_ready c) (c_connected c) (c_protocols c) (c_closed c) s.

(** [self.protocol] as read: the instance attribute, else the class's. *)
Definition cur_protocol (c : Client) : option pid :=
  match c_protocol c with
  | Some v => v
  | None => None
  end.

(** [bool(self.ready)] *)
Definition is_ready (c : Client) : bool :=
  match c_ready c with
  | Some true => true
  | _ => false
  end.

(** [Protocol.protocols] *)
Definition supported_protocols : list string :=
  ["Z309"; "Z310"; "Z3101"; "Z4"; "Z5"].

(** [Protocol.client_methods] and [client_delegated = client_methods[2:]] *)
Definition client_methods : list string :=
  ["invalidateTransaction"; "serialnos"; "info";
   "receiveBlobStart"; "receiveBlobChunk"; "receiveBlobStop"].
Definition client_delegated : list string := drop 2 client_methods.

(** ** The state-and-exception monad *)

Section Program.

Context {C E : Type} {cache_ops : IClientCache C} {emb_ops : Embedder E}.

Local Abbreviation world := (World C E).

(** A piece of the program: it transforms the world and returns, raises or
    diverges.  Mutations made before a [raise] persist, as in Python. *)
Definition M (A : Type) : Type := world -> world * res A.

Definition ret {A} (a : A) : M A := fun w => (w, Ret a).
Definition raise {A} (e : pyval) : M A := fun w => (w, Raise e).
Definition diverge {A} : M A := fun w => (w, Diverge).

Definition bind {A B} (m : M A) (k : A -> M B) : M B :=
  fun w =>
    match m w with
    | (w', Ret a) => k a w'
    | (w', Raise e) => (w', Raise e)
    | (w', Diverge) => (w', Diverge)
    end.

Notation "x <- m ;; k" := (bind m (fun x => k))
  (at level 100, m at next level, right associativity).
Notation "m ;; k" := (bind m (fun _ => k))
  (at level 100, right associativity).

Definition gets {A} (f : world -> A) : M A := fun w => (w, Ret (f w)).
Definition modify (f : world -> world) : M unit := fun w => (f w, Ret tt).

(** [try: m  except Exception as exc: h exc  else: k result].  Only
    instances of [Exception] are caught; what [h] and [k] raise escapes. *)
Definition try_except_else {A B} (m : M A) (h : pyval -> M B) (k : A -> M B)
  : M B :=
  fun w =>
    match m w with
    | (w', Ret a) => k a w'
    | (w', Raise e) =>
        if isinstance e "Exception" then h e w' else (w', Raise e)
    | (w', Diverge) => (w', Diverge)
    end.

Definition try_except {A} (m : M A) (h : pyval -> M A) : M A :=
  try_except_else m h ret.

(** [raise e]: a value that is not an exception instance cannot be raised. *)
Definition py_raise {A} (e : pyval) : M A :=
  if isinstance e "BaseException" then raise e
  else raise (TypeError "exceptions must derive from BaseException").

(** [for x in l: body x] *)
Fixpoint for_each {A} (l : list A) (body : A -> M unit) : M unit :=
  match l with
  | [] => ret tt
  | x :: l' => body x ;; for_each l' body
  end.

(** [for x in v: body x] over a dynamic value. *)
Definition for_in (v : pyval) (body : pyval -> M unit) : M unit :=
  match py_iter v with
  | Some l => for_each l body
  | None => raise (TypeError "object is not iterable")
  end.

(** World updates. *)
Definition upd_client (f : Client -> Client) (w : world) : world :=
  MkWorld (f (client w)) (protocols w) (futures w) (cache w) (embedder w)
    (trace w) (next_id w) (runner_closed w).
Definition upd_protocols (f : gmap pid Protocol -> gmap pid Protocol)
  (w : world) : world :=
  MkWorld (client w) (f (protocols w)) (futures w) (cache w) (embedder w)
    (trace w) (next_id w) (runner_closed w).
Definition upd_futures (f : gmap fid fut_obj -> gmap fid fut_obj)
  (w : world) : world :=
  MkWorld (client w) (protocols w) (f (futures w)) (cache w) (embedder w)
    (trace w) (next_id w) (runner_closed w).
Definition set_cache (c : C) (w : world) : world :=
  MkWorld (client w) (protocols w) (futures w) c (embedder w)
    (trace w) (next_id w) (runner_closed w).
Definition set_embedder (e : E) (w : world) : world :=
  MkWorld (client w) (protocols w) (futures w) (cache w) e
    (trace w) (next_id w) (runner_closed w).
Definition add_event (e : event) (w : world) : world :=
  MkWorld (client w) (protocols w) (futures w) (cache w) (embedder w)
    (trace w ++ [e]) (next_id w) (runner_closed w).
Definition bump_id (w : world) : world :=
  MkWorld (client w) (protocols w) (futures w) (cache w) (embedder w)
    (trace w) (S (next_id w)) (runner_closed w).
Definition set_runner_closed (b : bool) (w : world) : world :=
  MkWorld (client w) (protocols w) (futures w) (cache w) (embedder w)
    (trace w) (next_id w) b.

Definition emit (e : event) : M unit := modify (add_event e).
Definition log (lvl : loglevel) (msg : string) : M unit := emit (EvLog lvl msg).

(** A fresh object identity. *)
Definition fresh : M nat :=
  n <- gets next_id ;; modify bump_id ;; ret n.

(** A call on the cache: recorded, then performed. *)
Definition cache_do (c : cache_call) : M unit :=
  fun w =>
    let w1 := add_event (EvCache c) w in
    match cache_step c (cache w1) with
    | (c', None) => (set_cache c' w1, Ret tt)
    | (c', Some e) => (set_cache c' w1, Raise e)
    end.

(** A call on the embedder: recorded, then performed. *)
Definition emb_do (c : emb_call) : M unit :=
  fun w =>
    let w1 := add_event (EvEmb c) w in
    match emb_step c (embedder w1) with
    | (e', None) => (set_embedder e' w1, Ret tt)
    | (e', Some e) => (set_embedder e' w1, Raise e)
    end.

(** Attribute access on objects of the heaps. *)
Definition the_client : M Client := gets client.

Definition get_protocol (p : pid) : M Protocol :=
  fun w =>
    match protocols w !! p with
    | Some P => (w, Ret P)
    | None => (w, Raise (AttributeError "protocol"))
    end.

Definition upd_protocol (p : pid) (f : Protocol -> Protocol) : M unit :=
  P <- get_protocol p ;; modify (upd_protocols (insert p (f P))).

Definition get_future (f : fid) : M fut_obj :=
  fun w =>
    match futures w !! f with
    | Some o => (w, Ret o)
    | None => (w, Raise (AttributeError "future"))
    end.

Definition put_future (f : fid) (o : fut_obj) : M unit :=
  modify (upd_futures (insert f o)).

(** A new completion object of the given class. *)
Definition new_future (k : fut_kind) : M fid :=
  f <- fresh ;;
  put_future f (FutObj k None None false []) ;;
  ret f.


(** ** Completions *)

Section Callbacks.

(** What invoking the callback [k] on the completion [f] does.  The
    callbacks are the module's own generators, so the functions below are
    written against this variable and the knot is tied by [resume]. *)
Variable invoke : cont -> fid -> M unit.

Definition set_fo_exc (e : pyval) (o : fut_obj) : fut_obj :=
  FutObj (fo_kind o) (Some e) (fo_result o) (fo_cancelled o) (fo_cbs o).
Definition set_fo_result (v : pyval) (o : fut_obj) : fut_obj :=
  FutObj (fo_kind o) (fo_exc o) (Some v) (fo_cancelled o) (fo_cbs o).
Definition set_fo_cancelled (o : fut_obj) : fut_obj :=
  FutObj (fo_kind o) (fo_exc o) (fo_result o) true (fo_cbs o).
Definition set_fo_cbs (l : list cont) (o : fut_obj) : fut_obj :=
  FutObj (fo_kind o) (fo_exc o) (fo_result o) (fo_cancelled o) l.

(** Running the callbacks of a completion that has just been resolved:
    - [Fut] calls [self.cb(self)] on the spot ([AttributeError] without one);
    - [asyncio.Future] hands each callback to the loop ([call_soon]);
    - [concurrent.futures.Future] calls each one, logging what it raises. *)
Definition run_callbacks (f : fid) (o : fut_obj) : M unit :=
  match fo_kind o with
  | SyncFut =>
      match fo_cbs o with
      | k :: _ => invoke k f
      | [] => raise (AttributeError "cb")
      end
  | LoopFuture =>
      for_each (fo_cbs o) (fun k => emit (EvCallSoon (T_callback k f)))
  | ThreadFuture =>
      for_each (fo_cbs o) (fun k =>
        try_except (invoke k f)
          (fun _ => log Error "exception calling callback for %r"))
  end.

(** Only [asyncio.Future] refuses to be resolved twice. *)
Definition check_pending (o : fut_obj) : M unit :=
  match fo_kind o with
  | LoopFuture => if fo_done o then raise InvalidStateError else ret tt
  | _ => ret tt
  end.

(** [future.set_result(v)] *)
Definition set_result (f : fid) (v : pyval) : M unit :=
  o <- get_future f ;;
  check_pending o ;;
  emit (EvResolve f (Result v)) ;;
  put_future f (set_fo_result v o) ;;
  run_callbacks f o.

(** The exception [set_exception(e)] records.  [Fut] and
    [concurrent.futures.Future] keep [e] as it is, whatever it is.
    [asyncio.Future] calls [e] first when it is a class
    ([if isinstance(exception, type): exception = exception()]) and records
    the instance.  This is the library's Python implementation; later
    implementations of [asyncio.Future] also refuse, with [TypeError], a
    [StopIteration] and a value that is not an exception, so the statements
    below that fail an [asyncio.Future] with a value taken from the wire
    assume an exception instance other than [StopIteration]
    ([storable_exception]). *)
Definition recorded_exception (k : fut_kind) (e : pyval) : pyval :=
  match k with
  | LoopFuture => match e with PClass c => PInst c [] | _ => e end
  | _ => e
  end.

(** The values every implementation of [asyncio.Future] records as they
    are. *)
Definition storable_exception (e : pyval) : bool :=
  isinstance e "BaseException" && negb (isinstance e "StopIteration").

(** [future.set_exception(e)] *)
Definition set_exception (f : fid) (e : pyval) : M unit :=
  o <- get_future f ;;
  check_pending o ;;
  let exc := recorded_exception (fo_kind o) e in
  emit (EvResolve f (Failure exc)) ;;
  put_future f (set_fo_exc exc o) ;;
  run_callbacks f o.

(** [future.cancel()]; [Fut] has no such method. *)
Definition cancel (f : fid) : M unit :=
  o <- get_future f ;;
  match fo_kind o with
  | SyncFut => raise (AttributeError "cancel")
  | _ =>
      if fo_done o then ret tt
      else
        emit (EvResolve f Cancelled) ;;
        put_future f (set_fo_cancelled o) ;;
        run_callbacks f o
  end.

(** [future.add_done_callback(k)] *)
Definition add_done_callback (f : fid) (k : cont) : M unit :=
  o <- get_future f ;;
  match fo_kind o with
  | SyncFut => put_future f (set_fo_cbs [k] o)
  | LoopFuture =>
      if fo_done o then emit (EvCallSoon (T_callback k f))
      else put_future f (set_fo_cbs (fo_cbs o ++ [k]) o)
  | ThreadFuture =>
      if fo_done o then invoke k f
      else put_future f (set_fo_cbs (fo_cbs o ++ [k]) o)
  end.

(** [future.result()] of a completion whose callback is running. *)
Definition future_result (f : fid) : M pyval :=
  o <- get_future f ;;
  match fo_kind o with
  | SyncFut =>
      match fo_exc o with
      | Some e =>
          if truthy e then py_raise e
          else match fo_result o with
               | Some v => ret v
               | None => raise (AttributeError "_result")
               end
      | None =>
          match fo_result o with
          | Some v => ret v
          | None => raise (AttributeError "_result")
          end
      end
  | _ =>
      if fo_cancelled o then raise CancelledError
      else match fo_exc o, fo_result o with
           | Some e, _ => py_raise e
           | None, Some v => ret v
           | None, None => raise InvalidStateError
           end
  end.

(** [future.exception()] of a done [concurrent.futures.Future]. *)
Definition future_exception (f : fid) : M pyval :=
  o <- get_future f ;;
  if fo_cancelled o then raise CancelledError
  else match fo_exc o with
       | Some e => ret e
       | None => ret PNone
       end.

(** ** Protocol: one connection *)

(** Modelled from the spec: [_write] of [base.Protocol], which this module
    inherits and does not define.  The frame is written to the connection;
    outgoing frames of one protocol are totally ordered by write order,
    which the trace records. *)
Definition _write (p : pid) (data : wire) : M unit := emit (EvWrite p data).

(** [Protocol.__init__]: the attributes, then [self.connect()], which asks
    the loop for a connection. *)
Definition new_protocol (addr storage_key : string) (read_only : ro_mode)
  : M pid :=
  p <- fresh ;;
  modify (upd_protocols (insert p
    (MkProtocol addr storage_key read_only false false ∅ 0%Z None None))) ;;
  emit (EvConnect p addr) ;;
  ret p.

Definition pop_futures (p : pid) : M (list fid) :=
  P <- get_protocol p ;;
  let futs := (map_to_list (p_futures P)).*2 in
  upd_protocol p (set_p_futures ∅) ;;
  ret futs.

Definition Protocol_close (p : pid) : M unit :=
  P <- get_protocol p ;;
  if p_closed P then ret tt
  else
    upd_protocol p (set_p_closed true) ;;
    emit (EvCancelConnecting p) ;;
    (if p_transport P then emit (EvTransportClose p) else ret tt) ;;
    futs <- pop_futures p ;;
    for_each futs (fun future =>
      set_exception future (ClientDisconnected [PStr "Closed"])).

(** [heartbeat(write)]: the timer handle is remembered for cancellation. *)
Definition heartbeat (p : pid) (write : bool) : M unit :=
  (if write then _write p WHeartbeat else ret tt) ;;
  h <- fresh ;;
  upd_protocol p (set_p_heartbeat_handle (Some h)).

(** [connection_made(transport)]: the inherited method keeps the
    transport, then the heartbeat timer is started. *)
Definition connection_made (p : pid) : M unit :=
  upd_protocol p (set_p_transport true) ;;
  heartbeat p false.

Definition Protocol_call (p : pid) (future : fid) (method : string)
  (args : pyval) : M fid :=
  upd_protocol p (fun P => set_p_message_id (p_message_id P + 1) P) ;;
  P <- get_protocol p ;;
  upd_protocol p
    (set_p_futures (<[MsgInt (p_message_id P) := future]> (p_futures P))) ;;
  _write p (WFrame (Frame (MsgInt (p_message_id P)) false method args)) ;;
  ret future.

(** [self.fut(method, *args)] *)
Definition fut (p : pid) (method : string) (args : list pyval) : M fid :=
  future <- new_future SyncFut ;;
  Protocol_call p future method (PTuple args).

(** [x = yield protocol.fut(method, *args)] inside a generator run by
    [future_generator]: the rest of the generator, [k], becomes the
    callback of the yielded future.  The protocol may be [None]. *)
Definition yield_fut (protocol : option pid) (method : string)
  (args : list pyval) (k : pid -> cont) : M unit :=
  match protocol with
  | None => raise (AttributeError "fut")
  | Some p => future <- fut p method args ;; add_done_callback future (k p)
  end.

Definition Protocol_load_before (p : pid) (oid tid : string) : M fid :=
  P <- get_protocol p ;;
  match p_futures P !! MsgKey oid tid with
  | Some future => ret future
  | None =>
      future <- new_future LoopFuture ;;
      upd_protocol p
        (fun P => set_p_futures (<[MsgKey oid tid := future]> (p_futures P)) P) ;;
      _write p (WFrame (Frame (MsgKey oid tid) false "loadBefore"
                          (PTuple [PBytes oid; PBytes tid]))) ;;
      ret future
  end.

(** ** Client: the session *)

Definition set_ready (r : option bool) : M unit :=
  modify (upd_client (set_c_ready r)).
Definition set_verify_result (s : string) : M unit :=
  modify (upd_client (set_c_verify_result (Some s))).

Definition protocol_closed (w : world) (p : pid) : bool :=
  match protocols w !! p with
  | Some P => p_closed P
  | None => true
  end.

Definition _clear_protocols (protocol : option pid) : M unit :=
  c <- the_client ;;
  for_each (c_protocols c) (fun p =>
    if bool_decide (Some p = protocol) then ret tt else Protocol_close p) ;;
  modify (upd_client (set_c_protocols [])).

Fixpoint make_protocols (addrs : list string) (key : string) (ro : ro_mode)
  : M (list pid) :=
  match addrs with
  | [] => ret []
  | addr :: rest =>
      p <- new_protocol addr key ro ;;
      ps <- make_protocols rest key ro ;;
      ret (p :: ps)
  end.

Definition try_connecting : M unit :=
  log Debug "try_connecting" ;;
  c <- the_client ;;
  if c_closed c then ret tt
  else
    ps <- make_protocols (c_addrs c) (c_storage_key c) (c_read_only c) ;;
    modify (upd_client (set_c_protocols ps)).

Definition all_protocols_closed : M bool :=
  gets (fun w => forallb (protocol_closed w) (c_protocols (client w))).

Definition disconnected (protocol : option pid) : M unit :=
  log Debug "disconnected %r %r" ;;
  c <- the_client ;;
  (if bool_decide (protocol = None) || bool_decide (protocol = cur_protocol c)
   then
     (if bool_decide (protocol = cur_protocol c)
         && negb (bool_decide (protocol = None))
      then emb_do notify_disconnected else ret tt) ;;
     c1 <- the_client ;;
     (if is_ready c1 then set_ready (Some false) else ret tt) ;;
     connected <- new_future ThreadFuture ;;
     modify (upd_client (set_c_connected connected)) ;;
     modify (upd_client (set_c_protocol (Some None))) ;;
     _clear_protocols None
   else ret tt) ;;
  all_closed <- all_protocols_closed ;;
  if all_closed then try_connecting else ret tt.

Definition upgrade (protocol : pid) : M unit :=
  set_ready (Some false) ;;
  connected <- new_future ThreadFuture ;;
  modify (upd_client (set_c_connected connected)) ;;
  c <- the_client ;;
  match cur_protocol c with
  | None => raise (AttributeError "close")
  | Some old => Protocol_close old
  end ;;
  modify (upd_client (set_c_protocol (Some (Some protocol)))) ;;
  _clear_protocols (Some protocol).

(** The first argument of [register_failed]: a protocol (possibly [None]),
    or the client itself. *)
Inductive failed_arg :=
| ArgProtocol (p : option pid)
| ArgSelf.

(** [logger.exception("Registration or cache validation failed, %s", exc)]:
    the one use the handler makes of [exc]. *)
Definition registration_failed_log (exc : pyval) : event :=
  EvLogException "Registration or cache validation failed, %s" exc.

Definition register_failed (protocol : failed_arg) (exc : pyval) : M unit :=
  match protocol with
  | ArgSelf => ret tt
  | ArgProtocol (Some p) => Protocol_close p
  | ArgProtocol None => raise (AttributeError "close")
  end ;;
  emit (registration_failed_log exc) ;;
  c <- the_client ;;
  all_closed <- all_protocols_closed ;;
  if bool_decide (cur_protocol c = None) && all_closed
  then emit (EvCallLater T_try_connecting)
  else ret tt.

(** *** Cache verification ([Client.verify]) *)

(** [del self.protocol] *)
Definition del_protocol : M unit :=
  c <- the_client ;;
  match c_protocol c with
  | None => raise (AttributeError "protocol")
  | Some _ => modify (upd_client (set_c_protocol None))
  end.

(** [a > b] *)
Definition py_gt (a b : pyval) : M bool :=
  match py_compare a b with
  | Some Gt => ret true
  | Some _ => ret false
  | None => raise (TypeError "unorderable types")
  end.

(** [a, b = v] *)
Definition unpack2 (v : pyval) : M (pyval * pyval) :=
  match py_iter v with
  | Some [a; b] => ret (a, b)
  | Some _ => raise (ValueError "wrong number of values to unpack")
  | None => raise (TypeError "object is not iterable")
  end.

(** [a, b, c = v] *)
Definition unpack3 (v : pyval) : M (pyval * pyval * pyval) :=
  match py_iter v with
  | Some [a; b; c] => ret (a, b, c)
  | Some _ => raise (ValueError "wrong number of values to unpack")
  | None => raise (TypeError "object is not iterable")
  end.

(** The generator either reached the end of its [try] block with the
    server tid to record, or is suspended on [getInvalidations]. *)
Inductive verify_step :=
| VDone (server_tid : pyval)
| VSuspended.

(** The body of the [try] block, up to its [yield]. *)
Definition verify_check (protocol : option pid) (server_tid : pyval)
  : M verify_step :=
  nonempty <- gets (fun w => cache_nonempty (cache w)) ;;
  if nonempty then
    cache_tid <- gets (fun w => getLastTid (cache w)) ;;
    if negb (truthy cache_tid) then
      set_verify_result "Non-empty cache w/o tid" ;;
      log Error "Non-empty cache w/o tid -- clearing" ;;
      cache_do clear ;;
      emb_do emb_invalidateCache ;;
      ret (VDone server_tid)
    else
      newer <- py_gt cache_tid server_tid ;;
      if newer then
        set_verify_result "Cache newer than server" ;;
        log Critical "Client has seen newer transactions than server!" ;;
        raise (AssertionError
                 [PStr "Server behind client, %r < %r, %s"; server_tid;
                  cache_tid;
                  match protocol with Some p => PRef p | None => PNone end])
      else if py_eqb cache_tid server_tid then
        set_verify_result "Cache up to date" ;;
        ret (VDone server_tid)
      else
        yield_fut protocol "getInvalidations" [cache_tid]
          (fun p => K_getInvalidations p server_tid) ;;
        ret VSuspended
  else
    set_verify_result "empty cache" ;;
    ret (VDone server_tid).

(** The rest of the [try] block, resumed with the reply [vdata]. *)
Definition verify_invalidations (server_tid vdata : pyval) : M pyval :=
  if truthy vdata then
    set_verify_result "quick verification" ;;
    p <- unpack2 vdata ;;
    for_in (snd p) (fun oid => cache_do (invalidate oid PNone)) ;;
    emb_do (emb_invalidateTransaction (fst p) (snd p)) ;;
    ret (fst p)
  else
    set_verify_result "cache too old, clearing" ;;
    try_except (emb_do StaleCache)
      (fun _ => log Error "sending StaleCache event") ;;
    log Critical "%s dropping stale cache" ;;
    cache_do clear ;;
    emb_do emb_invalidateCache ;;
    ret server_tid.

(** The [except Exception as exc] clause. *)
Definition verify_failed (protocol : option pid) (exc : pyval) : M unit :=
  del_protocol ;;
  register_failed (ArgProtocol protocol) exc.

(** The [else] clause, up to its [yield]. *)
Definition verify_finish (protocol : option pid) (server_tid : pyval)
  : M unit :=
  cache_do (setLastTid server_tid) ;;
  set_ready (Some true) ;;
  try_except
    (yield_fut protocol "get_info" [] K_get_info)
    (fun exc => register_failed ArgSelf exc).

Definition verify_body (protocol : option pid) (server_tid : pyval) : M unit :=
  try_except_else (verify_check protocol server_tid)
    (verify_failed protocol)
    (fun s => match s with
              | VDone tid => verify_finish protocol tid
              | VSuspended => ret tt
              end).

Definition verify (server_tid : pyval) : M unit :=
  c <- the_client ;;
  let protocol := cur_protocol c in
  match server_tid with
  | PNone =>
      yield_fut protocol "lastTransaction" [] K_lastTransaction
  | _ => verify_body protocol server_tid
  end.

(** What a generator is resumed with: [gen.send(v)] or [gen.throw(exc)]. *)
Definition resumed := (pyval + pyval)%type.

Definition verify_after_lastTransaction (p : pid) (r : resumed) : M unit :=
  match r with
  | inl server_tid => verify_body (Some p) server_tid
  | inr exc => raise exc
  end.

Definition verify_after_getInvalidations (p : pid) (server_tid : pyval)
  (r : resumed) : M unit :=
  try_except_else
    (match r with
     | inl vdata => verify_invalidations server_tid vdata
     | inr exc => raise exc
     end)
    (verify_failed (Some p))
    (verify_finish (Some p)).

Definition verify_after_get_info (r : resumed) : M unit :=
  match r with
  | inl info =>
      emb_do (notify_connected info) ;;
      c <- the_client ;;
      set_result (c_connected c) PNone
  | inr exc => register_failed ArgSelf exc
  end.

Definition registered (protocol : pid) (server_tid : pyval) : M unit :=
  c <- the_client ;;
  P <- get_protocol protocol ;;
  match cur_protocol c with
  | None =>
      modify (upd_client (set_c_protocol (Some (Some protocol)))) ;;
      (if negb (is_Fallback (c_read_only c)
                && ro_truthy (p_read_only P))
       then _clear_protocols (Some protocol) else ret tt) ;;
      verify server_tid
  | Some current =>
      Pc <- get_protocol current ;;
      if is_Fallback (c_read_only c)
         && negb (ro_truthy (p_read_only P))
         && ro_truthy (p_read_only Pc)
      then upgrade protocol ;; verify server_tid
      else Protocol_close protocol
  end.

(** *** Call routing *)

Definition _when_ready (func : ready_func) (result_future : fid) : M unit :=
  c <- the_client ;;
  match c_ready c with
  | None =>
      set_exception result_future (ClientDisconnected [PStr "never connected"])
  | Some _ => add_done_callback (c_connected c) (K_when_ready func result_future)
  end.

Definition call_threadsafe (future : fid) (method : string) (args : pyval)
  : M unit :=
  c <- the_client ;;
  if is_ready c then
    match cur_protocol c with
    | Some p => Protocol_call p future method args ;; ret tt
    | None => raise (AttributeError "call")
    end
  else _when_ready (RF_call method args) future.

(** The [except]/[else] clauses of [load_before_threadsafe]. *)
Definition load_before_done (future : fid) (oid : string) (r : resumed)
  : M unit :=
  match r with
  | inr exc => set_exception future exc
  | inl data =>
      set_result future data ;;
      if truthy data then
        t <- unpack3 data ;;
        cache_do (store (PBytes oid) (snd (fst t)) (snd t) (fst (fst t)))
      else ret tt
  end.

Definition load_before_threadsafe (future : fid) (oid tid : string) : M unit :=
  data <- gets (fun w => loadBefore oid tid (cache w)) ;;
  match data with
  | PNone =>
      c <- the_client ;;
      if is_ready c then
        try_except
          (match cur_protocol c with
           | Some p =>
               f <- Protocol_load_before p oid tid ;;
               add_done_callback f (K_load_before future oid tid)
           | None => raise (AttributeError "load_before")
           end)
          (fun exc => set_exception future exc)
      else _when_ready (RF_load_before oid tid) future
  | _ => set_result future data
  end.

(** [func(result_future, ...)] in [_when_ready]. *)
Definition run_ready_func (func : ready_func) (result_future : fid) : M unit :=
  match func with
  | RF_call method args => call_threadsafe result_future method args
  | RF_load_before oid tid => load_before_threadsafe result_future oid tid
  end.

(** The closure [done(future)] that [_when_ready] attaches to
    [self.connected]. *)
Definition when_ready_done (func : ready_func) (result_future future : fid)
  : M unit :=
  e <- future_exception future ;;
  match e with
  | PNone =>
      c <- the_client ;;
      if is_ready c then run_ready_func func result_future
      else _when_ready func result_future
  | _ => set_exception future e
  end.

(** The body of [_prefetch] after its [yield]. *)
Definition prefetch_done (oid : string) (r : resumed) : M unit :=
  try_except
    (match r with
     | inr exc => raise exc
     | inl data =>
         if truthy data then
           t <- unpack3 data ;;
           cache_do (store (PBytes oid) (snd (fst t)) (snd t) (fst (fst t)))
         else ret tt
     end)
    (fun _ => log Error "prefetch %r %r").

Definition _prefetch (oid tid : string) : M unit :=
  c <- the_client ;;
  try_except
    (match cur_protocol c with
     | Some p =>
         f <- Protocol_load_before p oid tid ;;
         add_done_callback f (K_prefetch oid tid)
     | None => raise (AttributeError "load_before")
     end)
    (fun _ => log Error "prefetch %r %r").

Definition prefetch (future : fid) (oids : list string) (tid : string)
  : M unit :=
  c <- the_client ;;
  if is_ready c then
    for_each oids (fun oid =>
      data <- gets (fun w => loadBefore oid tid (cache w)) ;;
      match data with
      | PNone => _prefetch oid tid
      | _ => ret tt
      end) ;;
    set_result future PNone
  else set_exception future (ClientDisconnected []).

(** *** Commit ([tpc_finish_threadsafe]) *)

(** The [except Exception as exc] clause. *)
Definition tpc_finish_failed (future : fid) (exc : pyval) : M unit :=
  set_exception future exc ;;
  c <- the_client ;;
  match cur_protocol c with
  | Some p => Protocol_close p
  | None => raise (AttributeError "close")
  end ;;
  c' <- the_client ;;
  disconnected (cur_protocol c').

(** The cache updates of the [try] block, with the server's [tid]. *)
Definition tpc_finish_updates (tid : pyval)
  (updates : list (pyval * pyval * pyval)) : M unit :=
  for_each updates (fun u =>
    cache_do (invalidate (fst (fst u)) tid) ;;
    if truthy (snd (fst u)) && negb (truthy (snd u))
    then cache_do (store (fst (fst u)) tid PNone (snd (fst u)))
    else ret tt) ;;
  cache_do (setLastTid tid).

Definition tpc_finish_threadsafe (future : fid) (tid : pyval)
  (updates : list (pyval * pyval * pyval)) (f : nat) : M unit :=
  c <- the_client ;;
  if is_ready c then
    try_except
      (yield_fut (cur_protocol c) "tpc_finish" [tid]
         (fun _ => K_tpc_finish future updates f))
      (tpc_finish_failed future)
  else set_exception future (ClientDisconnected []).

Definition tpc_finish_resumed (future : fid)
  (updates : list (pyval * pyval * pyval)) (f : nat) (r : resumed) : M unit :=
  try_except_else
    (match r with
     | inl tid => tpc_finish_updates tid updates ;; ret tid
     | inr exc => raise exc
     end)
    (tpc_finish_failed future)
    (fun tid => emb_do (on_commit f tid) ;; set_result future tid).

(** *** Handlers of server-initiated calls *)

Definition invalidateTransaction (tid oids : pyval) : M unit :=
  c <- the_client ;;
  if is_ready c then
    for_in oids (fun oid => cache_do (invalidate oid tid)) ;;
    emb_do (emb_invalidateTransaction tid oids) ;;
    cache_do (setLastTid tid)
  else ret tt.

Definition serialnos (serials : pyval) : M unit :=
  for_in serials (fun pair =>
    p <- unpack2 pair ;;
    if isinstance (snd p) "Exception"
    then cache_do (invalidate (fst p) PNone) else ret tt) ;;
  emb_do (emb_serialnos serials).

Definition Client_close : M unit :=
  c <- the_client ;;
  if c_closed c then ret tt
  else
    modify (upd_client (set_c_closed true)) ;;
    set_ready (Some false) ;;
    match cur_protocol c with
    | Some p => Protocol_close p
    | None => ret tt
    end ;;
    cache_do cache_close ;;
    _clear_protocols None.

Definition close_threadsafe (future : fid) : M unit :=
  Client_close ;;
  set_result future PNone.

(** ** Protocol: events from the transport *)

Definition connection_lost (p : pid) (exc : pyval) : M unit :=
  log Debug "connection_lost %r" ;;
  P <- get_protocol p ;;
  match p_heartbeat_handle P with
  | Some h => emit (EvTimerCancel h)
  | None => raise (AttributeError "heartbeat_handle")
  end ;;
  if p_closed P then
    futs <- pop_futures p ;;
    for_each futs cancel
  else
    futs <- pop_futures p ;;
    for_each futs (fun f =>
      set_exception f
        (ClientDisconnected [if truthy exc then exc else PStr "connection lost"])) ;;
    upd_protocol p (set_p_closed true) ;;
    disconnected (Some p).

(** [self.read_only if self.read_only is not Fallback else False] *)
Definition register_mode (m : ro_mode) : bool :=
  match m with RoTrue => true | _ => false end.

Definition finish_connect (p : pid) (protocol_version : string) : M unit :=
  let version := bytes_min protocol_version (List.last supported_protocols "") in
  upd_protocol p (set_p_protocol_version (Some version)) ;;
  if negb (existsb (String.eqb version) supported_protocols) then
    register_failed (ArgProtocol (Some p))
      (ProtocolError (PBytes protocol_version))
  else
    _write p (WVersion version) ;;
    P <- get_protocol p ;;
    yield_fut (Some p) "register"
      [PStr (p_storage_key P); PBool (register_mode (p_read_only P))]
      K_register.

(** After the first [register]: the inner [except ReadOnlyError] and [else]
    clauses, inside the outer [try]. *)
Definition finish_connect_registered (p : pid) (r : resumed) : M unit :=
  P <- get_protocol p ;;
  match r with
  | inr exc =>
      if isinstance exc "ZODB.POSException.ReadOnlyError"
         && is_Fallback (p_read_only P)
      then
        upd_protocol p (set_p_read_only RoTrue) ;;
        yield_fut (Some p) "register" [PStr (p_storage_key P); PBool true]
          K_register_ro
      else register_failed (ArgProtocol (Some p)) exc
  | inl server_tid =>
      (if is_Fallback (p_read_only P)
       then upd_protocol p (set_p_read_only RoFalse) else ret tt) ;;
      registered p server_tid
  end.

(** After the read-only retry. *)
Definition finish_connect_retried (p : pid) (r : resumed) : M unit :=
  match r with
  | inr exc => register_failed (ArgProtocol (Some p)) exc
  | inl server_tid => registered p server_tid
  end.

Definition msgid_value (m : msgid) : pyval :=
  match m with
  | MsgInt n => PInt n
  | MsgKey oid tid => PTuple [PBytes oid; PBytes tid]
  end.

(** The reply shape [(ExceptionClass, payload, ...)]: a tuple of more than
    one element whose first is a class, of metaclass [type], deriving from
    [Exception]. *)
Definition exception_reply (args : pyval) : option (pyclass * pyval) :=
  match args with
  | PTuple (PClass c :: payload :: _) =>
      if cls_plain c && issubclass c "Exception" then Some (c, payload)
      else None
  | _ => None
  end.

(** The exception kinds that are not logged. *)
Definition known_data_error (c : pyclass) : bool :=
  issubclass c "ZODB.POSException.POSKeyError"
  || issubclass c "ZODB.POSException.ConflictError".

(** [getattr(self.client, name)] applied to the unpacked [args] for [name] in [client_methods]. *)
Definition call_client_method (name : string) (args : pyval) : M unit :=
  match py_iter args with
  | None => raise (TypeError "argument after * must be an iterable")
  | Some l =>
      if String.eqb name "invalidateTransaction" then
        match l with
        | [tid; oids] => invalidateTransaction tid oids
        | _ => raise (TypeError "invalidateTransaction() takes 2 arguments")
        end
      else if String.eqb name "serialnos" then
        match l with
        | [serials] => serialnos serials
        | _ => raise (TypeError "serialnos() takes 1 argument")
        end
      else emb_do (emb_delegated name args)
  end.

Definition message_received (p : pid) (data : frame) : M unit :=
  if String.eqb (f_name data) ".reply" then
    P <- get_protocol p ;;
    match p_futures P !! f_msgid data with
    | None => raise (KeyError (msgid_value (f_msgid data)))
    | Some future =>
        upd_protocol p (set_p_futures (delete (f_msgid data) (p_futures P))) ;;
        match exception_reply (f_args data) with
        | Some (c, payload) =>
            (if negb (known_data_error c)
             then log Error "%s from server: %s.%s:%s" else ret tt) ;;
            set_exception future payload
        | None => set_result future (f_args data)
        end
    end
  else if negb (f_async data) then raise (AssertionError [])
  else if existsb (String.eqb (f_name data)) client_methods
  then call_client_method (f_name data) (f_args data)
  else raise (AttributeError (f_name data)).

(** ** Resuming generators *)

(** The callback [future_generator] attaches: read the future's result and
    send it into the generator, or throw what it raised if that is an
    [Exception]. *)
Definition resume_generator (future : fid) (gen : resumed -> M unit) : M unit :=
  try_except_else (future_result future)
    (fun exc => gen (inr exc))
    (fun result => gen (inl result)).

Definition invoke_body (k : cont) (future : fid) : M unit :=
  match k with
  | K_register p => resume_generator future (finish_connect_registered p)
  | K_register_ro p => resume_generator future (finish_connect_retried p)
  | K_lastTransaction p =>
      resume_generator future (verify_after_lastTransaction p)
  | K_getInvalidations p server_tid =>
      resume_generator future (verify_after_getInvalidations p server_tid)
  | K_get_info _ => resume_generator future verify_after_get_info
  | K_load_before result_future oid _ =>
      resume_generator future (load_before_done result_future oid)
  | K_prefetch oid _ => resume_generator future (prefetch_done oid)
  | K_tpc_finish result_future updates f =>
      resume_generator future (tpc_finish_resumed result_future updates f)
  | K_when_ready func result_future =>
      when_ready_done func result_future future
  end.

End Callbacks.

(** Tying the knot: a callback may resolve further completions, whose
    callbacks run inside it; [depth] bounds the nesting. *)
Fixpoint resume (depth : nat) (k : cont) (future : fid) : M unit :=
  match depth with
  | O => diverge
  | S d => invoke_body (resume d) k future
  end.

(** What the loop does with a method scheduled by the runner. *)
Definition run_client_meth (depth : nat) (m : client_meth) (result : fid)
  : M unit :=
  match m with
  | CM_call_threadsafe method args =>
      call_threadsafe (resume depth) result method args
  | CM_load_before_threadsafe oid tid =>
      load_before_threadsafe (resume depth) result oid tid
  | CM_prefetch oids tid => prefetch (resume depth) result oids tid
  | CM_tpc_finish_threadsafe tid updates f =>
      tpc_finish_threadsafe (resume depth) result tid updates f
  | CM_close_threadsafe => close_threadsafe (resume depth) result
  end.

(** [Client.__init__]: the attributes are those of the initial world; the
    constructor ends with [self.disconnected(None)]. *)
Definition initial_world (c : C) (e : E) (addrs : list string)
  (storage_key : string) (read_only : ro_mode) : world :=
  MkWorld (MkClient addrs storage_key read_only None None 0 [] false None)
    ∅ ∅ c e [] 0 false.

Definition Client_init (depth : nat) : M unit :=
  disconnected (resume depth) None.

(** ** ClientRunner: the call surface for other threads *)

(** [try: m  except cls as exc: h exc] for an exception class [cls]. *)
Definition try_except_class {A} (cls : string) (m : M A) (h : pyval -> M A)
  : M A :=
  fun w =>
    match m w with
    | (w', Raise e) => if isinstance e cls then h e w' else (w', Raise e)
    | r => r
    end.

(** [future.result(timeout)] of a [concurrent.futures.Future], run in the
    world the caller wakes up in: it returns or raises what the completion
    holds, and raises [TimeoutError] when it is still pending. *)
Definition result_within (future : fid) : M pyval :=
  o <- get_future future ;;
  if fo_cancelled o then raise CancelledError
  else match fo_exc o, fo_result o with
       | Some e, _ => py_raise e
       | None, Some v => ret v
       | None, None => raise TimeoutError
       end.

(** [wait_for_result(future, timeout)] *)
Definition wait_for_result (future : fid) : M pyval :=
  try_except_class "concurrent.futures.TimeoutError" (result_within future)
    (fun exc =>
       c <- the_client ;;
       if negb (is_ready c) then
         raise (ClientDisconnected [PStr "timed out waiting for connection"])
       else raise exc).

(** [self.__call(meth, ...)]: the closure [call] of [setup_delegation], or
    [call_closed] once [close] has replaced it.  [io] is what the I/O
    thread does while the caller is blocked. *)
Definition runner_call (m : client_meth) (io : world -> world) : M pyval :=
  closed <- gets runner_closed ;;
  if closed then raise (ClientDisconnected [PStr "closed"])
  else
    result <- new_future ThreadFuture ;;
    emit (EvCallSoonThreadsafe m result) ;;
    modify io ;;
    wait_for_result result.

Definition Runner_close (io : world -> world) : M unit :=
  runner_call CM_close_threadsafe io ;;
  modify (set_runner_closed true).

End Program.

(** * Properties *)

Section Properties.

Context {C E : Type} {cache_ops : IClientCache C} {emb_ops : Embedder E}.

Local Abbreviation world := (World C E).

Local Notation "x <- m ;; k" := (bind m (fun x => k))
  (at level 100, m at next level, right associativity).
Local Notation "m ;; k" := (bind m (fun _ => k))
  (at level 100, right associativity).

(** ** Assumptions on the external collaborators *)

(** The cache (resp. the embedder) raises on no call. *)
Definition cache_reliable : Prop :=
  forall (call : cache_call) (c : C), snd (cache_step call c) = None.
Definition embedder_reliable : Prop :=
  forall (call : emb_call) (e : E), snd (emb_step call e) = None.

(** [getLastTid] returns what [setLastTid] recorded. *)
Definition cache_records_tid : Prop :=
  forall (tid : pyval) (c : C),
    getLastTid (fst (cache_step (setLastTid tid) c)) = tid.

(** The step left everything but the cache, the embedder and the trace. *)
Definition only_external (w w' : world) : Prop :=
  client w' = client w /\ protocols w' = protocols w /\
  futures w' = futures w /\ next_id w' = next_id w /\
  runner_closed w' = runner_closed w.

(** ** Running the monad *)

Ltac munfold :=
  repeat (progress (unfold bind, ret, raise, gets, modify, the_client, emit,
    log, _write, fresh, put_future, new_future, upd_protocol, get_protocol,
    get_future, set_ready, set_verify_result, upd_client, upd_protocols,
    upd_futures, set_cache, set_embedder, add_event, bump_id,
    set_runner_closed; cbn beta iota)).

Lemma bind_Ret {A B} (m : M A) (k : A -> M B) (w w' : world) (a : A) :
  m w = (w', Ret a) -> bind m k w = k a w'.
Proof. intros H. unfold bind. by rewrite H. Qed.

Lemma bind_Raise {A B} (m : M A) (k : A -> M B) (w w' : world) (e : pyval) :
  m w = (w', Raise e) -> bind m k w = (w', Raise e).
Proof. intros H. unfold bind. by rewrite H. Qed.

Lemma cache_do_ok (call : cache_call) (w : world) :
  cache_reliable ->
  cache_do call w =
    (set_cache (fst (cache_step call (cache w))) (add_event (EvCache call) w),
     Ret tt).
Proof.
  intros H. unfold cache_do. simpl. specialize (H call (cache w)).
  destruct (cache_step call (cache w)) as [c' r]. simpl in *. by subst.
Qed.

Lemma emb_do_ok (call : emb_call) (w : world) :
  embedder_reliable ->
  emb_do call w =
    (set_embedder (fst (emb_step call (embedder w)))
       (add_event (EvEmb call) w),
     Ret tt).
Proof.
  intros H. unfold emb_do. simpl. specialize (H call (embedder w)).
  destruct (emb_step call (embedder w)) as [c' r]. simpl in *. by subst.
Qed.

(** A loop of cache calls on a reliable cache performs them all, in order,
    and touches nothing else. *)
Lemma for_each_cache_do {A} (l : list A) (f : A -> cache_call) (w : world) :
  cache_reliable ->
  exists w', for_each l (fun x => cache_do (f x)) w = (w', Ret tt) /\
    trace w' = trace w ++ map (fun x => EvCache (f x)) l /\
    embedder w' = embedder w /\ only_external w w'.
Proof.
  intros Hc. revert w. induction l as [|x l IH]; intros w; simpl.
  - exists w. rewrite app_nil_r. by repeat split.
  - destruct (IH (set_cache (fst (cache_step (f x) (cache w)))
                    (add_event (EvCache (f x)) w))) as (w' & Hrun & Htr & He & Ho).
    exists w'. split.
    + erewrite bind_Ret by (by apply cache_do_ok). exact Hrun.
    + rewrite Htr. simpl. rewrite <- app_assoc. simpl.
      destruct Ho as (?&?&?&?&?). by repeat split.
Qed.

(** ** Server invalidations ([Client.invalidateTransaction]) *)

(** C2.  When the client is Ready, [invalidateTransaction(tid, oids)]
    invalidates every oid of [oids] in the cache, in order, then forwards
    the invalidation to the embedder, and only then records [tid] as the
    cache's last tid, which is what [getLastTid] returns afterwards; the
    handler touches nothing else.  When the client is not Ready (never
    connected, disconnected, or verifying) the handler returns at once and
    leaves the world, hence the cache and the embedder, as it was. *)
Theorem invalidateTransaction_applied_iff_ready
    (w : world) (tid oids : pyval) (l : list pyval) :
  cache_reliable -> embedder_reliable -> cache_records_tid ->
  py_iter oids = Some l ->
  (is_ready (client w) = true ->
   exists w', invalidateTransaction tid oids w = (w', Ret tt) /\
     trace w' = trace w
                ++ map (fun oid => EvCache (invalidate oid tid)) l
                ++ [EvEmb (emb_invalidateTransaction tid oids);
                    EvCache (setLastTid tid)] /\
     getLastTid (cache w') = tid /\
     only_external w w') /\
  (is_ready (client w) = false ->
   invalidateTransaction tid oids w = (w, Ret tt)).
Proof.
  intros Hc He Hlaw Hit. split; intros Hr.
  - unfold invalidateTransaction.
    erewrite bind_Ret by reflexivity. rewrite Hr.
    unfold for_in. rewrite Hit.
    destruct (for_each_cache_do l (fun oid => invalidate oid tid) w Hc)
      as (w1 & Hrun & Htr & Hemb & Ho).
    erewrite bind_Ret by exact Hrun.
    erewrite bind_Ret by (by apply emb_do_ok).
    rewrite cache_do_ok by done.
    eexists. split; [reflexivity|].
    destruct Ho as (?&?&?&?&?).
    split; [|split; [|by repeat split]].
    + simpl. rewrite Htr. by rewrite <- !app_assoc.
    + simpl. apply Hlaw.
  - unfold invalidateTransaction.
    erewrite bind_Ret by reflexivity. by rewrite Hr.
Qed.

(** ** Coalesced reads ([Protocol.load_before]) *)

(** [n] calls of [load_before(oid, tid)] in a row on one protocol, as
    callers issue them on the I/O thread before any reply arrives. *)
Fixpoint load_before_many (p : pid) (oid tid : string) (n : nat)
  : @M C E (list fid) :=
  match n with
  | O => ret []
  | S n' =>
      f <- Protocol_load_before p oid tid ;;
      fs <- load_before_many p oid tid n' ;;
      ret (f :: fs)
  end.

Definition loadBefore_frame (oid tid : string) : wire :=
  WFrame (Frame (MsgKey oid tid) false "loadBefore"
            (PTuple [PBytes oid; PBytes tid])).

Lemma get_protocol_Some (w : world) (p : pid) (P : Protocol) :
  protocols w !! p = Some P -> get_protocol p w = (w, Ret P).
Proof. intros H. unfold get_protocol. by rewrite H. Qed.

Lemma load_before_pending (w : world) (p : pid) (P : Protocol)
    (oid tid : string) (f : fid) :
  protocols w !! p = Some P ->
  p_futures P !! MsgKey oid tid = Some f ->
  Protocol_load_before p oid tid w = (w, Ret f).
Proof.
  intros HP Hf. unfold Protocol_load_before.
  erewrite bind_Ret by (by apply get_protocol_Some). by rewrite Hf.
Qed.

Lemma load_before_first (w : world) (p : pid) (P : Protocol)
    (oid tid : string) :
  protocols w !! p = Some P ->
  p_futures P !! MsgKey oid tid = None ->
  exists w' P',
    Protocol_load_before p oid tid w = (w', Ret (next_id w)) /\
    trace w' = trace w ++ [EvWrite p (loadBefore_frame oid tid)] /\
    protocols w' !! p = Some P' /\
    p_futures P' !! MsgKey oid tid = Some (next_id w).
Proof.
  intros HP Hf. destruct w as [cl ps fs c e tr n rc]. simpl in *.
  unfold Protocol_load_before. munfold. simpl. rewrite HP, Hf. simpl.
  rewrite HP. simpl. do 2 eexists. split; [reflexivity|]. simpl.
  split; [reflexivity|]. split; [apply lookup_insert_eq|].
  apply lookup_insert_eq.
Qed.

Lemma load_before_many_pending (n : nat) (w : world) (p : pid)
    (P : Protocol) (oid tid : string) (f : fid) :
  protocols w !! p = Some P ->
  p_futures P !! MsgKey oid tid = Some f ->
  load_before_many p oid tid n w = (w, Ret (replicate n f)).
Proof.
  intros HP Hf. induction n as [|n IH]; simpl; [done|].
  erewrite bind_Ret by (by eapply load_before_pending).
  erewrite bind_Ret by exact IH. done.
Qed.

(** C3.  While an entry for the key [(oid, tid)] is in the pending table,
    [load_before(oid, tid)] returns the completion of that entry and leaves
    the world untouched: no frame is written.  Hence any number of calls
    issued in a row from a state without such an entry write exactly one
    frame, and every caller gets the same completion. *)
Theorem load_before_coalesces
    (w : world) (p : pid) (P : Protocol) (oid tid : string) :
  protocols w !! p = Some P ->
  (forall f, p_futures P !! MsgKey oid tid = Some f ->
     Protocol_load_before p oid tid w = (w, Ret f)) /\
  (p_futures P !! MsgKey oid tid = None ->
   forall n, exists w' f,
     load_before_many p oid tid (S n) w = (w', Ret (replicate (S n) f)) /\
     trace w' = trace w ++ [EvWrite p (loadBefore_frame oid tid)]).
Proof.
  intros HP. split.
  - intros f Hf. by eapply load_before_pending.
  - intros Hf n.
    destruct (load_before_first w p P oid tid HP Hf)
      as (w' & P' & Hrun & Htr & HP' & Hf').
    exists w', (next_id w). split; [|exact Htr].
    simpl. erewrite bind_Ret by exact Hrun.
    erewrite bind_Ret by (by eapply load_before_many_pending). done.
Qed.

(** ** What no part of the program undoes *)

(** Identities are handed out in increasing order: every protocol of a
    well-formed world is older than the next identity. *)
Definition wf (w : world) : Prop :=
  forall p : pid, is_Some (protocols w !! p) -> p < next_id w.

(** [grows w w']: the trace of [w] is a prefix of that of [w'], every
    protocol of [w] is still there, and a closed protocol stays closed. *)
Definition grows (w w' : world) : Prop :=
  trace w `prefix_of` trace w' /\
  forall p P, protocols w !! p = Some P ->
    exists P', protocols w' !! p = Some P' /\
      (p_closed P = true -> p_closed P' = true).

(** [extends m]: running [m] only grows the world (and keeps it
    well-formed), whatever it returns. *)
Definition extends {A} (m : @M C E A) : Prop :=
  forall w, wf w -> wf (fst (m w)) /\ grows w (fst (m w)).

Lemma grows_refl (w : world) : grows w w.
Proof. split; [done|]. intros p P HP. exists P. by split. Qed.

Lemma grows_trans (w1 w2 w3 : world) :
  grows w1 w2 -> grows w2 w3 -> grows w1 w3.
Proof.
  intros [Ht1 Hp1] [Ht2 Hp2]. split; [by etrans|].
  intros p P HP. destruct (Hp1 p P HP) as (P' & HP' & Hc).
  destruct (Hp2 p P' HP') as (P'' & HP'' & Hc').
  exists P''. split; [done|]. auto.
Qed.

Lemma extends_pure {A} (m : @M C E A) :
  (forall w, fst (m w) = w) -> extends m.
Proof. intros H w Hw. rewrite H. split; [done|apply grows_refl]. Qed.

Lemma extends_ret {A} (a : A) : extends (ret a).
Proof. by apply extends_pure. Qed.

Lemma extends_raise {A} (e : pyval) : extends (@raise C E A e).
Proof. by apply extends_pure. Qed.

Lemma extends_diverge {A} : extends (@diverge C E A).
Proof. by apply extends_pure. Qed.

Lemma extends_gets {A} (f : world -> A) : extends (gets f).
Proof. by apply extends_pure. Qed.

Lemma extends_bind {A B} (m : M A) (k : A -> @M C E B) :
  extends m -> (forall a, extends (k a)) -> extends (bind m k).
Proof.
  intros Hm Hk w Hw. unfold bind. destruct (Hm w Hw) as [Hw' Hg].
  destruct (m w) as [w' [a|e|]]; simpl in *; [|done..].
  destruct (Hk a w' Hw') as [Hw'' Hg']. split; [done|].
  by eapply grows_trans.
Qed.

Lemma extends_try_except_else {A B} (m : M A) (h : pyval -> M B)
    (k : A -> @M C E B) :
  extends m -> (forall e, extends (h e)) -> (forall a, extends (k a)) ->
  extends (try_except_else m h k).
Proof.
  intros Hm Hh Hk w Hw. unfold try_except_else.
  destruct (Hm w Hw) as [Hw' Hg].
  destruct (m w) as [w' [a|e|]]; simpl in *; [| |done].
  - destruct (Hk a w' Hw') as [Hw'' Hg']. split; [done|].
    by eapply grows_trans.
  - destruct (isinstance e "Exception"); [|done].
    destruct (Hh e w' Hw') as [Hw'' Hg']. split; [done|].
    by eapply grows_trans.
Qed.

Lemma extends_try_except {A} (m : M A) (h : pyval -> @M C E A) :
  extends m -> (forall e, extends (h e)) -> extends (try_except m h).
Proof.
  intros Hm Hh. apply extends_try_except_else; [done..|].
  intros a. apply extends_ret.
Qed.

Lemma extends_py_raise {A} (e : pyval) : extends (@py_raise C E A e).
Proof. unfold py_raise. destruct (isinstance _ _); apply extends_raise. Qed.

Lemma extends_for_each {A} (l : list A) (body : A -> @M C E unit) :
  (forall x, extends (body x)) -> extends (for_each l body).
Proof.
  intros Hb. induction l as [|x l IH]; simpl; [apply extends_ret|].
  apply extends_bind; [apply Hb|]. intros _. exact IH.
Qed.

Lemma extends_for_in (v : pyval) (body : pyval -> @M C E unit) :
  (forall x, extends (body x)) -> extends (for_in v body).
Proof.
  intros Hb. unfold for_in. destruct (py_iter v).
  - by apply extends_for_each.
  - apply extends_raise.
Qed.

(** A step that leaves the protocols and the identities alone. *)
Lemma extends_same_protocols {A} (m : @M C E A) :
  (forall w, trace w `prefix_of` trace (fst (m w)) /\
             protocols (fst (m w)) = protocols w /\
             next_id w <= next_id (fst (m w))) ->
  extends m.
Proof.
  intros H w Hw. destruct (H w) as (Ht & Hp & Hn). split.
  - intros p Hs. rewrite Hp in Hs. specialize (Hw p Hs). lia.
  - split; [done|]. intros p P HP. exists P. rewrite Hp. by split.
Qed.

Lemma extends_emit (e : event) : extends (emit e).
Proof.
  apply extends_same_protocols. intros w. simpl.
  split; [by apply prefix_app_r|done].
Qed.

Lemma extends_upd_client (f : Client -> Client) :
  extends (modify (upd_client f)).
Proof. by apply extends_same_protocols. Qed.

Lemma extends_put_future (f : fid) (o : fut_obj) : extends (put_future f o).
Proof. by apply extends_same_protocols. Qed.

Lemma extends_fresh : extends fresh.
Proof.
  apply extends_same_protocols. intros w. simpl. repeat split; [done|lia].
Qed.

Lemma extends_cache_do (call : cache_call) : extends (cache_do call).
Proof.
  apply extends_same_protocols. intros w. unfold cache_do. simpl.
  destruct (cache_step call (cache w)) as [c' [e|]]; simpl;
    (split; [by apply prefix_app_r|done]).
Qed.

Lemma extends_emb_do (call : emb_call) : extends (emb_do call).
Proof.
  apply extends_same_protocols. intros w. unfold emb_do. simpl.
  destruct (emb_step call (embedder w)) as [c' [e|]]; simpl;
    (split; [by apply prefix_app_r|done]).
Qed.

Lemma extends_get_protocol (p : pid) : extends (get_protocol p).
Proof.
  apply extends_pure. intros w. unfold get_protocol. by destruct (_ !! _).
Qed.

Lemma extends_get_future (f : fid) : extends (get_future f).
Proof.
  apply extends_pure. intros w. unfold get_future. by destruct (_ !! _).
Qed.

(** Updating a protocol object grows the world when the update does not
    reopen it. *)
Lemma extends_upd_protocol (p : pid) (f : Protocol -> Protocol) :
  (forall P, p_closed P = true -> p_closed (f P) = true) ->
  extends (upd_protocol p f).
Proof.
  intros Hf w Hw. unfold upd_protocol, bind, get_protocol.
  destruct (protocols w !! p) as [P|] eqn:HP; simpl;
    [|split; [done|apply grows_refl]].
  split.
  - intros q. simpl. destruct (decide (p = q)) as [->|Hne].
    + intros _. apply Hw. by rewrite HP.
    + rewrite lookup_insert_ne by done. apply Hw.
  - split; [done|]. intros q Q HQ. simpl.
    destruct (decide (p = q)) as [->|Hne].
    + rewrite lookup_insert_eq. eexists. split; [done|].
      rewrite HP in HQ. injection HQ as <-. apply Hf.
    + rewrite lookup_insert_ne by done. exists Q. by split.
Qed.

(** A new protocol takes a fresh identity, so it replaces none. *)
Lemma extends_new_protocol (addr key : string) (ro : ro_mode) :
  extends (new_protocol addr key ro).
Proof.
  intros w Hw. unfold new_protocol. munfold. simpl. split.
  - intros q. simpl. destruct (decide (next_id w = q)) as [<-|Hne].
    + intros _. lia.
    + rewrite lookup_insert_ne by done. intros Hq. specialize (Hw q Hq). lia.
  - split; [by apply prefix_app_r|]. intros q Q HQ. simpl.
    assert (q < next_id w) by (apply Hw; by rewrite HQ).
    rewrite lookup_insert_ne by lia. exists Q. by split.
Qed.

Create HintDb ext discriminated.

#[local] Hint Resolve extends_ret extends_raise extends_diverge extends_gets
  extends_py_raise extends_emit extends_upd_client extends_put_future
  extends_fresh extends_cache_do extends_emb_do extends_get_protocol
  extends_get_future extends_new_protocol : ext.

(** One step of the proof that a composite program extends the world. *)
Ltac ext_step :=
  lazymatch goal with
  | |- extends (bind _ _) => apply extends_bind; [|intros ?]
  | |- extends (try_except_else _ _ _) =>
      apply extends_try_except_else; [|intros ?|intros ?]
  | |- extends (try_except _ _) => apply extends_try_except; [|intros ?]
  | |- extends (for_each _ _) => apply extends_for_each; intros ?
  | |- extends (for_in _ _) => apply extends_for_in; intros ?
  | |- extends (upd_protocol _ _) =>
      apply extends_upd_protocol; intros ? ?; simpl; done
  | |- extends (if ?b then _ else _) => destruct b
  | |- extends (match ?x with _ => _ end) => destruct x
  | |- extends (let (_, _) := ?x in _) => destruct x
  | |- extends _ => solve [auto with ext]
  end.

Ltac ext := repeat ext_step.

Lemma extends_log (lvl : loglevel) (msg : string) : extends (log lvl msg).
Proof. apply extends_emit. Qed.

Lemma extends_write (p : pid) (data : wire) : extends (_write p data).
Proof. apply extends_emit. Qed.

Lemma extends_new_future (k : fut_kind) : extends (new_future k).
Proof. unfold new_future. ext. Qed.

Lemma extends_set_ready (r : option bool) : extends (set_ready r).
Proof. apply extends_upd_client. Qed.

Lemma extends_set_verify_result (s : string) : extends (set_verify_result s).
Proof. apply extends_upd_client. Qed.

Lemma extends_the_client : extends the_client.
Proof. apply extends_gets. Qed.

#[local] Hint Resolve extends_log extends_write extends_new_future
  extends_set_ready extends_set_verify_result extends_the_client : ext.

Lemma extends_future_result (f : fid) : extends (future_result f).
Proof. unfold future_result. ext. Qed.

Lemma extends_future_exception (f : fid) : extends (future_exception f).
Proof. unfold future_exception. ext. Qed.

Lemma extends_pop_futures (p : pid) : extends (pop_futures p).
Proof. unfold pop_futures. ext. Qed.

Lemma extends_Protocol_call (p : pid) (future : fid) (method : string)
    (args : pyval) : extends (Protocol_call p future method args).
Proof. unfold Protocol_call. ext. Qed.

Lemma extends_fut (p : pid) (method : string) (args : list pyval) :
  extends (fut p method args).
Proof. unfold fut. ext. apply extends_Protocol_call. Qed.

Lemma extends_Protocol_load_before (p : pid) (oid tid : string) :
  extends (Protocol_load_before p oid tid).
Proof. unfold Protocol_load_before. ext. Qed.

Lemma extends_heartbeat (p : pid) (write : bool) : extends (heartbeat p write).
Proof. unfold heartbeat. ext. Qed.

Lemma extends_connection_made (p : pid) : extends (connection_made p).
Proof. unfold connection_made. ext. apply extends_heartbeat. Qed.

Lemma extends_make_protocols (addrs : list string) (key : string)
    (ro : ro_mode) : extends (make_protocols addrs key ro).
Proof. induction addrs as [|a l IH]; simpl; ext. Qed.

Lemma extends_try_connecting : extends try_connecting.
Proof. unfold try_connecting. ext. apply extends_make_protocols. Qed.

Lemma extends_all_protocols_closed : extends all_protocols_closed.
Proof. apply extends_gets. Qed.

Lemma extends_del_protocol : extends del_protocol.
Proof. unfold del_protocol. ext. Qed.

Lemma extends_py_gt (a b : pyval) : extends (py_gt a b).
Proof. unfold py_gt. ext. Qed.

Lemma extends_unpack2 (v : pyval) : extends (unpack2 v).
Proof. unfold unpack2. ext. Qed.

Lemma extends_unpack3 (v : pyval) : extends (unpack3 v).
Proof. unfold unpack3. ext. Qed.

Lemma extends_invalidateTransaction (tid oids : pyval) :
  extends (invalidateTransaction tid oids).
Proof. unfold invalidateTransaction. ext. Qed.

#[local] Hint Resolve extends_future_result extends_future_exception
  extends_pop_futures extends_Protocol_call extends_fut
  extends_Protocol_load_before extends_heartbeat extends_connection_made
  extends_make_protocols extends_try_connecting extends_all_protocols_closed
  extends_del_protocol extends_py_gt extends_unpack2 extends_unpack3
  extends_invalidateTransaction : ext.

Lemma extends_serialnos (serials : pyval) : extends (serialnos serials).
Proof. unfold serialnos. ext. Qed.

Lemma extends_tpc_finish_updates (tid : pyval)
    (updates : list (pyval * pyval * pyval)) :
  extends (tpc_finish_updates tid updates).
Proof. unfold tpc_finish_updates. ext. Qed.

Lemma extends_call_client_method (name : string) (args : pyval) :
  extends (call_client_method name args).
Proof. unfold call_client_method. ext. apply extends_serialnos. Qed.

#[local] Hint Resolve extends_serialnos extends_tpc_finish_updates
  extends_call_client_method : ext.

Section ExtendsCallbacks.

Variable inv : cont -> fid -> @M C E unit.
Hypothesis inv_extends : forall k f, extends (inv k f).

#[local] Hint Resolve inv_extends : ext.

Lemma extends_run_callbacks (f : fid) (o : fut_obj) :
  extends (run_callbacks inv f o).
Proof. unfold run_callbacks. ext. Qed.

Lemma extends_check_pending (o : fut_obj) : extends (check_pending o).
Proof. unfold check_pending. ext. Qed.

#[local] Hint Resolve extends_run_callbacks extends_check_pending : ext.

Lemma extends_set_result (f : fid) (v : pyval) : extends (set_result inv f v).
Proof. unfold set_result. ext. Qed.

Lemma extends_set_exception (f : fid) (e : pyval) :
  extends (set_exception inv f e).
Proof. unfold set_exception. ext. Qed.

Lemma extends_cancel (f : fid) : extends (cancel inv f).
Proof. unfold cancel. ext. Qed.

Lemma extends_add_done_callback (f : fid) (k : cont) :
  extends (add_done_callback inv f k).
Proof. unfold add_done_callback. ext. Qed.

#[local] Hint Resolve extends_set_result extends_set_exception extends_cancel
  extends_add_done_callback : ext.

Lemma extends_Protocol_close (p : pid) : extends (Protocol_close inv p).
Proof. unfold Protocol_close. ext. Qed.

Lemma extends_yield_fut (protocol : option pid) (method : string)
    (args : list pyval) (k : pid -> cont) :
  extends (yield_fut inv protocol method args k).
Proof. unfold yield_fut. ext. Qed.

#[local] Hint Resolve extends_Protocol_close extends_yield_fut : ext.

Lemma extends_clear_protocols (protocol : option pid) :
  extends (_clear_protocols inv protocol).
Proof. unfold _clear_protocols. ext. Qed.

#[local] Hint Resolve extends_clear_protocols : ext.

Lemma extends_disconnected (protocol : option pid) :
  extends (disconnected inv protocol).
Proof. unfold disconnected. ext. Qed.

Lemma extends_upgrade (protocol : pid) : extends (upgrade inv protocol).
Proof. unfold upgrade. ext. Qed.

Lemma extends_register_failed (protocol : failed_arg) (exc : pyval) :
  extends (register_failed inv protocol exc).
Proof. unfold register_failed. ext. Qed.

#[local] Hint Resolve extends_disconnected extends_upgrade
  extends_register_failed : ext.

Lemma extends_verify_check (protocol : option pid) (server_tid : pyval) :
  extends (verify_check inv protocol server_tid).
Proof. unfold verify_check. ext. Qed.

Lemma extends_verify_invalidations (server_tid vdata : pyval) :
  extends (verify_invalidations server_tid vdata).
Proof. unfold verify_invalidations. ext. Qed.

Lemma extends_verify_failed (protocol : option pid) (exc : pyval) :
  extends (verify_failed inv protocol exc).
Proof. unfold verify_failed. ext. Qed.

Lemma extends_verify_finish (protocol : option pid) (server_tid : pyval) :
  extends (verify_finish inv protocol server_tid).
Proof. unfold verify_finish. ext. Qed.

#[local] Hint Resolve extends_verify_check extends_verify_invalidations
  extends_verify_failed extends_verify_finish : ext.

Lemma extends_verify_body (protocol : option pid) (server_tid : pyval) :
  extends (verify_body inv protocol server_tid).
Proof. unfold verify_body. ext. Qed.

#[local] Hint Resolve extends_verify_body : ext.

Lemma extends_verify (server_tid : pyval) : extends (verify inv server_tid).
Proof. unfold verify. ext. Qed.

#[local] Hint Resolve extends_verify : ext.

Lemma extends_registered (protocol : pid) (server_tid : pyval) :
  extends (registered inv protocol server_tid).
Proof. unfold registered. ext. Qed.

Lemma extends_when_ready (func : ready_func) (result_future : fid) :
  extends (_when_ready inv func result_future).
Proof. unfold _when_ready. ext. Qed.

#[local] Hint Resolve extends_registered extends_when_ready : ext.

Lemma extends_call_threadsafe (future : fid) (method : string) (args : pyval) :
  extends (call_threadsafe inv future method args).
Proof. unfold call_threadsafe. ext. Qed.

Lemma extends_load_before_threadsafe (future : fid) (oid tid : string) :
  extends (load_before_threadsafe inv future oid tid).
Proof. unfold load_before_threadsafe. ext. Qed.

#[local] Hint Resolve extends_call_threadsafe extends_load_before_threadsafe
  : ext.

Lemma extends_tpc_finish_failed (future : fid) (exc : pyval) :
  extends (tpc_finish_failed inv future exc).
Proof. unfold tpc_finish_failed. ext. Qed.

#[local] Hint Resolve extends_tpc_finish_failed : ext.

Lemma extends_tpc_finish_threadsafe (future : fid) (tid : pyval)
    (updates : list (pyval * pyval * pyval)) (f : nat) :
  extends (tpc_finish_threadsafe inv future tid updates f).
Proof. unfold tpc_finish_threadsafe. ext. Qed.

Lemma extends_Client_close : extends (Client_close inv).
Proof. unfold Client_close. ext. Qed.

Lemma extends_connection_lost (p : pid) (exc : pyval) :
  extends (connection_lost inv p exc).
Proof. unfold connection_lost. ext. Qed.

Lemma extends_finish_connect (p : pid) (version : string) :
  extends (finish_connect inv p version).
Proof. unfold finish_connect. ext. Qed.

Lemma extends_message_received (p : pid) (data : frame) :
  extends (message_received inv p data).
Proof. unfold message_received. ext. Qed.

Lemma extends_invoke_body (k : cont) (future : fid) :
  extends (invoke_body inv k future).
Proof.
  unfold invoke_body, resume_generator, finish_connect_registered,
    finish_connect_retried, verify_after_lastTransaction,
    verify_after_getInvalidations, verify_after_get_info, load_before_done,
    prefetch_done, tpc_finish_resumed, when_ready_done, run_ready_func.
  destruct k; ext.
Qed.

End ExtendsCallbacks.

(** Nested callbacks, to any depth, only grow the world. *)
Lemma extends_resume (depth : nat) (k : cont) (f : fid) :
  extends (resume depth k f).
Proof.
  revert k f. induction depth as [|d IH]; intros k f; simpl.
  - apply extends_diverge.
  - by apply extends_invoke_body.
Qed.

(** ** Reply dispatch ([Protocol.message_received]) *)

Lemma check_pending_ok (o : fut_obj) (w : world) :
  fo_done o = false -> check_pending o w = (w, Ret tt).
Proof. intros H. unfold check_pending. rewrite H. by destruct (fo_kind o). Qed.

Lemma get_future_Some (w : world) (f : fid) (o : fut_obj) :
  futures w !! f = Some o -> get_future f w = (w, Ret o).
Proof. intros H. unfold get_future. by rewrite H. Qed.

Lemma upd_protocol_Some (w : world) (p : pid) (P : Protocol)
    (f : Protocol -> Protocol) :
  protocols w !! p = Some P ->
  upd_protocol p f w = (upd_protocols (insert p (f P)) w, Ret tt).
Proof.
  intros HP. unfold upd_protocol.
  erewrite bind_Ret by (by apply get_protocol_Some). done.
Qed.

(** An instance is recorded as it is by every kind of completion; so is any
    value by a completion that is not an [asyncio.Future]. *)
Lemma recorded_exception_instance (k : fut_kind) (c : pyclass)
    (args : list pyval) :
  recorded_exception k (PInst c args) = PInst c args.
Proof. by destruct k. Qed.

Lemma recorded_exception_storable (k : fut_kind) (e : pyval) :
  (k = LoopFuture -> storable_exception e = true) ->
  recorded_exception k e = e.
Proof.
  intros H. destruct k; try reflexivity.
  destruct e; try reflexivity. by specialize (H eq_refl).
Qed.

(** Resolving a pending completion: the resolution is recorded and stored,
    then the callbacks run. *)
Lemma set_exception_pending (inv : cont -> fid -> M unit) (w : world)
    (f : fid) (e : pyval) (o : fut_obj) :
  futures w !! f = Some o -> fo_done o = false ->
  set_exception inv f e w =
    run_callbacks inv f o
      (upd_futures (insert f (set_fo_exc (recorded_exception (fo_kind o) e) o))
         (add_event (EvResolve f (Failure (recorded_exception (fo_kind o) e)))
            w)).
Proof.
  intros Ho Hd. unfold set_exception.
  erewrite bind_Ret by (by apply get_future_Some).
  erewrite bind_Ret by (by apply check_pending_ok).
  erewrite bind_Ret by reflexivity.
  erewrite bind_Ret by reflexivity. done.
Qed.

Lemma set_result_pending (inv : cont -> fid -> M unit) (w : world)
    (f : fid) (v : pyval) (o : fut_obj) :
  futures w !! f = Some o -> fo_done o = false ->
  set_result inv f v w =
    run_callbacks inv f o
      (upd_futures (insert f (set_fo_result v o))
         (add_event (EvResolve f (Result v)) w)).
Proof.
  intros Ho Hd. unfold set_result.
  erewrite bind_Ret by (by apply get_future_Some).
  erewrite bind_Ret by (by apply check_pending_ok).
  erewrite bind_Ret by reflexivity.
  erewrite bind_Ret by reflexivity. done.
Qed.

Lemma wf_insert_protocol (w : world) (p : pid) (P P' : Protocol) :
  wf w -> protocols w !! p = Some P ->
  wf (upd_protocols (insert p P') w).
Proof.
  intros Hw HP q. simpl. destruct (decide (p = q)) as [<-|Hne].
  - intros _. apply Hw. by rewrite HP.
  - rewrite lookup_insert_ne by done. apply Hw.
Qed.

Lemma run_callbacks_prefix (depth : nat) (f : fid) (o : fut_obj) (w : world) :
  wf w ->
  trace w `prefix_of` trace (fst (run_callbacks (resume depth) f o w)).
Proof.
  intros Hw.
  apply (extends_run_callbacks (resume depth) (extends_resume depth) f o w Hw).
Qed.

(** The entry of [msgid] is gone from the pending table of [p]. *)
Definition not_pending (w : world) (p : pid) (m : msgid) : Prop :=
  exists P, protocols w !! p = Some P /\ p_futures P !! m = None.

(** C7.  A reply frame for [msgid], whose entry in the pending table is the
    pending completion [future], is handled as follows.  The entry is
    removed first: the callbacks of the completion run in a world [w2]
    where [msgid] is no longer pending.  If [args] is a tuple
    [(c, payload, ...)] whose first element is an exception class, the
    completion has been failed with [payload] (its [exc] attribute, and the
    resolution recorded in the trace), after an error-level log record
    unless [c] is a key-not-found or conflict kind; otherwise the completion
    has been resolved with [args] as its value, and nothing is logged.
    Whatever the callbacks do, these records stay in the trace.  A [Fut] or
    a [concurrent.futures.Future] records any payload; when the completion
    is an [asyncio.Future] (that of a load), the payload is taken to be an
    exception instance other than [StopIteration], the values every version
    of that class records as they are. *)
Theorem message_received_reply
    (depth : nat) (w : world) (p : pid) (P : Protocol) (msgid : msgid)
    (is_async : bool) (args : pyval) (future : fid) (o : fut_obj) :
  wf w ->
  protocols w !! p = Some P ->
  p_futures P !! msgid = Some future ->
  futures w !! future = Some o ->
  fo_done o = false ->
  let data := Frame msgid is_async ".reply" args in
  let final := fst (message_received (resume depth) p data w) in
  (forall c payload rest,
     args = PTuple (PClass c :: payload :: rest) ->
     cls_plain c = true -> issubclass c "Exception" = true ->
     (fo_kind o = LoopFuture -> storable_exception payload = true) ->
     exists w2,
       message_received (resume depth) p data w
         = run_callbacks (resume depth) future o w2 /\
       not_pending w2 p msgid /\
       futures w2 !! future = Some (set_fo_exc payload o) /\
       trace w2 = trace w
                  ++ (if known_data_error c then []
                      else [EvLog Error "%s from server: %s.%s:%s"])
                  ++ [EvResolve future (Failure payload)] /\
       trace w2 `prefix_of` trace final) /\
  (exception_reply args = None ->
     exists w2,
       message_received (resume depth) p data w
         = run_callbacks (resume depth) future o w2 /\
       not_pending w2 p msgid /\
       futures w2 !! future = Some (set_fo_result args o) /\
       trace w2 = trace w ++ [EvResolve future (Result args)] /\
       trace w2 `prefix_of` trace final).
Proof.
  intros Hw HP Hf Ho Hd data final. subst final data.
  assert (Hwf : forall P', wf (upd_protocols (insert p P') w))
    by (intros; by eapply wf_insert_protocol).
  set (P1 := set_p_futures (delete msgid (p_futures P)) P).
  assert (Hnp : forall w2 : world,
    protocols w2 = <[p:=P1]> (protocols w) -> not_pending w2 p msgid).
  { intros w2 Hp2. exists P1. rewrite Hp2.
    split; [apply lookup_insert_eq|apply lookup_delete_eq]. }
  split.
  - intros c payload rest -> Hplain Hsub Hstorable.
    apply recorded_exception_storable in Hstorable.
    unfold message_received. simpl.
    erewrite bind_Ret by (by apply get_protocol_Some). rewrite Hf.
    unfold exception_reply. rewrite Hplain, Hsub. simpl.
    erewrite bind_Ret by (by apply upd_protocol_Some).
    destruct (known_data_error c); simpl.
    + erewrite bind_Ret by reflexivity.
      erewrite set_exception_pending by done. rewrite Hstorable.
      eexists. split; [reflexivity|].
      split; [by apply Hnp|]. split; [apply lookup_insert_eq|].
      split; [done|]. apply run_callbacks_prefix.
      intros q Hq. by apply (Hwf P1 q).
    + erewrite bind_Ret by reflexivity.
      erewrite set_exception_pending by done. rewrite Hstorable.
      eexists. split; [reflexivity|].
      split; [by apply Hnp|]. split; [apply lookup_insert_eq|].
      split; [simpl; by rewrite <- app_assoc|]. apply run_callbacks_prefix.
      intros q Hq. by apply (Hwf P1 q).
  - intros Hnone.
    unfold message_received. simpl.
    erewrite bind_Ret by (by apply get_protocol_Some). rewrite Hf, Hnone.
    erewrite bind_Ret by (by apply upd_protocol_Some).
    erewrite set_result_pending by done.
    eexists. split; [reflexivity|].
    split; [by apply Hnp|]. split; [apply lookup_insert_eq|].
    split; [done|]. apply run_callbacks_prefix.
    intros q Hq. by apply (Hwf P1 q).
Qed.

(** ** Version negotiation ([Protocol.finish_connect]) *)

Definition is_write (e : event) : bool :=
  match e with EvWrite _ _ => true | _ => false end.

Definition register_frame (P : Protocol) : wire :=
  WFrame (Frame (MsgInt (p_message_id P + 1)) false "register"
            (PTuple [PStr (p_storage_key P);
                     PBool (register_mode (p_read_only P))])).

(** The order of byte strings as Python compares them: byte by byte, a
    proper prefix before the strings it starts. *)
Inductive bytes_lt : string -> string -> Prop :=
| bytes_lt_prefix (c : ascii) (t : string) : bytes_lt "" (String c t)
| bytes_lt_byte (c d : ascii) (s t : string) :
    (N_of_ascii c < N_of_ascii d)%N -> bytes_lt (String c s) (String d t)
| bytes_lt_rest (c : ascii) (s t : string) :
    bytes_lt s t -> bytes_lt (String c s) (String c t).

(** [v] is [min(a, b)]: [b] when [b < a], else [a]. *)
Definition is_min_of (v a b : string) : Prop :=
  (bytes_lt b a -> v = b) /\ (~ bytes_lt b a -> v = a).

Lemma ltb_bytes_lt (a b : string) : String.ltb a b = true <-> bytes_lt a b.
Proof.
  unfold String.ltb. revert b.
  induction a as [|c a IH]; intros [|d b]; simpl.
  - split; [done|]. intros H. inversion H.
  - split; [intros _; constructor|done].
  - split; [done|]. intros H. inversion H.
  - unfold Ascii.compare.
    destruct (N.compare_spec (N_of_ascii c) (N_of_ascii d)) as [Heq|Hlt|Hgt].
    + assert (c = d) as ->.
      { rewrite <- (ascii_N_embedding c), <- (ascii_N_embedding d).
        by rewrite Heq. }
      rewrite IH. split; [by constructor|].
      intros H. inversion H; subst; [lia|done].
    + split; [intros _; by constructor|done].
    + split; [done|]. intros H. inversion H; subst; lia.
Qed.

Lemma bytes_min_is_min (a b : string) : is_min_of (bytes_min a b) a b.
Proof.
  unfold is_min_of, bytes_min. rewrite <- ltb_bytes_lt.
  destruct (String.ltb b a); split; done.
Qed.

(** C5.  [finish_connect] sets the protocol's version to the smaller, in
    the order of byte strings, of the server's tag and the last supported
    tag: a server that is ahead is answered with the client's last tag.  If
    that version is not in the supported set, the protocol (here with
    nothing pending yet, the handshake being the first frame of a
    connection) calls the client's [register_failed] with
    [ProtocolError(server_tag)], which closes the protocol and logs that
    exception, and writes nothing: it does not register.  Otherwise it
    writes the chosen version, then the [register] call, whose completion
    is pending under the next message id with the rest of the handshake as
    its callback. *)
Theorem finish_connect_negotiates
    (depth : nat) (w : world) (p : pid) (P : Protocol) (server_tag : string) :
  protocols w !! p = Some P ->
  p_futures P = ∅ ->
  exists version,
    is_min_of version server_tag (List.last supported_protocols "") /\
    let w1 := upd_protocols
                (insert p (set_p_protocol_version (Some version) P)) w in
    (~ In version supported_protocols ->
     finish_connect (resume depth) p server_tag w
       = register_failed (resume depth) (ArgProtocol (Some p))
           (ProtocolError (PBytes server_tag)) w1 /\
     exists w' P' evs,
       finish_connect (resume depth) p server_tag w = (w', Ret tt) /\
       protocols w' !! p = Some P' /\
       p_protocol_version P' = Some version /\ p_closed P' = true /\
       trace w' = trace w ++ evs /\
       existsb is_write evs = false /\
       In (registration_failed_log (ProtocolError (PBytes server_tag))) evs) /\
    (In version supported_protocols ->
     exists w' P' f,
       finish_connect (resume depth) p server_tag w = (w', Ret tt) /\
       trace w' = trace w ++ [EvWrite p (WVersion version);
                              EvWrite p (register_frame P)] /\
       protocols w' !! p = Some P' /\
       p_protocol_version P' = Some version /\
       p_futures P' !! MsgInt (p_message_id P + 1) = Some f /\
       futures w' !! f = Some (FutObj SyncFut None None false [K_register p])).
Proof.
  intros HP Hempty.
  exists (bytes_min server_tag (List.last supported_protocols "")).
  split; [apply bytes_min_is_min|].
  set (version := bytes_min server_tag (List.last supported_protocols "")).
  intros w1.
  assert (Hin : In version supported_protocols <->
                existsb (String.eqb version) supported_protocols = true).
  { rewrite existsb_exists. split.
    - intros H. exists version. split; [done|apply String.eqb_refl].
    - intros (x & Hx & Heq). apply String.eqb_eq in Heq. by subst. }
  split.
  - intros Hnot.
    assert (Hex : existsb (String.eqb version) supported_protocols = false).
    { apply not_true_is_false. intros Hx. by apply Hnot, Hin. }
    assert (Hstep : finish_connect (resume depth) p server_tag w
      = register_failed (resume depth) (ArgProtocol (Some p))
          (ProtocolError (PBytes server_tag)) w1).
    { unfold finish_connect. fold version.
      erewrite bind_Ret by (by apply upd_protocol_Some).
      by rewrite Hex. }
    split; [exact Hstep|]. rewrite Hstep. clear Hstep.
    destruct w as [cl ps fs c e tr n rc]. subst w1. simpl in *.
    unfold register_failed, Protocol_close, pop_futures, all_protocols_closed.
    munfold. simpl. rewrite lookup_insert_eq. simpl.
    destruct (p_closed P) eqn:Hcl; simpl.
    + destruct (_ && _); simpl; do 3 eexists;
        (split; [reflexivity|]); simpl; rewrite lookup_insert_eq;
        (split; [reflexivity|]); (split; [reflexivity|]);
        (split; [exact Hcl|]); rewrite <- ?app_assoc;
        (split; [reflexivity|]); (split; [done|]); simpl; tauto.
    + destruct (p_transport P); simpl;
        repeat (rewrite !lookup_insert_eq; simpl);
        rewrite Hempty, map_to_list_empty; simpl;
        destruct (_ && _); simpl; do 3 eexists;
        (split; [reflexivity|]); simpl; rewrite ?lookup_insert_eq;
        (split; [reflexivity|]); (split; [reflexivity|]);
        (split; [reflexivity|]); rewrite <- ?app_assoc;
        (split; [reflexivity|]); (split; [done|]); simpl; tauto.
  - intros Hyes. apply Hin in Hyes.
    unfold finish_connect. fold version.
    erewrite bind_Ret by (by apply upd_protocol_Some).
    rewrite Hyes. cbn [negb]. fold w1.
    assert (HP1 : protocols w1 !! p
                  = Some (set_p_protocol_version (Some version) P))
      by apply lookup_insert_eq.
    assert (Htr : trace w1 = trace w) by done.
    clearbody w1 version. clear Hin Hyes.
    destruct w1 as [cl1 ps1 fs1 c1 e1 tr1 n1 rc1]. simpl in *. subst tr1.
    unfold fut, Protocol_call, add_done_callback. munfold. simpl.
    rewrite HP1. simpl. rewrite HP1. simpl.
    repeat (rewrite !lookup_insert_eq; simpl).
    do 3 eexists. split; [reflexivity|]. simpl.
    split; [by rewrite <- app_assoc|].
    rewrite !lookup_insert_eq. split; [reflexivity|]. simpl.
    split; [reflexivity|]. split; [apply lookup_insert_eq|].
    reflexivity.
Qed.

(** ** The runner's call surface *)

(** The world in which the I/O thread finds the scheduled method. *)
Definition scheduled (m : client_meth) (w : world) : world :=
  add_event (EvCallSoonThreadsafe m (next_id w))
    (upd_futures (insert (next_id w) (FutObj ThreadFuture None None false []))
       (bump_id w)).

(** The completion is still unresolved. *)
Definition still_pending (w : world) (f : fid) : Prop :=
  exists o, futures w !! f = Some o /\
    fo_exc o = None /\ fo_result o = None /\ fo_cancelled o = false.

(** C9.  A synchronous call through the runner schedules the method with a
    fresh cross-thread completion and waits for it.  If the wait times out,
    that is the completion is still pending in the world [io (scheduled m w)]
    the caller wakes up in, the call raises
    [ClientDisconnected("timed out waiting for connection")] when the client
    is not Ready there, and the timeout error itself when it is.  Once
    [close] has run, every call raises [ClientDisconnected("closed")] at
    once: the world is unchanged, nothing is scheduled on the I/O thread. *)
Theorem runner_call_timeout_and_close
    (m : client_meth) (io : world -> world) :
  (forall w : world,
     runner_closed w = false ->
     still_pending (io (scheduled m w)) (next_id w) ->
     (is_ready (client (io (scheduled m w))) = false ->
      runner_call m io w
        = (io (scheduled m w),
           Raise (ClientDisconnected
                    [PStr "timed out waiting for connection"]))) /\
     (is_ready (client (io (scheduled m w))) = true ->
      runner_call m io w = (io (scheduled m w), Raise TimeoutError))) /\
  (forall (io0 : world -> world) (w0 w1 w2 : world),
     Runner_close io0 w0 = (w1, Ret tt) ->
     runner_closed w2 = runner_closed w1 ->
     runner_call m io w2 = (w2, Raise (ClientDisconnected [PStr "closed"]))).
Proof.
  split.
  - intros w Hopen (o & Ho & Hexc & Hres & Hcan).
    assert (Hrun : runner_call m io w = wait_for_result (next_id w)
                                          (io (scheduled m w))).
    { unfold runner_call. erewrite bind_Ret by reflexivity. rewrite Hopen.
      unfold new_future, fresh.
      repeat (erewrite bind_Ret by reflexivity). reflexivity. }
    assert (Hwait : result_within (next_id w) (io (scheduled m w))
                    = (io (scheduled m w), Raise TimeoutError)).
    { unfold result_within.
      erewrite bind_Ret by (by apply get_future_Some).
      by rewrite Hcan, Hexc, Hres. }
    rewrite Hrun. unfold wait_for_result, try_except_class.
    rewrite Hwait. cbn [isinstance TimeoutError].
    replace (issubclass TimeoutError_cls "concurrent.futures.TimeoutError")
      with true by reflexivity.
    split; intros Hr; erewrite bind_Ret by reflexivity; by rewrite Hr.
  - intros io0 w0 w1 w2 Hclose Heq.
    assert (Hc : runner_closed w1 = true).
    { unfold Runner_close, bind in Hclose.
      destruct (runner_call CM_close_threadsafe io0 w0) as [w' [v|e|]];
        [|done..].
      unfold modify in Hclose. by injection Hclose as <-. }
    unfold runner_call. erewrite bind_Ret by reflexivity.
    by rewrite Heq, Hc.
Qed.

(** ** Replies that resume a generator *)

(** A pending [Fut] whose callback is [k]. *)
Definition pending_fut (w : world) (f : fid) (k : cont) : Prop :=
  futures w !! f = Some (FutObj SyncFut None None false [k]).

(** The world in which the callback of [f] starts: the entry of [m] is
    popped and the outcome stored in [f]. *)
Definition popped (p : pid) (P : Protocol) (m : msgid) (w : world) : world :=
  upd_protocols (insert p (set_p_futures (delete m (p_futures P)) P)) w.

Definition resolved (f : fid) (k : cont) (o : outcome) (w : world) : world :=
  upd_futures
    (insert f (match o with
               | Result v => FutObj SyncFut None (Some v) false [k]
               | Failure e => FutObj SyncFut (Some e) None false [k]
               | Cancelled => FutObj SyncFut None None true [k]
               end))
    (add_event (EvResolve f o) w).

(** A plain reply to a call whose completion is a pending [Fut]: the
    callback runs with the reply stored. *)
Lemma message_received_result (depth : nat) (w : world) (p : pid)
    (P : Protocol) (m : msgid) (a : bool) (v : pyval) (f : fid) (k : cont) :
  protocols w !! p = Some P ->
  p_futures P !! m = Some f ->
  pending_fut w f k ->
  exception_reply v = None ->
  message_received (resume (S depth)) p (Frame m a ".reply" v) w
  = invoke_body (resume depth) k f (resolved f k (Result v) (popped p P m w)).
Proof.
  intros HP Hf Ho Hnone. unfold message_received. simpl.
  erewrite bind_Ret by (by apply get_protocol_Some). rewrite Hf, Hnone.
  erewrite bind_Ret by (by apply upd_protocol_Some).
  erewrite set_result_pending by done. reflexivity.
Qed.

(** An exception reply: the callback runs with the payload stored as the
    completion's exception. *)
Lemma message_received_failure (depth : nat) (w : world) (p : pid)
    (P : Protocol) (m : msgid) (a : bool) (c : pyclass) (payload : pyval)
    (rest : list pyval) (f : fid) (k : cont) :
  protocols w !! p = Some P ->
  p_futures P !! m = Some f ->
  pending_fut w f k ->
  cls_plain c = true -> issubclass c "Exception" = true ->
  message_received (resume (S depth)) p
    (Frame m a ".reply" (PTuple (PClass c :: payload :: rest))) w
  = invoke_body (resume depth) k f
      (resolved f k (Failure payload)
         ((if known_data_error c then id
           else add_event (EvLog Error "%s from server: %s.%s:%s"))
            (popped p P m w))).
Proof.
  intros HP Hf Ho Hplain Hsub. unfold message_received. simpl.
  erewrite bind_Ret by (by apply get_protocol_Some). rewrite Hf.
  unfold exception_reply. rewrite Hplain, Hsub. cbn [andb].
  erewrite bind_Ret by (by apply upd_protocol_Some).
  destruct (known_data_error c); cbn [negb];
    erewrite bind_Ret by reflexivity;
    erewrite set_exception_pending by done; reflexivity.
Qed.

(** The generator is sent the stored result. *)
Lemma resume_generator_result (w : world) (f : fid) (k : cont) (v : pyval)
    (gen : resumed -> M unit) :
  futures w !! f = Some (FutObj SyncFut None (Some v) false [k]) ->
  resume_generator f gen w = gen (inl v) w.
Proof.
  intros Ho. unfold resume_generator, try_except_else, future_result.
  erewrite bind_Ret by (by apply get_future_Some). done.
Qed.

(** The generator is thrown an [Exception]: the stored one when it can be
    raised, else the [TypeError] of raising it. *)
Lemma resume_generator_failure (w : world) (f : fid) (k : cont) (e : pyval)
    (gen : resumed -> M unit) :
  futures w !! f = Some (FutObj SyncFut (Some e) None false [k]) ->
  isinstance e "Exception" = true ->
  exists e', isinstance e' "Exception" = true /\
    (isinstance e "BaseException" = true -> e' = e) /\
    resume_generator f gen w = gen (inr e') w.
Proof.
  intros Ho He. unfold resume_generator, try_except_else, future_result.
  erewrite bind_Ret by (by apply get_future_Some). simpl.
  assert (Ht : truthy e = true) by (by destruct e).
  rewrite Ht. unfold py_raise.
  destruct (isinstance e "BaseException") eqn:Hb.
  - exists e. unfold raise. by rewrite He.
  - exists (TypeError "exceptions must derive from BaseException").
    split; [done|]. split; [done|]. reflexivity.
Qed.

(** ** A failing [get_info] after verification *)

(** The client is Ready with [p] as its protocol, verification having
    succeeded, and the completion [f] of the [get_info] call is pending.
    When the server answers that call with an exception, the generator is
    thrown it and calls [register_failed(self, exc)]: the registration
    failure is logged, with the exception the generator caught, and nothing
    else happens.  The client object is unchanged, so it is still Ready with
    [p] as its protocol; no protocol is closed; the cache and the embedder
    are not called ([notify_connected] is not invoked); no reconnect is
    scheduled; and the readiness completion is as it was, unresolved if it
    was. *)
Lemma get_info_reply_failure
    (depth : nat) (w : world) (p : pid) (P : Protocol) (m : msgid)
    (a : bool) (c : pyclass) (payload : pyval) (rest : list pyval) (f : fid) :
  protocols w !! p = Some P ->
  p_futures P !! m = Some f ->
  pending_fut w f (K_get_info p) ->
  cur_protocol (client w) = Some p ->
  c_ready (client w) = Some true ->
  f <> c_connected (client w) ->
  cls_plain c = true -> issubclass c "Exception" = true ->
  isinstance payload "Exception" = true ->
  exists w' exc,
    message_received (resume (S depth)) p
      (Frame m a ".reply" (PTuple (PClass c :: payload :: rest))) w
      = (w', Ret tt) /\
    client w' = client w /\
    c_ready (client w') = Some true /\
    cur_protocol (client w') = Some p /\
    cache w' = cache w /\ embedder w' = embedder w /\
    (isinstance payload "BaseException" = true -> exc = payload) /\
    trace w' = trace w
               ++ (if known_data_error c then []
                   else [EvLog Error "%s from server: %s.%s:%s"])
               ++ [EvResolve f (Failure payload);
                   registration_failed_log exc] /\
    (forall q Q, protocols w !! q = Some Q ->
       exists Q', protocols w' !! q = Some Q' /\ p_closed Q' = p_closed Q) /\
    futures w' !! c_connected (client w') = futures w !! c_connected (client w).
Proof.
  intros HP Hf Ho Hcur Hready Hne Hplain Hsub Hexc.
  erewrite message_received_failure by done.
  set (w2 := resolved f _ _ _).
  assert (Ho2 : futures w2 !! f
                = Some (FutObj SyncFut (Some payload) None false [K_get_info p]))
    by apply lookup_insert_eq.
  unfold invoke_body.
  destruct (resume_generator_failure w2 f _ payload
              (verify_after_get_info (resume depth)) Ho2 Hexc)
    as (e' & He' & Hsame & ->).
  assert (Hcl2 : client w2 = client w)
    by (subst w2; by destruct (known_data_error c)).
  assert (Hca2 : cache w2 = cache w)
    by (subst w2; by destruct (known_data_error c)).
  assert (Hem2 : embedder w2 = embedder w)
    by (subst w2; by destruct (known_data_error c)).
  assert (Htr2 : trace w2 = trace w
     ++ (if known_data_error c then []
         else [EvLog Error "%s from server: %s.%s:%s"])
     ++ [EvResolve f (Failure payload)]).
  { subst w2. destruct (known_data_error c); simpl; [done|].
    by rewrite <- app_assoc. }
  assert (Hps2 : forall q Q, protocols w !! q = Some Q ->
     exists Q', protocols w2 !! q = Some Q' /\ p_closed Q' = p_closed Q).
  { intros q Q HQ. subst w2.
    destruct (known_data_error c); simpl;
      (destruct (decide (p = q)) as [<-|Hq];
       [rewrite lookup_insert_eq; eexists; split; [done|];
        rewrite HP in HQ; by injection HQ as <-
       |rewrite lookup_insert_ne by done; by exists Q]). }
  assert (Hfu2 : futures w2 !! c_connected (client w)
                 = futures w !! c_connected (client w)).
  { subst w2. destruct (known_data_error c); simpl;
      by rewrite lookup_insert_ne. }
  clearbody w2.
  unfold verify_after_get_info, register_failed, all_protocols_closed.
  munfold. simpl. rewrite Hcl2, Hcur.
  rewrite bool_decide_eq_false_2 by done. simpl.
  eexists. exists e'. split; [reflexivity|]. simpl.
  split; [done|]. split; [done|]. split; [done|].
  split; [done|]. split; [done|]. split; [exact Hsame|].
  split; [rewrite Htr2; by rewrite <- !app_assoc|]. by split.
Qed.

(** ** Calls issued by a generator *)

Definition call_frame (P : Protocol) (method : string) (args : list pyval)
  : wire :=
  WFrame (Frame (MsgInt (p_message_id P + 1)) false method (PTuple args)).

(** The protocol object after [call]: the counter advanced, the completion
    pending under the new message id. *)
Definition calling (P : Protocol) (f : fid) : Protocol :=
  set_p_futures (<[MsgInt (p_message_id P + 1) := f]> (p_futures P))
    (set_p_message_id (p_message_id P + 1) P).

(** The world after [yield protocol.fut(method, args)]: a new [Fut], with
    the rest of the generator as its callback, is pending on [p] and the
    frame is written. *)
Definition issued (p : pid) (P : Protocol) (method : string)
  (args : list pyval) (k : cont) (w : world) : world :=
  MkWorld (client w)
    (<[p := calling P (next_id w)]> (protocols w))
    (<[next_id w := FutObj SyncFut None None false [k]]> (futures w))
    (cache w) (embedder w)
    (trace w ++ [EvWrite p (call_frame P method args)])
    (S (next_id w)) (runner_closed w).

Lemma yield_fut_issued (inv : cont -> fid -> M unit) (w : world) (p : pid)
    (P : Protocol) (method : string) (args : list pyval) (k : pid -> cont) :
  protocols w !! p = Some P ->
  yield_fut inv (Some p) method args k w
  = (issued p P method args (k p) w, Ret tt).
Proof.
  intros HP. destruct w as [cl ps fs c e tr n rc]. simpl in *.
  unfold yield_fut, fut, Protocol_call, add_done_callback. munfold. simpl.
  rewrite HP. simpl. repeat (rewrite !lookup_insert_eq; simpl).
  unfold issued, calling. simpl. f_equal. f_equal.
  - by rewrite !insert_insert_eq.
  - by rewrite insert_insert_eq.
Qed.

Lemma issued_pending (p : pid) (P : Protocol) (method : string)
    (args : list pyval) (k : cont) (w : world) :
  protocols (issued p P method args k w) !! p = Some (calling P (next_id w)) /\
  p_futures (calling P (next_id w)) !! MsgInt (p_message_id P + 1)
    = Some (next_id w) /\
  pending_fut (issued p P method args k w) (next_id w) k.
Proof.
  split; [apply lookup_insert_eq|]. split; apply lookup_insert_eq.
Qed.

(** ** Cache verification ([Client.verify]) *)

Definition is_external (e : event) : bool :=
  match e with
  | EvCache _ | EvEmb _ => true
  | _ => false
  end.

(** The calls on the cache and on the embedder, in order. *)
Definition external_calls (t : list event) : list event :=
  List.filter is_external t.

Lemma external_calls_app (t1 t2 : list event) :
  external_calls (t1 ++ t2) = external_calls t1 ++ external_calls t2.
Proof. apply List.filter_app. Qed.

(** The case analysis of the specification: the label of each case and the
    calls it prescribes before the last tid is recorded. *)
Inductive verify_case :=
| Empty_cache
| No_tid
| Cache_newer
| Up_to_date
| Quick_verification (new_tid oids : pyval) (l : list pyval)
| Stale_cache.

Definition case_label (c : verify_case) : string :=
  match c with
  | Empty_cache => "empty cache"
  | No_tid => "Non-empty cache w/o tid"
  | Cache_newer => "Cache newer than server"
  | Up_to_date => "Cache up to date"
  | Quick_verification _ _ _ => "quick verification"
  | Stale_cache => "cache too old, clearing"
  end.

Definition case_actions (c : verify_case) : list event :=
  match c with
  | Empty_cache | Up_to_date | Cache_newer => []
  | No_tid => [EvCache clear; EvEmb emb_invalidateCache]
  | Quick_verification new_tid oids l =>
      map (fun oid => EvCache (invalidate oid PNone)) l
      ++ [EvEmb (emb_invalidateTransaction new_tid oids)]
  | Stale_cache => [EvEmb StaleCache; EvCache clear; EvEmb emb_invalidateCache]
  end.

(** The tid recorded at the end: the one quick verification returned, else
    the server's. *)
Definition case_tid (server_tid : pyval) (c : verify_case) : pyval :=
  match c with
  | Quick_verification new_tid _ _ => new_tid
  | _ => server_tid
  end.

(** [verified w w' p c server_tid]: from [w], verification ended in [w']
    as case [c] prescribes: the label is set, the calls made on the cache
    and the embedder are those of the case followed by [setLastTid], the
    client is Ready on [p], and the last thing done was to ask [p] for
    [get_info]. *)
Definition verified (w w' : world) (p : pid) (c : verify_case)
  (server_tid : pyval) : Prop :=
  c_verify_result (client w') = Some (case_label c) /\
  external_calls (trace w')
    = external_calls (trace w) ++ case_actions c
      ++ [EvCache (setLastTid (case_tid server_tid c))] /\
  c_ready (client w') = Some true /\
  cur_protocol (client w') = Some p /\
  exists t mid, trace w' =
    t ++ [EvWrite p (WFrame (Frame (MsgInt mid) false "get_info" (PTuple [])))].

Lemma string_compare_refl (s : string) : String.compare s s = Eq.
Proof.
  pose proof (String.compare_antisym s s) as H.
  destruct (String.compare s s); simpl in H; congruence.
Qed.

(** On ordered values, [==] agrees with the ordering. *)
Lemma py_compare_Eq (a b : pyval) :
  py_compare a b = Some Eq -> py_eqb a b = true.
Proof.
  destruct a, b; simpl; try done; intros [= H].
  - by apply Z.eqb_eq, Z.compare_eq.
  - apply String.eqb_eq. by apply String.compare_eq_iff.
  - apply String.eqb_eq. by apply String.compare_eq_iff.
Qed.

Lemma py_compare_Lt (a b : pyval) :
  py_compare a b = Some Lt -> py_eqb a b = false.
Proof.
  destruct a, b; simpl; try done; intros [= H]; apply not_true_is_false.
  - intros Heq. apply Z.eqb_eq in Heq. subst. by rewrite Z.compare_refl in H.
  - intros Heq. apply String.eqb_eq in Heq. subst.
    by rewrite string_compare_refl in H.
  - intros Heq. apply String.eqb_eq in Heq. subst.
    by rewrite string_compare_refl in H.
Qed.

(** A falsy reply is not an exception reply. *)
Lemma falsy_not_exception_reply (v : pyval) :
  truthy v = false -> exception_reply v = None.
Proof.
  intros H. destruct v as [| | | | |l| | | | |]; try done.
  destruct l as [|x [|y l]]; try done; by destruct x.
Qed.

(** The [else] clause of [verify]: [setLastTid], then Ready, then
    [get_info]. *)
Lemma verify_finish_ok (inv : cont -> fid -> M unit) (w : world) (p : pid)
    (P : Protocol) (tid : pyval) :
  cache_reliable -> protocols w !! p = Some P ->
  verify_finish inv (Some p) tid w
  = (issued p P "get_info" [] (K_get_info p)
       (upd_client (set_c_ready (Some true))
          (set_cache (fst (cache_step (setLastTid tid) (cache w)))
             (add_event (EvCache (setLastTid tid)) w))),
     Ret tt).
Proof.
  intros Hc HP. unfold verify_finish.
  erewrite bind_Ret by (by apply cache_do_ok).
  erewrite bind_Ret by reflexivity.
  unfold try_except, try_except_else.
  by erewrite yield_fut_issued.
Qed.

(** Ready is set only once [setLastTid] has returned. *)
Lemma verify_finish_raises (inv : cont -> fid -> M unit) (w : world)
    (protocol : option pid) (tid e : pyval) :
  snd (cache_step (setLastTid tid) (cache w)) = Some e ->
  exists w', verify_finish inv protocol tid w = (w', Raise e) /\
    client w' = client w.
Proof.
  intros He. unfold verify_finish, bind, cache_do. simpl.
  destruct (cache_step (setLastTid tid) (cache w)) as [c' r]. simpl in He.
  subst r. eexists. by split.
Qed.

(** From a world where the case's label is set and its calls are made,
    the [else] clause completes the verification. *)
Lemma verify_finish_verified (inv : cont -> fid -> M unit) (w0 w : world)
    (p : pid) (P : Protocol) (c : verify_case) (server_tid : pyval) :
  cache_reliable ->
  protocols w !! p = Some P ->
  cur_protocol (client w) = Some p ->
  c_verify_result (client w) = Some (case_label c) ->
  external_calls (trace w) = external_calls (trace w0) ++ case_actions c ->
  exists w',
    verify_finish inv (Some p) (case_tid server_tid c) w = (w', Ret tt) /\
    verified w0 w' p c server_tid.
Proof.
  intros Hc HP Hcur Hlab Hcalls.
  eexists. split; [by apply verify_finish_ok|].
  unfold verified. simpl.
  split; [done|]. split.
  - rewrite !external_calls_app, Hcalls. simpl. by rewrite <- !app_assoc.
  - split; [done|]. split; [done|]. by eexists _, _.
Qed.

(** ** Completions without synchronous observers *)

(** Resolving a [quiet] completion runs nothing on the spot: it is pending,
    and either an [asyncio.Future], whose callbacks the loop runs later, or
    a cross-thread completion nobody on the I/O thread has attached a
    callback to.  These are the completions of [load_before] and of the
    calls made through the runner. *)
Definition quiet (w : world) (f : fid) : Prop :=
  exists o, futures w !! f = Some o /\ fo_done o = false /\
    (fo_kind o = LoopFuture \/ (fo_kind o = ThreadFuture /\ fo_cbs o = [])).

(** The completions pending on a protocol object, in the order
    [pop_futures] returns them. *)
Definition pending (P : Protocol) : list fid :=
  (map_to_list (p_futures P)).*2.

(** All pending completions of [P] are quiet, and distinct. *)
Definition quiet_pending (w : world) (P : Protocol) : Prop :=
  NoDup (pending P) /\ forall f, f ∈ pending P -> quiet w f.

(** Events that record a resolution or defer a callback to the loop. *)
Definition is_resolution (e : event) : bool :=
  match e with
  | EvResolve _ _ | EvCallSoon _ => true
  | _ => false
  end.

(** Events that defer a callback to the loop. *)
Definition is_call_soon (e : event) : bool :=
  match e with
  | EvCallSoon _ => true
  | _ => false
  end.

Lemma call_soon_resolution (evs : list event) :
  forallb is_call_soon evs = true -> forallb is_resolution evs = true.
Proof.
  induction evs as [|e evs IH]; simpl; [done|].
  intros [He Hr]%andb_prop. rewrite (IH Hr). by destruct e.
Qed.

(** [w'] differs from [w] only by the completions and the trace. *)
Definition same_objects (w w' : world) : Prop :=
  client w' = client w /\ protocols w' = protocols w /\
  cache w' = cache w /\ embedder w' = embedder w /\
  next_id w' = next_id w /\ runner_closed w' = runner_closed w.

Lemma same_objects_refl (w : world) : same_objects w w.
Proof. by repeat split. Qed.

Lemma same_objects_trans (w1 w2 w3 : world) :
  same_objects w1 w2 -> same_objects w2 w3 -> same_objects w1 w3.
Proof.
  intros (?&?&?&?&?&?) (?&?&?&?&?&?). repeat split; congruence.
Qed.

Lemma for_each_call_soon (l : list cont) (f : fid) (w : world) :
  exists w', for_each l (fun k => emit (EvCallSoon (T_callback k f))) w
             = (w', Ret tt) /\
    same_objects w w' /\ futures w' = futures w /\
    trace w' = trace w ++ map (fun k => EvCallSoon (T_callback k f)) l.
Proof.
  revert w. induction l as [|k l IH]; intros w; simpl.
  - exists w. rewrite app_nil_r. by repeat split.
  - destruct (IH (add_event (EvCallSoon (T_callback k f)) w))
      as (w' & Hrun & Hs & Hf & Ht).
    exists w'. split; [by erewrite bind_Ret by reflexivity|].
    split; [exact Hs|]. split; [exact Hf|].
    rewrite Ht. simpl. by rewrite <- app_assoc.
Qed.

(** What resolving one quiet completion with [out] does. *)
Definition settled (f : fid) (out : outcome) (w w' : world) : Prop :=
  same_objects w w' /\
  (exists o, futures w !! f = Some o /\
     futures w' = <[f := match out with
                         | Result v => set_fo_result v o
                         | Failure e => set_fo_exc e o
                         | Cancelled => set_fo_cancelled o
                         end]> (futures w)) /\
  exists evs, trace w' = trace w ++ EvResolve f out :: evs /\
    forallb is_call_soon evs = true.

Lemma run_callbacks_quiet (inv : cont -> fid -> M unit) (w : world) (f : fid)
    (o : fut_obj) :
  fo_kind o = LoopFuture \/ (fo_kind o = ThreadFuture /\ fo_cbs o = []) ->
  exists w' evs, run_callbacks inv f o w = (w', Ret tt) /\
    same_objects w w' /\ futures w' = futures w /\
    trace w' = trace w ++ evs /\ forallb is_call_soon evs = true.
Proof.
  intros [Hk|[Hk Hcb]]; unfold run_callbacks; rewrite Hk.
  - destruct (for_each_call_soon (fo_cbs o) f w) as (w' & Hrun & Hs & Hf & Ht).
    exists w', (map (fun k => EvCallSoon (T_callback k f)) (fo_cbs o)).
    split; [exact Hrun|]. split; [exact Hs|]. split; [exact Hf|].
    split; [exact Ht|]. clear. induction (fo_cbs o) as [|k l IH]; [done|exact IH].
  - rewrite Hcb. exists w, []. rewrite app_nil_r.
    split; [done|]. split; [apply same_objects_refl|]. by repeat split.
Qed.

Definition is_class (e : pyval) : bool :=
  match e with PClass _ => true | _ => false end.

Lemma recorded_exception_not_class (k : fut_kind) (e : pyval) :
  is_class e = false -> recorded_exception k e = e.
Proof. intros H. destruct k; try reflexivity. by destruct e. Qed.

Lemma isinstance_not_class (e : pyval) (name : string) :
  isinstance e name = true -> is_class e = false.
Proof. by destruct e. Qed.

(** Failing a quiet completion with [e] returns; what is recorded is [e],
    or an instance of it when [e] is a class and the completion an
    [asyncio.Future]. *)
Lemma set_exception_quiet_recorded (inv : cont -> fid -> M unit) (w : world)
    (f : fid) (e : pyval) :
  quiet w f ->
  exists w' o, futures w !! f = Some o /\
    set_exception inv f e w = (w', Ret tt) /\
    settled f (Failure (recorded_exception (fo_kind o) e)) w w'.
Proof.
  intros (o & Ho & Hd & Hk).
  erewrite set_exception_pending by done.
  set (exc := recorded_exception (fo_kind o) e).
  destruct (run_callbacks_quiet inv
              (upd_futures (insert f (set_fo_exc exc o))
                 (add_event (EvResolve f (Failure exc)) w)) f o Hk)
    as (w' & evs & Hrun & Hs & Hf & Ht & Hev).
  exists w', o. split; [exact Ho|]. split; [exact Hrun|]. split; [|split].
  - destruct Hs as (?&?&?&?&?&?). by repeat split.
  - exists o. split; [done|]. by rewrite Hf.
  - exists evs. split; [|done]. rewrite Ht. simpl. by rewrite <- app_assoc.
Qed.

Lemma set_exception_quiet (inv : cont -> fid -> M unit) (w : world) (f : fid)
    (e : pyval) :
  quiet w f -> is_class e = false ->
  exists w', set_exception inv f e w = (w', Ret tt) /\
    settled f (Failure e) w w'.
Proof.
  intros Hq He.
  destruct (set_exception_quiet_recorded inv w f e Hq)
    as (w' & o & _ & Hrun & Hs).
  rewrite recorded_exception_not_class in Hs by exact He.
  exists w'. by split.
Qed.

Lemma cancel_quiet (inv : cont -> fid -> M unit) (w : world) (f : fid) :
  quiet w f ->
  exists w', cancel inv f w = (w', Ret tt) /\ settled f Cancelled w w'.
Proof.
  intros (o & Ho & Hd & Hk). unfold cancel.
  erewrite bind_Ret by (by apply get_future_Some).
  assert (Hns : match fo_kind o with
                | SyncFut => False | _ => True end)
    by (destruct Hk as [->|[-> _]]; done).
  destruct (fo_kind o) eqn:Hkind; [done|..]; rewrite Hd;
    (erewrite bind_Ret by reflexivity);
    (erewrite bind_Ret by reflexivity);
    (destruct (run_callbacks_quiet inv
              (upd_futures (insert f (set_fo_cancelled o))
                 (add_event (EvResolve f Cancelled) w)) f o)
      as (w' & evs & Hrun & Hs & Hf & Ht & Hev); [by rewrite Hkind|]);
    exists w'; (split; [exact Hrun|]); (split; [|split]);
    [ destruct Hs as (?&?&?&?&?&?); by repeat split
    | exists o; split; [done|]; by rewrite Hf
    | exists evs; split; [|done]; rewrite Ht; simpl; by rewrite <- app_assoc
    | destruct Hs as (?&?&?&?&?&?); by repeat split
    | exists o; split; [done|]; by rewrite Hf
    | exists evs; split; [|done]; rewrite Ht; simpl; by rewrite <- app_assoc ].
Qed.

(** Resolving, one after the other, distinct quiet completions. *)
Lemma for_each_settled (step : fid -> M unit) (out : outcome) (l : list fid)
    (w : world) :
  (forall w f, quiet w f ->
     exists w', step f w = (w', Ret tt) /\ settled f out w w') ->
  NoDup l -> (forall f, f ∈ l -> quiet w f) ->
  exists w' evs, for_each l step w = (w', Ret tt) /\
    same_objects w w' /\
    trace w' = trace w ++ evs /\ forallb is_resolution evs = true /\
    Forall (fun e => is_call_soon e = true \/ exists f, e = EvResolve f out)
      evs /\
    (forall f, f ∈ l -> In (EvResolve f out) evs) /\
    (forall g, g ∉ l -> futures w' !! g = futures w !! g).
Proof.
  intros Hstep. revert w. induction l as [|f l IH]; intros w Hnd Hq; simpl.
  - exists w, []. rewrite app_nil_r. split; [done|].
    split; [apply same_objects_refl|]. split; [done|]. split; [done|].
    split; [constructor|]. split; [|done].
    intros f Hf. by apply elem_of_nil in Hf.
  - apply NoDup_cons in Hnd as [Hnotin Hnd].
    destruct (Hstep w f) as (w1 & Hrun1 & Hs1 & (o & Ho & Hfu1) & evs1 & Ht1 & He1).
    { apply Hq. by left. }
    destruct (IH w1 Hnd) as (w' & evs & Hrun & Hs & Ht & He & Hall & Hin & Hout).
    { intros g Hg. destruct (Hq g) as (og & Hog & Hdg & Hkg); [by right|].
      exists og. split; [|done]. rewrite Hfu1.
      rewrite lookup_insert_ne; [done|]. intros ->. done. }
    exists w', (EvResolve f out :: evs1 ++ evs).
    split; [by erewrite bind_Ret by exact Hrun1|].
    split; [by eapply same_objects_trans|].
    split; [rewrite Ht, Ht1; by rewrite <- app_assoc|].
    split; [simpl; rewrite forallb_app;
            by rewrite (call_soon_resolution _ He1), He|].
    split.
    { constructor; [right; by eexists|]. apply Forall_app. split; [|done].
      clear -He1. induction evs1 as [|e evs1 IH]; [constructor|].
      simpl in He1. apply andb_prop in He1 as [He Hr].
      constructor; [by left|by apply IH]. }
    split.
    + intros g Hg. apply elem_of_cons in Hg as [->|Hg]; [by left|].
      right. apply in_or_app. right. by apply Hin.
    + intros g Hg. apply not_elem_of_cons in Hg as [Hne Hg].
      rewrite (Hout g Hg), Hfu1. by rewrite lookup_insert_ne.
Qed.

(** Events that are neither a call on the cache or the embedder nor a
    write to a transport. *)
Definition is_internal (e : event) : bool :=
  negb (is_external e) && negb (is_write e).

Lemma resolution_internal (evs : list event) :
  forallb is_resolution evs = true -> forallb is_internal evs = true.
Proof.
  induction evs as [|e evs IH]; simpl; [done|].
  intros [He Hr]%andb_prop. rewrite (IH Hr). by destruct e.
Qed.

Lemma internal_no_external (evs : list event) :
  forallb is_internal evs = true -> external_calls evs = [].
Proof.
  induction evs as [|e evs IH]; simpl; [done|].
  intros [He Hr]%andb_prop. unfold is_internal in He.
  apply andb_prop in He as [He _]. apply negb_true_iff in He.
  rewrite He. by apply IH.
Qed.

Lemma internal_no_write (evs : list event) :
  forallb is_internal evs = true -> existsb is_write evs = false.
Proof.
  induction evs as [|e evs IH]; simpl; [done|].
  intros [He Hr]%andb_prop. unfold is_internal in He.
  apply andb_prop in He as [_ He]. apply negb_true_iff in He.
  rewrite He. by apply IH.
Qed.

(** The protocol object after [close()]. *)
Definition closed_protocol (P : Protocol) : Protocol :=
  set_p_futures ∅ (set_p_closed true P).

(** [Protocol.close()] when the pending completions are quiet: the protocol
    is marked closed, its table emptied, every pending completion failed
    with [ClientDisconnected("Closed")]; a closed protocol is left alone. *)
Lemma Protocol_close_quiet (inv : cont -> fid -> M unit) (w : world) (p : pid)
    (P : Protocol) :
  protocols w !! p = Some P -> quiet_pending w P ->
  exists w' evs, Protocol_close inv p w = (w', Ret tt) /\
    client w' = client w /\ cache w' = cache w /\ embedder w' = embedder w /\
    next_id w' = next_id w /\ runner_closed w' = runner_closed w /\
    protocols w' = (if p_closed P then protocols w
                    else <[p := closed_protocol P]> (protocols w)) /\
    trace w' = trace w ++ evs /\ forallb is_internal evs = true /\
    (p_closed P = true -> w' = w) /\
    (p_closed P = false ->
       (exists evs', evs = EvCancelConnecting p :: evs') /\
       forall f, f ∈ pending P ->
         In (EvResolve f (Failure (ClientDisconnected [PStr "Closed"]))) evs) /\
    (forall g, g ∉ pending P -> futures w' !! g = futures w !! g).
Proof.
  intros HP [Hnd Hq]. unfold Protocol_close.
  erewrite bind_Ret by (by apply get_protocol_Some).
  destruct (p_closed P) eqn:Hcl.
  - exists w, []. rewrite app_nil_r. by repeat split.
  - erewrite bind_Ret by (by apply upd_protocol_Some).
    erewrite bind_Ret by reflexivity.
    set (tev := if p_transport P then [EvTransportClose p] else []).
    set (w1 := upd_protocols (insert p (closed_protocol P))
                 (MkWorld (client w) (protocols w) (futures w) (cache w)
                    (embedder w) (trace w ++ EvCancelConnecting p :: tev)
                    (next_id w) (runner_closed w))).
    assert (Hpop : (_ <- (if p_transport P then emit (EvTransportClose p)
                          else ret tt);;
                    futs <- pop_futures p;;
                    for_each futs (fun future =>
                      set_exception inv future
                        (ClientDisconnected [PStr "Closed"])))
                     (add_event (EvCancelConnecting p)
                        (upd_protocols (insert p (set_p_closed true P)) w))
                   = for_each (pending P) (fun future =>
                       set_exception inv future
                         (ClientDisconnected [PStr "Closed"])) w1).
    { subst w1 tev. unfold pop_futures.
      destruct (p_transport P); erewrite bind_Ret by reflexivity;
        (erewrite bind_Ret;
         [|erewrite bind_Ret by (apply get_protocol_Some; apply lookup_insert_eq);
           erewrite bind_Ret
             by (apply upd_protocol_Some; apply lookup_insert_eq);
           reflexivity]);
        unfold upd_protocols, add_event, closed_protocol; simpl;
        rewrite insert_insert_eq; try rewrite <- app_assoc; reflexivity. }
    rewrite Hpop. clear Hpop.
    destruct (for_each_settled
                (fun future => set_exception inv future
                                 (ClientDisconnected [PStr "Closed"]))
                (Failure (ClientDisconnected [PStr "Closed"]))
                (pending P) w1)
      as (w' & evs & Hrun & Hs & Ht & He & _ & Hin & Hout); [| done | |].
    { intros w0 f Hf. by apply set_exception_quiet. }
    { intros f Hf. destruct (Hq f Hf) as (o & Ho & Hrest).
      by exists o. }
    destruct Hs as (Hc1 & Hp1 & Hca1 & Hem1 & Hn1 & Hr1).
    exists w', (EvCancelConnecting p :: tev ++ evs).
    split; [exact Hrun|]. repeat split; try done.
    + rewrite Ht. subst w1. simpl. by rewrite <- app_assoc.
    + simpl. rewrite forallb_app. rewrite (resolution_internal _ He).
      subst tev. by destruct (p_transport P).
    + by eexists.
    + intros f Hf. right. apply in_or_app. right. by apply Hin.
Qed.

(** [register_failed(protocol, exc)] on a protocol whose pending
    completions are quiet: the protocol is closed and the failure logged;
    the client, the cache and the embedder are left alone. *)
Lemma register_failed_quiet (inv : cont -> fid -> M unit) (w : world)
    (p : pid) (P : Protocol) (exc : pyval) :
  protocols w !! p = Some P -> quiet_pending w P ->
  exists w' evs P',
    register_failed inv (ArgProtocol (Some p)) exc w = (w', Ret tt) /\
    client w' = client w /\ cache w' = cache w /\ embedder w' = embedder w /\
    protocols w' !! p = Some P' /\ p_closed P' = true /\
    trace w' = trace w ++ evs /\ forallb is_internal evs = true /\
    In (registration_failed_log exc) evs.
Proof.
  intros HP Hq. unfold register_failed.
  destruct (Protocol_close_quiet inv w p P HP Hq)
    as (w1 & evs & Hrun & Hc & Hca & Hem & Hn & Hr & Hps & Ht & Hev & _).
  erewrite bind_Ret by exact Hrun.
  erewrite bind_Ret by reflexivity.
  erewrite bind_Ret by reflexivity.
  erewrite bind_Ret by reflexivity.
  assert (HP' : exists P', protocols w1 !! p = Some P' /\ p_closed P' = true).
  { rewrite Hps. destruct (p_closed P) eqn:Hcl; [by exists P|].
    exists (closed_protocol P). by rewrite lookup_insert_eq. }
  destruct HP' as (P' & HP' & Hcl').
  destruct (_ && _).
  - exists (add_event (EvCallLater T_try_connecting)
              (add_event (registration_failed_log exc) w1)),
      (evs ++ [registration_failed_log exc; EvCallLater T_try_connecting]), P'.
    split; [done|]. simpl. repeat split; try done.
    + rewrite Ht. by rewrite <- !app_assoc.
    + rewrite forallb_app, Hev. done.
    + apply in_or_app. right. by left.
  - exists (add_event (registration_failed_log exc) w1),
      (evs ++ [registration_failed_log exc]), P'.
    split; [done|]. simpl. repeat split; try done.
    + rewrite Ht. by rewrite <- !app_assoc.
    + rewrite forallb_app, Hev. done.
    + apply in_or_app. right. by left.
Qed.

Definition server_behind (p : pid) (server_tid cache_tid : pyval) : pyval :=
  AssertionError [PStr "Server behind client, %r < %r, %s"; server_tid;
                  cache_tid; PRef p].

(** [verify(None)] first asks the server for its last transaction; the
    reply resumes the generator, which then runs as an invocation with
    that tid, on the same client and cache. *)
Lemma verify_fetches_server_tid (depth : nat) (w : world) (p : pid)
    (P : Protocol) :
  cur_protocol (client w) = Some p ->
  protocols w !! p = Some P ->
  let w1 := issued p P "lastTransaction" [] (K_lastTransaction p) w in
  verify (resume depth) PNone w = (w1, Ret tt) /\
  forall tid, tid <> PNone -> exception_reply tid = None ->
    exists w2 P2,
      message_received (resume (S depth)) p
        (Frame (MsgInt (p_message_id P + 1)) false ".reply" tid) w1
      = verify (resume depth) tid w2 /\
      client w2 = client w /\ cache w2 = cache w /\
      protocols w2 !! p = Some P2 /\
      external_calls (trace w2) = external_calls (trace w).
Proof.
  intros Hcur HP w1.
  split.
  { unfold verify. erewrite bind_Ret by reflexivity. rewrite Hcur.
    by apply yield_fut_issued. }
  intros tid Htid Hnoexc.
  destruct (issued_pending p P "lastTransaction" [] (K_lastTransaction p) w)
    as (HP1 & Hf1 & Hpend1).
  fold w1 in HP1, Hpend1.
  exists (resolved (next_id w) (K_lastTransaction p) (Result tid)
            (popped p (calling P (next_id w)) (MsgInt (p_message_id P + 1))
               w1)).
  eexists. split; [|split; [|split; [|split]]].
  - erewrite message_received_result by done.
    unfold invoke_body.
    erewrite resume_generator_result by apply lookup_insert_eq.
    unfold verify_after_lastTransaction, verify.
    erewrite bind_Ret by reflexivity.
    replace (cur_protocol (client _)) with (Some p) by done.
    by destruct tid.
  - done.
  - done.
  - apply lookup_insert_eq.
  - subst w1. simpl. rewrite !external_calls_app. simpl.
    by rewrite !app_nil_r.
Qed.

(** C1.  [verify(server_tid)] on the adopted protocol [p] follows the case
    analysis of the specification ([verified] states what a non-fatal case
    ends in):
    - empty cache: no call on the cache but the final [setLastTid];
    - non-empty cache without last tid: the cache is cleared and the
      embedder's [invalidateCache()] called;
    - cache tid greater than the server's: the [try] block raises an
      [AssertionError], handled by the failure path ([del self.protocol],
      then [register_failed(protocol, exc)]); the client is not made Ready
      and the cache is not called; when the completions pending on [p]
      are quiet, the protocol ends closed and the client without protocol;
    - equal tids: no work;
    - cache tid smaller: [getInvalidations(cache_tid)] is sent and nothing
      else happens until the reply; a reply [(new_tid, oids)] invalidates
      each oid and forwards [invalidateTransaction(new_tid, oids)] to the
      embedder; an empty reply emits [StaleCache], clears the cache and
      calls [invalidateCache()];
    - in every non-fatal case [setLastTid] of the final tid is the last
      call on the cache, and the client is Ready only once it has returned:
      if it raises, the client is left as it was;
    - [verify(None)] asks the server for its last transaction first, and
      the reply [tid] turns it into the invocation [verify(tid)] covered
      by the cases above, with the client and the cache untouched. *)
Theorem verify_case_analysis
    (depth : nat) (w : world) (p : pid) (P : Protocol) (server_tid : pyval) :
  cur_protocol (client w) = Some p ->
  protocols w !! p = Some P ->
  server_tid <> PNone ->
  let cache_tid := getLastTid (cache w) in
  (cache_reliable -> cache_nonempty (cache w) = false ->
   exists w', verify (resume depth) server_tid w = (w', Ret tt) /\
     verified w w' p Empty_cache server_tid) /\
  (cache_reliable -> embedder_reliable ->
   cache_nonempty (cache w) = true -> truthy cache_tid = false ->
   exists w', verify (resume depth) server_tid w = (w', Ret tt) /\
     verified w w' p No_tid server_tid) /\
  (cache_nonempty (cache w) = true -> truthy cache_tid = true ->
   py_compare cache_tid server_tid = Some Gt ->
   exists w1,
     verify_check (resume depth) (Some p) server_tid w
       = (w1, Raise (server_behind p server_tid cache_tid)) /\
     c_verify_result (client w1) = Some (case_label Cache_newer) /\
     verify (resume depth) server_tid w
       = verify_failed (resume depth) (Some p)
           (server_behind p server_tid cache_tid) w1 /\
     (quiet_pending w P ->
      exists w' P',
        verify (resume depth) server_tid w = (w', Ret tt) /\
        cur_protocol (client w') = None /\
        c_ready (client w') = c_ready (client w) /\
        protocols w' !! p = Some P' /\ p_closed P' = true /\
        external_calls (trace w') = external_calls (trace w) /\
        In (registration_failed_log (server_behind p server_tid cache_tid))
          (trace w'))) /\
  (cache_reliable ->
   cache_nonempty (cache w) = true -> truthy cache_tid = true ->
   py_compare cache_tid server_tid = Some Eq ->
   exists w', verify (resume depth) server_tid w = (w', Ret tt) /\
     verified w w' p Up_to_date server_tid) /\
  (cache_nonempty (cache w) = true -> truthy cache_tid = true ->
   py_compare cache_tid server_tid = Some Lt ->
   let w1 := issued p P "getInvalidations" [cache_tid]
               (K_getInvalidations p server_tid) w in
   let reply := Frame (MsgInt (p_message_id P + 1)) false ".reply" in
   verify (resume depth) server_tid w = (w1, Ret tt) /\
   (cache_reliable -> embedder_reliable ->
    forall new_tid oids l,
      exception_reply (PTuple [new_tid; oids]) = None ->
      py_iter oids = Some l ->
      exists w2,
        message_received (resume (S depth)) p
          (reply (PTuple [new_tid; oids])) w1 = (w2, Ret tt) /\
        verified w w2 p (Quick_verification new_tid oids l) server_tid) /\
   (cache_reliable -> embedder_reliable ->
    forall vdata, truthy vdata = false ->
      exists w2,
        message_received (resume (S depth)) p (reply vdata) w1
          = (w2, Ret tt) /\
        verified w w2 p Stale_cache server_tid)) /\
  (forall (w0 : world) (tid e : pyval),
     snd (cache_step (setLastTid tid) (cache w0)) = Some e ->
     exists w', verify_finish (resume depth) (Some p) tid w0 = (w', Raise e) /\
       client w' = client w0) /\
  (let w1 := issued p P "lastTransaction" [] (K_lastTransaction p) w in
   verify (resume depth) PNone w = (w1, Ret tt) /\
   forall tid, tid <> PNone -> exception_reply tid = None ->
     exists w2 P2,
       message_received (resume (S depth)) p
         (Frame (MsgInt (p_message_id P + 1)) false ".reply" tid) w1
       = verify (resume depth) tid w2 /\
       client w2 = client w /\ cache w2 = cache w /\
       protocols w2 !! p = Some P2 /\
       external_calls (trace w2) = external_calls (trace w)).
Proof.
  intros Hcur HP Hnone cache_tid.
  assert (Hverify : verify (resume depth) server_tid w
                    = verify_body (resume depth) (Some p) server_tid w).
  { unfold verify. erewrite bind_Ret by reflexivity. rewrite Hcur.
    by destruct server_tid. }
  rewrite Hverify. clear Hverify.
  split; [|split; [|split; [|split; [|split; [|split]]]]].
  - (* empty cache *)
    intros Hc Hempty.
    unfold verify_body, try_except_else, verify_check.
    erewrite bind_Ret by reflexivity. rewrite Hempty.
    erewrite bind_Ret by reflexivity. simpl.
    apply (verify_finish_verified (resume depth) w _ p P Empty_cache);
      try done. simpl. by rewrite app_nil_r.
  - (* non-empty cache without tid *)
    intros Hc He Hne Hfalsy.
    unfold verify_body, try_except_else, verify_check.
    erewrite bind_Ret by reflexivity. rewrite Hne.
    erewrite bind_Ret by reflexivity. fold cache_tid. rewrite Hfalsy. simpl.
    erewrite bind_Ret by reflexivity.
    erewrite bind_Ret by reflexivity.
    erewrite bind_Ret by (by apply cache_do_ok).
    erewrite bind_Ret by (by apply emb_do_ok). simpl.
    apply (verify_finish_verified (resume depth) w _ p P No_tid); try done.
    simpl. rewrite !external_calls_app. simpl. by rewrite <- !app_assoc.
  - (* cache newer than server *)
    intros Hne Htruthy Hcmp.
    set (w1 := add_event
                 (EvLog Critical "Client has seen newer transactions than server!")
                 (upd_client (set_c_verify_result (Some "Cache newer than server"))
                    w)).
    assert (Hcheck : verify_check (resume depth) (Some p) server_tid w
                     = (w1, Raise (server_behind p server_tid cache_tid))).
    { unfold verify_check. erewrite bind_Ret by reflexivity. rewrite Hne.
      erewrite bind_Ret by reflexivity. fold cache_tid. rewrite Htruthy.
      simpl. unfold py_gt. rewrite Hcmp.
      erewrite bind_Ret by reflexivity. cbv iota.
      erewrite bind_Ret by reflexivity.
      erewrite bind_Ret by reflexivity. reflexivity. }
    assert (Hbody : verify_body (resume depth) (Some p) server_tid w
                    = verify_failed (resume depth) (Some p)
                        (server_behind p server_tid cache_tid) w1).
    { unfold verify_body, try_except_else. by rewrite Hcheck. }
    exists w1. split; [exact Hcheck|]. split; [done|].
    split; [exact Hbody|]. intros Hq. rewrite Hbody.
    assert (Hattr : exists v, c_protocol (client w) = Some v).
    { unfold cur_protocol in Hcur.
      destruct (c_protocol (client w)); [by eexists|done]. }
    destruct Hattr as (v & Hattr).
    assert (Hdel : del_protocol w1
                   = (upd_client (set_c_protocol None) w1, Ret tt)).
    { unfold del_protocol. erewrite bind_Ret by reflexivity.
      replace (c_protocol (client w1)) with (Some v) by done. done. }
    unfold verify_failed. erewrite bind_Ret by exact Hdel.
    destruct (register_failed_quiet (resume depth)
                (upd_client (set_c_protocol None) w1) p P
                (server_behind p server_tid cache_tid) HP Hq)
      as (w' & evs & P' & Hrun & Hc & Hca & Hem & HP' & Hcl & Ht & Hev & Hin).
    exists w', P'. split; [exact Hrun|]. rewrite Hc. simpl.
    repeat split; try done.
    + rewrite Ht. simpl. rewrite !external_calls_app.
      rewrite (internal_no_external _ Hev). simpl. by rewrite !app_nil_r.
    + rewrite Ht. apply in_or_app. by right.
  - (* cache up to date *)
    intros Hc Hne Htruthy Hcmp.
    unfold verify_body, try_except_else, verify_check.
    erewrite bind_Ret by reflexivity. rewrite Hne.
    erewrite bind_Ret by reflexivity. fold cache_tid. rewrite Htruthy. simpl.
    unfold py_gt. rewrite Hcmp.
    erewrite bind_Ret by reflexivity. rewrite (py_compare_Eq _ _ Hcmp).
    erewrite bind_Ret by reflexivity. simpl.
    apply (verify_finish_verified (resume depth) w _ p P Up_to_date);
      try done. simpl. by rewrite app_nil_r.
  - (* cache older than server *)
    intros Hne Htruthy Hcmp w1 reply.
    assert (Hstep1 : verify_body (resume depth) (Some p) server_tid w
                     = (w1, Ret tt)).
    { unfold verify_body, try_except_else, verify_check.
      erewrite bind_Ret by reflexivity. rewrite Hne.
      erewrite bind_Ret by reflexivity. fold cache_tid. rewrite Htruthy.
      cbn [negb]. unfold py_gt. rewrite Hcmp.
      erewrite bind_Ret by reflexivity. cbv iota.
      rewrite (py_compare_Lt _ _ Hcmp).
      erewrite bind_Ret by (by apply yield_fut_issued). reflexivity. }
    split; [exact Hstep1|].
    destruct (issued_pending p P "getInvalidations" [cache_tid]
                (K_getInvalidations p server_tid) w) as (HP1 & Hf1 & Hpend1).
    fold w1 in HP1, Hpend1.
    set (P1 := calling P (next_id w)) in *.
    set (f := next_id w) in *.
    assert (Hresume : forall v, exception_reply v = None ->
      message_received (resume (S depth)) p (reply v) w1
      = verify_after_getInvalidations (resume depth) p server_tid (inl v)
          (resolved f (K_getInvalidations p server_tid) (Result v)
             (popped p P1 (MsgInt (p_message_id P + 1)) w1))).
    { intros v Hv. subst reply. cbv beta.
      erewrite message_received_result by done.
      unfold invoke_body.
      erewrite resume_generator_result by apply lookup_insert_eq. done. }
    assert (Hw2 : forall v,
      let w2 := resolved f (K_getInvalidations p server_tid) (Result v)
                  (popped p P1 (MsgInt (p_message_id P + 1)) w1) in
      client w2 = client w /\ cache w2 = cache w /\
      external_calls (trace w2) = external_calls (trace w) /\
      exists P2, protocols w2 !! p = Some P2).
    { intros v w2. subst w2 w1. simpl. repeat split; try done.
      - rewrite !external_calls_app. simpl. by rewrite !app_nil_r.
      - eexists. apply lookup_insert_eq. }
    split.
    + intros Hc He new_tid oids l Hnoexc Hiter.
      rewrite (Hresume _ Hnoexc).
      destruct (Hw2 (PTuple [new_tid; oids])) as (Hcl2 & Hca2 & Hex2 & P2 & HP2).
      set (w2 := resolved _ _ _ _) in *. clearbody w2.
      unfold verify_after_getInvalidations, try_except_else,
        verify_invalidations.
      cbn [truthy length Nat.eqb negb].
      erewrite bind_Ret by reflexivity.
      erewrite bind_Ret by reflexivity.
      unfold for_in. cbn [snd fst]. rewrite Hiter.
      destruct (for_each_cache_do l (fun oid => invalidate oid PNone)
                  (upd_client (set_c_verify_result (Some "quick verification"))
                     w2) Hc)
        as (w3 & Hrun3 & Htr3 & Hem3 & Hcl3 & Hps3 & Hfs3 & Hn3 & Hr3).
      erewrite bind_Ret by exact Hrun3.
      erewrite bind_Ret by (by apply emb_do_ok).
      unfold ret. cbv beta iota.
      apply (verify_finish_verified (resume depth) w _ p P2
               (Quick_verification new_tid oids l)); try done.
      * simpl. by rewrite Hps3.
      * simpl. rewrite Hcl3. simpl. by rewrite Hcl2.
      * simpl. by rewrite Hcl3.
      * simpl. rewrite external_calls_app, Htr3, external_calls_app. simpl.
        rewrite Hex2. rewrite <- app_assoc. f_equal. f_equal.
        clear. induction l as [|x l IH]; simpl; [done|]. by rewrite IH.
    + intros Hc He vdata Hfalsy.
      rewrite (Hresume _ (falsy_not_exception_reply _ Hfalsy)).
      destruct (Hw2 vdata) as (Hcl2 & Hca2 & Hex2 & P2 & HP2).
      set (w2 := resolved _ _ _ _) in *. clearbody w2.
      unfold verify_after_getInvalidations, try_except_else,
        verify_invalidations. rewrite Hfalsy.
      erewrite bind_Ret by reflexivity.
      erewrite bind_Ret; cycle 1.
      { unfold try_except, try_except_else. by rewrite emb_do_ok. }
      erewrite bind_Ret by reflexivity.
      erewrite bind_Ret by (by apply cache_do_ok).
      erewrite bind_Ret by (by apply emb_do_ok).
      unfold ret. cbv beta iota.
      apply (verify_finish_verified (resume depth) w _ p P2 Stale_cache);
        try done.
      * simpl. by rewrite Hcl2.
      * simpl. rewrite !external_calls_app. simpl. rewrite Hex2.
        by rewrite <- !app_assoc.
  - intros w0 tid e. apply verify_finish_raises.
  - by apply verify_fetches_server_tid.
Qed.

(** ** Disconnecting the current protocol *)

(** The client attributes a reconnection attempt leaves alone. *)
Definition same_session (c c' : Client) : Prop :=
  c_ready c' = c_ready c /\ c_protocol c' = c_protocol c /\
  c_connected c' = c_connected c /\ c_closed c' = c_closed c /\
  c_verify_result c' = c_verify_result c.

Lemma make_protocols_effect (addrs : list string) (key : string)
    (ro : ro_mode) (w : world) :
  exists w' ps t, make_protocols addrs key ro w = (w', Ret ps) /\
    client w' = client w /\ futures w' = futures w /\
    cache w' = cache w /\ embedder w' = embedder w /\
    trace w' = trace w ++ t /\ forallb is_internal t = true.
Proof.
  revert w. induction addrs as [|a l IH]; intros w; simpl.
  - exists w, [], []. rewrite app_nil_r. by repeat split.
  - set (w1 := add_event (EvConnect (next_id w) a)
                 (upd_protocols
                    (insert (next_id w)
                       (MkProtocol a key ro false false ∅ 0%Z None None))
                    (bump_id w))).
    destruct (IH w1) as (w' & ps & t & Hrun & Hc & Hf & Hca & Hem & Ht & Hi).
    exists w', (next_id w :: ps), (EvConnect (next_id w) a :: t).
    split.
    { erewrite bind_Ret; cycle 1.
      { unfold new_protocol, fresh.
        repeat (erewrite bind_Ret by reflexivity). reflexivity. }
      fold w1. by erewrite bind_Ret by exact Hrun. }
    repeat split; try done. rewrite Ht. simpl. by rewrite <- app_assoc.
Qed.

Lemma try_connecting_effect (w : world) :
  exists w' t, try_connecting w = (w', Ret tt) /\
    same_session (client w) (client w') /\ futures w' = futures w /\
    cache w' = cache w /\ embedder w' = embedder w /\
    trace w' = trace w ++ t /\ forallb is_internal t = true.
Proof.
  unfold try_connecting.
  erewrite bind_Ret by reflexivity.
  erewrite bind_Ret by reflexivity. simpl.
  destruct (c_closed (client w)) eqn:Hcl.
  - eexists _, [_]. split; [reflexivity|]. by repeat split.
  - destruct (make_protocols_effect (c_addrs (client w))
                (c_storage_key (client w)) (c_read_only (client w))
                (add_event (EvLog Debug "try_connecting") w))
      as (w' & ps & t & Hrun & Hc & Hf & Hca & Hem & Ht & Hi).
    erewrite bind_Ret by exact Hrun.
    eexists _, (EvLog Debug "try_connecting" :: t).
    split; [reflexivity|]. simpl. rewrite Hc. simpl.
    repeat split; try done. rewrite Ht. simpl. by rewrite <- app_assoc.
Qed.

(** [disconnected(p)] for the current protocol [p] when no other candidate
    is left: the embedder is notified, the client is no longer Ready, a
    fresh readiness completion replaces the old one, the client has no
    protocol, and a new round of connections starts (unless the client is
    closed). *)
Lemma disconnected_current (inv : cont -> fid -> M unit) (w : world) (p : pid) :
  embedder_reliable ->
  cur_protocol (client w) = Some p ->
  c_protocols (client w) = [] ->
  exists w' t, disconnected inv (Some p) w = (w', Ret tt) /\
    trace w' = trace w ++ EvLog Debug "disconnected %r %r"
                 :: EvEmb notify_disconnected :: t /\
    forallb is_internal t = true /\
    is_ready (client w') = false /\
    (is_ready (client w) = true -> c_ready (client w') = Some false) /\
    cur_protocol (client w') = None /\
    c_connected (client w') = next_id w /\
    futures w' = <[next_id w := FutObj ThreadFuture None None false []]>
                   (futures w) /\
    cache w' = cache w.
Proof.
  intros He Hcur Hps. unfold disconnected.
  erewrite bind_Ret by reflexivity.
  erewrite bind_Ret by reflexivity. simpl. rewrite Hcur.
  rewrite !(bool_decide_eq_true_2 (Some p = Some p)) by done.
  cbn [andb].
  set (w1 := add_event (EvLog Debug "disconnected %r %r") w).
  set (w2 := set_embedder (fst (emb_step notify_disconnected (embedder w1)))
               (add_event (EvEmb notify_disconnected) w1)).
  set (w3 := upd_client (set_c_protocols [])
               (upd_client (set_c_protocol (Some None))
                  (upd_client (set_c_connected (next_id w))
                     (upd_futures
                        (insert (next_id w)
                           (FutObj ThreadFuture None None false []))
                        (bump_id
                           (if is_ready (client w)
                            then upd_client (set_c_ready (Some false)) w2
                            else w2)))))).
  assert (Hclear : (_ <- emb_do notify_disconnected;;
                    c1 <- the_client;;
                    _ <- (if is_ready c1 then set_ready (Some false)
                          else ret tt);;
                    connected <- new_future ThreadFuture;;
                    _ <- modify (upd_client (set_c_connected connected));;
                    _ <- modify (upd_client (set_c_protocol (Some None)));;
                    _clear_protocols inv None) w1 = (w3, Ret tt)).
  { erewrite bind_Ret by (by apply emb_do_ok). fold w2.
    erewrite bind_Ret by reflexivity.
    replace (client w2) with (client w) by done.
    unfold _clear_protocols, new_future, fresh.
    destruct (is_ready (client w));
      repeat (erewrite bind_Ret by reflexivity); simpl; rewrite Hps; simpl;
      repeat (erewrite bind_Ret by reflexivity); reflexivity. }
  erewrite bind_Ret by exact Hclear.
  erewrite bind_Ret by reflexivity.
  replace (forallb (protocol_closed w3) (c_protocols (client w3))) with true
    by done.
  destruct (try_connecting_effect w3)
    as (w' & t & Hrun & (Hr & Hp & Hcn & _) & Hf & Hca & Hem & Ht & Hi).
  exists w', t. split; [exact Hrun|].
  assert (Hr3 : is_ready (client w3) = false)
    by (subst w3; by destruct (is_ready (client w)) eqn:Hr0;
        simpl; unfold is_ready in *; simpl; try done;
        destruct (c_ready (client w)) as [[|]|]).
  split.
  { rewrite Ht. subst w3 w2 w1.
    destruct (is_ready (client w)); simpl; by rewrite <- !app_assoc. }
  split; [done|]. split.
  { unfold is_ready in *. by rewrite Hr. }
  split.
  { intros Hready. rewrite Hr. subst w3. by rewrite Hready. }
  split.
  { unfold cur_protocol. rewrite Hp. subst w3.
    by destruct (is_ready (client w)). }
  split.
  { rewrite Hcn. subst w3. by destruct (is_ready (client w)). }
  split.
  { rewrite Hf. subst w3 w2 w1. by destruct (is_ready (client w)). }
  rewrite Hca. subst w3 w2 w1. by destruct (is_ready (client w)).
Qed.

(** ** Commit ([Client.tpc_finish_threadsafe]) *)

(** The cache calls one update prescribes: the oid is invalidated, and the
    new revision stored when its data is present and not resolved. *)
Definition update_calls (tid : pyval) (updates : list (pyval * pyval * pyval))
  : list event :=
  flat_map (fun u =>
    EvCache (invalidate (fst (fst u)) tid)
    :: (if truthy (snd (fst u)) && negb (truthy (snd u))
        then [EvCache (store (fst (fst u)) tid PNone (snd (fst u)))]
        else [])) updates.

(** [m] touches only the cache, the embedder and the trace. *)
Definition external_only {A} (m : @M C E A) : Prop :=
  forall w, only_external w (fst (m w)) /\
            trace w `prefix_of` trace (fst (m w)).

Lemma external_only_bind {A B} (m : M A) (k : A -> @M C E B) :
  external_only m -> (forall a, external_only (k a)) ->
  external_only (bind m k).
Proof.
  intros Hm Hk w. unfold bind. destruct (Hm w) as [Ho Ht].
  destruct (m w) as [w' [a|e|]]; simpl in *; [|done..].
  destruct (Hk a w') as [Ho' Ht'].
  destruct Ho as (?&?&?&?&?), Ho' as (?&?&?&?&?).
  split; [repeat split; congruence|by etrans].
Qed.

Lemma external_only_ret {A} (a : A) : external_only (@ret C E A a).
Proof. intros w. by repeat split. Qed.

Lemma external_only_cache_do (call : cache_call) : external_only (cache_do call).
Proof.
  intros w. unfold cache_do. simpl.
  destruct (cache_step call (cache w)) as [c' [e|]]; simpl;
    (split; [by repeat split|by apply prefix_app_r]).
Qed.

Lemma external_only_for_each {A} (l : list A) (body : A -> @M C E unit) :
  (forall x, external_only (body x)) -> external_only (for_each l body).
Proof.
  intros Hb. induction l as [|x l IH]; simpl; [apply external_only_ret|].
  apply external_only_bind; [apply Hb|]. intros _. exact IH.
Qed.

Lemma external_only_tpc_finish_updates (tid : pyval)
    (updates : list (pyval * pyval * pyval)) :
  external_only (tpc_finish_updates tid updates).
Proof.
  unfold tpc_finish_updates. apply external_only_bind.
  - apply external_only_for_each. intros u. apply external_only_bind.
    + apply external_only_cache_do.
    + intros _. destruct (_ && _);
        [apply external_only_cache_do|apply external_only_ret].
  - intros _. apply external_only_cache_do.
Qed.

(** On a reliable cache the updates are all applied, in order, and the
    last tid recorded after them. *)
Lemma tpc_finish_updates_ok (tid : pyval)
    (updates : list (pyval * pyval * pyval)) (w : world) :
  cache_reliable ->
  exists w', tpc_finish_updates tid updates w = (w', Ret tt) /\
    trace w' = trace w ++ update_calls tid updates ++ [EvCache (setLastTid tid)] /\
    embedder w' = embedder w /\ only_external w w'.
Proof.
  intros Hc. unfold tpc_finish_updates.
  assert (Hloop : forall w : world, exists w',
    for_each updates (fun u =>
      _ <- cache_do (invalidate (fst (fst u)) tid);;
      (if truthy (snd (fst u)) && negb (truthy (snd u))
       then cache_do (store (fst (fst u)) tid PNone (snd (fst u)))
       else ret tt)) w = (w', Ret tt) /\
    trace w' = trace w ++ update_calls tid updates /\
    embedder w' = embedder w /\ only_external w w').
  { clear w. induction updates as [|u l IH]; intros w; simpl.
    - exists w. rewrite app_nil_r. by repeat split.
    - set (w1 := set_cache
                   (fst (cache_step (invalidate (fst (fst u)) tid) (cache w)))
                   (add_event (EvCache (invalidate (fst (fst u)) tid)) w)).
      destruct (truthy (snd (fst u)) && negb (truthy (snd u))) eqn:Hst.
      + destruct (IH (set_cache
                        (fst (cache_step
                                (store (fst (fst u)) tid PNone (snd (fst u)))
                                (cache w1)))
                        (add_event
                           (EvCache (store (fst (fst u)) tid PNone (snd (fst u))))
                           w1)))
          as (w' & Hrun & Ht & He & Ho).
        exists w'. split.
        { erewrite bind_Ret; [exact Hrun|].
          erewrite bind_Ret by (by apply cache_do_ok).
          by apply cache_do_ok. }
        rewrite Ht. simpl. rewrite <- !app_assoc. simpl.
        destruct Ho as (?&?&?&?&?). by repeat split.
      + destruct (IH w1) as (w' & Hrun & Ht & He & Ho).
        exists w'. split.
        { erewrite bind_Ret; [exact Hrun|].
          erewrite bind_Ret by (by apply cache_do_ok). reflexivity. }
        rewrite Ht. simpl. rewrite <- !app_assoc. simpl.
        destruct Ho as (?&?&?&?&?). by repeat split. }
  destruct (Hloop w) as (w1 & Hrun & Ht & He & Ho).
  erewrite bind_Ret by exact Hrun. rewrite cache_do_ok by done.
  eexists. split; [reflexivity|]. simpl. rewrite Ht.
  destruct Ho as (?&?&?&?&?). split; [by rewrite <- !app_assoc|].
  by repeat split.
Qed.

(** What the failure path of a commit ends in, from [w]: with no call on
    the cache or the embedder before it, the caller's completion is failed
    with [exc], then the protocol is closed, then the client is
    disconnected from it (the embedder is told, the client is neither Ready
    nor attached to a protocol); the cache is not called again. *)
Definition failed_then_disconnected (w w' : world) (p : pid) (future : fid)
  (exc : pyval) : Prop :=
  (exists t0 t1 t2 t3,
     trace w' = trace w ++ t0 ++ EvResolve future (Failure exc) :: t1
                ++ EvCancelConnecting p :: t2
                ++ EvEmb notify_disconnected :: t3 /\
     forallb is_internal t0 = true) /\
  (exists P', protocols w' !! p = Some P' /\ p_closed P' = true) /\
  is_ready (client w') = false /\
  cur_protocol (client w') = None /\
  cache w' = cache w.

Lemma quiet_after_settled (w w' : world) (f g : fid) (out : outcome) :
  settled f out w w' -> g <> f -> quiet w g -> quiet w' g.
Proof.
  intros (_ & (o & _ & Hfu) & _) Hne (og & Hog & Hrest).
  exists og. split; [|done]. rewrite Hfu. by rewrite lookup_insert_ne.
Qed.

Lemma tpc_finish_failed_quiet (depth : nat) (w : world) (p : pid)
    (P : Protocol) (future : fid) (exc : pyval) :
  wf w -> embedder_reliable ->
  quiet w future ->
  cur_protocol (client w) = Some p ->
  protocols w !! p = Some P -> p_closed P = false ->
  quiet_pending w P -> future ∉ pending P ->
  c_protocols (client w) = [] ->
  is_class exc = false ->
  exists w', tpc_finish_failed (resume depth) future exc w = (w', Ret tt) /\
    failed_then_disconnected w w' p future exc.
Proof.
  intros Hwf He Hqf Hcur HP Hopen [Hnd Hq] Hnotin Hps Hexc.
  unfold tpc_finish_failed.
  destruct (set_exception_quiet (resume depth) w future exc Hqf Hexc)
    as (wa & Hruna & Hset).
  pose proof Hset as (Hsa & _ & evs & Hta & Heva).
  destruct Hsa as (Hca & Hpa & Hcaa & Hema & Hna & Hra).
  assert (Hwfa : wf wa).
  { pose proof (extends_set_exception (resume depth) (extends_resume depth)
                  future exc w Hwf) as [H _]. by rewrite Hruna in H. }
  erewrite bind_Ret by exact Hruna.
  erewrite bind_Ret by reflexivity. rewrite Hca, Hcur.
  destruct (Protocol_close_quiet (resume depth) wa p P)
    as (wb & evb & Hrunb & Hcb & Hcab & Hemb & Hnb & Hrb & Hpb & Htb & Hevb
        & _ & Hshape & _).
  { by rewrite Hpa. }
  { split; [done|]. intros g Hg. eapply quiet_after_settled; [done| |by apply Hq].
    intros ->. done. }
  destruct (Hshape Hopen) as [(evb' & ->) _].
  assert (Hwfb : wf wb).
  { pose proof (extends_Protocol_close (resume depth) (extends_resume depth)
                  p wa Hwfa) as [H _]. by rewrite Hrunb in H. }
  erewrite bind_Ret by exact Hrunb.
  erewrite bind_Ret by reflexivity. rewrite Hcb, Hca, Hcur.
  destruct (disconnected_current (resume depth) wb p He)
    as (w' & t & Hrun & Ht & Hi & Hr & _ & Hc' & _ & _ & Hca').
  { by rewrite Hcb, Hca. }
  { by rewrite Hcb, Hca. }
  exists w'. split; [exact Hrun|].
  pose proof (extends_disconnected (resume depth) (extends_resume depth)
                (Some p) wb Hwfb) as [_ [_ Hgrow]].
  rewrite Hrun in Hgrow. simpl in Hgrow.
  split; [|split; [|split; [done|split; [done|]]]].
  - exists [], evs, (evb' ++ [EvLog Debug "disconnected %r %r"]), t.
    split; [|done].
    rewrite Ht, Htb, Hta. repeat (rewrite <- app_assoc; simpl). done.
  - destruct (Hgrow p (closed_protocol P)) as (P' & HP' & Hcl').
    { rewrite Hpb, Hopen. apply lookup_insert_eq. }
    exists P'. split; [done|]. by apply Hcl'.
  - by rewrite Hca', Hcab, Hcaa.
Qed.

Lemma set_result_quiet (inv : cont -> fid -> M unit) (w : world) (f : fid)
    (v : pyval) :
  quiet w f ->
  exists w', set_result inv f v w = (w', Ret tt) /\
    settled f (Result v) w w'.
Proof.
  intros (o & Ho & Hd & Hk).
  erewrite set_result_pending by done.
  destruct (run_callbacks_quiet inv
              (upd_futures (insert f (set_fo_result v o))
                 (add_event (EvResolve f (Result v)) w)) f o Hk)
    as (w' & evs & Hrun & Hs & Hf & Ht & Hev).
  exists w'. split; [exact Hrun|]. split; [|split].
  - destruct Hs as (?&?&?&?&?&?). by repeat split.
  - exists o. split; [done|]. by rewrite Hf.
  - exists evs. split; [|done]. rewrite Ht. simpl. by rewrite <- app_assoc.
Qed.

(** The state in which a commit is issued and answered: the client is
    Ready on the open protocol [p], no other candidate is left (the current
    protocol is writable), identities and message ids are fresh, and the
    completions involved (the caller's and those pending on [p]) are quiet. *)
Definition commit_ready (w : world) (p : pid) (P : Protocol) (future : fid)
  : Prop :=
  wf w /\ futures w !! (next_id w : fid) = None /\
  is_ready (client w) = true /\ cur_protocol (client w) = Some p /\
  c_protocols (client w) = [] /\
  protocols w !! p = Some P /\ p_closed P = false /\
  p_futures P !! MsgInt (p_message_id P + 1) = None /\
  quiet w future /\ quiet_pending w P /\ (future ∉ pending P).

(** The state the generator is resumed in, or fails in: the reply's entry
    is popped, and only the [Fut] of the call has changed since [w]. *)
Lemma commit_resumed (w wh : world) (p : pid) (P : Protocol) (future : fid)
    (o : fut_obj) :
  commit_ready w p P future ->
  client wh = client w ->
  protocols wh = <[p := set_p_futures
                          (delete (MsgInt (p_message_id P + 1))
                             (p_futures (calling P (next_id w))))
                          (calling P (next_id w))]> (protocols w) ->
  futures wh = <[next_id w := o]> (futures w) ->
  next_id wh = S (next_id w) ->
  exists Ph, wf wh /\ quiet wh future /\ cur_protocol (client wh) = Some p /\
    protocols wh !! p = Some Ph /\ p_closed Ph = false /\
    quiet_pending wh Ph /\ (future ∉ pending Ph) /\
    c_protocols (client wh) = [].
Proof.
  intros (Hwf & Hfresh & Hr & Hcur & Hps & HP & Hopen & Hmid & Hqf & [Hnd Hq]
          & Hnotin) Hc Hp Hf Hn.
  assert (Hother : forall g, quiet w g -> quiet wh g).
  { intros g (og & Hog & Hrest). exists og. split; [|done].
    rewrite Hf. rewrite lookup_insert_ne; [done|]. intros <-.
    by rewrite Hfresh in Hog. }
  assert (Hpend : pending
            (set_p_futures
               (delete (MsgInt (p_message_id P + 1))
                  (p_futures (calling P (next_id w))))
               (calling P (next_id w))) = pending P).
  { unfold pending. simpl. by rewrite delete_insert_id. }
  eexists. split; [|split; [by apply Hother|split; [by rewrite Hc|]]].
  - intros q Hq'. rewrite Hp in Hq'. rewrite Hn.
    destruct (decide (p = q)) as [<-|Hne].
    + assert (p < next_id w) by (apply Hwf; by rewrite HP). lia.
    + rewrite lookup_insert_ne in Hq' by done. specialize (Hwf q Hq'). lia.
  - split; [rewrite Hp; apply lookup_insert_eq|].
    split; [exact Hopen|]. unfold quiet_pending. rewrite Hpend.
    split; [|split; [done|by rewrite Hc]].
    split; [done|]. intros g Hg. by apply Hother, Hq.
Qed.

Lemma failed_then_disconnected_from (w0 w w' : world) (p : pid) (future : fid)
    (exc : pyval) (t : list event) :
  trace w = trace w0 ++ t -> forallb is_internal t = true ->
  cache w = cache w0 ->
  failed_then_disconnected w w' p future exc ->
  failed_then_disconnected w0 w' p future exc.
Proof.
  intros Ht Hi Hc ((t0 & t1 & t2 & t3 & Htr & Hi0) & Hrest).
  split.
  - exists (t ++ t0), t1, t2, t3. split.
    + rewrite Htr, Ht. by rewrite <- !app_assoc.
    + by rewrite forallb_app, Hi, Hi0.
  - destruct Hrest as (?&?&?&?). repeat split; try done. congruence.
Qed.

(** C4.  A commit issued while the client is Ready writes the
    [tpc_finish(tid)] call on the current protocol and suspends.  When the
    server answers with [server_tid], every oid of [updates] is invalidated
    and the new revision stored for every update whose data is present and
    not resolved, then the cache's last tid is set to [server_tid], then
    [f(server_tid)] is called, then the caller's completion is resolved with
    [server_tid]; the client object is unchanged.  When the server answers
    with an exception, or when a cache update raises one, the completion is
    failed with it, the protocol is closed and the client disconnected from
    it ([failed_then_disconnected]). *)
Theorem tpc_finish_commits_or_disconnects
    (depth : nat) (w : world) (p : pid) (P : Protocol) (future : fid)
    (tid : pyval) (updates : list (pyval * pyval * pyval)) (f : nat) :
  commit_ready w p P future ->
  let k := K_tpc_finish future updates f in
  let w1 := issued p P "tpc_finish" [tid] k w in
  let reply := Frame (MsgInt (p_message_id P + 1)) false ".reply" in
  let resumed_with (v : pyval) :=
    resolved (next_id w) k (Result v)
      (popped p (calling P (next_id w)) (MsgInt (p_message_id P + 1)) w1) in
  tpc_finish_threadsafe (resume depth) future tid updates f w = (w1, Ret tt) /\
  (cache_reliable -> embedder_reliable ->
   forall server_tid, exception_reply server_tid = None ->
   exists w2 evs,
     message_received (resume (S depth)) p (reply server_tid) w1
       = (w2, Ret tt) /\
     trace w2 = trace (resumed_with server_tid)
                ++ update_calls server_tid updates
                ++ [EvCache (setLastTid server_tid);
                    EvEmb (on_commit f server_tid);
                    EvResolve future (Result server_tid)] ++ evs /\
     forallb is_call_soon evs = true /\
     client w2 = client w) /\
  (embedder_reliable ->
   forall c payload rest,
     cls_plain c = true -> issubclass c "Exception" = true ->
     isinstance payload "Exception" = true ->
     isinstance payload "BaseException" = true ->
     exists w2,
       message_received (resume (S depth)) p
         (reply (PTuple (PClass c :: payload :: rest))) w1 = (w2, Ret tt) /\
       failed_then_disconnected w1 w2 p future payload) /\
  (embedder_reliable ->
   forall server_tid exc wr,
     exception_reply server_tid = None ->
     tpc_finish_updates server_tid updates (resumed_with server_tid)
       = (wr, Raise exc) ->
     isinstance exc "Exception" = true ->
     exists w2,
       message_received (resume (S depth)) p (reply server_tid) w1
         = (w2, Ret tt) /\
       failed_then_disconnected wr w2 p future exc).
Proof.
  intros Hready k w1 reply resumed_with.
  pose proof Hready as (Hwf & Hfresh & Hr & Hcur & Hps & HP & Hopen & Hmid
                        & Hqf & Hqp & Hnotin).
  destruct (issued_pending p P "tpc_finish" [tid] k w) as (HP1 & Hf1 & Hpend1).
  fold w1 in HP1, Hpend1.
  assert (Hresume : forall v, exception_reply v = None ->
    message_received (resume (S depth)) p (reply v) w1
    = tpc_finish_resumed (resume depth) future updates f (inl v)
        (resumed_with v)).
  { intros v Hv. subst reply. cbv beta.
    erewrite message_received_result by done.
    subst k. unfold invoke_body.
    erewrite resume_generator_result by apply lookup_insert_eq. done. }
  split; [|split; [|split]].
  - unfold tpc_finish_threadsafe. erewrite bind_Ret by reflexivity.
    rewrite Hr, Hcur. unfold try_except, try_except_else.
    by erewrite yield_fut_issued.
  - (* the server answers with its tid *)
    intros Hc He server_tid Hv. rewrite (Hresume _ Hv).
    edestruct (commit_resumed w (resumed_with server_tid) p P future)
      as (Ph & Hwfh & Hqh & Hcurh & HPh & Hopenh & Hqph & Hnotinh & Hpsh);
      [exact Hready|done|by apply insert_insert_eq
      |by apply insert_insert_eq|done|].
    unfold tpc_finish_resumed, try_except_else.
    destruct (tpc_finish_updates_ok server_tid updates
                (resumed_with server_tid) Hc)
      as (wu & Hrunu & Htu & Hemu & Hclu & Hpsu & Hfsu & Hnu & Hru).
    erewrite bind_Ret by exact Hrunu. unfold ret. cbv beta iota.
    erewrite bind_Ret by (by apply emb_do_ok).
    set (we := set_embedder _ _).
    destruct (set_result_quiet (resume depth) we future server_tid)
      as (w2 & Hrun2 & (Hc2 & _) & _ & evs & Ht2 & Hev2).
    { destruct Hqh as (o & Ho & Hrest). exists o. split; [|done].
      subst we. simpl. by rewrite Hfsu. }
    exists w2, evs. split; [exact Hrun2|]. split; [|split; [done|]].
    + rewrite Ht2. subst we. simpl. rewrite Htu.
      repeat (rewrite <- app_assoc; simpl). done.
    + rewrite Hc2. subst we. simpl. by rewrite Hclu.
  - (* the server answers with an exception *)
    intros He c payload rest Hplain Hsub Hexc Hbase.
    subst reply. cbv beta.
    erewrite message_received_failure by done.
    set (wh := resolved _ _ (Failure payload) _).
    subst k. unfold invoke_body.
    destruct (resume_generator_failure wh (next_id w)
                (K_tpc_finish future updates f) payload
                (tpc_finish_resumed (resume depth) future updates f))
      as (e' & He' & Heq & ->); [apply lookup_insert_eq|done|].
    rewrite (Heq Hbase).
    unfold tpc_finish_resumed, try_except_else, raise. rewrite Hexc.
    edestruct (commit_resumed w wh p P future)
      as (Ph & Hwfh & Hqh & Hcurh & HPh & Hopenh & Hqph & Hnotinh & Hpsh);
      [exact Hready
      |subst wh; by destruct (known_data_error c)
      |subst wh; destruct (known_data_error c); by apply insert_insert_eq
      |subst wh; destruct (known_data_error c); by apply insert_insert_eq
      |subst wh; by destruct (known_data_error c)|].
    destruct (tpc_finish_failed_quiet depth wh p Ph future payload)
      as (w2 & Hrun & Hfd); try done;
      [by apply (isinstance_not_class payload "Exception")|].
    exists w2. split; [exact Hrun|].
    apply (failed_then_disconnected_from w1 wh w2 p future payload
             ((if known_data_error c then []
               else [EvLog Error "%s from server: %s.%s:%s"])
              ++ [EvResolve (next_id w) (Failure payload)]));
      [| | |exact Hfd].
    + subst wh. destruct (known_data_error c); simpl;
        [|rewrite <- app_assoc]; reflexivity.
    + by destruct (known_data_error c).
    + subst wh. by destruct (known_data_error c).
  - (* a cache update raises *)
    intros He server_tid exc wr Hv Hupd Hexc.
    rewrite (Hresume _ Hv). unfold tpc_finish_resumed, try_except_else.
    erewrite bind_Raise by exact Hupd. rewrite Hexc.
    destruct (external_only_tpc_finish_updates server_tid updates
                (resumed_with server_tid))
      as [(Hclu & Hpsu & Hfsu & Hnu & Hru) _].
    rewrite Hupd in Hclu, Hpsu, Hfsu, Hnu. simpl in Hclu, Hpsu, Hfsu, Hnu.
    edestruct (commit_resumed w wr p P future)
      as (Ph & Hwfh & Hqh & Hcurh & HPh & Hopenh & Hqph & Hnotinh & Hpsh);
      [exact Hready|by rewrite Hclu
      |rewrite Hpsu; by apply insert_insert_eq
      |rewrite Hfsu; by apply insert_insert_eq|by rewrite Hnu|].
    destruct (tpc_finish_failed_quiet depth wr p Ph future exc)
      as (w2 & Hrun & Hfd); try done;
      [by apply (isinstance_not_class exc "Exception")|].
    by exists w2.
Qed.

(** ** Closing candidates; upgrade ([Client.registered], [Client.upgrade]) *)

(** The candidates of [l] other than [keep] have quiet pending completions,
    and no completion is pending on two protocols. *)
Definition candidates_quiet (w : world) (l : list pid) (keep : pid) : Prop :=
  forall q, q ∈ l -> q <> keep ->
    exists Q, protocols w !! q = Some Q /\ quiet_pending w Q /\
      forall q' Q', q' <> q -> protocols w !! q' = Some Q' ->
        forall f, f ∈ pending Q -> f ∉ pending Q'.

(** A completion pending on none of the candidates. *)
Definition not_pending_on (w : world) (l : list pid) (keep : pid) (g : fid)
  : Prop :=
  forall q Q, q ∈ l -> q <> keep -> protocols w !! q = Some Q -> g ∉ pending Q.

Lemma pending_closed (P : Protocol) : pending (closed_protocol P) = [].
Proof. unfold pending, closed_protocol. simpl. by rewrite map_to_list_empty. Qed.

(** Closing one candidate: it ends closed, the others and the client are
    as they were, and the remaining candidates are still quiet. *)
Lemma close_candidate (inv : cont -> fid -> M unit) (w : world)
    (l : list pid) (keep q : pid) :
  candidates_quiet w l keep -> q ∈ l -> q <> keep ->
  exists w' evs, Protocol_close inv q w = (w', Ret tt) /\
    candidates_quiet w' l keep /\
    client w' = client w /\ cache w' = cache w /\ embedder w' = embedder w /\
    next_id w' = next_id w /\
    trace w' = trace w ++ evs /\ forallb is_internal evs = true /\
    protocol_closed w' q = true /\
    (forall q', protocol_closed w q' = true -> protocol_closed w' q' = true) /\
    (forall q', q' <> q -> protocols w' !! q' = protocols w !! q') /\
    (forall g, not_pending_on w l keep g ->
       futures w' !! g = futures w !! g /\ not_pending_on w' l keep g).
Proof.
  intros Hcq Hq Hne. destruct (Hcq q Hq Hne) as (Q & HQ & Hqp & Hdis).
  destruct (Protocol_close_quiet inv w q Q HQ Hqp)
    as (w' & evs & Hrun & Hc & Hca & Hem & Hn & Hr & Hps & Ht & Hev & Hsame
        & _ & Hfut).
  exists w', evs. split; [exact Hrun|].
  assert (Hother : forall q', q' <> q -> protocols w' !! q' = protocols w !! q').
  { intros q' Hq'. rewrite Hps. destruct (p_closed Q); [done|].
    by rewrite lookup_insert_ne. }
  assert (Hself : exists Q1, protocols w' !! q = Some Q1 /\ p_closed Q1 = true
                    /\ (p_closed Q = true -> Q1 = Q)
                    /\ (p_closed Q = false -> Q1 = closed_protocol Q)).
  { rewrite Hps. destruct (p_closed Q) eqn:Hcl.
    - exists Q. by repeat split.
    - exists (closed_protocol Q). rewrite lookup_insert_eq. by repeat split. }
  destruct Hself as (Q1 & HQ1 & Hcl1 & Hwas & Hnow).
  assert (Hcq' : candidates_quiet w' l keep);
    [|split; [exact Hcq'|];
      split; [done|]; split; [done|]; split; [done|]; split; [done|];
      split; [done|]; split; [done|];
      split; [|split; [|split; [exact Hother|]]]].
  - intros r Hr' Hrne. destruct (decide (r = q)) as [->|Hrq].
    + exists Q1. split; [done|]. destruct (p_closed Q) eqn:Hcl.
      * rewrite (Hwas eq_refl). rewrite (Hsame eq_refl). split; [done|].
        intros q' Q' Hq' HQ'. by apply (Hdis q' Q').
      * rewrite (Hnow eq_refl). unfold quiet_pending.
        rewrite pending_closed. split.
        { split; [constructor|]. intros f Hf. by apply elem_of_nil in Hf. }
        intros q' Q' _ _ f Hf. by apply elem_of_nil in Hf.
    + destruct (Hcq r Hr' Hrne) as (R & HR & [Hnd Hqr] & Hdr).
      exists R. rewrite (Hother r Hrq). split; [done|]. split.
      * split; [done|]. intros f Hf.
        destruct (Hqr f Hf) as (o & Ho & Hrest). exists o. split; [|done].
        rewrite Hfut; [done|]. by apply (Hdr q Q).
      * intros q' Q' Hq' HQ' f Hf. destruct (decide (q' = q)) as [->|Hq'q].
        { rewrite HQ1 in HQ'. injection HQ' as <-.
          destruct (p_closed Q) eqn:Hcl.
          - rewrite (Hwas eq_refl). by apply (Hdr q Q).
          - rewrite (Hnow eq_refl), pending_closed. apply not_elem_of_nil. }
        rewrite (Hother q' Hq'q) in HQ'. by apply (Hdr q' Q').
  - unfold protocol_closed. by rewrite HQ1.
  - intros q'. unfold protocol_closed. destruct (decide (q' = q)) as [->|Hq'].
    + by rewrite HQ1.
    + by rewrite (Hother q' Hq').
  - intros g Hg. split; [apply Hfut; by apply (Hg q Q)|].
    intros r R Hr' Hrne HR. destruct (decide (r = q)) as [->|Hrq].
    + rewrite HQ1 in HR. injection HR as <-. destruct (p_closed Q) eqn:Hcl.
      * rewrite (Hwas eq_refl). by apply (Hg q Q).
      * rewrite (Hnow eq_refl), pending_closed. apply not_elem_of_nil.
    + rewrite (Hother r Hrq) in HR. by apply (Hg r R).
Qed.

(** [_clear_protocols]' loop over candidates with quiet pending
    completions: all but [keep] end closed. *)
Lemma close_candidates (inv : cont -> fid -> M unit) (l l0 : list pid)
    (keep : pid) (w : world) :
  candidates_quiet w l keep -> (forall q, q ∈ l0 -> q ∈ l) ->
  exists w' evs,
    for_each l0 (fun q => if bool_decide (Some q = Some keep) then ret tt
                          else Protocol_close inv q) w = (w', Ret tt) /\
    candidates_quiet w' l keep /\
    client w' = client w /\ cache w' = cache w /\ embedder w' = embedder w /\
    next_id w' = next_id w /\
    trace w' = trace w ++ evs /\ forallb is_internal evs = true /\
    (forall q, q ∈ l0 -> q <> keep -> protocol_closed w' q = true) /\
    (forall q, protocol_closed w q = true -> protocol_closed w' q = true) /\
    protocols w' !! keep = protocols w !! keep /\
    (forall g, not_pending_on w l keep g ->
       futures w' !! g = futures w !! g /\ not_pending_on w' l keep g).
Proof.
  revert w. induction l0 as [|q l0 IH]; intros w Hcq Hsub; simpl.
  - exists w, []. rewrite app_nil_r. split; [done|]. split; [done|].
    do 6 (split; [done|]).
    split; [intros q Hq; by apply elem_of_nil in Hq|].
    split; [done|]. split; [done|]. intros g Hg. by split.
  - destruct (decide (q = keep)) as [->|Hne].
    + rewrite bool_decide_eq_true_2 by done.
      destruct (IH w Hcq) as
        (w' & evs & Hrun & Hcq' & Hc & Hca & Hem & Hn & Ht & Hi & Hcl
         & Hmono & Hkeep & Hfut).
      { intros r Hr. apply Hsub. by right. }
      exists w', evs. split; [by erewrite bind_Ret by reflexivity|].
      do 7 (split; [done|]).
      split; [|split; [exact Hmono|split; [exact Hkeep|exact Hfut]]].
      intros r Hr Hrk. apply elem_of_cons in Hr as [->|Hr]; [done|].
      by apply Hcl.
    + rewrite bool_decide_eq_false_2 by (intros [=]; done).
      destruct (close_candidate inv w l keep q Hcq) as
        (w1 & evs1 & Hrun1 & Hcq1 & Hc1 & Hca1 & Hem1 & Hn1 & Ht1 & Hi1
         & Hcl1 & Hmono1 & Hoth1 & Hfut1); [apply Hsub; by left|done|].
      destruct (IH w1 Hcq1) as
        (w' & evs & Hrun & Hcq' & Hc & Hca & Hem & Hn & Ht & Hi & Hcl
         & Hmono & Hkeep & Hfut).
      { intros r Hr. apply Hsub. by right. }
      exists w', (evs1 ++ evs). split; [by erewrite bind_Ret by exact Hrun1|].
      split; [done|]. do 4 (split; [congruence|]).
      split; [rewrite Ht, Ht1; by rewrite <- app_assoc|].
      split; [by rewrite forallb_app, Hi1, Hi|].
      split; [|split; [|split]].
      * intros r Hr Hrk. apply elem_of_cons in Hr as [->|Hr].
        { by apply Hmono. }
        by apply Hcl.
      * intros r Hr. by apply Hmono, Hmono1.
      * rewrite Hkeep. apply Hoth1. congruence.
      * intros g Hg. destruct (Hfut1 g Hg) as [Hg1 Hnp1].
        destruct (Hfut g Hnp1) as [Hg' Hnp']. split; [congruence|done].
Qed.

Lemma quiet_ext (w w' : world) (f : fid) :
  futures w' !! f = futures w !! f -> quiet w f -> quiet w' f.
Proof. intros H (o & Ho & Hrest). exists o. by rewrite H. Qed.

Lemma candidates_quiet_ext (w w' : world) (l : list pid) (keep : pid) :
  protocols w' = protocols w ->
  (forall f, is_Some (futures w !! f) -> futures w' !! f = futures w !! f) ->
  candidates_quiet w l keep -> candidates_quiet w' l keep.
Proof.
  intros Hp Hf Hcq q Hq Hne. destruct (Hcq q Hq Hne) as (Q & HQ & [Hnd Hqp] & Hd).
  exists Q. rewrite Hp. split; [done|]. split; [|done].
  split; [done|]. intros f Hin. eapply quiet_ext; [|by apply Hqp].
  apply Hf. destruct (Hqp f Hin) as (o & Ho & _). by rewrite Ho.
Qed.


(** ** Connection loss ([Protocol.connection_lost], [Protocol.close]) *)

Lemma bind_Ret_inv {A B} (m : M A) (k : A -> M B) (w w' : world) (b : B) :
  bind m k w = (w', Ret b) ->
  exists w1 a, m w = (w1, Ret a) /\ k a w1 = (w', Ret b).
Proof.
  unfold bind. destruct (m w) as [w1 [a|e|]]; [|done..].
  intros H. by exists w1, a.
Qed.

(** Whatever the callbacks of the completions do, failing them one after
    the other records each failure, if the loop comes to its end. *)
Lemma failures_recorded (depth : nat) (e : pyval) (l : list fid)
    (w w' : world) :
  is_class e = false ->
  wf w ->
  for_each l (fun f => set_exception (resume depth) f e) w = (w', Ret tt) ->
  wf w' /\ trace w `prefix_of` trace w' /\
  forall f, f ∈ l -> In (EvResolve f (Failure e)) (trace w').
Proof.
  intros He.
  revert w. induction l as [|f l IH]; intros w Hwf Hrun; simpl in Hrun.
  - injection Hrun as <-. split; [done|]. split; [done|].
    intros f Hf. by apply elem_of_nil in Hf.
  - apply bind_Ret_inv in Hrun as (w1 & [] & Hrun1 & Hrun).
    pose proof (extends_set_exception (resume depth) (extends_resume depth)
                  f e w Hwf) as [Hwf1 [Hpre1 _]].
    rewrite Hrun1 in Hwf1, Hpre1. simpl in Hwf1, Hpre1.
    destruct (IH w1 Hwf1 Hrun) as (Hwf' & Hpre & Hin).
    split; [done|]. split; [by etrans|].
    intros g Hg. apply elem_of_cons in Hg as [->|Hg]; [|by apply Hin].
    assert (Hin1 : In (EvResolve f (Failure e)) (trace w1)).
    { unfold set_exception in Hrun1.
      apply bind_Ret_inv in Hrun1 as (wa & o & Hga & Hrun1).
      assert (wa = w) as ->.
      { unfold get_future in Hga. by repeat case_match; simplify_eq. }
      apply bind_Ret_inv in Hrun1 as (wb & [] & Hcb & Hrun1).
      assert (wb = w) as ->.
      { unfold check_pending, ret, raise in Hcb.
        by repeat case_match; simplify_eq. }
      cbv zeta in Hrun1.
      rewrite (recorded_exception_not_class _ e He) in Hrun1.
      apply bind_Ret_inv in Hrun1 as (wc & [] & Hem & Hrun1).
      injection Hem as <-.
      apply bind_Ret_inv in Hrun1 as (wd & [] & Hput & Hrun1).
      injection Hput as <-.
      set (wd := upd_futures _ _) in Hrun1.
      assert (Hwfd : wf wd) by exact Hwf.
      pose proof (extends_run_callbacks (resume depth) (extends_resume depth)
                    f o wd Hwfd) as [_ [[t Ht] _]].
      rewrite Hrun1 in Ht. simpl in Ht. rewrite Ht.
      apply in_or_app. left. apply in_or_app. right. by left. }
    destruct Hpre as [t ->]. apply in_or_app. by left.
Qed.

(** [disconnected] logs its call first. *)
Lemma disconnected_entered (depth : nat) (protocol : option pid) (w : world) :
  wf w ->
  In (EvLog Debug "disconnected %r %r")
    (trace (fst (disconnected (resume depth) protocol w))).
Proof.
  intros Hwf. unfold disconnected. erewrite bind_Ret by reflexivity.
  match goal with |- context [bind the_client ?k] =>
    assert (Hext : extends (bind the_client k)) end.
  { ext; apply extends_clear_protocols, extends_resume. }
  destruct (Hext (add_event (EvLog Debug "disconnected %r %r") w))
    as [_ [[t Ht] _]]; [exact Hwf|].
  rewrite Ht. apply in_or_app. left. apply in_or_app. right. by left.
Qed.

(** The exception pending completions are failed with on connection loss. *)
Definition connection_lost_error (exc : pyval) : pyval :=
  ClientDisconnected [if truthy exc then exc else PStr "connection lost"].


(** A world whose protocols are listed with identities below the next one
    is well-formed. *)
Lemma wf_list_to_map (w : world) (l : list (pid * Protocol)) :
  protocols w = list_to_map l ->
  Forall (fun x => fst x < next_id w) l -> wf w.
Proof.
  intros Hp Hl q [Q HQ]. rewrite Hp in HQ.
  apply elem_of_list_to_map_2 in HQ.
  rewrite Forall_forall in Hl. by apply (Hl (q, Q)).
Qed.

(** A protocol with nothing pending has quiet pending completions. *)
Lemma quiet_pending_empty (w : world) (P : Protocol) :
  p_futures P = ∅ -> quiet_pending w P.
Proof.
  intros H. unfold quiet_pending, pending. rewrite H, map_to_list_empty.
  split; [constructor|]. intros f Hf. by apply elem_of_nil in Hf.
Qed.

(** * Further properties of the protocol and the client *)

(** ** Closing a protocol, and replies that come late *)

(** X1.  [Protocol.close()] marks the protocol closed before it fails the
    pending completions.  So whatever their callbacks do, and even when one
    of them raises, the protocol is closed once [close()] is over, and
    closing it again changes nothing. *)
Theorem Protocol_close_idempotent
    (depth : nat) (w : world) (p : pid) (P : Protocol) :
  wf w -> protocols w !! p = Some P ->
  let w' := fst (Protocol_close (resume depth) p w) in
  protocol_closed w' p = true /\
  Protocol_close (resume depth) p w' = (w', Ret tt).
Proof.
  intros Hwf HP w'.
  assert (Hclosed : exists P', protocols w' !! p = Some P' /\ p_closed P' = true).
  { subst w'. unfold Protocol_close.
    erewrite bind_Ret by (by apply get_protocol_Some).
    destruct (p_closed P) eqn:Hcl; [by exists P|].
    erewrite bind_Ret by (by apply upd_protocol_Some).
    set (w1 := upd_protocols (insert p (set_p_closed true P)) w).
    set (rest := bind (emit (EvCancelConnecting p)) _).
    assert (Hext : extends rest).
    { subst rest.
      pose proof (extends_set_exception (resume depth) (extends_resume depth)).
      ext. }
    destruct (Hext w1) as [_ [_ Hg]]; [by eapply wf_insert_protocol|].
    destruct (Hg p (set_p_closed true P)) as (P' & HP' & Hc);
      [apply lookup_insert_eq|].
    exists P'. split; [done|]. by apply Hc. }
  destruct Hclosed as (P' & HP' & Hc).
  split; [unfold protocol_closed; by rewrite HP'|].
  unfold Protocol_close.
  erewrite bind_Ret by (by apply get_protocol_Some). by rewrite Hc.
Qed.

(** X2.  A reply is delivered once.  When the completion waiting for the
    reply to [m] is quiet, the reply resolves it; the same frame received
    again finds no entry and raises [KeyError(m)], changing nothing.  The
    same holds for every reply that arrives after [close()], which has
    emptied the table. *)
Theorem late_reply_raises_KeyError
    (inv : cont -> fid -> M unit) (w : world) (p : pid) (P : Protocol) :
  protocols w !! p = Some P ->
  (forall m a args f,
     p_futures P !! m = Some f -> quiet w f ->
     exists w',
       message_received inv p (Frame m a ".reply" args) w = (w', Ret tt) /\
       message_received inv p (Frame m a ".reply" args) w'
         = (w', Raise (KeyError (msgid_value m)))) /\
  (p_closed P = false -> quiet_pending w P ->
   exists w',
     Protocol_close inv p w = (w', Ret tt) /\
     forall m a args,
       message_received inv p (Frame m a ".reply" args) w'
         = (w', Raise (KeyError (msgid_value m)))).
Proof.
  intros HP. split.
  - intros m a args f Hf Hq.
    set (P1 := set_p_futures (delete m (p_futures P)) P).
    set (w1 := upd_protocols (insert p P1) w).
    assert (Hq1 : quiet w1 f) by done.
    assert (Hstep : exists w' : world,
              message_received inv p (Frame m a ".reply" args) w = (w', Ret tt) /\
              protocols w' = protocols w1).
    { unfold message_received. simpl.
      erewrite bind_Ret by (by apply get_protocol_Some). rewrite Hf.
      erewrite bind_Ret by (by apply upd_protocol_Some). fold P1 w1.
      destruct (exception_reply args) as [[c payload]|].
      - assert (Hlog : exists w2 : world,
                  (if negb (known_data_error c)
                   then log Error "%s from server: %s.%s:%s" else ret tt) w1
                  = (w2, Ret tt) /\ protocols w2 = protocols w1 /\
                  futures w2 = futures w1).
        { destruct (known_data_error c); simpl; by eexists. }
        destruct Hlog as (w2 & Hlog & Hp2 & Hf2).
        erewrite bind_Ret by exact Hlog.
        destruct (set_exception_quiet_recorded inv w2 f payload)
          as (w' & o' & _ & Hrun & (_ & Hps & _) & _).
        { destruct Hq1 as (o & Ho & Hrest). exists o. by rewrite Hf2. }
        exists w'. split; [exact Hrun|]. by rewrite Hps.
      - destruct (set_result_quiet inv w1 f args Hq1)
          as (w' & Hrun & (_ & Hps & _) & _).
        exists w'. split; [exact Hrun|]. by rewrite Hps. }
    destruct Hstep as (w' & Hrun & Hps).
    exists w'. split; [exact Hrun|].
    unfold message_received. simpl.
    erewrite bind_Ret; cycle 1.
    { apply get_protocol_Some. rewrite Hps. apply lookup_insert_eq. }
    subst P1. simpl. by rewrite lookup_delete_eq.
  - intros Hcl Hq.
    destruct (Protocol_close_quiet inv w p P HP Hq)
      as (w' & evs & Hrun & _ & _ & _ & _ & _ & Hps & _).
    rewrite Hcl in Hps.
    exists w'. split; [exact Hrun|]. intros m a args.
    unfold message_received. simpl.
    erewrite bind_Ret; cycle 1.
    { apply get_protocol_Some. rewrite Hps. apply lookup_insert_eq. }
    simpl. by rewrite lookup_empty.
Qed.


(** ** Calls made by the server *)

(** X3.  A frame that is not a reply reaches the client only as one of the
    six methods of [client_methods], and only when it is marked async: a
    frame not marked async raises [AssertionError], an unknown name raises
    [AttributeError(name)], both without any effect; the four delegated
    names go to the embedder with the arguments of the frame, and the two
    others to the client's own handlers. *)
Theorem server_call_dispatch
    (inv : cont -> fid -> M unit) (w : world) (p : pid) (m : msgid)
    (a : bool) (name : string) (args : pyval) :
  name <> ".reply" ->
  let data := Frame m a name args in
  (a = false ->
   message_received inv p data w = (w, Raise (AssertionError []))) /\
  (a = true -> ~ In name client_methods ->
   message_received inv p data w = (w, Raise (AttributeError name))) /\
  (a = true -> In name client_delegated ->
   forall l, py_iter args = Some l ->
     message_received inv p data w = emb_do (emb_delegated name args) w) /\
  (a = true -> name = "invalidateTransaction" ->
   forall tid oids, py_iter args = Some [tid; oids] ->
     message_received inv p data w = invalidateTransaction tid oids w) /\
  (a = true -> name = "serialnos" ->
   forall serials, py_iter args = Some [serials] ->
     message_received inv p data w = serialnos serials w).
Proof.
  intros Hname data. subst data.
  assert (Hnr : String.eqb name ".reply" = false)
    by (by apply String.eqb_neq).
  unfold message_received. cbn [f_name f_async f_args f_msgid]. rewrite Hnr.
  split; [by intros ->|].
  split.
  { intros -> Hnot. cbn [negb].
    destruct (existsb (String.eqb name) client_methods) eqn:Hex; [|done].
    exfalso. apply Hnot.
    apply existsb_exists in Hex as (x & Hin & Hx).
    apply String.eqb_eq in Hx. by subst x. }
  split.
  { intros -> Hin l Hl. cbn [negb].
    unfold client_delegated, client_methods in Hin. simpl in Hin.
    unfold call_client_method. rewrite Hl.
    destruct Hin as [<-|[<-|[<-|[<-|[]]]]]; reflexivity. }
  split.
  - intros -> -> tid oids Hl. cbn [negb]. simpl.
    unfold call_client_method. by rewrite Hl.
  - intros -> -> serials Hl. cbn [negb]. simpl.
    unfold call_client_method. by rewrite Hl.
Qed.

(** The oids of [pairs] whose serial is an exception instance. *)
Definition failed_oids (pairs : list (pyval * pyval)) : list pyval :=
  (List.filter (fun pr => isinstance (snd pr) "Exception") pairs).*1.

(** X4.  [serialnos(serials)] invalidates in the cache, with no tid, the
    oid of every pair whose serial is an exception instance, in order, and
    then forwards the whole list to the embedder.  It does so whether the
    client is Ready or not, and touches nothing else. *)
Theorem serialnos_invalidates_failed
    (w : world) (serials : pyval) (l : list pyval)
    (pairs : list (pyval * pyval)) :
  cache_reliable -> embedder_reliable ->
  py_iter serials = Some l ->
  Forall2 (fun v pr => py_iter v = Some [fst pr; snd pr]) l pairs ->
  exists w', serialnos serials w = (w', Ret tt) /\
    trace w' = trace w
               ++ map (fun oid => EvCache (invalidate oid PNone))
                    (failed_oids pairs)
               ++ [EvEmb (emb_serialnos serials)] /\
    only_external w w'.
Proof.
  intros Hc He Hl Hpairs. unfold serialnos, for_in. rewrite Hl.
  assert (Hloop : exists w1 : world,
    for_each l (fun pair =>
      p <- unpack2 pair ;;
      if isinstance (snd p) "Exception"
      then cache_do (invalidate (fst p) PNone) else ret tt) w = (w1, Ret tt) /\
    trace w1 = trace w ++ map (fun oid => EvCache (invalidate oid PNone))
                            (failed_oids pairs) /\
    embedder w1 = embedder w /\ only_external w w1).
  { clear Hl. revert w. induction Hpairs as [|v pr l pairs Hv _ IH]; intros w.
    - exists w. simpl. rewrite app_nil_r. by repeat split.
    - simpl. unfold failed_oids. simpl.
      destruct (isinstance (snd pr) "Exception") eqn:Hexc.
      + destruct (IH (set_cache (fst (cache_step (invalidate (fst pr) PNone)
                                        (cache w)))
                        (add_event (EvCache (invalidate (fst pr) PNone)) w)))
          as (w1 & Hrun & Ht & Hem & Ho).
        exists w1. split.
        { erewrite bind_Ret; [exact Hrun|].
          erewrite bind_Ret by (unfold unpack2; by rewrite Hv).
          simpl. rewrite Hexc. by apply cache_do_ok. }
        split; [|split; [done|]].
        * rewrite Ht. simpl. by rewrite <- app_assoc.
        * destruct Ho as (?&?&?&?&?). by repeat split.
      + destruct (IH w) as (w1 & Hrun & Ht & Hem & Ho).
        exists w1. split; [|split; [exact Ht|split; [exact Hem|exact Ho]]].
        erewrite bind_Ret; [exact Hrun|].
        erewrite bind_Ret by (unfold unpack2; by rewrite Hv).
        simpl. by rewrite Hexc. }
  destruct Hloop as (w1 & Hrun & Ht & Hem & Ho).
  erewrite bind_Ret by exact Hrun.
  rewrite emb_do_ok by done.
  eexists. split; [reflexivity|]. simpl. split.
  - rewrite Ht. by rewrite <- app_assoc.
  - destruct Ho as (?&?&?&?&?). by repeat split.
Qed.


(** ** Registration in [Fallback] mode *)

(** X5.  How a protocol resolves its read-only mode when the reply to
    [register] arrives ([finish_connect], after its first [yield]).
    - The server refuses with [ReadOnlyError] and the mode is [Fallback]:
      the protocol becomes read-only and registers again, read-only this
      time; the client is not told.
    - The server refuses and the mode is definite: the failure goes to the
      client's [register_failed], and nothing is written.
    - The server accepts: a [Fallback] protocol becomes writable, a definite
      one keeps its mode, and the client's [registered] runs; the mode it
      sees is never [Fallback]. *)
Theorem register_reply_resolves_mode
    (depth : nat) (w : world) (p : pid) (P : Protocol) (m : msgid) (a : bool)
    (f : fid) :
  protocols w !! p = Some P ->
  p_futures P !! m = Some f ->
  pending_fut w f (K_register p) ->
  let reply := Frame m a ".reply" in
  (forall c payload rest,
     cls_plain c = true -> issubclass c "Exception" = true ->
     isinstance payload "ZODB.POSException.ReadOnlyError" = true ->
     isinstance payload "Exception" = true ->
     isinstance payload "BaseException" = true ->
     p_read_only P = RoFallback ->
     exists w' P' f',
       message_received (resume (S depth)) p
         (reply (PTuple (PClass c :: payload :: rest))) w = (w', Ret tt) /\
       client w' = client w /\
       protocols w' !! p = Some P' /\ p_read_only P' = RoTrue /\
       p_closed P' = p_closed P /\
       p_futures P' !! MsgInt (p_message_id P + 1) = Some f' /\
       pending_fut w' f' (K_register_ro p) /\
       trace w' = trace w
         ++ (if known_data_error c then []
             else [EvLog Error "%s from server: %s.%s:%s"])
         ++ [EvResolve f (Failure payload);
             EvWrite p (WFrame (Frame (MsgInt (p_message_id P + 1)) false
                                  "register"
                                  (PTuple [PStr (p_storage_key P);
                                           PBool true])))]) /\
  (forall c payload rest,
     cls_plain c = true -> issubclass c "Exception" = true ->
     isinstance payload "Exception" = true ->
     isinstance payload "BaseException" = true ->
     p_read_only P <> RoFallback ->
     exists wh,
       message_received (resume (S depth)) p
         (reply (PTuple (PClass c :: payload :: rest))) w
         = register_failed (resume depth) (ArgProtocol (Some p)) payload wh /\
       client wh = client w /\
       protocols wh = <[p := set_p_futures (delete m (p_futures P)) P]>
                        (protocols w) /\
       existsb is_write (drop (length (trace w)) (trace wh)) = false) /\
  (forall server_tid, exception_reply server_tid = None ->
     exists w2 P2,
       message_received (resume (S depth)) p (reply server_tid) w
         = registered (resume depth) p server_tid w2 /\
       client w2 = client w /\
       protocols w2 !! p = Some P2 /\
       p_read_only P2 = (if is_Fallback (p_read_only P) then RoFalse
                         else p_read_only P) /\
       p_read_only P2 <> RoFallback /\
       trace w2 = trace w ++ [EvResolve f (Result server_tid)]).
Proof.
  intros HP Hf Hpend reply.
  set (P0 := set_p_futures (delete m (p_futures P)) P).
  split; [|split].
  - intros c payload rest Hplain Hsub Hro Hexc Hbase Hfb. subst reply. cbv beta.
    erewrite message_received_failure by done.
    set (wh := resolved f (K_register p) (Failure payload) _).
    assert (HPh : protocols wh !! p = Some P0).
    { subst wh. destruct (known_data_error c); apply lookup_insert_eq. }
    assert (Hch : client wh = client w)
      by (subst wh; by destruct (known_data_error c)).
    assert (Hth : trace wh = trace w
              ++ (if known_data_error c then []
                  else [EvLog Error "%s from server: %s.%s:%s"])
              ++ [EvResolve f (Failure payload)]).
    { subst wh. destruct (known_data_error c); simpl; [done|].
      by rewrite <- app_assoc. }
    unfold invoke_body.
    destruct (resume_generator_failure wh f (K_register p) payload
                (finish_connect_registered (resume depth) p))
      as (e' & _ & He' & Hgen); [apply lookup_insert_eq|done|].
    rewrite Hgen, (He' Hbase). clear Hgen He' e'.
    unfold finish_connect_registered.
    erewrite bind_Ret by (by apply get_protocol_Some).
    rewrite Hro. replace (p_read_only P0) with RoFallback by done.
    cbn [is_Fallback andb].
    erewrite bind_Ret by (by apply upd_protocol_Some).
    set (P1 := set_p_read_only RoTrue P0).
    set (w1 := upd_protocols (insert p P1) wh).
    assert (HP1 : protocols w1 !! p = Some P1) by apply lookup_insert_eq.
    rewrite (yield_fut_issued (resume depth) w1 p P1 "register"
               [PStr (p_storage_key P0); PBool true] K_register_ro HP1).
    destruct (issued_pending p P1 "register"
                [PStr (p_storage_key P0); PBool true] (K_register_ro p) w1)
      as (HPi & Hfi & Hpi).
    eexists _, (calling P1 (next_id w1)), (next_id w1).
    split; [reflexivity|].
    split; [done|]. split; [exact HPi|]. split; [done|]. split; [done|].
    split; [exact Hfi|]. split; [exact Hpi|].
    transitivity (trace wh ++ [EvWrite p (call_frame P1 "register"
                    [PStr (p_storage_key P0); PBool true])]); [reflexivity|].
    rewrite Hth. by rewrite <- !app_assoc.
  - intros c payload rest Hplain Hsub Hexc Hbase Hdef. subst reply. cbv beta.
    erewrite message_received_failure by done.
    set (wh := resolved f (K_register p) (Failure payload) _).
    assert (HPh : protocols wh !! p = Some P0).
    { subst wh. destruct (known_data_error c); apply lookup_insert_eq. }
    unfold invoke_body.
    destruct (resume_generator_failure wh f (K_register p) payload
                (finish_connect_registered (resume depth) p))
      as (e' & _ & He' & Hgen); [apply lookup_insert_eq|done|].
    rewrite Hgen, (He' Hbase). clear Hgen He' e'.
    exists wh. split.
    { unfold finish_connect_registered.
      erewrite bind_Ret by (by apply get_protocol_Some).
      replace (is_Fallback (p_read_only P0)) with false
        by (subst P0; simpl; by destruct (p_read_only P)).
      by rewrite andb_false_r. }
    assert (Hth : trace wh = trace w
              ++ (if known_data_error c then []
                  else [EvLog Error "%s from server: %s.%s:%s"])
              ++ [EvResolve f (Failure payload)]).
    { subst wh. destruct (known_data_error c); simpl; [done|].
      by rewrite <- app_assoc. }
    split; [subst wh; by destruct (known_data_error c)|].
    split; [subst wh; by destruct (known_data_error c)|].
    rewrite Hth, drop_app_length. by destruct (known_data_error c).
  - intros server_tid Hnone. subst reply. cbv beta.
    erewrite message_received_result by done.
    set (wh := resolved f (K_register p) (Result server_tid) _).
    assert (HPh : protocols wh !! p = Some P0) by apply lookup_insert_eq.
    unfold invoke_body.
    erewrite resume_generator_result by apply lookup_insert_eq.
    unfold finish_connect_registered.
    erewrite bind_Ret by (by apply get_protocol_Some).
    replace (p_read_only P0) with (p_read_only P) by done.
    destruct (p_read_only P) eqn:Hmode; cbn [is_Fallback].
    + erewrite bind_Ret by reflexivity.
      exists wh, P0. split; [reflexivity|]. split; [done|].
      split; [exact HPh|]. simpl. rewrite Hmode. by repeat split.
    + erewrite bind_Ret by reflexivity.
      exists wh, P0. split; [reflexivity|]. split; [done|].
      split; [exact HPh|]. simpl. rewrite Hmode. by repeat split.
    + erewrite bind_Ret by (by apply upd_protocol_Some).
      eexists _, (set_p_read_only RoFalse P0). split; [reflexivity|].
      split; [done|]. split; [apply lookup_insert_eq|]. by repeat split.
Qed.


(** ** The first registration, and registrations that come too late *)

(** X6.  A protocol registers while the client has none: it becomes the
    client's protocol and verification starts.  If the client is in
    [Fallback] mode and the protocol is read-only, the other candidates are
    left running, since one of them may still register writable; nothing is
    closed.  Otherwise the other candidates are closed and the list
    emptied before verification starts. *)
Theorem registered_adopts_first
    (depth : nat) (w : world) (p : pid) (P : Protocol) (server_tid : pyval) :
  cur_protocol (client w) = None ->
  protocols w !! p = Some P ->
  (c_read_only (client w) = RoFallback -> ro_truthy (p_read_only P) = true ->
   registered (resume depth) p server_tid w
   = verify (resume depth) server_tid
       (upd_client (set_c_protocol (Some (Some p))) w)) /\
  (is_Fallback (c_read_only (client w)) && ro_truthy (p_read_only P) = false ->
   candidates_quiet w (c_protocols (client w)) p ->
   exists w1 evs,
     registered (resume depth) p server_tid w
       = verify (resume depth) server_tid w1 /\
     cur_protocol (client w1) = Some p /\
     c_protocols (client w1) = [] /\
     c_ready (client w1) = c_ready (client w) /\
     c_connected (client w1) = c_connected (client w) /\
     protocols w1 !! p = Some P /\
     (forall q, q ∈ c_protocols (client w) -> q <> p ->
        protocol_closed w1 q = true) /\
     cache w1 = cache w /\ embedder w1 = embedder w /\
     trace w1 = trace w ++ evs /\ forallb is_internal evs = true).
Proof.
  intros Hcur HP.
  assert (Hstart : forall b : bool,
    is_Fallback (c_read_only (client w)) && ro_truthy (p_read_only P) = b ->
    registered (resume depth) p server_tid w
    = bind (if negb b then _clear_protocols (resume depth) (Some p)
            else ret tt)
        (fun _ => verify (resume depth) server_tid)
        (upd_client (set_c_protocol (Some (Some p))) w)).
  { intros b Hb. unfold registered.
    erewrite bind_Ret by reflexivity.
    erewrite bind_Ret by (by apply get_protocol_Some).
    rewrite Hcur, Hb.
    by erewrite bind_Ret by reflexivity. }
  split.
  - intros Hfb Hro. rewrite (Hstart true) by (by rewrite Hfb, Hro).
    by erewrite bind_Ret by reflexivity.
  - intros Hcond Hcq. rewrite (Hstart false Hcond). cbn [negb].
    set (w0 := upd_client (set_c_protocol (Some (Some p))) w).
    assert (Hcq0 : candidates_quiet w0 (c_protocols (client w)) p)
      by (eapply candidates_quiet_ext; [| |exact Hcq]; done).
    destruct (close_candidates (resume depth) (c_protocols (client w))
                (c_protocols (client w)) p w0 Hcq0)
      as (w4 & evs & Hrun & _ & Hc4 & Hca4 & Hem4 & _ & Ht4 & Hi4
          & Hcl4 & _ & Hkeep4 & _); [done|].
    exists (upd_client (set_c_protocols []) w4), evs.
    split.
    { erewrite bind_Ret; [reflexivity|].
      unfold _clear_protocols.
      erewrite bind_Ret by reflexivity.
      replace (c_protocols (client w0)) with (c_protocols (client w)) by done.
      by erewrite bind_Ret by exact Hrun. }
    simpl. rewrite Hc4. simpl.
    split; [done|]. split; [done|]. split; [done|]. split; [done|].
    split; [rewrite Hkeep4; exact HP|].
    split; [exact Hcl4|]. by repeat split.
Qed.

(** X7.  A protocol registers while the client already has one, and this is
    not the upgrade of a read-only connection in [Fallback] mode: the
    newcomer is closed, its pending completions (quiet ones) failed with
    [ClientDisconnected("Closed")]; the client and its protocol are as they
    were, no verification runs, and neither the cache nor the embedder is
    called. *)
Theorem registered_too_late
    (depth : nat) (w : world) (p cur : pid) (P Pc : Protocol)
    (server_tid : pyval) :
  cur_protocol (client w) = Some cur ->
  protocols w !! cur = Some Pc ->
  protocols w !! p = Some P -> p <> cur ->
  is_Fallback (c_read_only (client w))
    && negb (ro_truthy (p_read_only P)) && ro_truthy (p_read_only Pc) = false ->
  p_closed P = false ->
  quiet_pending w P ->
  exists w' evs,
    registered (resume depth) p server_tid w = (w', Ret tt) /\
    client w' = client w /\
    protocols w' = <[p := closed_protocol P]> (protocols w) /\
    protocols w' !! cur = Some Pc /\
    cache w' = cache w /\ embedder w' = embedder w /\
    trace w' = trace w ++ evs /\ forallb is_internal evs = true /\
    forall f, f ∈ pending P ->
      In (EvResolve f (Failure (ClientDisconnected [PStr "Closed"]))) evs.
Proof.
  intros Hcur HPc HP Hne Hcond Hopen Hq.
  destruct (Protocol_close_quiet (resume depth) w p P HP Hq)
    as (w' & evs & Hrun & Hc & Hca & Hem & _ & _ & Hps & Ht & Hi & _ & Hfail & _).
  rewrite Hopen in Hps.
  exists w', evs. split.
  { unfold registered.
    erewrite bind_Ret by reflexivity.
    erewrite bind_Ret by (by apply get_protocol_Some).
    rewrite Hcur.
    erewrite bind_Ret by (by apply get_protocol_Some).
    by rewrite Hcond. }
  split; [exact Hc|]. split; [exact Hps|].
  split; [rewrite Hps; by rewrite lookup_insert_ne|].
  split; [exact Hca|]. split; [exact Hem|]. split; [exact Ht|].
  split; [exact Hi|]. by apply Hfail.
Qed.


(** ** Message ids *)

(** A call made through the runner: the completion, the method, the
    arguments. *)
Definition call_spec : Type := fid * string * pyval.

(** The frames of the calls [l] when the counter of the protocol is [n]. *)
Fixpoint call_frames (p : pid) (n : Z) (l : list call_spec) : list event :=
  match l with
  | [] => []
  | c :: l' =>
      EvWrite p (WFrame (Frame (MsgInt (n + 1)) false (snd (fst c)) (snd c)))
        :: call_frames p (n + 1) l'
  end.

(** The world after [Protocol.call(future, method, args)] on [p]. *)
Definition called (p : pid) (P : Protocol) (c : call_spec) (w : world)
  : world :=
  add_event
    (EvWrite p (WFrame (Frame (MsgInt (p_message_id P + 1)) false
                          (snd (fst c)) (snd c))))
    (upd_protocols (insert p (calling P (fst (fst c)))) w).

(** [call_threadsafe] on a Ready client is [Protocol.call]: the counter
    advances, the completion is stored under the new id, the frame is
    written. *)
Lemma call_threadsafe_ready (inv : cont -> fid -> M unit) (w : world)
    (p : pid) (P : Protocol) (c : call_spec) :
  is_ready (client w) = true ->
  cur_protocol (client w) = Some p ->
  protocols w !! p = Some P ->
  call_threadsafe inv (fst (fst c)) (snd (fst c)) (snd c) w
  = (called p P c w, Ret tt).
Proof.
  intros Hr Hcur HP. unfold call_threadsafe.
  erewrite bind_Ret by reflexivity. rewrite Hr, Hcur.
  destruct w as [cl ps fs ca e tr n rc]. simpl in *.
  unfold Protocol_call. munfold. simpl.
  rewrite HP. simpl. repeat (rewrite !lookup_insert_eq; simpl).
  unfold called, add_event, upd_protocols, calling. simpl. f_equal. f_equal.
  by rewrite !insert_insert_eq.
Qed.

(** What a run of calls on [p] leaves: the counter advanced by their
    number, their frames written in order, each completion pending under
    the id of its call, the older entries still there. *)
Definition calls_made (l : list call_spec) (p : pid) (P : Protocol)
  (w w' : world) : Prop :=
  client w' = client w /\ futures w' = futures w /\
  cache w' = cache w /\ embedder w' = embedder w /\
  (forall q, q <> p -> protocols w' !! q = protocols w !! q) /\
  trace w' = trace w ++ call_frames p (p_message_id P) l /\
  exists P', protocols w' !! p = Some P' /\
    p_message_id P' = (p_message_id P + Z.of_nat (length l))%Z /\
    p_closed P' = p_closed P /\
    (forall i c, l !! i = Some c ->
       p_futures P' !! MsgInt (p_message_id P + 1 + Z.of_nat i)
       = Some (fst (fst c))) /\
    (forall m f, p_futures P !! m = Some f -> p_futures P' !! m = Some f) /\
    (forall k, (p_message_id P' < k)%Z -> p_futures P' !! MsgInt k = None).

(** A loop whose every step is one [Protocol.call] on [p]. *)
Lemma for_each_calls (step : call_spec -> M unit) (p : pid) (w0 : world)
    (l : list call_spec) (w : world) (P : Protocol) :
  (forall (w : world) P c,
     client w = client w0 -> futures w = futures w0 ->
     protocols w !! p = Some P ->
     step c w = (called p P c w, Ret tt)) ->
  client w = client w0 -> futures w = futures w0 ->
  protocols w !! p = Some P ->
  (forall k, (p_message_id P < k)%Z -> p_futures P !! MsgInt k = None) ->
  exists w', for_each l step w = (w', Ret tt) /\ calls_made l p P w w'.
Proof.
  intros Hstep. revert w P.
  induction l as [|c l IH]; intros w P Hc0 Hf0 HP Hfree.
  - exists w. split; [done|]. unfold calls_made. simpl.
    rewrite app_nil_r, Z.add_0_r. do 6 (split; [done|]).
    exists P. split; [done|]. split; [done|]. split; [done|].
    split; [intros i c Hi; by rewrite lookup_nil in Hi|]. by split.
  - set (P1 := calling P (fst (fst c))).
    set (w1 := called p P c w).
    assert (HP1 : protocols w1 !! p = Some P1) by apply lookup_insert_eq.
    assert (Hfree1 : forall k, (p_message_id P1 < k)%Z ->
                       p_futures P1 !! MsgInt k = None).
    { intros k Hk. subst P1. simpl in *.
      rewrite lookup_insert_ne by (intros [=]; lia). apply Hfree. lia. }
    destruct (IH w1 P1) as (w' & Hrun & Hc & Hf & Hca & Hem & Hoth & Ht
                            & P' & HP' & Hid & Hcl & Hnew & Hold & Hfree');
      [done|done|exact HP1|exact Hfree1|].
    exists w'. split.
    { simpl. erewrite bind_Ret by (by apply Hstep). exact Hrun. }
    split; [done|]. split; [done|]. split; [done|]. split; [done|].
    split; [intros q Hq; rewrite (Hoth q Hq); subst w1; simpl;
            by rewrite lookup_insert_ne|].
    split; [rewrite Ht; subst w1; simpl; by rewrite <- app_assoc|].
    exists P'. split; [exact HP'|].
    split; [rewrite Hid; subst P1; simpl; lia|].
    split; [by rewrite Hcl|].
    split; [|split].
    + intros [|i] c' Hi; simpl in Hi.
      * injection Hi as <-. apply Hold. subst P1. simpl.
        rewrite Z.add_0_r. apply lookup_insert_eq.
      * specialize (Hnew i c' Hi). subst P1. simpl in Hnew.
        rewrite <- Hnew. f_equal. f_equal. lia.
    + intros m f Hm. apply Hold. subst P1. simpl.
      rewrite lookup_insert_ne; [done|].
      intros <-. rewrite Hfree in Hm by lia. done.
    + exact Hfree'.
Qed.

(** X8.  Calls made one after the other on a Ready client get consecutive
    message ids, starting after the protocol's counter, and their frames
    are written in the order of the calls; each completion is pending
    under the id of its call, and the entries that were pending before are
    still there. *)
Theorem calls_numbered_in_order
    (inv : cont -> fid -> M unit) (l : list call_spec) (w : world) (p : pid)
    (P : Protocol) :
  is_ready (client w) = true ->
  cur_protocol (client w) = Some p ->
  protocols w !! p = Some P ->
  (forall k, (p_message_id P < k)%Z -> p_futures P !! MsgInt k = None) ->
  exists w',
    for_each l (fun c => call_threadsafe inv (fst (fst c)) (snd (fst c)) (snd c))
      w = (w', Ret tt) /\
    calls_made l p P w w'.
Proof.
  intros Hr Hcur HP Hfree.
  apply (for_each_calls _ p w); try done.
  intros w1 P1 c Hc _ HP1. apply call_threadsafe_ready; [|by rewrite Hc|done].
  by rewrite Hc.
Qed.


(** ** Calls made while the client is not Ready *)

(** X9.  A client that was never connected ([ready is None]) does not
    queue: a call, and a load that misses the cache, fail their completion
    at once with [ClientDisconnected("never connected")].  Nothing is
    written and nothing else changes. *)
Theorem never_connected_fails_at_once
    (inv : cont -> fid -> M unit) (w : world) (future : fid) :
  c_ready (client w) = None ->
  quiet w future ->
  let failure := Failure (ClientDisconnected [PStr "never connected"]) in
  (forall method args,
     exists w', call_threadsafe inv future method args w = (w', Ret tt) /\
       settled future failure w w') /\
  (forall oid tid, loadBefore oid tid (cache w) = PNone ->
     exists w', load_before_threadsafe inv future oid tid w = (w', Ret tt) /\
       settled future failure w w').
Proof.
  intros Hnever Hq failure.
  assert (Hnr : is_ready (client w) = false)
    by (unfold is_ready; by rewrite Hnever).
  assert (Hwhen : forall func,
    _when_ready inv func future w
    = set_exception inv future (ClientDisconnected [PStr "never connected"]) w).
  { intros func. unfold _when_ready.
    erewrite bind_Ret by reflexivity. by rewrite Hnever. }
  split.
  - intros method args. unfold call_threadsafe.
    erewrite bind_Ret by reflexivity. rewrite Hnr, Hwhen.
    by apply set_exception_quiet.
  - intros oid tid Hmiss. unfold load_before_threadsafe.
    erewrite bind_Ret by reflexivity. rewrite Hmiss.
    erewrite bind_Ret by reflexivity. rewrite Hnr, Hwhen.
    by apply set_exception_quiet.
Qed.

(** The callbacks that queued calls leave on the readiness completion. *)
Definition queued (l : list call_spec) : list cont :=
  map (fun c => K_when_ready (RF_call (snd (fst c)) (snd c)) (fst (fst c))) l.

(** The readiness completion with the callbacks [cbs], resolved or not. *)
Definition readiness (result : option pyval) (cbs : list cont) : fut_obj :=
  FutObj ThreadFuture None result false cbs.

Lemma for_each_map {A B} (g : A -> B) (l : list A) (body : B -> @M C E unit) :
  for_each (map g l) body = for_each l (fun x => body (g x)).
Proof. induction l as [|x l IH]; simpl; [done|]. by rewrite IH. Qed.

(** Queuing calls on a disconnected client. *)
Lemma calls_queued (inv : cont -> fid -> M unit) (l : list call_spec)
    (w : world) (cbs : list cont) :
  c_ready (client w) = Some false ->
  futures w !! c_connected (client w) = Some (readiness None cbs) ->
  for_each l (fun c => call_threadsafe inv (fst (fst c)) (snd (fst c)) (snd c))
    w
  = (upd_futures (insert (c_connected (client w))
                    (readiness None (cbs ++ queued l))) w, Ret tt).
Proof.
  revert w cbs. induction l as [|c l IH]; intros w cbs Hr Hcf; simpl.
  - rewrite app_nil_r. unfold ret. f_equal.
    destruct w as [cl ps fs ca e tr n rc]. unfold upd_futures. simpl in *.
    f_equal. symmetry. by apply insert_id.
  - set (cf := c_connected (client w)) in *.
    set (w1 := upd_futures
                 (insert cf (readiness None
                   (cbs ++ [K_when_ready (RF_call (snd (fst c)) (snd c))
                              (fst (fst c))]))) w).
    assert (Hstep : call_threadsafe inv (fst (fst c)) (snd (fst c)) (snd c) w
                    = (w1, Ret tt)).
    { unfold call_threadsafe. erewrite bind_Ret by reflexivity.
      unfold is_ready. rewrite Hr. unfold _when_ready.
      erewrite bind_Ret by reflexivity. rewrite Hr.
      unfold add_done_callback.
      erewrite bind_Ret by (by apply get_future_Some). reflexivity. }
    erewrite bind_Ret by exact Hstep.
    rewrite (IH w1 (cbs ++ [K_when_ready (RF_call (snd (fst c)) (snd c))
                              (fst (fst c))]));
      [|done|apply lookup_insert_eq].
    f_equal. subst w1. destruct w as [cl ps fs ca e tr n rc].
    unfold upd_futures. simpl. f_equal.
    rewrite insert_insert_eq. by rewrite <- app_assoc.
Qed.

(** X10.  Calls made while the client is disconnected ([ready is False])
    wait on the readiness completion: each one only adds a callback to it;
    nothing is written and no completion is resolved.  When verification
    ends, that is when the reply to [get_info] arrives, the embedder is
    notified, the readiness completion is resolved with [None], and the
    waiting calls are made on the current protocol in the order in which
    they were queued, with consecutive message ids. *)
Theorem queued_calls_released_in_order
    (depth : nat) (l : list call_spec) :
  (forall w : world,
     c_ready (client w) = Some false ->
     futures w !! c_connected (client w) = Some (readiness None []) ->
     for_each l (fun c =>
       call_threadsafe (resume depth) (fst (fst c)) (snd (fst c)) (snd c)) w
     = (upd_futures (insert (c_connected (client w))
                       (readiness None (queued l))) w, Ret tt)) /\
  (forall (w : world) p P m a g info,
     embedder_reliable ->
     is_ready (client w) = true ->
     cur_protocol (client w) = Some p ->
     protocols w !! p = Some P ->
     (forall k, (p_message_id P < k)%Z -> p_futures P !! MsgInt k = None) ->
     p_futures P !! m = Some g ->
     pending_fut w g (K_get_info p) ->
     g <> c_connected (client w) ->
     futures w !! c_connected (client w) = Some (readiness None (queued l)) ->
     exception_reply info = None ->
     exists w1 w',
       message_received (resume (S (S depth))) p (Frame m a ".reply" info) w
         = (w', Ret tt) /\
       trace w1 = trace w ++ [EvResolve g (Result info);
                              EvEmb (notify_connected info);
                              EvResolve (c_connected (client w)) (Result PNone)] /\
       futures w1 !! c_connected (client w)
         = Some (readiness (Some PNone) (queued l)) /\
       calls_made l p (set_p_futures (delete m (p_futures P)) P) w1 w').
Proof.
  split.
  { intros w Hr Hcf. by apply (calls_queued (resume depth) l w []). }
  intros w p P m a g info He Hr Hcur HP Hfree Hg Hpend Hne Hcf Hnone.
  set (cf := c_connected (client w)) in *.
  set (P0 := set_p_futures (delete m (p_futures P)) P).
  erewrite message_received_result by done.
  set (wh := resolved g (K_get_info p) (Result info) (popped p P m w)).
  unfold invoke_body.
  erewrite resume_generator_result by apply lookup_insert_eq.
  unfold verify_after_get_info.
  erewrite bind_Ret by (by apply emb_do_ok).
  erewrite bind_Ret by reflexivity.
  set (we := set_embedder _ _).
  assert (Hcfe : futures we !! cf = Some (readiness None (queued l))).
  { subst we wh. simpl. by rewrite lookup_insert_ne. }
  replace (c_connected (client we)) with cf by done.
  erewrite set_result_pending by done.
  set (w1 := upd_futures _ _).
  assert (HP1 : protocols w1 !! p = Some P0) by apply lookup_insert_eq.
  exists w1.
  destruct (for_each_calls
              (fun c => try_except
                 (resume (S depth)
                    (K_when_ready (RF_call (snd (fst c)) (snd c)) (fst (fst c)))
                    cf)
                 (fun _ => log Error "exception calling callback for %r"))
              p w1 l w1 P0) as (w' & Hrun & Hmade); try done.
  { intros w2 P2 c Hc2 Hf2 HP2.
    assert (Hexc : future_exception cf w2 = (w2, Ret PNone)).
    { unfold future_exception.
      erewrite bind_Ret
        by (apply get_future_Some; rewrite Hf2; apply lookup_insert_eq).
      reflexivity. }
    assert (Hcb : resume (S depth)
                    (K_when_ready (RF_call (snd (fst c)) (snd c)) (fst (fst c)))
                    cf w2 = (called p P2 c w2, Ret tt)).
    { cbn [resume]. unfold invoke_body, when_ready_done.
      erewrite bind_Ret by exact Hexc. cbv beta iota.
      erewrite bind_Ret by reflexivity. rewrite Hc2.
      replace (is_ready (client w1)) with true by (symmetry; exact Hr).
      unfold run_ready_func.
      apply call_threadsafe_ready; [by rewrite Hc2|by rewrite Hc2|done]. }
    unfold try_except, try_except_else. by rewrite Hcb. }
  { intros k Hk. subst P0. simpl.
    destruct (decide (m = MsgInt k)) as [->|Hm];
      [apply lookup_delete_eq|].
    rewrite lookup_delete_ne by done. by apply Hfree. }
  exists w'. split.
  { unfold run_callbacks. cbn [fo_kind fo_cbs readiness]. unfold queued.
    rewrite for_each_map. exact Hrun. }
  split; [subst w1 we wh; simpl; by rewrite <- !app_assoc|].
  split; [apply lookup_insert_eq|exact Hmade].
Qed.


(** ** Loads through the cache ([load_before_threadsafe]) *)

(** A completion handed in by the runner: a cross-thread future nobody on
    the I/O thread has attached a callback to. *)
Definition caller_future : fut_obj := FutObj ThreadFuture None None false [].

(** Resolving a caller's completion records the resolution and stores the
    outcome; nothing runs. *)
Definition answered (f : fid) (v : pyval) (w : world) : world :=
  upd_futures (insert f (set_fo_result v caller_future))
    (add_event (EvResolve f (Result v)) w).

Lemma set_result_caller (inv : cont -> fid -> M unit) (w : world) (f : fid)
    (v : pyval) :
  futures w !! f = Some caller_future ->
  set_result inv f v w = (answered f v w, Ret tt).
Proof. intros Hf. by erewrite set_result_pending by done. Qed.

(** X11.  A load that hits the cache is answered from the cache alone: the
    caller's completion is resolved with the cached record, whether the
    client is Ready, disconnected, never connected or closed; nothing is
    written and the cache is not called.  A load that misses while the
    client is disconnected waits on the readiness completion, and nothing
    else happens. *)
Theorem load_served_from_cache
    (inv : cont -> fid -> M unit) (w : world) (future : fid)
    (oid tid : string) :
  futures w !! future = Some caller_future ->
  (loadBefore oid tid (cache w) <> PNone ->
   load_before_threadsafe inv future oid tid w
   = (answered future (loadBefore oid tid (cache w)) w, Ret tt)) /\
  (loadBefore oid tid (cache w) = PNone ->
   c_ready (client w) = Some false ->
   forall cbs,
     futures w !! c_connected (client w) = Some (readiness None cbs) ->
     load_before_threadsafe inv future oid tid w
     = (upd_futures
          (insert (c_connected (client w))
             (readiness None
                (cbs ++ [K_when_ready (RF_load_before oid tid) future]))) w,
        Ret tt)).
Proof.
  intros Hf. split.
  - intros Hhit. unfold load_before_threadsafe.
    erewrite bind_Ret by reflexivity.
    destruct (loadBefore oid tid (cache w)) eqn:Hdata; try done;
      by apply set_result_caller.
  - intros Hmiss Hr cbs Hcf. unfold load_before_threadsafe.
    erewrite bind_Ret by reflexivity. rewrite Hmiss.
    erewrite bind_Ret by reflexivity.
    unfold is_ready, _when_ready. rewrite Hr.
    erewrite bind_Ret by reflexivity. rewrite Hr.
    unfold add_done_callback.
    erewrite bind_Ret by (by apply get_future_Some). reflexivity.
Qed.

(** What the event loop does with a deferred task.  An exception the task
    raises goes to the loop's exception handler. *)
Definition run_task (depth : nat) (t : task) : M unit :=
  match t with
  | T_try_connecting => try_connecting
  | T_callback k f => resume depth k f
  end.

(** The world after the first [load_before(oid, tid)] on [p], made for the
    caller [future]: a new [asyncio.Future] is pending under the key
    [(oid, tid)], with the rest of the caller's generator as callback, and
    the frame is written. *)
Definition loading (p : pid) (P : Protocol) (oid tid : string) (future : fid)
  (w : world) : world :=
  MkWorld (client w)
    (<[p := set_p_futures (<[MsgKey oid tid := next_id w]> (p_futures P)) P]>
       (protocols w))
    (<[next_id w := FutObj LoopFuture None None false
                      [K_load_before future oid tid]]> (futures w))
    (cache w) (embedder w)
    (trace w ++ [EvWrite p (loadBefore_frame oid tid)])
    (S (next_id w)) (runner_closed w).

Lemma load_before_threadsafe_first (inv : cont -> fid -> M unit) (w : world)
    (p : pid) (P : Protocol) (future : fid) (oid tid : string) :
  is_ready (client w) = true -> cur_protocol (client w) = Some p ->
  protocols w !! p = Some P ->
  p_futures P !! MsgKey oid tid = None ->
  loadBefore oid tid (cache w) = PNone ->
  load_before_threadsafe inv future oid tid w
  = (loading p P oid tid future w, Ret tt).
Proof.
  intros Hr Hcur HP Hnone Hmiss. unfold load_before_threadsafe.
  erewrite bind_Ret by reflexivity. rewrite Hmiss.
  erewrite bind_Ret by reflexivity. rewrite Hr, Hcur.
  destruct w as [cl ps fs ca e tr n rc]. simpl in *.
  unfold try_except, try_except_else, Protocol_load_before, add_done_callback.
  munfold. simpl. rewrite HP, Hnone. simpl. rewrite HP. simpl.
  rewrite lookup_insert_eq. simpl. unfold loading. simpl.
  f_equal. f_equal; by rewrite insert_insert_eq.
Qed.

(** A further caller joins the load in flight: it only adds its callback. *)
Lemma load_before_threadsafe_join (inv : cont -> fid -> M unit) (w : world)
    (p : pid) (P : Protocol) (future lf : fid) (oid tid : string)
    (cbs : list cont) :
  is_ready (client w) = true -> cur_protocol (client w) = Some p ->
  protocols w !! p = Some P ->
  p_futures P !! MsgKey oid tid = Some lf ->
  futures w !! lf = Some (FutObj LoopFuture None None false cbs) ->
  loadBefore oid tid (cache w) = PNone ->
  load_before_threadsafe inv future oid tid w
  = (upd_futures
       (insert lf (FutObj LoopFuture None None false
                     (cbs ++ [K_load_before future oid tid]))) w, Ret tt).
Proof.
  intros Hr Hcur HP Hlf Ho Hmiss. unfold load_before_threadsafe.
  erewrite bind_Ret by reflexivity. rewrite Hmiss.
  erewrite bind_Ret by reflexivity. rewrite Hr, Hcur.
  unfold try_except, try_except_else.
  erewrite bind_Ret by (by eapply load_before_pending).
  unfold add_done_callback.
  erewrite bind_Ret by (by apply get_future_Some). reflexivity.
Qed.

(** The reply to a load in flight: the entry is removed, the future
    resolved, and its callbacks handed to the loop, in order. *)
Lemma load_reply_received (inv : cont -> fid -> M unit) (w : world) (p : pid)
    (P : Protocol) (lf : fid) (m : msgid) (a : bool) (r : pyval)
    (cbs : list cont) :
  protocols w !! p = Some P ->
  p_futures P !! m = Some lf ->
  futures w !! lf = Some (FutObj LoopFuture None None false cbs) ->
  exception_reply r = None ->
  exists w',
    message_received inv p (Frame m a ".reply" r) w = (w', Ret tt) /\
    client w' = client w /\ cache w' = cache w /\ embedder w' = embedder w /\
    protocols w' = <[p := set_p_futures (delete m (p_futures P)) P]>
                     (protocols w) /\
    futures w' = <[lf := FutObj LoopFuture None (Some r) false cbs]>
                   (futures w) /\
    trace w' = trace w ++ EvResolve lf (Result r)
                 :: map (fun k => EvCallSoon (T_callback k lf)) cbs.
Proof.
  intros HP Hlf Ho Hnone. unfold message_received. simpl.
  erewrite bind_Ret by (by apply get_protocol_Some). rewrite Hlf, Hnone.
  erewrite bind_Ret by (by apply upd_protocol_Some).
  erewrite set_result_pending by done.
  unfold run_callbacks. cbn [fo_kind fo_cbs].
  destruct (for_each_call_soon cbs lf
              (upd_futures
                 (insert lf (set_fo_result r
                               (FutObj LoopFuture None None false cbs)))
                 (add_event (EvResolve lf (Result r))
                    (upd_protocols
                       (insert p (set_p_futures (delete m (p_futures P)) P))
                       w))))
    as (w' & Hrun & (Hc & Hps & Hca & Hem & _) & Hfs & Ht).
  exists w'. split; [exact Hrun|].
  rewrite Hc, Hca, Hem, Hps, Hfs, Ht. simpl.
  do 5 (split; [done|]). by rewrite <- app_assoc.
Qed.

(** The callback of one caller, run by the loop once the load is
    answered with the record [(data, start, end)]: the caller's completion
    is resolved with the record, then the revision is stored. *)
Lemma load_callback_stores (depth : nat) (w : world) (future lf : fid)
    (oid tid : string) (data start_tid end_tid : pyval) (cbs : list cont) :
  cache_reliable ->
  let r := PTuple [data; start_tid; end_tid] in
  let call := store (PBytes oid) start_tid end_tid data in
  futures w !! lf = Some (FutObj LoopFuture None (Some r) false cbs) ->
  futures w !! future = Some caller_future ->
  run_task (S depth) (T_callback (K_load_before future oid tid) lf) w
  = (set_cache (fst (cache_step call (cache w)))
       (add_event (EvCache call) (answered future r w)), Ret tt).
Proof.
  intros Hc r call Hlf Hf. simpl run_task. unfold invoke_body.
  unfold resume_generator, try_except_else, future_result.
  erewrite bind_Ret by (by apply get_future_Some).
  cbn [fo_kind fo_cancelled fo_exc fo_result]. unfold ret at 1.
  unfold load_before_done.
  erewrite bind_Ret by (by apply set_result_caller).
  subst r. cbn [truthy length Nat.eqb negb].
  unfold unpack3. cbn [py_iter].
  erewrite bind_Ret by reflexivity. cbn [fst snd].
  by rewrite cache_do_ok.
Qed.


(** X12.  Two callers ask for the same revision while neither it nor a
    request for it is there.  The first load writes the [loadBefore]
    frame; the second joins it and writes nothing.  The one reply resolves
    the shared future and hands both callbacks to the loop; run in order,
    each resolves its caller's completion with the record and then stores
    the revision, so the cache is asked to store it once per caller. *)
Theorem coalesced_loads_answer_every_caller
    (depth : nat) (w : world) (p : pid) (P : Protocol) (f1 f2 : fid)
    (oid tid : string) (a : bool) (data start_tid end_tid : pyval) :
  cache_reliable ->
  is_ready (client w) = true -> cur_protocol (client w) = Some p ->
  protocols w !! p = Some P ->
  p_futures P !! MsgKey oid tid = None ->
  loadBefore oid tid (cache w) = PNone ->
  futures w !! f1 = Some caller_future ->
  futures w !! f2 = Some caller_future -> f1 <> f2 ->
  futures w !! (next_id w : fid) = None ->
  let r := PTuple [data; start_tid; end_tid] in
  exception_reply r = None ->
  let lf : fid := next_id w in
  let K1 := K_load_before f1 oid tid in
  let K2 := K_load_before f2 oid tid in
  let call := store (PBytes oid) start_tid end_tid data in
  exists w1 w2 w3 w4 w5,
    load_before_threadsafe (resume depth) f1 oid tid w = (w1, Ret tt) /\
    load_before_threadsafe (resume depth) f2 oid tid w1 = (w2, Ret tt) /\
    message_received (resume depth) p (Frame (MsgKey oid tid) a ".reply" r) w2
      = (w3, Ret tt) /\
    run_task (S depth) (T_callback K1 lf) w3 = (w4, Ret tt) /\
    run_task (S depth) (T_callback K2 lf) w4 = (w5, Ret tt) /\
    trace w5 = trace w ++ [EvWrite p (loadBefore_frame oid tid);
                           EvResolve lf (Result r);
                           EvCallSoon (T_callback K1 lf);
                           EvCallSoon (T_callback K2 lf);
                           EvResolve f1 (Result r); EvCache call;
                           EvResolve f2 (Result r); EvCache call] /\
    not_pending w5 p (MsgKey oid tid) /\
    futures w5 !! f1 = Some (set_fo_result r caller_future) /\
    futures w5 !! f2 = Some (set_fo_result r caller_future) /\
    client w5 = client w.
Proof.
  intros Hc Hr Hcur HP Hnone Hmiss Hf1 Hf2 Hne Hfresh r Hnoexc lf K1 K2 call.
  assert (Hn1 : f1 <> lf) by (intros ->; subst lf; by rewrite Hfresh in Hf1).
  assert (Hn2 : f2 <> lf) by (intros ->; subst lf; by rewrite Hfresh in Hf2).
  set (w1 := loading p P oid tid f1 w).
  set (P1 := set_p_futures (<[MsgKey oid tid := lf]> (p_futures P)) P).
  set (w2 := upd_futures
               (insert lf (FutObj LoopFuture None None false ([K1] ++ [K2])))
               w1).
  assert (Hs1 : load_before_threadsafe (resume depth) f1 oid tid w
                = (w1, Ret tt))
    by (by apply load_before_threadsafe_first).
  assert (Hs2 : load_before_threadsafe (resume depth) f2 oid tid w1
                = (w2, Ret tt)).
  { apply (load_before_threadsafe_join _ w1 p P1); try done;
      apply lookup_insert_eq. }
  destruct (load_reply_received (resume depth) w2 p P1 lf (MsgKey oid tid) a r
              [K1; K2]) as (w3 & Hs3 & Hc3 & Hca3 & Hem3 & Hps3 & Hfs3 & Ht3);
    [apply lookup_insert_eq|apply lookup_insert_eq|apply lookup_insert_eq
    |done|].
  set (w4 := set_cache (fst (cache_step call (cache w3)))
               (add_event (EvCache call) (answered f1 r w3))).
  assert (Hs4 : run_task (S depth) (T_callback K1 lf) w3 = (w4, Ret tt)).
  { apply (load_callback_stores depth w3 f1 lf oid tid data start_tid end_tid
             [K1; K2] Hc).
    - rewrite Hfs3. apply lookup_insert_eq.
    - rewrite Hfs3. rewrite lookup_insert_ne by done. subst w2 w1. simpl.
      rewrite lookup_insert_ne by done. by rewrite lookup_insert_ne. }
  set (w5 := set_cache (fst (cache_step call (cache w4)))
               (add_event (EvCache call) (answered f2 r w4))).
  assert (Hs5 : run_task (S depth) (T_callback K2 lf) w4 = (w5, Ret tt)).
  { apply (load_callback_stores depth w4 f2 lf oid tid data start_tid end_tid
             [K1; K2] Hc).
    - subst w4. simpl. rewrite lookup_insert_ne by done.
      rewrite Hfs3. apply lookup_insert_eq.
    - subst w4. simpl. rewrite lookup_insert_ne by done.
      rewrite Hfs3. rewrite lookup_insert_ne by done. subst w2 w1. simpl.
      rewrite lookup_insert_ne by done. by rewrite lookup_insert_ne. }
  exists w1, w2, w3, w4, w5.
  do 5 (split; [done|]).
  split.
  { subst w5 w4. simpl. rewrite Ht3. subst w2 w1. simpl.
    by repeat (rewrite <- app_assoc; simpl). }
  split.
  { eexists. subst w5 w4. simpl. rewrite Hps3.
    split; [apply lookup_insert_eq|]. simpl. apply lookup_delete_eq. }
  split; [subst w5 w4; simpl; rewrite lookup_insert_ne by done;
          apply lookup_insert_eq|].
  split; [subst w5; simpl; apply lookup_insert_eq|].
  subst w5 w4. simpl. by rewrite Hc3.
Qed.


(** X13.  What the callback of a load does with the other outcomes.  A
    reply that is empty (no such revision) resolves the caller's completion
    with it and stores nothing.  A failed load fails the caller's
    completion with the same exception.  A reply that is not empty and not
    a triple resolves the caller's completion, and the [ValueError] of
    unpacking it goes to the loop.  In no case is the cache called. *)
Theorem load_callback_outcomes
    (depth : nat) (w : world) (future lf : fid) (oid tid : string)
    (cbs : list cont) :
  futures w !! future = Some caller_future ->
  let task := T_callback (K_load_before future oid tid) lf in
  (forall v, truthy v = false ->
     futures w !! lf = Some (FutObj LoopFuture None (Some v) false cbs) ->
     run_task (S depth) task w = (answered future v w, Ret tt)) /\
  (forall e, isinstance e "Exception" = true ->
     isinstance e "BaseException" = true ->
     futures w !! lf = Some (FutObj LoopFuture (Some e) None false cbs) ->
     run_task (S depth) task w
     = (upd_futures (insert future (set_fo_exc e caller_future))
          (add_event (EvResolve future (Failure e)) w), Ret tt)) /\
  (forall v l, truthy v = true -> py_iter v = Some l -> length l <> 3 ->
     futures w !! lf = Some (FutObj LoopFuture None (Some v) false cbs) ->
     run_task (S depth) task w
     = (answered future v w,
        Raise (ValueError "wrong number of values to unpack"))).
Proof.
  intros Hf task. subst task. simpl run_task. unfold invoke_body.
  unfold resume_generator, try_except_else, future_result.
  split; [|split].
  - intros v Hv Hlf.
    erewrite bind_Ret by (by apply get_future_Some).
    cbn [fo_kind fo_cancelled fo_exc fo_result]. unfold ret at 1.
    unfold load_before_done.
    erewrite bind_Ret by (by apply set_result_caller). by rewrite Hv.
  - intros e He Hb Hlf.
    erewrite bind_Ret by (by apply get_future_Some).
    cbn [fo_kind fo_cancelled fo_exc fo_result].
    unfold py_raise. rewrite Hb. unfold raise at 1. rewrite He.
    unfold load_before_done.
    by erewrite set_exception_pending by done.
  - intros v l Hv Hl Hlen Hlf.
    erewrite bind_Ret by (by apply get_future_Some).
    cbn [fo_kind fo_cancelled fo_exc fo_result]. unfold ret at 1.
    unfold load_before_done.
    erewrite bind_Ret by (by apply set_result_caller). rewrite Hv.
    unfold unpack3. rewrite Hl.
    destruct l as [|x1 [|x2 [|x3 [|x4 l]]]]; simpl in Hlen; try done.
Qed.

(** ** Prefetching *)

(** X14.  The callback of a prefetch never fails: whatever the load ended
    with (a record, nothing, a record of the wrong shape, an exception),
    and whatever exception the cache raises on [store], it returns; every
    failure is logged and dropped.  Only a proper record is stored. *)
Theorem prefetch_callback_never_raises
    (oid : string) (r : resumed) (w : world) :
  (forall call c e, snd (cache_step call c) = Some e ->
     isinstance e "Exception" = true) ->
  match r with inr e => isinstance e "Exception" = true | inl _ => True end ->
  exists w' evs,
    prefetch_done oid r w = (w', Ret tt) /\
    trace w' = trace w ++ evs /\
    client w' = client w /\ protocols w' = protocols w /\
    futures w' = futures w /\
    (forall e, In e evs ->
       e = EvLog Error "prefetch %r %r" \/
       exists v data start_tid end_tid,
         r = inl v /\ py_iter v = Some [data; start_tid; end_tid] /\
         e = EvCache (store (PBytes oid) start_tid end_tid data)).
Proof.
  intros Hcache Hr. unfold prefetch_done, try_except, try_except_else.
  destruct r as [data|e].
  - destruct (truthy data) eqn:Ht.
    + unfold unpack3.
      destruct (py_iter data) as [l|] eqn:Hl.
      * destruct l as [|x1 [|x2 [|x3 [|x4 l]]]];
          try (eexists _, [_]; split; [reflexivity|]; simpl;
               split; [reflexivity|]; do 3 (split; [reflexivity|]);
               intros e [<-|[]]; by left).
        erewrite bind_Ret by reflexivity. cbn [fst snd].
        unfold cache_do.
        destruct (cache_step (store (PBytes oid) x2 x3 x1)
                    (cache (add_event (EvCache (store (PBytes oid) x2 x3 x1)) w)))
          as [c' [exc|]] eqn:Hstep.
        -- rewrite (Hcache _ _ exc) by (by rewrite Hstep).
           eexists _, [_; _]. split; [reflexivity|]. simpl.
           split; [by rewrite <- app_assoc|]. do 3 (split; [reflexivity|]).
           intros e [<-|[<-|[]]]; [|by left].
           right. by exists data, x1, x2, x3.
        -- eexists _, [_]. split; [reflexivity|]. simpl.
           split; [reflexivity|]. do 3 (split; [reflexivity|]).
           intros e [<-|[]]. right. by exists data, x1, x2, x3.
      * eexists _, [_]. split; [reflexivity|]. simpl.
        split; [reflexivity|]. do 3 (split; [reflexivity|]).
        intros e [<-|[]]. by left.
    + exists w, []. rewrite app_nil_r. by repeat split.
  - unfold raise. rewrite Hr.
    eexists _, [_]. split; [reflexivity|]. simpl.
    split; [reflexivity|]. do 3 (split; [reflexivity|]).
    intros e0 [<-|[]]. by left.
Qed.


(** The object [oid] has no revision before [tid] in the cache. *)
Definition cache_miss (tid : string) (c : C) (oid : string) : bool :=
  match loadBefore oid tid c with PNone => true | _ => false end.

(** The objects a prefetch of [oids] asks the server for: those the cache
    misses, once each, unless a load for them is already in flight. *)
Fixpoint to_fetch (miss : string -> bool) (inflight oids : list string)
  : list string :=
  match oids with
  | [] => []
  | oid :: rest =>
      if miss oid && negb (bool_decide (oid ∈ inflight))
      then oid :: to_fetch miss (oid :: inflight) rest
      else to_fetch miss inflight rest
  end.

(** The loads before [tid] in flight on [P] are those of the objects [I],
    each waiting on a pending [asyncio.Future]. *)
Definition loads_in_flight (w : world) (P : Protocol) (tid : string)
  (I : list string) : Prop :=
  forall oid,
    (oid ∈ I -> exists lf cbs,
       p_futures P !! MsgKey oid tid = Some lf /\
       futures w !! lf = Some (FutObj LoopFuture None None false cbs)) /\
    (oid ∉ I -> p_futures P !! MsgKey oid tid = None).

(** No completion has an identity that is still to be handed out. *)
Definition fresh_from (w : world) : Prop :=
  forall f : fid, next_id w <= f -> futures w !! f = None.

(** The world after [_prefetch(oid, tid)] started a load. *)
Definition prefetching (p : pid) (P : Protocol) (oid tid : string) (w : world)
  : world :=
  MkWorld (client w)
    (<[p := set_p_futures (<[MsgKey oid tid := next_id w]> (p_futures P)) P]>
       (protocols w))
    (<[next_id w := FutObj LoopFuture None None false [K_prefetch oid tid]]>
       (futures w))
    (cache w) (embedder w)
    (trace w ++ [EvWrite p (loadBefore_frame oid tid)])
    (S (next_id w)) (runner_closed w).

Lemma _prefetch_first (inv : cont -> fid -> M unit) (w : world) (p : pid)
    (P : Protocol) (oid tid : string) :
  cur_protocol (client w) = Some p -> protocols w !! p = Some P ->
  p_futures P !! MsgKey oid tid = None ->
  _prefetch inv oid tid w = (prefetching p P oid tid w, Ret tt).
Proof.
  intros Hcur HP Hnone. unfold _prefetch.
  erewrite bind_Ret by reflexivity. rewrite Hcur.
  destruct w as [cl ps fs ca e tr n rc]. simpl in *.
  unfold try_except, try_except_else, Protocol_load_before, add_done_callback.
  munfold. simpl. rewrite HP, Hnone. simpl. rewrite HP. simpl.
  rewrite lookup_insert_eq. simpl. unfold prefetching. simpl.
  f_equal. f_equal; by rewrite insert_insert_eq.
Qed.

Lemma _prefetch_join (inv : cont -> fid -> M unit) (w : world) (p : pid)
    (P : Protocol) (oid tid : string) (lf : fid) (cbs : list cont) :
  cur_protocol (client w) = Some p -> protocols w !! p = Some P ->
  p_futures P !! MsgKey oid tid = Some lf ->
  futures w !! lf = Some (FutObj LoopFuture None None false cbs) ->
  _prefetch inv oid tid w
  = (upd_futures
       (insert lf (FutObj LoopFuture None None false
                     (cbs ++ [K_prefetch oid tid]))) w, Ret tt).
Proof.
  intros Hcur HP Hlf Ho. unfold _prefetch.
  erewrite bind_Ret by reflexivity. rewrite Hcur.
  unfold try_except, try_except_else.
  erewrite bind_Ret by (by eapply load_before_pending).
  unfold add_done_callback.
  erewrite bind_Ret by (by apply get_future_Some). reflexivity.
Qed.

(** The loop of [prefetch]. *)
Lemma prefetch_loop (inv : cont -> fid -> M unit) (tid : string) (p : pid)
    (oids : list string) (w : world) (P : Protocol) (I : list string) :
  cur_protocol (client w) = Some p -> protocols w !! p = Some P ->
  loads_in_flight w P tid I -> fresh_from w ->
  exists w' P' I',
    for_each oids (fun oid =>
      data <- gets (fun w => loadBefore oid tid (cache w)) ;;
      match data with
      | PNone => _prefetch inv oid tid
      | _ => ret tt
      end) w = (w', Ret tt) /\
    client w' = client w /\ cache w' = cache w /\ embedder w' = embedder w /\
    protocols w' !! p = Some P' /\ p_message_id P' = p_message_id P /\
    loads_in_flight w' P' tid I' /\ fresh_from w' /\
    (forall oid, oid ∈ I -> oid ∈ I') /\
    (forall oid, oid ∈ oids -> cache_miss tid (cache w) oid = true ->
       oid ∈ I') /\
    trace w' = trace w
               ++ map (fun oid => EvWrite p (loadBefore_frame oid tid))
                    (to_fetch (cache_miss tid (cache w)) I oids) /\
    (forall g o, futures w !! g = Some o -> fo_kind o <> LoopFuture ->
       futures w' !! g = Some o).
Proof.
  revert w P I. induction oids as [|oid oids IH]; intros w P I Hcur HP HI Hfr.
  - exists w, P, I. simpl. rewrite app_nil_r.
    split; [done|]. do 7 (split; [done|]). split; [done|].
    split; [intros oid Hin; by apply elem_of_nil in Hin|]. by split.
  - simpl.
    destruct (cache_miss tid (cache w) oid) eqn:Hm; cycle 1.
    { destruct (IH w P I Hcur HP HI Hfr)
        as (w' & P' & I' & Hrun & Hc & Hca & Hem & HP' & Hid & HI' & Hfr'
            & Hsub & Hall & Ht & Hkeep).
      exists w', P', I'. split.
      { erewrite bind_Ret; [exact Hrun|].
        erewrite bind_Ret by reflexivity. unfold cache_miss in Hm.
        by destruct (loadBefore oid tid (cache w)). }
      do 8 (split; [done|]). split; [|by split].
      intros o Ho Hmo. apply elem_of_cons in Ho as [->|Ho];
        [by rewrite Hm in Hmo|by apply Hall]. }
    assert (Hdata : loadBefore oid tid (cache w) = PNone)
      by (unfold cache_miss in Hm; by destruct (loadBefore oid tid (cache w))).
    cbn [andb].
    destruct (decide (oid ∈ I)) as [Hin|Hnin].
    + rewrite bool_decide_eq_true_2 by done. cbn [negb].
      destruct (HI oid) as [Hsome _].
      destruct (Hsome Hin) as (lf & cbs & Hlf & Ho).
      set (w1 := upd_futures
                   (insert lf (FutObj LoopFuture None None false
                                 (cbs ++ [K_prefetch oid tid]))) w).
      assert (HI1 : loads_in_flight w1 P tid I).
      { intros o. destruct (HI o) as [Hs Hn]. split; [|done].
        intros Hio. destruct (Hs Hio) as (lf' & cbs' & Hlf' & Ho').
        destruct (decide (lf' = lf)) as [->|Hne].
        - do 2 eexists. split; [done|]. apply lookup_insert_eq.
        - exists lf', cbs'. split; [done|]. subst w1. simpl.
          by rewrite lookup_insert_ne. }
      assert (Hfr1 : fresh_from w1).
      { intros f Hf. subst w1. simpl. rewrite lookup_insert_ne; [by apply Hfr|].
        intros <-. rewrite Hfr in Ho by done. done. }
      destruct (IH w1 P I) as (w' & P' & I' & Hrun & Hc & Hca & Hem & HP' & Hid
                               & HI' & Hfr' & Hsub & Hall & Ht & Hkeep);
        [done|done|exact HI1|exact Hfr1|].
      exists w', P', I'. split.
      { erewrite bind_Ret; [exact Hrun|].
        erewrite bind_Ret by reflexivity. rewrite Hdata.
        by eapply _prefetch_join. }
      split; [exact Hc|]. split; [exact Hca|]. split; [exact Hem|].
      split; [exact HP'|]. split; [exact Hid|]. split; [exact HI'|].
      split; [exact Hfr'|]. split; [exact Hsub|].
      split; [|split; [exact Ht|]].
      * intros o Hoin Hmo. apply elem_of_cons in Hoin as [->|Hoin];
          [by apply Hsub|by apply Hall].
      * intros g o Hg Hk. apply (Hkeep g o); [|done]. subst w1. simpl.
        rewrite lookup_insert_ne; [done|]. intros <-.
        rewrite Ho in Hg. injection Hg as <-. done.
    + rewrite bool_decide_eq_false_2 by done. cbn [negb].
      destruct (HI oid) as [_ Hnone]. specialize (Hnone Hnin).
      set (w1 := prefetching p P oid tid w).
      set (P1 := set_p_futures (<[MsgKey oid tid := next_id w]> (p_futures P)) P).
      assert (HP1 : protocols w1 !! p = Some P1) by apply lookup_insert_eq.
      assert (HI1 : loads_in_flight w1 P1 tid (oid :: I)).
      { intros o. split.
        - intros Hio. apply elem_of_cons in Hio as [->|Hio].
          + do 2 eexists. subst P1 w1. simpl.
            split; apply lookup_insert_eq.
          + destruct (HI o) as [Hs _].
            destruct (Hs Hio) as (lf' & cbs' & Hlf' & Ho').
            exists lf', cbs'. subst P1 w1. simpl. split.
            * rewrite lookup_insert_ne; [done|]. intros [= ->]. done.
            * rewrite lookup_insert_ne; [done|]. intros <-.
              rewrite Hfr in Ho' by done. done.
        - intros Hio. apply not_elem_of_cons in Hio as [Hne Hio].
          subst P1. simpl. rewrite lookup_insert_ne by (intros [=]; done).
          by apply HI. }
      assert (Hfr1 : fresh_from w1).
      { intros f Hf. subst w1. simpl in *.
        rewrite lookup_insert_ne by lia. apply Hfr. lia. }
      destruct (IH w1 P1 (oid :: I)) as (w' & P' & I' & Hrun & Hc & Hca & Hem
                               & HP' & Hid & HI' & Hfr' & Hsub & Hall & Ht & Hkeep);
        [done|exact HP1|exact HI1|exact Hfr1|].
      exists w', P', I'. split.
      { erewrite bind_Ret; [exact Hrun|].
        erewrite bind_Ret by reflexivity. rewrite Hdata.
        by apply _prefetch_first. }
      split; [exact Hc|]. split; [exact Hca|]. split; [exact Hem|].
      split; [exact HP'|]. split; [exact Hid|]. split; [exact HI'|].
      split; [exact Hfr'|].
      split; [intros o Hoin; apply Hsub; by right|].
      split; [|split].
      * intros o Hoin Hmo. apply elem_of_cons in Hoin as [->|Hoin];
          [apply Hsub; by left|by apply Hall].
      * rewrite Ht. subst w1. simpl. by rewrite <- app_assoc.
      * intros g o Hg Hk. apply (Hkeep g o); [|done]. subst w1. simpl.
        rewrite lookup_insert_ne; [done|]. intros <-.
        rewrite Hfr in Hg by done. done.
Qed.

(** X15.  [prefetch(oids, tid)] on a Ready client asks the server for the
    revisions the cache misses, once for each object: an object the cache
    holds, an object with a load in flight, or a second occurrence of an
    object, writes no frame.  Afterwards every missed object has a load in
    flight and the caller's completion is resolved with [None].  The cache
    is not called and the message counter does not move. *)
Theorem prefetch_fetches_misses_once
    (inv : cont -> fid -> M unit) (w : world) (p : pid) (P : Protocol)
    (future : fid) (oids : list string) (tid : string) (I : list string) :
  is_ready (client w) = true ->
  cur_protocol (client w) = Some p -> protocols w !! p = Some P ->
  loads_in_flight w P tid I -> fresh_from w ->
  futures w !! future = Some caller_future ->
  exists w' P',
    prefetch inv future oids tid w = (w', Ret tt) /\
    client w' = client w /\ cache w' = cache w /\ embedder w' = embedder w /\
    protocols w' !! p = Some P' /\ p_message_id P' = p_message_id P /\
    (forall oid, oid ∈ oids -> cache_miss tid (cache w) oid = true ->
       is_Some (p_futures P' !! MsgKey oid tid)) /\
    trace w' = trace w
               ++ map (fun oid => EvWrite p (loadBefore_frame oid tid))
                    (to_fetch (cache_miss tid (cache w)) I oids)
               ++ [EvResolve future (Result PNone)] /\
    futures w' !! future = Some (set_fo_result PNone caller_future).
Proof.
  intros Hr Hcur HP HI Hfr Hf.
  destruct (prefetch_loop inv tid p oids w P I Hcur HP HI Hfr)
    as (w1 & P' & I' & Hrun & Hc & Hca & Hem & HP' & Hid & HI' & _ & _ & Hall
        & Ht & Hkeep).
  assert (Hf1 : futures w1 !! future = Some caller_future)
    by (by apply Hkeep).
  exists (answered future PNone w1), P'. split.
  { unfold prefetch. erewrite bind_Ret by reflexivity. rewrite Hr.
    erewrite bind_Ret by exact Hrun. by apply set_result_caller. }
  simpl. do 5 (split; [done|]). split; [|split].
  - intros oid Hin Hm. destruct (HI' oid) as [Hs _].
    destruct (Hs (Hall oid Hin Hm)) as (lf & cbs & Hlf & _). by rewrite Hlf.
  - rewrite Ht. by rewrite <- app_assoc.
  - apply lookup_insert_eq.
Qed.


(** ** Connection attempts *)

(** The connection attempts of one round: a protocol per address, in the
    order of the addresses, with consecutive identities from [n]. *)
Fixpoint connects (n : nat) (addrs : list string) : list event :=
  match addrs with
  | [] => []
  | a :: rest => EvConnect n a :: connects (S n) rest
  end.

(** A protocol as [Protocol.__init__] leaves it. *)
Definition fresh_protocol (addr key : string) (ro : ro_mode) : Protocol :=
  MkProtocol addr key ro false false ∅ 0%Z None None.

(** What one round of attempts leaves: the protocols [ps], one per
    address, new and open; the older protocols untouched. *)
Definition round_started (addrs : list string) (key : string) (ro : ro_mode)
  (ps : list pid) (w w' : world) : Prop :=
  ps = seq (next_id w) (length addrs) /\
  next_id w' = next_id w + length addrs /\
  client w' = client w /\ futures w' = futures w /\
  cache w' = cache w /\ embedder w' = embedder w /\
  runner_closed w' = runner_closed w /\
  trace w' = trace w ++ connects (next_id w) addrs /\
  (forall i a, addrs !! i = Some a ->
     protocols w' !! (next_id w + i) = Some (fresh_protocol a key ro)) /\
  (forall q, q < next_id w -> protocols w' !! q = protocols w !! q).

Lemma make_protocols_round (addrs : list string) (key : string)
    (ro : ro_mode) (w : world) :
  exists w' ps, make_protocols addrs key ro w = (w', Ret ps) /\
    round_started addrs key ro ps w w'.
Proof.
  revert w. induction addrs as [|a l IH]; intros w; simpl.
  - exists w, []. split; [done|]. unfold round_started. simpl.
    rewrite app_nil_r, Nat.add_0_r. do 8 (split; [done|]).
    split; [intros i a Hi; by rewrite lookup_nil in Hi|done].
  - set (w1 := add_event (EvConnect (next_id w) a)
                 (upd_protocols
                    (insert (next_id w) (fresh_protocol a key ro))
                    (bump_id w))).
    destruct (IH w1) as (w' & ps & Hrun & Hps & Hn & Hc & Hf & Hca & Hem & Hrc
                         & Ht & Hnew & Hold).
    exists w', (next_id w :: ps). split.
    { erewrite bind_Ret; cycle 1.
      { unfold new_protocol, fresh.
        repeat (erewrite bind_Ret by reflexivity). reflexivity. }
      fold (fresh_protocol a key ro). fold w1.
      by erewrite bind_Ret by exact Hrun. }
    unfold round_started. simpl in *.
    split; [by rewrite Hps|]. split; [lia|].
    do 5 (split; [done|]).
    split; [rewrite Ht; simpl; by rewrite <- app_assoc|].
    split.
    + intros [|i] b Hi; simpl in Hi.
      * injection Hi as <-. rewrite Nat.add_0_r.
        rewrite Hold by lia. apply lookup_insert_eq.
      * replace (next_id w + S i) with (S (next_id w) + i) by lia.
        by apply Hnew.
    + intros q Hq. rewrite Hold by lia.
      rewrite lookup_insert_ne by lia. done.
Qed.

(** [try_connecting] on a client that is not closed. *)
Lemma try_connecting_round (w : world) :
  c_closed (client w) = false ->
  exists w' ps,
    try_connecting w = (upd_client (set_c_protocols ps) w', Ret tt) /\
    round_started (c_addrs (client w)) (c_storage_key (client w))
      (c_read_only (client w)) ps
      (add_event (EvLog Debug "try_connecting") w) w'.
Proof.
  intros Hopen. unfold try_connecting.
  erewrite bind_Ret by reflexivity.
  erewrite bind_Ret by reflexivity. simpl. rewrite Hopen.
  destruct (make_protocols_round (c_addrs (client w))
              (c_storage_key (client w)) (c_read_only (client w))
              (add_event (EvLog Debug "try_connecting") w))
    as (w' & ps & Hrun & Hround).
  exists w', ps. split; [|exact Hround].
  by erewrite bind_Ret by exact Hrun.
Qed.

(** X16.  The constructor of [Client] ends in [disconnected(None)]: a new
    readiness completion is installed, unresolved; [ready] stays [None]
    (never connected) and there is no protocol; and one round of
    connection attempts starts, a new open protocol for each address, in
    the order of the addresses, each with the client's storage key and
    read-only mode and nothing pending.  The cache and the embedder are
    not called. *)
Theorem Client_init_starts_one_round
    (depth : nat) (c : C) (e : E) (addrs : list string) (key : string)
    (ro : ro_mode) :
  exists w',
    Client_init depth (initial_world c e addrs key ro) = (w', Ret tt) /\
    c_ready (client w') = None /\ cur_protocol (client w') = None /\
    c_closed (client w') = false /\
    c_connected (client w') = 0 /\
    futures w' = {[ 0 := readiness None [] ]} /\
    c_protocols (client w') = seq 1 (length addrs) /\
    (forall i a, addrs !! i = Some a ->
       protocols w' !! (1 + i) = Some (fresh_protocol a key ro)) /\
    trace w' = [EvLog Debug "disconnected %r %r";
                EvLog Debug "try_connecting"] ++ connects 1 addrs /\
    cache w' = c /\ embedder w' = e.
Proof.
  unfold Client_init, disconnected, initial_world.
  erewrite bind_Ret by reflexivity.
  erewrite bind_Ret by reflexivity. simpl.
  erewrite bind_Ret; cycle 1.
  { erewrite bind_Ret by reflexivity. simpl.
    erewrite bind_Ret by reflexivity.
    erewrite bind_Ret by reflexivity. simpl.
    unfold new_future, fresh.
    repeat (erewrite bind_Ret by reflexivity). simpl.
    unfold _clear_protocols.
    repeat (erewrite bind_Ret by reflexivity). reflexivity. }
  erewrite bind_Ret by reflexivity. simpl.
  match goal with
  | |- exists w', try_connecting ?w = _ /\ _ => set (w1 := w)
  end.
  destruct (try_connecting_round w1 eq_refl)
    as (w' & ps & Hrun & Hps & Hn & Hc & Hf & Hca & Hem & Hrc & Ht & Hnew & Hold).
  eexists. split; [exact Hrun|]. simpl in *. rewrite Hc. simpl.
  do 4 (split; [done|]).
  split; [rewrite Hf; by rewrite insert_empty|].
  split; [done|]. split; [exact Hnew|]. split; [exact Ht|]. by split.
Qed.


(** [close()] of an open protocol with nothing pending. *)
Lemma Protocol_close_idle (inv : cont -> fid -> M unit) (w : world) (p : pid)
    (P : Protocol) :
  protocols w !! p = Some P -> p_closed P = false -> p_futures P = ∅ ->
  exists w', Protocol_close inv p w = (w', Ret tt) /\
    client w' = client w /\ futures w' = futures w /\ cache w' = cache w /\
    embedder w' = embedder w /\ next_id w' = next_id w /\
    runner_closed w' = runner_closed w /\
    protocols w' = <[p := closed_protocol P]> (protocols w) /\
    trace w' = trace w ++ EvCancelConnecting p
                 :: (if p_transport P then [EvTransportClose p] else []).
Proof.
  intros HP Hopen Hempty. unfold Protocol_close.
  erewrite bind_Ret by (by apply get_protocol_Some). rewrite Hopen.
  erewrite bind_Ret by (by apply upd_protocol_Some).
  erewrite bind_Ret by reflexivity.
  set (w1 := add_event _ _).
  assert (Htr : exists w2 : world,
    (if p_transport P then emit (EvTransportClose p) else ret tt) w1
    = (w2, Ret tt) /\ client w2 = client w /\ futures w2 = futures w /\
    cache w2 = cache w /\ embedder w2 = embedder w /\
    next_id w2 = next_id w /\ runner_closed w2 = runner_closed w /\
    protocols w2 = <[p := set_p_closed true P]> (protocols w) /\
    trace w2 = trace w ++ EvCancelConnecting p
                 :: (if p_transport P then [EvTransportClose p] else [])).
  { destruct (p_transport P); eexists; (split; [reflexivity|]); simpl;
      do 7 (split; [done|]); by rewrite <- ?app_assoc. }
  destruct Htr as (w2 & Hrun2 & Hc & Hf & Hca & Hem & Hn & Hrc & Hps & Ht).
  erewrite bind_Ret by exact Hrun2.
  unfold pop_futures.
  erewrite bind_Ret; cycle 1.
  { erewrite bind_Ret; cycle 1.
    { apply get_protocol_Some. rewrite Hps. apply lookup_insert_eq. }
    erewrite bind_Ret; cycle 1.
    { eapply upd_protocol_Some. rewrite Hps. apply lookup_insert_eq. }
    reflexivity. }
  simpl. rewrite Hempty, map_to_list_empty. simpl.
  eexists. split; [reflexivity|]. simpl. rewrite Hps.
  do 6 (split; [done|]). split; [|done].
  by rewrite insert_insert_eq.
Qed.

Lemma all_closed_but (w : world) (l : list pid) (p : pid) (P' : Protocol) :
  (forall q, q ∈ l -> q <> p -> protocol_closed w q = true) ->
  p_closed P' = true ->
  forall w' : world, protocols w' = <[p := P']> (protocols w) ->
  forallb (protocol_closed w') l = true.
Proof.
  intros Hothers Hcl w' Hps. apply forallb_forall. intros q Hq.
  unfold protocol_closed. rewrite Hps.
  destruct (decide (q = p)) as [->|Hne].
  - by rewrite lookup_insert_eq.
  - rewrite lookup_insert_ne by done.
    apply (Hothers q); [|done]. by apply list_elem_of_In.
Qed.

(** X17.  The last open candidate loses its connection while its
    [register] call is pending, and the client has no protocol.  The
    pending completion is failed with [ClientDisconnected(reason)]; the
    generator of [finish_connect], resumed with that exception, reports it
    to [register_failed], which closes the protocol and, every candidate
    being closed, schedules [try_connecting] after a delay.  Back in
    [connection_lost], [disconnected] finds every candidate closed and
    calls [try_connecting] at once: a new round of attempts starts now,
    and the delayed one is still scheduled. *)
Theorem candidate_lost_while_registering
    (depth : nat) (w : world) (p : pid) (P : Protocol) (m : msgid) (f : fid)
    (h : nat) (exc : pyval) :
  wf w ->
  c_closed (client w) = false ->
  cur_protocol (client w) = None ->
  p ∈ c_protocols (client w) ->
  (forall q, q ∈ c_protocols (client w) -> q <> p ->
     protocol_closed w q = true) ->
  protocols w !! p = Some P -> p_closed P = false ->
  p_heartbeat_handle P = Some h ->
  p_futures P = {[ m := f ]} ->
  pending_fut w f (K_register p) ->
  let err := connection_lost_error exc in
  exists w' ps,
    connection_lost (resume (S depth)) p exc w
      = (upd_client (set_c_protocols ps) w', Ret tt) /\
    trace w' = trace w
      ++ [EvLog Debug "connection_lost %r"; EvTimerCancel h;
          EvResolve f (Failure err); EvCancelConnecting p]
      ++ (if p_transport P then [EvTransportClose p] else [])
      ++ [registration_failed_log err;
          EvCallLater T_try_connecting;
          EvLog Debug "disconnected %r %r";
          EvLog Debug "try_connecting"]
      ++ connects (next_id w) (c_addrs (client w)) /\
    ps = seq (next_id w) (length (c_addrs (client w))) /\
    (forall i a, c_addrs (client w) !! i = Some a ->
       protocols w' !! (next_id w + i)
       = Some (fresh_protocol a (c_storage_key (client w))
                 (c_read_only (client w)))) /\
    protocols w' !! p = Some (closed_protocol P) /\
    client w' = client w.
Proof.
  intros Hwf Hopen Hcur Hin Hothers HP Hcl Hh Hfut Hpend err.
  set (o := FutObj SyncFut None None false [K_register p]).
  set (w0 := add_event (EvTimerCancel h)
               (add_event (EvLog Debug "connection_lost %r") w)).
  set (P1 := set_p_futures ∅ P).
  set (w1 := upd_protocols (insert p P1) w0).
  set (wA := upd_futures (insert f (set_fo_exc err o))
               (add_event (EvResolve f (Failure err)) w1)).
  (* the callback of the pending [register] *)
  assert (HPA : protocols wA !! p = Some P1) by apply lookup_insert_eq.
  destruct (Protocol_close_idle (resume depth) wA p P1 HPA Hcl eq_refl)
    as (wB & HrunB & HcB & HfB & HcaB & HemB & HnB & HrcB & HpsB & HtB).
  assert (HclosedB : forallb (protocol_closed wB) (c_protocols (client wB))
                     = true).
  { rewrite HcB. apply (all_closed_but wA _ p (closed_protocol P1)); try done.
    intros q Hq Hne. unfold protocol_closed. subst wA w1. simpl.
    rewrite lookup_insert_ne by done. by apply Hothers. }
  set (wC := add_event (EvCallLater T_try_connecting)
               (add_event (registration_failed_log err) wB)).
  assert (Hfailed : register_failed (resume depth) (ArgProtocol (Some p)) err wA
                    = (wC, Ret tt)).
  { unfold register_failed.
    erewrite bind_Ret by exact HrunB.
    erewrite bind_Ret by reflexivity.
    erewrite bind_Ret by reflexivity.
    erewrite bind_Ret by reflexivity.
    change ((if bool_decide (cur_protocol (client wB) = None)
                && forallb (protocol_closed wB) (c_protocols (client wB))
             then emit (EvCallLater T_try_connecting) else ret tt)
              (add_event (registration_failed_log err) wB) = (wC, Ret tt)).
    rewrite HclosedB.
    replace (cur_protocol (client wB)) with (@None pid)
      by (rewrite HcB; exact (eq_sym Hcur)).
    by rewrite bool_decide_eq_true_2. }
  assert (Hcb : resume (S depth) (K_register p) f wA = (wC, Ret tt)).
  { cbn [resume]. unfold invoke_body.
    destruct (resume_generator_failure wA f (K_register p) err
                (finish_connect_registered (resume depth) p))
      as (e' & _ & He' & Hgen);
      [apply lookup_insert_eq|by destruct (truthy exc)|].
    rewrite Hgen, He' by (by destruct (truthy exc)).
    unfold finish_connect_registered.
    erewrite bind_Ret by (by apply get_protocol_Some).
    replace (isinstance err "ZODB.POSException.ReadOnlyError") with false
      by (by destruct (truthy exc)).
    exact Hfailed. }
  (* back in [connection_lost] *)
  assert (HPC : protocols wC !! p = Some (closed_protocol P1)).
  { subst wC. simpl. rewrite HpsB. apply lookup_insert_eq. }
  set (wD := add_event (EvLog Debug "disconnected %r %r")
               (upd_protocols
                  (insert p (set_p_closed true (closed_protocol P1))) wC)).
  assert (HopenD : c_closed (client wD) = false).
  { subst wD wC. simpl. by rewrite HcB. }
  destruct (try_connecting_round wD HopenD)
    as (w' & ps & Hrun' & Hps' & Hn' & Hc' & Hf' & Hca' & Hem' & Hrc' & Ht'
        & Hnew' & Hold').
  assert (HnD : next_id wD = next_id w) by (subst wD wC; simpl; by rewrite HnB).
  assert (HcD : client wD = client w) by (subst wD wC; simpl; by rewrite HcB).
  exists w', ps. split.
  { unfold connection_lost.
    erewrite bind_Ret by reflexivity.
    erewrite bind_Ret by (by apply get_protocol_Some).
    rewrite Hh. erewrite bind_Ret by reflexivity. fold w0. rewrite Hcl.
    unfold pop_futures.
    erewrite bind_Ret; cycle 1.
    { erewrite bind_Ret by (by apply get_protocol_Some).
      erewrite bind_Ret by (by apply upd_protocol_Some). reflexivity. }
    fold P1 w1. rewrite Hfut, map_to_list_singleton. simpl.
    erewrite bind_Ret; cycle 1.
    { erewrite bind_Ret; [reflexivity|].
      erewrite set_exception_pending by done.
      unfold run_callbacks. simpl. exact Hcb. }
    erewrite bind_Ret by (by apply upd_protocol_Some).
    unfold disconnected.
    erewrite bind_Ret by reflexivity.
    erewrite bind_Ret by reflexivity. fold wD.
    replace (cur_protocol (client wD)) with (@None pid)
      by (rewrite HcD; by rewrite Hcur).
    rewrite !(bool_decide_eq_false_2 (Some p = None)) by done.
    cbn [orb andb].
    erewrite bind_Ret by reflexivity.
    erewrite bind_Ret; cycle 1.
    { unfold all_protocols_closed, gets. reflexivity. }
    replace (forallb (protocol_closed wD) (c_protocols (client wD))) with true.
    - exact Hrun'.
    - symmetry. rewrite HcD.
      apply (all_closed_but wC _ p (set_p_closed true (closed_protocol P1)));
        try done.
      intros q Hq Hne. unfold protocol_closed. subst wC. simpl. rewrite HpsB.
      rewrite lookup_insert_ne by done. subst wA w1. simpl.
      rewrite lookup_insert_ne by done. by apply Hothers. }
  assert (HtD : trace wD = trace w
      ++ [EvLog Debug "connection_lost %r"; EvTimerCancel h;
          EvResolve f (Failure err); EvCancelConnecting p]
      ++ (if p_transport P then [EvTransportClose p] else [])
      ++ [registration_failed_log err;
          EvCallLater T_try_connecting;
          EvLog Debug "disconnected %r %r"]).
  { subst wD wC. simpl. rewrite HtB. subst wA w1 w0. simpl.
    destruct (p_transport P); by repeat (rewrite <- app_assoc; simpl). }
  assert (HPD : protocols wD !! p = Some (closed_protocol P)).
  { subst wD. simpl. rewrite lookup_insert_eq. by f_equal. }
  clearbody wD. simpl in Hps', Hn', Ht', Hnew', Hold', Hc'.
  rewrite HnD in Hps', Hnew', Hold', Ht'. rewrite HcD in Hps', Hnew', Ht', Hc'.
  split.
  { rewrite Ht', HtD. by repeat (rewrite <- app_assoc; simpl). }
  split; [exact Hps'|]. split; [exact Hnew'|].
  split; [|exact Hc'].
  rewrite Hold'; [exact HPD|]. apply Hwf. by rewrite HP.
Qed.


(** ** Closing the client *)

(** [Client.close()] on a connected client without other candidates. *)
Lemma Client_close_connected (inv : cont -> fid -> M unit) (w : world)
    (p : pid) (P : Protocol) :
  cache_reliable ->
  c_closed (client w) = false ->
  cur_protocol (client w) = Some p -> c_protocols (client w) = [] ->
  protocols w !! p = Some P -> p_closed P = false ->
  quiet_pending w P ->
  exists w' evs,
    Client_close inv w = (w', Ret tt) /\
    client w' = set_c_protocols []
                  (set_c_ready (Some false) (set_c_closed true (client w))) /\
    protocols w' = <[p := closed_protocol P]> (protocols w) /\
    embedder w' = embedder w /\ next_id w' = next_id w /\
    runner_closed w' = runner_closed w /\
    trace w' = trace w ++ evs ++ [EvCache cache_close] /\
    forallb is_internal evs = true /\
    (forall f, f ∈ pending P ->
       In (EvResolve f (Failure (ClientDisconnected [PStr "Closed"]))) evs) /\
    (forall g, g ∉ pending P -> futures w' !! g = futures w !! g).
Proof.
  intros Hca Hopen Hcur Hps HP Hcl Hq.
  set (w1 := upd_client (set_c_ready (Some false))
               (upd_client (set_c_closed true) w)).
  assert (Hq1 : quiet_pending w1 P) by done.
  destruct (Protocol_close_quiet inv w1 p P HP Hq1)
    as (w2 & evs & Hrun2 & Hc2 & Hca2 & Hem2 & Hn2 & Hrc2 & Hps2 & Ht2 & Hi2
        & _ & Hfail & Hkeep).
  rewrite Hcl in Hps2. destruct (Hfail Hcl) as [_ Hfailed].
  set (w3 := set_cache (fst (cache_step cache_close (cache w2)))
               (add_event (EvCache cache_close) w2)).
  exists (upd_client (set_c_protocols []) w3), evs. split.
  { unfold Client_close.
    erewrite bind_Ret by reflexivity. rewrite Hopen.
    erewrite bind_Ret by reflexivity.
    erewrite bind_Ret by reflexivity. rewrite Hcur. fold w1.
    erewrite bind_Ret by exact Hrun2.
    erewrite bind_Ret by (by apply cache_do_ok). fold w3.
    unfold _clear_protocols.
    erewrite bind_Ret by reflexivity.
    replace (c_protocols (client w3)) with (@nil pid)
      by (subst w3; simpl; rewrite Hc2; simpl; by rewrite Hps).
    by erewrite bind_Ret by reflexivity. }
  subst w3. simpl. rewrite Hc2.
  split; [done|]. split; [exact Hps2|]. split; [exact Hem2|].
  split; [exact Hn2|]. split; [exact Hrc2|].
  split; [rewrite Ht2; by rewrite <- app_assoc|].
  split; [exact Hi2|]. split; [exact Hfailed|exact Hkeep].
Qed.

(** X18.  [Client.close()] on a connected client: the client is marked
    closed and not Ready, its protocol is closed (the pending completions,
    quiet ones, failed with [ClientDisconnected("Closed")]), and the cache
    is closed, once.  From then on the client stays down: closing it again
    does nothing; [try_connecting], should a retry timer still fire, opens
    no connection; and when the transport reports the loss of the closed
    connection, only the heartbeat timer is cancelled. *)
Theorem Client_close_is_final
    (depth : nat) (w : world) (p : pid) (P : Protocol) (h : nat) :
  cache_reliable ->
  c_closed (client w) = false ->
  cur_protocol (client w) = Some p -> c_protocols (client w) = [] ->
  protocols w !! p = Some P -> p_closed P = false ->
  p_heartbeat_handle P = Some h ->
  quiet_pending w P ->
  exists w' evs,
    Client_close (resume depth) w = (w', Ret tt) /\
    c_closed (client w') = true /\ c_ready (client w') = Some false /\
    protocols w' = <[p := closed_protocol P]> (protocols w) /\
    trace w' = trace w ++ evs ++ [EvCache cache_close] /\
    forallb is_internal evs = true /\
    (forall f, f ∈ pending P ->
       In (EvResolve f (Failure (ClientDisconnected [PStr "Closed"]))) evs) /\
    Client_close (resume depth) w' = (w', Ret tt) /\
    try_connecting w' = (add_event (EvLog Debug "try_connecting") w', Ret tt) /\
    (forall exc, exists w'',
       connection_lost (resume depth) p exc w' = (w'', Ret tt) /\
       trace w'' = trace w' ++ [EvLog Debug "connection_lost %r";
                                EvTimerCancel h] /\
       client w'' = client w' /\ protocols w'' = protocols w' /\
       futures w'' = futures w').
Proof.
  intros Hca Hopen Hcur Hps HP Hcl Hh Hq.
  destruct (Client_close_connected (resume depth) w p P Hca Hopen Hcur Hps HP
              Hcl Hq)
    as (w' & evs & Hrun & Hc' & Hps' & _ & _ & _ & Ht' & Hi & Hfailed & _).
  assert (HP' : protocols w' !! p = Some (closed_protocol P))
    by (rewrite Hps'; apply lookup_insert_eq).
  exists w', evs. split; [exact Hrun|].
  split; [by rewrite Hc'|]. split; [by rewrite Hc'|].
  split; [exact Hps'|]. split; [exact Ht'|].
  split; [exact Hi|]. split; [exact Hfailed|].
  split.
  { unfold Client_close. erewrite bind_Ret by reflexivity. by rewrite Hc'. }
  split.
  { unfold try_connecting.
    erewrite bind_Ret by reflexivity.
    erewrite bind_Ret by reflexivity. simpl. by rewrite Hc'. }
  intros exc.
  eexists. split.
  { unfold connection_lost.
    erewrite bind_Ret by reflexivity.
    erewrite bind_Ret by (by apply get_protocol_Some).
    cbn [p_heartbeat_handle closed_protocol set_p_futures set_p_closed].
    rewrite Hh. erewrite bind_Ret by reflexivity.
    replace (p_closed (closed_protocol P)) with true by reflexivity.
    unfold pop_futures.
    erewrite bind_Ret; cycle 1.
    { erewrite bind_Ret by (by apply get_protocol_Some).
      erewrite bind_Ret by (by apply upd_protocol_Some). reflexivity. }
    replace (p_futures (closed_protocol P)) with (∅ : gmap msgid fid)
      by reflexivity.
    rewrite map_to_list_empty. reflexivity. }
  simpl. split; [by rewrite <- app_assoc|]. split; [done|]. split; [|done].
  apply insert_id. rewrite HP'. done.
Qed.


(** ** A failing [lastTransaction] *)

(** X19.  [verify(None)] asks the server for its last transaction outside
    the [try] block.  When the server answers that call with an exception,
    the generator is thrown it and lets it go: it escapes from
    [message_received].  [register_failed] is not called: the failure is
    not logged as a registration failure, the protocol is not closed, no
    retry is scheduled, and the client is left as it was, with its
    protocol and not Ready. *)
Theorem lastTransaction_failure_escapes
    (depth : nat) (w : world) (p : pid) (P : Protocol) (m : msgid) (a : bool)
    (f : fid) (c : pyclass) (payload : pyval) (rest : list pyval) :
  protocols w !! p = Some P ->
  p_futures P !! m = Some f ->
  pending_fut w f (K_lastTransaction p) ->
  cls_plain c = true -> issubclass c "Exception" = true ->
  isinstance payload "Exception" = true ->
  isinstance payload "BaseException" = true ->
  exists w',
    message_received (resume (S depth)) p
      (Frame m a ".reply" (PTuple (PClass c :: payload :: rest))) w
      = (w', Raise payload) /\
    client w' = client w /\ cache w' = cache w /\ embedder w' = embedder w /\
    protocols w' = <[p := set_p_futures (delete m (p_futures P)) P]>
                     (protocols w) /\
    trace w' = trace w
               ++ (if known_data_error c then []
                   else [EvLog Error "%s from server: %s.%s:%s"])
               ++ [EvResolve f (Failure payload)].
Proof.
  intros HP Hf Hpend Hplain Hsub Hexc Hbase.
  erewrite message_received_failure by done.
  set (wh := resolved f (K_lastTransaction p) (Failure payload) _).
  unfold invoke_body.
  destruct (resume_generator_failure wh f (K_lastTransaction p) payload
              (verify_after_lastTransaction (resume depth) p))
    as (e' & _ & He' & Hgen); [apply lookup_insert_eq|done|].
  rewrite Hgen, (He' Hbase). exists wh. split; [reflexivity|].
  subst wh. destruct (known_data_error c); simpl;
    (do 4 (split; [done|])); by rewrite <- ?app_assoc.
Qed.

(** ** Changing the addresses *)

(** [Client.is_read_only()]: the mode of the current protocol, or the
    client's own preference when it has none.  ([self.protocol] always
    reads, the class having the attribute, so the [except AttributeError]
    clause is never taken.) *)
Definition Client_is_read_only : @M C E ro_mode :=
  c <- the_client ;;
  match cur_protocol c with
  | None => ret (c_read_only c)
  | Some p => P <- get_protocol p ;; ret (p_read_only P)
  end.

(** [not self.ready or self.is_read_only() and self.read_only is Fallback] *)
Definition trying_to_connect : @M C E bool :=
  c <- the_client ;;
  if negb (is_ready c) then ret true
  else
    ro <- Client_is_read_only ;;
    ret (ro_truthy ro && is_Fallback (c_read_only c)).

Definition new_addrs (inv : cont -> fid -> M unit) (addrs : list string)
  : @M C E unit :=
  modify (upd_client (set_c_addrs addrs)) ;;
  t <- trying_to_connect ;;
  if t then disconnected inv None else ret tt.

Lemma for_each_agree {A} (l : list A) (f g : A -> @M C E unit) :
  (forall x, x ∈ l -> f x = g x) -> for_each l f = for_each l g.
Proof.
  induction l as [|x l IH]; intros H; simpl; [done|].
  rewrite (H x) by (by left). rewrite IH; [done|].
  intros y Hy. apply H. by right.
Qed.

(** X20.  [new_addrs(addrs)] stores the new addresses.  On a client that
    is Ready and not waiting for a writable connection (its protocol is
    writable, or its mode is not [Fallback]) that is all: the connection
    is kept and the addresses serve at the next disconnection.  On a
    client that is not Ready and has no protocol, the attempts under way
    are closed, a new readiness completion is installed, and a round of
    attempts on the new addresses starts at once.  The completion that
    was replaced is left as it was, unresolved: the calls waiting on it
    are not released by the connection to come. *)
Theorem new_addrs_restarts_only_when_connecting
    (depth : nat) (w : world) (addrs : list string) :
  (forall p P,
     is_ready (client w) = true ->
     cur_protocol (client w) = Some p -> protocols w !! p = Some P ->
     ro_truthy (p_read_only P) && is_Fallback (c_read_only (client w)) = false ->
     new_addrs (resume depth) addrs w
     = (upd_client (set_c_addrs addrs) w, Ret tt)) /\
  (forall k,
   is_ready (client w) = false -> cur_protocol (client w) = None ->
   c_closed (client w) = false ->
   futures w !! (next_id w : fid) = None ->
   k ∉ c_protocols (client w) ->
   candidates_quiet w (c_protocols (client w)) k ->
   exists w1 w' evs ps,
     new_addrs (resume depth) addrs w
       = (upd_client (set_c_protocols ps) w', Ret tt) /\
     trace w1 = trace w ++ EvLog Debug "disconnected %r %r" :: evs /\
     forallb is_internal evs = true /\
     (forall q, q ∈ c_protocols (client w) -> protocol_closed w1 q = true) /\
     c_ready (client w1) = c_ready (client w) /\
     c_addrs (client w1) = addrs /\
     c_protocols (client w1) = [] /\
     c_connected (client w1) = next_id w /\
     futures w1 !! (next_id w : fid) = Some (readiness None []) /\
     next_id w1 = S (next_id w) /\
     cache w1 = cache w /\ embedder w1 = embedder w /\
     (forall g, g <> next_id w ->
        not_pending_on w (c_protocols (client w)) k g ->
        futures w1 !! g = futures w !! g) /\
     round_started addrs (c_storage_key (client w)) (c_read_only (client w))
       ps (add_event (EvLog Debug "try_connecting") w1) w').
Proof.
  split.
  - intros p P Hr Hcur HP Hnot. unfold new_addrs.
    erewrite bind_Ret by reflexivity.
    set (wa := upd_client (set_c_addrs addrs) w).
    assert (Hro : Client_is_read_only wa = (wa, Ret (p_read_only P))).
    { unfold Client_is_read_only.
      erewrite bind_Ret by reflexivity.
      replace (cur_protocol (client wa)) with (Some p)
        by (symmetry; exact Hcur).
      by erewrite bind_Ret by (by apply get_protocol_Some). }
    assert (Htry : trying_to_connect wa = (wa, Ret false)).
    { unfold trying_to_connect.
      erewrite bind_Ret by reflexivity.
      replace (is_ready (client wa)) with true by (symmetry; exact Hr).
      cbn [negb]. erewrite bind_Ret by exact Hro.
      replace (c_read_only (client wa)) with (c_read_only (client w))
        by reflexivity.
      by rewrite Hnot. }
    by erewrite bind_Ret by exact Htry.
  - intros k Hnr Hcur Hopen Hfresh Hk Hcq.
    set (l := c_protocols (client w)) in *.
    set (w0 := upd_client (set_c_protocol (Some None))
                 (upd_client (set_c_connected (next_id w))
                    (upd_futures (insert (next_id w) (readiness None []))
                       (bump_id (add_event (EvLog Debug "disconnected %r %r")
                                   (upd_client (set_c_addrs addrs) w)))))).
    assert (Hcq0 : candidates_quiet w0 l k).
    { eapply candidates_quiet_ext; [| |exact Hcq]; [done|].
      intros f [o Ho]. subst w0. simpl. rewrite lookup_insert_ne; [done|].
      intros <-. by rewrite Hfresh in Ho. }
    assert (Hnp0 : not_pending_on w0 l k (next_id w)).
    { intros q Q Hq Hqk HQ Hin.
      destruct (Hcq q Hq Hqk) as (Q' & HQ' & [_ Hquiet] & _).
      replace (protocols w0) with (protocols w) in HQ by done.
      rewrite HQ' in HQ. injection HQ as ->.
      destruct (Hquiet _ Hin) as (o & Ho & _). by rewrite Hfresh in Ho. }
    destruct (close_candidates (resume depth) l l k w0 Hcq0)
      as (w4 & evs & Hrun4 & _ & Hc4 & Hca4 & Hem4 & Hn4 & Ht4 & Hi4
          & Hcl4 & _ & _ & Hfut4); [done|].
    destruct (Hfut4 _ Hnp0) as [Hconn4 _].
    set (w1 := upd_client (set_c_protocols []) w4).
    assert (Hopen1 : c_closed (client w1) = false)
      by (subst w1; simpl; by rewrite Hc4).
    destruct (try_connecting_round w1 Hopen1) as (w' & ps & Hrun' & Hround).
    exists w1, w', evs, ps. split.
    { unfold new_addrs.
      erewrite bind_Ret by reflexivity.
      set (wa := upd_client (set_c_addrs addrs) w).
      assert (Htry : trying_to_connect wa = (wa, Ret true)).
      { unfold trying_to_connect.
        erewrite bind_Ret by reflexivity.
        replace (is_ready (client wa)) with false by (symmetry; exact Hnr).
        reflexivity. }
      erewrite bind_Ret by exact Htry.
      cbv iota. unfold disconnected.
      erewrite bind_Ret by reflexivity.
      erewrite bind_Ret by reflexivity.
      erewrite bind_Ret; cycle 1.
      { change (cur_protocol
                  (client (add_event (EvLog Debug "disconnected %r %r") wa)))
          with (cur_protocol (client w)).
        rewrite Hcur.
        rewrite !(bool_decide_eq_true_2 (@None pid = None)) by done.
        cbn [orb andb negb].
        erewrite bind_Ret by reflexivity.
        erewrite bind_Ret by reflexivity.
        change (is_ready
                  (client (add_event (EvLog Debug "disconnected %r %r") wa)))
          with (is_ready (client w)).
        rewrite Hnr.
        erewrite bind_Ret by reflexivity.
        unfold new_future, fresh.
        repeat (erewrite bind_Ret by reflexivity). simpl.
        unfold _clear_protocols.
        erewrite bind_Ret by reflexivity.
        erewrite bind_Ret; [reflexivity|].
        rewrite (for_each_agree _ _
                   (fun q => if bool_decide (Some q = Some k) then ret tt
                             else Protocol_close (resume depth) q)).
        - exact Hrun4.
        - intros q Hq. rewrite bool_decide_eq_false_2 by done.
          rewrite bool_decide_eq_false_2; [done|].
          intros [= ->]. by apply Hk. }
      erewrite bind_Ret by reflexivity. simpl.
      exact Hrun'. }
    subst w1. simpl. rewrite Hc4 in *. simpl in *.
    split; [rewrite Ht4; simpl; by rewrite <- app_assoc|].
    split; [exact Hi4|].
    split.
    { intros q Hq. apply Hcl4; [done|]. intros ->. by apply Hk. }
    do 4 (split; [done|]).
    split; [rewrite Hconn4; apply lookup_insert_eq|].
    split; [by rewrite Hn4|]. split; [by rewrite Hca4|].
    split; [by rewrite Hem4|].
    split; [|rewrite Hc4 in Hround; exact Hround].
    intros g Hg Hnp. destruct (Hfut4 g) as [Hg4 _]; [exact Hnp|].
    etrans; [exact Hg4|]. by rewrite lookup_insert_ne.
Qed.


(** ** Calls through the runner, end to end *)

(** The I/O thread runs the method that was scheduled last. *)
Definition run_scheduled (depth : nat) (w : world) : world :=
  match last (trace w) with
  | Some (EvCallSoonThreadsafe m result) =>
      fst (run_client_meth depth m result w)
  | _ => w
  end.

Lemma runner_call_open (m : client_meth) (io : world -> world) (w : world) :
  runner_closed w = false ->
  runner_call m io w = wait_for_result (next_id w) (io (scheduled m w)).
Proof.
  intros Hopen. unfold runner_call.
  erewrite bind_Ret by reflexivity. rewrite Hopen.
  unfold new_future, fresh.
  repeat (erewrite bind_Ret by reflexivity). reflexivity.
Qed.

Lemma run_scheduled_runs (depth : nat) (m : client_meth) (w : world) :
  run_scheduled depth (scheduled m w)
  = fst (run_client_meth depth m (next_id w) (scheduled m w)).
Proof.
  unfold run_scheduled. replace (last (trace (scheduled m w)))
    with (Some (EvCallSoonThreadsafe m (next_id w))); [done|].
  unfold scheduled. simpl. by rewrite last_snoc.
Qed.

(** Waiting for a completion that is resolved. *)
Lemma wait_for_result_done (w : world) (f : fid) (o : fut_obj) :
  futures w !! f = Some o -> fo_cancelled o = false ->
  (forall v, fo_exc o = None -> fo_result o = Some v ->
     wait_for_result f w = (w, Ret v)) /\
  (forall e, fo_exc o = Some e -> isinstance e "BaseException" = true ->
     isinstance e "concurrent.futures.TimeoutError" = false ->
     wait_for_result f w = (w, Raise e)).
Proof.
  intros Hf Hc. unfold wait_for_result, try_except_class, result_within.
  split.
  - intros v He Hv. erewrite bind_Ret by (by apply get_future_Some).
    by rewrite Hc, He, Hv.
  - intros e He Hb Ht. erewrite bind_Ret by (by apply get_future_Some).
    rewrite Hc, He. unfold py_raise. rewrite Hb. unfold raise. by rewrite Ht.
Qed.

(** X21.  Synchronous calls through the runner, with the I/O thread
    running the scheduled method before the caller wakes up.
    - A load that hits the cache returns the cached record, whatever the
      state of the connection; no frame is written.
    - On a client that was never connected, a call raises
      [ClientDisconnected("never connected")] instead of waiting.
    - On a client that is not Ready, a commit raises
      [ClientDisconnected()]: it is not queued, nothing is written, and
      neither the cache nor the commit hook is called. *)
Theorem runner_call_round_trip (depth : nat) (w : world) :
  runner_closed w = false ->
  (forall oid tid,
     loadBefore oid tid (cache w) <> PNone ->
     let m := CM_load_before_threadsafe oid tid in
     let data := loadBefore oid tid (cache w) in
     runner_call m (run_scheduled depth) w
     = (answered (next_id w) data (scheduled m w), Ret data)) /\
  (c_ready (client w) = None ->
   forall method args,
     let m := CM_call_threadsafe method args in
     let e := ClientDisconnected [PStr "never connected"] in
     runner_call m (run_scheduled depth) w
     = (upd_futures (insert (next_id w) (set_fo_exc e caller_future))
          (add_event (EvResolve (next_id w) (Failure e)) (scheduled m w)),
        Raise e)) /\
  (is_ready (client w) = false ->
   forall tid updates f,
     let m := CM_tpc_finish_threadsafe tid updates f in
     let e := ClientDisconnected [] in
     runner_call m (run_scheduled depth) w
     = (upd_futures (insert (next_id w) (set_fo_exc e caller_future))
          (add_event (EvResolve (next_id w) (Failure e)) (scheduled m w)),
        Raise e)).
Proof.
  intros Hopen.
  assert (Hfut : forall m, futures (scheduled m w) !! (next_id w : fid)
                           = Some caller_future)
    by (intros m; apply lookup_insert_eq).
  split; [|split].
  - intros oid tid Hhit m data.
    rewrite runner_call_open, run_scheduled_runs by done.
    assert (Hrun : run_client_meth depth m (next_id w) (scheduled m w)
                   = (answered (next_id w) data (scheduled m w), Ret tt)).
    { subst m. simpl run_client_meth. unfold load_before_threadsafe.
      erewrite bind_Ret by reflexivity.
      change (loadBefore oid tid (cache (scheduled
                (CM_load_before_threadsafe oid tid) w))) with data.
      destruct data eqn:Hdata; try done; by apply set_result_caller. }
    rewrite Hrun. simpl fst.
    apply (proj1 (wait_for_result_done _ (next_id w)
                    (set_fo_result data caller_future)
                    (lookup_insert_eq _ _ _) eq_refl)); reflexivity.
  - intros Hnever method args m e.
    rewrite runner_call_open, run_scheduled_runs by done.
    assert (Hrun : run_client_meth depth m (next_id w) (scheduled m w)
                   = (upd_futures
                        (insert (next_id w) (set_fo_exc e caller_future))
                        (add_event (EvResolve (next_id w) (Failure e))
                           (scheduled m w)), Ret tt)).
    { subst m. simpl run_client_meth. unfold call_threadsafe.
      erewrite bind_Ret by reflexivity.
      replace (is_ready (client (scheduled (CM_call_threadsafe method args) w)))
        with false by (unfold is_ready; simpl; by rewrite Hnever).
      unfold _when_ready. erewrite bind_Ret by reflexivity.
      replace (c_ready (client (scheduled (CM_call_threadsafe method args) w)))
        with (@None bool) by (symmetry; exact Hnever).
      by erewrite set_exception_pending by done. }
    rewrite Hrun. simpl fst.
    apply (proj2 (wait_for_result_done _ (next_id w)
                    (set_fo_exc e caller_future)
                    (lookup_insert_eq _ _ _) eq_refl)); reflexivity.
  - intros Hnr tid updates f m e.
    rewrite runner_call_open, run_scheduled_runs by done.
    assert (Hrun : run_client_meth depth m (next_id w) (scheduled m w)
                   = (upd_futures
                        (insert (next_id w) (set_fo_exc e caller_future))
                        (add_event (EvResolve (next_id w) (Failure e))
                           (scheduled m w)), Ret tt)).
    { subst m. simpl run_client_meth. unfold tpc_finish_threadsafe.
      erewrite bind_Ret by reflexivity.
      replace (is_ready (client (scheduled
                 (CM_tpc_finish_threadsafe tid updates f) w)))
        with false by (symmetry; exact Hnr).
      by erewrite set_exception_pending by done. }
    rewrite Hrun. simpl fst.
    apply (proj2 (wait_for_result_done _ (next_id w)
                    (set_fo_exc e caller_future)
                    (lookup_insert_eq _ _ _) eq_refl)); reflexivity.
Qed.


(** ** Failures and losses that lead to new attempts *)

(** The events of [close()] on an open protocol. *)
Definition closing_events (p : pid) (P : Protocol) : list event :=
  EvCancelConnecting p :: (if p_transport P then [EvTransportClose p] else []).

(** [close()] of an open protocol whose pending completions are quiet: the
    connection attempt is cancelled, the transport closed if there is one,
    and then the pending completions are failed. *)
Lemma Protocol_close_open (inv : cont -> fid -> M unit) (w : world) (p : pid)
    (P : Protocol) :
  protocols w !! p = Some P -> p_closed P = false -> quiet_pending w P ->
  exists w' evs, Protocol_close inv p w = (w', Ret tt) /\
    client w' = client w /\ cache w' = cache w /\ embedder w' = embedder w /\
    next_id w' = next_id w /\ runner_closed w' = runner_closed w /\
    protocols w' = <[p := closed_protocol P]> (protocols w) /\
    trace w' = trace w ++ closing_events p P ++ evs /\
    forallb is_resolution evs = true /\
    (forall f, f ∈ pending P ->
       In (EvResolve f (Failure (ClientDisconnected [PStr "Closed"]))) evs) /\
    (forall g, g ∉ pending P -> futures w' !! g = futures w !! g).
Proof.
  intros HP Hcl [Hnd Hq]. unfold Protocol_close.
  erewrite bind_Ret by (by apply get_protocol_Some). rewrite Hcl.
  erewrite bind_Ret by (by apply upd_protocol_Some).
  erewrite bind_Ret by reflexivity.
  set (w1 := upd_protocols (insert p (closed_protocol P))
               (MkWorld (client w) (protocols w) (futures w) (cache w)
                  (embedder w) (trace w ++ closing_events p P)
                  (next_id w) (runner_closed w))).
  assert (Hpop : (_ <- (if p_transport P then emit (EvTransportClose p)
                        else ret tt);;
                  futs <- pop_futures p;;
                  for_each futs (fun future =>
                    set_exception inv future
                      (ClientDisconnected [PStr "Closed"])))
                   (add_event (EvCancelConnecting p)
                      (upd_protocols (insert p (set_p_closed true P)) w))
                 = for_each (pending P) (fun future =>
                     set_exception inv future
                       (ClientDisconnected [PStr "Closed"])) w1).
  { subst w1. unfold pop_futures, closing_events.
    destruct (p_transport P); erewrite bind_Ret by reflexivity;
      (erewrite bind_Ret;
       [|erewrite bind_Ret by (apply get_protocol_Some; apply lookup_insert_eq);
         erewrite bind_Ret
           by (apply upd_protocol_Some; apply lookup_insert_eq);
         reflexivity]);
      unfold upd_protocols, add_event, closed_protocol; simpl;
      rewrite insert_insert_eq; try rewrite <- app_assoc; reflexivity. }
  rewrite Hpop. clear Hpop.
  destruct (for_each_settled
              (fun future => set_exception inv future
                               (ClientDisconnected [PStr "Closed"]))
              (Failure (ClientDisconnected [PStr "Closed"]))
              (pending P) w1)
    as (w' & evs & Hrun & Hs & Ht & He & _ & Hin & Hout); [| done | |].
  { intros w0 f Hf. by apply set_exception_quiet. }
  { intros f Hf. destruct (Hq f Hf) as (o & Ho & Hrest). by exists o. }
  destruct Hs as (Hc1 & Hp1 & Hca1 & Hem1 & Hn1 & Hr1).
  exists w', evs. split; [exact Hrun|].
  do 5 (split; [done|]). split; [by rewrite Hp1|].
  split; [rewrite Ht; subst w1; simpl; by rewrite <- app_assoc|].
  split; [exact He|]. split; [exact Hin|exact Hout].
Qed.

(** Every candidate of [l] other than [p] is closed. *)
Definition others_closed (w : world) (l : list pid) (p : pid) : bool :=
  forallb (fun q => bool_decide (q = p) || protocol_closed w q) l.

Lemma others_closed_after (w w' : world) (l : list pid) (p : pid)
    (P' : Protocol) :
  protocols w' = <[p := P']> (protocols w) -> p_closed P' = true ->
  forallb (protocol_closed w') l = others_closed w l p.
Proof.
  intros Hps Hcl. unfold others_closed.
  induction l as [|q l IH]; simpl; [done|]. rewrite IH. f_equal.
  unfold protocol_closed. rewrite Hps.
  destruct (decide (q = p)) as [->|Hne].
  - rewrite lookup_insert_eq, bool_decide_eq_true_2 by done. by rewrite Hcl.
  - by rewrite lookup_insert_ne, bool_decide_eq_false_2 by done.
Qed.

(** X22.  [register_failed(protocol, exc)] for an open protocol (pending
    completions quiet): the protocol is closed and the failure logged.  A
    retry is scheduled, through [call_later], exactly when the client has
    no protocol and every other candidate is closed; otherwise nothing is
    scheduled.  In no case is a connection opened at once, and the client
    is left as it was. *)
Theorem register_failed_schedules_retry
    (inv : cont -> fid -> M unit) (w : world) (p : pid) (P : Protocol)
    (exc : pyval) :
  protocols w !! p = Some P -> p_closed P = false -> quiet_pending w P ->
  let last_one := bool_decide (cur_protocol (client w) = None)
                  && others_closed w (c_protocols (client w)) p in
  exists w' evs,
    register_failed inv (ArgProtocol (Some p)) exc w = (w', Ret tt) /\
    client w' = client w /\ cache w' = cache w /\ embedder w' = embedder w /\
    next_id w' = next_id w /\
    protocols w' = <[p := closed_protocol P]> (protocols w) /\
    trace w' = trace w ++ closing_events p P ++ evs
               ++ registration_failed_log exc
               :: (if last_one then [EvCallLater T_try_connecting] else []) /\
    forallb is_resolution evs = true /\
    (forall f, f ∈ pending P ->
       In (EvResolve f (Failure (ClientDisconnected [PStr "Closed"]))) evs).
Proof.
  intros HP Hcl Hq last_one.
  destruct (Protocol_close_open inv w p P HP Hcl Hq)
    as (w1 & evs & Hrun & Hc & Hca & Hem & Hn & _ & Hps & Ht & He & Hin & _).
  assert (Hcond : bool_decide (cur_protocol (client w1) = None)
                  && forallb (protocol_closed w1) (c_protocols (client w1))
                  = last_one).
  { rewrite Hc. by rewrite (others_closed_after w w1 _ p (closed_protocol P)). }
  assert (Hrest : exists w' : world,
    register_failed inv (ArgProtocol (Some p)) exc w = (w', Ret tt) /\
    client w' = client w1 /\ cache w' = cache w1 /\
    embedder w' = embedder w1 /\ next_id w' = next_id w1 /\
    protocols w' = protocols w1 /\
    trace w' = trace w1 ++ registration_failed_log exc
                 :: (if last_one then [EvCallLater T_try_connecting] else [])).
  { unfold register_failed.
    erewrite bind_Ret by exact Hrun.
    erewrite bind_Ret by reflexivity.
    erewrite bind_Ret by reflexivity.
    erewrite bind_Ret by reflexivity.
    change (forallb (protocol_closed (add_event ?e w1))
              (c_protocols (client (add_event ?e w1))))
      with (forallb (protocol_closed w1) (c_protocols (client w1))).
    change (cur_protocol (client (add_event ?e w1)))
      with (cur_protocol (client w1)).
    rewrite Hcond. destruct last_one; eexists; (split; [reflexivity|]); simpl;
      do 5 (split; [done|]); by rewrite <- ?app_assoc. }
  destruct Hrest as (w' & Hrun' & Hc' & Hca' & Hem' & Hn' & Hps' & Ht').
  exists w', evs. split; [exact Hrun'|].
  split; [congruence|]. split; [congruence|]. split; [congruence|].
  split; [congruence|]. split; [congruence|].
  split; [rewrite Ht', Ht; by repeat (rewrite <- app_assoc; simpl)|].
  by split.
Qed.


(** X23.  A Ready client loses its connection.  The heartbeat timer is
    cancelled, the pending completions (quiet ones) are failed with
    [ClientDisconnected(reason)] and the protocol is marked closed; the
    embedder is told with [notify_disconnected]; the client is no longer
    Ready, has no protocol, and has a new unresolved readiness completion;
    and a round of connection attempts starts at once, one new protocol
    for each address.  The cache is not called. *)
Theorem unexpected_loss_reconnects
    (depth : nat) (w : world) (p : pid) (P : Protocol) (h : nat) (exc : pyval) :
  embedder_reliable ->
  c_closed (client w) = false -> is_ready (client w) = true ->
  cur_protocol (client w) = Some p -> c_protocols (client w) = [] ->
  protocols w !! p = Some P -> p_closed P = false ->
  p_heartbeat_handle P = Some h ->
  quiet_pending w P ->
  exists w1 w' evs ps,
    connection_lost (resume depth) p exc w
      = (upd_client (set_c_protocols ps) w', Ret tt) /\
    trace w1 = trace w
               ++ [EvLog Debug "connection_lost %r"; EvTimerCancel h] ++ evs
               ++ [EvLog Debug "disconnected %r %r";
                   EvEmb notify_disconnected] /\
    forallb is_resolution evs = true /\
    (forall f, f ∈ pending P ->
       In (EvResolve f (Failure (connection_lost_error exc))) evs) /\
    c_ready (client w1) = Some false /\ cur_protocol (client w1) = None /\
    c_protocols (client w1) = [] /\
    c_connected (client w1) = next_id w /\
    futures w1 !! (next_id w : fid) = Some (readiness None []) /\
    next_id w1 = S (next_id w) /\
    protocols w1 = <[p := closed_protocol P]> (protocols w) /\
    cache w1 = cache w /\
    round_started (c_addrs (client w)) (c_storage_key (client w))
      (c_read_only (client w)) ps
      (add_event (EvLog Debug "try_connecting") w1) w'.
Proof.
  intros He Hopen Hr Hcur Hps HP Hcl Hh [Hnd Hq].
  set (w0 := add_event (EvTimerCancel h)
               (add_event (EvLog Debug "connection_lost %r") w)).
  set (wp := upd_protocols (insert p (set_p_futures ∅ P)) w0).
  destruct (for_each_settled
              (fun f => set_exception (resume depth) f
                          (connection_lost_error exc))
              (Failure (connection_lost_error exc)) (pending P) wp)
    as (ws & evs & Hruns & (Hcs & Hpss & Hcas & Hems & Hns & Hrcs) & Hts & Hes
        & _ & Hins & _); [|done| |].
  { intros wx f Hf. by apply set_exception_quiet. }
  { intros f Hf. destruct (Hq f Hf) as (o & Ho & Hrest). by exists o. }
  set (wc := upd_protocols (insert p (closed_protocol P)) ws).
  set (wn := set_embedder
               (fst (emb_step notify_disconnected
                       (embedder (add_event (EvLog Debug "disconnected %r %r")
                                    wc))))
               (add_event (EvEmb notify_disconnected)
                  (add_event (EvLog Debug "disconnected %r %r") wc))).
  set (w1 := upd_client (set_c_protocols [])
               (upd_client (set_c_protocol (Some None))
                  (upd_client (set_c_connected (next_id w))
                     (upd_futures (insert (next_id w) (readiness None []))
                        (bump_id (upd_client (set_c_ready (Some false)) wn)))))).
  assert (Hc1 : client w1
                = set_c_protocols []
                    (set_c_protocol (Some None)
                       (set_c_connected (next_id w)
                          (set_c_ready (Some false) (client w)))))
    by (subst w1 wn wc; simpl; by rewrite Hcs).
  assert (Hopen1 : c_closed (client w1) = false) by (by rewrite Hc1).
  destruct (try_connecting_round w1 Hopen1) as (w' & ps & Hrun' & Hround).
  assert (Hdisc : disconnected (resume depth) (Some p) wc
                  = (upd_client (set_c_protocols ps) w', Ret tt)).
  { unfold disconnected.
    erewrite bind_Ret by reflexivity.
    erewrite bind_Ret by reflexivity.
    erewrite bind_Ret; cycle 1.
    { change (cur_protocol (client (add_event ?e wc)))
        with (cur_protocol (client wc)).
      replace (cur_protocol (client wc)) with (Some p)
        by (subst wc; simpl; rewrite Hcs; symmetry; exact Hcur).
      rewrite !(bool_decide_eq_true_2 (Some p = Some p)) by done.
      rewrite !(bool_decide_eq_false_2 (Some p = None)) by done.
      cbn [orb andb negb].
      erewrite bind_Ret by (by apply emb_do_ok). fold wn.
      erewrite bind_Ret by reflexivity.
      replace (is_ready (client wn)) with true
        by (subst wn wc; simpl; rewrite Hcs; symmetry; exact Hr).
      erewrite bind_Ret by reflexivity.
      unfold new_future, fresh.
      repeat (erewrite bind_Ret by reflexivity).
      unfold _clear_protocols.
      erewrite bind_Ret by reflexivity.
      match goal with
      | |- context [for_each (c_protocols ?c)] =>
          replace (c_protocols c) with (@nil pid)
            by (subst wn wc; simpl; rewrite Hcs; symmetry; exact Hps)
      end.
      erewrite bind_Ret by reflexivity.
      replace (next_id (upd_client (set_c_ready (Some false)) wn))
        with (next_id w) by (subst wn wc; simpl; by rewrite Hns).
      reflexivity. }
    fold w1.
    erewrite bind_Ret by reflexivity.
    replace (forallb (protocol_closed w1) (c_protocols (client w1)))
      with true by (by rewrite Hc1).
    exact Hrun'. }
  exists w1, w', evs, ps. split.
  { unfold connection_lost.
    erewrite bind_Ret by reflexivity.
    erewrite bind_Ret by (by apply get_protocol_Some).
    rewrite Hh. erewrite bind_Ret by reflexivity. fold w0. rewrite Hcl.
    unfold pop_futures.
    erewrite bind_Ret; cycle 1.
    { erewrite bind_Ret by (by apply get_protocol_Some).
      erewrite bind_Ret by (by apply upd_protocol_Some). reflexivity. }
    fold wp. fold (pending P).
    erewrite bind_Ret by exact Hruns.
    erewrite bind_Ret; cycle 1.
    { eapply upd_protocol_Some. rewrite Hpss. apply lookup_insert_eq. }
    replace (upd_protocols
               (insert p (set_p_closed true (set_p_futures ∅ P))) ws)
      with wc; [exact Hdisc|].
    subst wc. unfold upd_protocols. by f_equal. }
  split.
  { subst w1 wn wc. simpl. rewrite Hts. subst wp w0. simpl.
    by repeat (rewrite <- app_assoc; simpl). }
  split; [exact Hes|]. split; [exact Hins|].
  rewrite Hc1. simpl.
  do 4 (split; [done|]).
  split; [subst w1; simpl; apply lookup_insert_eq|].
  split; [subst w1 wn wc; simpl; by rewrite Hns|].
  split.
  { subst w1 wn wc. simpl. rewrite Hpss. subst wp. simpl.
    by rewrite insert_insert_eq. }
  split; [subst w1 wn wc; simpl; by rewrite Hcas|].
  rewrite Hc1 in Hround. exact Hround.
Qed.

(** X24.  [ClientRunner.close()], with the I/O thread running the
    scheduled [close_threadsafe] before the caller wakes up, on a connected
    client whose protocol has only quiet completions pending (completions
    of callers, with no callback that runs at once): the client is closed
    as by [Client.close()], the completion of the call is resolved with
    [None], the call returns, and the runner is marked closed. *)
Theorem Runner_close_closes_client
    (depth : nat) (w : world) (p : pid) (P : Protocol) :
  cache_reliable ->
  runner_closed w = false ->
  c_closed (client w) = false ->
  cur_protocol (client w) = Some p -> c_protocols (client w) = [] ->
  protocols w !! p = Some P -> p_closed P = false ->
  quiet_pending w P ->
  futures w !! (next_id w : fid) = None ->
  exists w' evs,
    Runner_close (run_scheduled depth) w = (w', Ret tt) /\
    runner_closed w' = true /\
    c_closed (client w') = true /\ c_ready (client w') = Some false /\
    protocols w' = <[p := closed_protocol P]> (protocols w) /\
    futures w' !! (next_id w : fid)
      = Some (set_fo_result PNone caller_future) /\
    trace w' = trace w
               ++ [EvCallSoonThreadsafe CM_close_threadsafe (next_id w)]
               ++ evs
               ++ [EvCache cache_close;
                   EvResolve (next_id w) (Result PNone)] /\
    forallb is_internal evs = true.
Proof.
  intros Hca Hro Hopen Hcur Hps HP Hcl Hq Hfresh.
  set (ws := scheduled CM_close_threadsafe w).
  assert (Hnotin : next_id w ∉ pending P).
  { intros Hin. destruct Hq as [_ Hq].
    destruct (Hq _ Hin) as (o & Ho & _). by rewrite Hfresh in Ho. }
  assert (Hqs : quiet_pending ws P).
  { destruct Hq as [Hnd Hq]. split; [done|]. intros f Hf.
    eapply quiet_ext; [|by apply Hq]. subst ws. simpl.
    rewrite lookup_insert_ne; [done|]. intros <-. by apply Hnotin. }
  destruct (Client_close_connected (resume depth) ws p P Hca Hopen Hcur Hps HP
              Hcl Hqs)
    as (w2 & evs & Hrun2 & Hc2 & Hps2 & Hem2 & Hn2 & Hrc2 & Ht2 & Hi2 & _
        & Hkeep2).
  assert (Hf2 : futures w2 !! (next_id w : fid) = Some caller_future).
  { rewrite Hkeep2 by done. apply lookup_insert_eq. }
  set (w3 := answered (next_id w) PNone w2).
  assert (Hio : run_scheduled depth ws = w3).
  { subst ws. rewrite run_scheduled_runs. simpl run_client_meth.
    unfold close_threadsafe.
    erewrite bind_Ret by exact Hrun2.
    by erewrite set_result_caller by done. }
  exists (set_runner_closed true w3), evs. split.
  { unfold Runner_close.
    erewrite bind_Ret; [reflexivity|].
    rewrite runner_call_open by done. fold ws. rewrite Hio.
    apply (proj1 (wait_for_result_done w3 (next_id w)
                    (set_fo_result PNone caller_future)
                    (lookup_insert_eq _ _ _) eq_refl)); reflexivity. }
  subst w3. simpl. rewrite Hc2.
  split; [done|]. split; [done|]. split; [done|]. split; [exact Hps2|].
  split; [apply lookup_insert_eq|].
  split; [|exact Hi2].
  rewrite Ht2. subst ws. simpl. by repeat (rewrite <- app_assoc; simpl).
Qed.


(** ** Failures the generators do not handle *)

(** X25.  The commit hook [f] runs in the [else] clause of
    [tpc_finish_threadsafe], outside the [try].  When it raises, after the
    server has confirmed the commit and the cache has been updated, the
    exception escapes from [message_received]: the caller's completion is
    not resolved, the protocol is not closed and the client is not
    disconnected, although the cache already records the new tid. *)
Theorem commit_hook_failure_escapes
    (depth : nat) (w : world) (p : pid) (P : Protocol) (m : msgid) (a : bool)
    (g future : fid) (updates : list (pyval * pyval * pyval)) (f : nat)
    (server_tid e : pyval) :
  cache_reliable ->
  protocols w !! p = Some P -> p_futures P !! m = Some g ->
  pending_fut w g (K_tpc_finish future updates f) ->
  future <> g ->
  exception_reply server_tid = None ->
  snd (emb_step (on_commit f server_tid) (embedder w)) = Some e ->
  exists w',
    message_received (resume (S depth)) p (Frame m a ".reply" server_tid) w
      = (w', Raise e) /\
    trace w' = trace w ++ [EvResolve g (Result server_tid)]
               ++ update_calls server_tid updates
               ++ [EvCache (setLastTid server_tid);
                   EvEmb (on_commit f server_tid)] /\
    client w' = client w /\
    futures w' !! future = futures w !! future /\
    protocols w' = <[p := set_p_futures (delete m (p_futures P)) P]>
                     (protocols w).
Proof.
  intros Hc HP Hg Hpend Hne Hnone Hraise.
  erewrite message_received_result by done.
  set (wh := resolved g (K_tpc_finish future updates f) (Result server_tid) _).
  unfold invoke_body.
  erewrite resume_generator_result by apply lookup_insert_eq.
  unfold tpc_finish_resumed, try_except_else.
  destruct (tpc_finish_updates_ok server_tid updates wh Hc)
    as (wu & Hrunu & Htu & Hemu & Hclu & Hpsu & Hfsu & Hnu & Hru).
  erewrite bind_Ret by exact Hrunu. unfold ret. cbv beta iota.
  unfold bind, emb_do.
  replace (embedder (add_event (EvEmb (on_commit f server_tid)) wu))
    with (embedder w) by (simpl; by rewrite Hemu).
  destruct (emb_step (on_commit f server_tid) (embedder w)) as [e' r].
  simpl in Hraise. subst r.
  eexists. split; [reflexivity|]. simpl.
  split; [rewrite Htu; subst wh; simpl;
          by repeat (rewrite <- app_assoc; simpl)|].
  split; [by rewrite Hclu|].
  split; [rewrite Hfsu; subst wh; simpl; by rewrite lookup_insert_ne|].
  by rewrite Hpsu.
Qed.

(** X26.  The server answers [getInvalidations] with a value that is not
    empty and is not a pair.  The [try] block of [verify] has already set
    the outcome label to "quick verification" when unpacking raises
    [ValueError]; the [except] clause deletes the client's protocol
    attribute and hands the protocol to [register_failed].  The cache has
    not been called: its last tid is not set, and the client is not made
    Ready. *)
Theorem malformed_invalidations_fail_verification
    (depth : nat) (w : world) (p : pid) (P : Protocol) (m : msgid) (a : bool)
    (g : fid) (server_tid vdata : pyval) (l : list pyval) (v : option pid) :
  protocols w !! p = Some P -> p_futures P !! m = Some g ->
  pending_fut w g (K_getInvalidations p server_tid) ->
  c_protocol (client w) = Some v ->
  exception_reply vdata = None ->
  truthy vdata = true -> py_iter vdata = Some l -> length l <> 2 ->
  exists w1,
    message_received (resume (S depth)) p (Frame m a ".reply" vdata) w
    = register_failed (resume depth) (ArgProtocol (Some p))
        (ValueError "wrong number of values to unpack") w1 /\
    client w1 = set_c_protocol None
                  (set_c_verify_result (Some "quick verification") (client w)) /\
    c_ready (client w1) = c_ready (client w) /\
    cur_protocol (client w1) = None /\
    cache w1 = cache w /\ embedder w1 = embedder w /\
    protocols w1 = <[p := set_p_futures (delete m (p_futures P)) P]>
                     (protocols w) /\
    trace w1 = trace w ++ [EvResolve g (Result vdata)].
Proof.
  intros HP Hg Hpend Hattr Hnone Htruthy Hl Hlen.
  erewrite message_received_result by done.
  set (wh := resolved g (K_getInvalidations p server_tid) (Result vdata) _).
  unfold invoke_body.
  erewrite resume_generator_result by apply lookup_insert_eq.
  unfold verify_after_getInvalidations, try_except_else, verify_invalidations.
  rewrite Htruthy.
  erewrite bind_Ret by reflexivity.
  unfold bind at 1. unfold unpack2. rewrite Hl.
  set (wl := upd_client (set_c_verify_result (Some "quick verification")) wh).
  assert (Hraise : (match l with
                    | [a0; b] => ret (a0, b)
                    | _ => raise (ValueError "wrong number of values to unpack")
                    end : @M C E (pyval * pyval)) wl
                   = (wl, Raise (ValueError "wrong number of values to unpack"))).
  { destruct l as [|x1 [|x2 [|x3 l]]]; simpl in Hlen; done. }
  rewrite Hraise. cbn [isinstance ValueError].
  replace (issubclass ValueError_cls "Exception") with true by reflexivity.
  unfold verify_failed.
  assert (Hdel : del_protocol wl
                 = (upd_client (set_c_protocol None) wl, Ret tt)).
  { unfold del_protocol. erewrite bind_Ret by reflexivity.
    replace (c_protocol (client wl)) with (Some v) by (symmetry; exact Hattr).
    done. }
  erewrite bind_Ret by exact Hdel.
  eexists. split; [reflexivity|]. by repeat split.
Qed.

(** ** A failing [get_info]: the lost connection *)

(** [disconnected(p)] for the protocol [p] of a Ready client that has no
    candidates left: the embedder is told, the client is no longer Ready
    and has no protocol, a new readiness completion is installed, and a
    round of attempts starts. *)
Lemma disconnected_starts_round (depth : nat) (wc : world) (p : pid) :
  embedder_reliable ->
  c_closed (client wc) = false -> is_ready (client wc) = true ->
  cur_protocol (client wc) = Some p -> c_protocols (client wc) = [] ->
  exists w1 w' ps,
    disconnected (resume depth) (Some p) wc
      = (upd_client (set_c_protocols ps) w', Ret tt) /\
    trace w1 = trace wc ++ [EvLog Debug "disconnected %r %r";
                            EvEmb notify_disconnected] /\
    client w1 = set_c_protocols []
                  (set_c_protocol (Some None)
                     (set_c_connected (next_id wc)
                        (set_c_ready (Some false) (client wc)))) /\
    futures w1 = <[next_id wc := readiness None []]> (futures wc) /\
    protocols w1 = protocols wc /\ cache w1 = cache wc /\
    round_started (c_addrs (client wc)) (c_storage_key (client wc))
      (c_read_only (client wc)) ps
      (add_event (EvLog Debug "try_connecting") w1) w'.
Proof.
  intros He Hopen Hr Hcur Hps.
  set (wn := set_embedder
               (fst (emb_step notify_disconnected
                       (embedder (add_event (EvLog Debug "disconnected %r %r")
                                    wc))))
               (add_event (EvEmb notify_disconnected)
                  (add_event (EvLog Debug "disconnected %r %r") wc))).
  set (w1 := upd_client (set_c_protocols [])
               (upd_client (set_c_protocol (Some None))
                  (upd_client (set_c_connected (next_id wc))
                     (upd_futures (insert (next_id wc) (readiness None []))
                        (bump_id (upd_client (set_c_ready (Some false)) wn)))))).
  assert (Hc1 : client w1
                = set_c_protocols []
                    (set_c_protocol (Some None)
                       (set_c_connected (next_id wc)
                          (set_c_ready (Some false) (client wc)))))
    by reflexivity.
  assert (Hopen1 : c_closed (client w1) = false) by (by rewrite Hc1).
  destruct (try_connecting_round w1 Hopen1) as (w' & ps & Hrun' & Hround).
  exists w1, w', ps. split.
  { unfold disconnected.
    erewrite bind_Ret by reflexivity.
    erewrite bind_Ret by reflexivity.
    erewrite bind_Ret; cycle 1.
    { change (cur_protocol (client (add_event ?e wc)))
        with (cur_protocol (client wc)).
      rewrite Hcur.
      rewrite !(bool_decide_eq_true_2 (Some p = Some p)) by done.
      rewrite !(bool_decide_eq_false_2 (Some p = None)) by done.
      cbn [orb andb negb].
      erewrite bind_Ret by (by apply emb_do_ok). fold wn.
      erewrite bind_Ret by reflexivity.
      replace (is_ready (client wn)) with true
        by (subst wn; simpl; symmetry; exact Hr).
      erewrite bind_Ret by reflexivity.
      unfold new_future, fresh.
      repeat (erewrite bind_Ret by reflexivity).
      unfold _clear_protocols.
      erewrite bind_Ret by reflexivity.
      match goal with
      | |- context [for_each (c_protocols ?c)] =>
          replace (c_protocols c) with (@nil pid)
            by (subst wn; simpl; symmetry; exact Hps)
      end.
      erewrite bind_Ret by reflexivity.
      reflexivity. }
    fold w1.
    erewrite bind_Ret by reflexivity.
    replace (forallb (protocol_closed w1) (c_protocols (client w1)))
      with true by (by rewrite Hc1).
    exact Hrun'. }
  split; [subst w1 wn; simpl; by rewrite <- app_assoc|].
  split; [exact Hc1|].
  do 3 (split; [reflexivity|]).
  rewrite Hc1 in Hround. exact Hround.
Qed.

(** The connection is lost while the reply to [get_info] is awaited: the
    pending completion is failed, its callback hands the failure to
    [register_failed(self, exc)], which logs it and does nothing else; then
    [connection_lost] goes on as for any loss on a Ready client. *)
Lemma get_info_lost (depth : nat) (w : world) (p : pid) (P : Protocol)
    (m : msgid) (f : fid) (h : nat) (exc : pyval) :
  embedder_reliable ->
  protocols w !! p = Some P -> p_closed P = false ->
  p_heartbeat_handle P = Some h ->
  p_futures P = {[ m := f ]} ->
  pending_fut w f (K_get_info p) ->
  cur_protocol (client w) = Some p -> c_ready (client w) = Some true ->
  c_closed (client w) = false -> c_protocols (client w) = [] ->
  let err := connection_lost_error exc in
  exists w1 w' ps,
    connection_lost (resume (S depth)) p exc w
      = (upd_client (set_c_protocols ps) w', Ret tt) /\
    trace w1 = trace w ++ [EvLog Debug "connection_lost %r"; EvTimerCancel h;
                           EvResolve f (Failure err);
                           registration_failed_log err;
                           EvLog Debug "disconnected %r %r";
                           EvEmb notify_disconnected] /\
    client w1 = set_c_protocols []
                  (set_c_protocol (Some None)
                     (set_c_connected (next_id w)
                        (set_c_ready (Some false) (client w)))) /\
    futures w1 = <[next_id w := readiness None []]>
                   (<[f := FutObj SyncFut (Some err) None false
                             [K_get_info p]]> (futures w)) /\
    protocols w1 = <[p := closed_protocol P]> (protocols w) /\
    cache w1 = cache w /\
    round_started (c_addrs (client w)) (c_storage_key (client w))
      (c_read_only (client w)) ps
      (add_event (EvLog Debug "try_connecting") w1) w'.
Proof.
  intros He HP Hcl Hh Hfut Hpend Hcur Hr Hopen Hps err.
  set (o := FutObj SyncFut None None false [K_get_info p]).
  set (w0 := add_event (EvTimerCancel h)
               (add_event (EvLog Debug "connection_lost %r") w)).
  set (P1 := set_p_futures ∅ P).
  set (wp := upd_protocols (insert p P1) w0).
  set (wA := upd_futures (insert f (set_fo_exc err o))
               (add_event (EvResolve f (Failure err)) wp)).
  set (wB := add_event (registration_failed_log err) wA).
  assert (HcA : client wA = client w) by reflexivity.
  assert (Hcb : resume (S depth) (K_get_info p) f wA = (wB, Ret tt)).
  { cbn [resume]. unfold invoke_body.
    destruct (resume_generator_failure wA f (K_get_info p) err
                (verify_after_get_info (resume depth)))
      as (e' & _ & He' & Hgen);
      [apply lookup_insert_eq|by destruct (truthy exc)|].
    rewrite Hgen, He' by (by destruct (truthy exc)).
    unfold verify_after_get_info, register_failed.
    erewrite bind_Ret by reflexivity.
    erewrite bind_Ret by reflexivity.
    erewrite bind_Ret by reflexivity.
    erewrite bind_Ret by reflexivity.
    change (cur_protocol (client (add_event (registration_failed_log err) wA)))
      with (cur_protocol (client w)).
    rewrite Hcur. by rewrite bool_decide_eq_false_2. }
  set (wc := upd_protocols (insert p (set_p_closed true P1)) wB).
  destruct (disconnected_starts_round (S depth) wc p He)
    as (w1 & w' & ps & Hdisc & Ht1 & Hc1 & Hf1 & Hp1 & Hca1 & Hround);
    [exact Hopen
    |change (is_ready (client w) = true); unfold is_ready; by rewrite Hr
    |exact Hcur|exact Hps|].
  exists w1, w', ps. split.
  { unfold connection_lost.
    erewrite bind_Ret by reflexivity.
    erewrite bind_Ret by (by apply get_protocol_Some).
    rewrite Hh. erewrite bind_Ret by reflexivity. fold w0. rewrite Hcl.
    unfold pop_futures.
    erewrite bind_Ret; cycle 1.
    { erewrite bind_Ret by (by apply get_protocol_Some).
      erewrite bind_Ret by (by apply upd_protocol_Some). reflexivity. }
    fold P1 wp. rewrite Hfut, map_to_list_singleton. simpl.
    erewrite bind_Ret; cycle 1.
    { erewrite bind_Ret; [reflexivity|].
      erewrite set_exception_pending by done.
      unfold run_callbacks. simpl. exact Hcb. }
    erewrite bind_Ret; cycle 1.
    { eapply upd_protocol_Some. subst wB wA wp. simpl.
      apply lookup_insert_eq. }
    exact Hdisc. }
  split; [rewrite Ht1; subst wc wB wA wp w0; simpl;
          by repeat (rewrite <- app_assoc; simpl)|].
  split; [exact Hc1|]. split; [exact Hf1|].
  split; [|split; [exact Hca1|exact Hround]].
  rewrite Hp1. subst wc wB wA wp. simpl. rewrite insert_insert_eq.
  reflexivity.
Qed.

(** C10.  The client is Ready with [p] as its protocol, verification having
    succeeded, and the completion [f] of the [get_info] call is pending.
    - However the call fails (whenever [f] has been failed with an
      exception and the client has a protocol), the callback of [f] throws
      the exception into the generator, which calls
      [register_failed(self, exc)]; that only logs it: it closes nothing
      and schedules no retry, [notify_connected] is not invoked, and no
      completion is resolved.
    - When the failure is an exception reply of the server, nothing else
      happens: the client object is unchanged, so it is still Ready with
      [p] as its protocol, and its readiness completion is as it was.
    - When the failure is the loss of the connection ([get_info] being the
      only call pending, and no candidate being left), [connection_lost]
      goes on once the handler has returned: the protocol is marked closed,
      the embedder is told of the disconnection, the client is no longer
      Ready, has no protocol and has a new unresolved readiness completion,
      and a round of connection attempts starts. *)
Theorem get_info_failure_outcomes
    (depth : nat) (w : world) (p : pid) (P : Protocol) (m : msgid) (f : fid) :
  protocols w !! p = Some P ->
  p_futures P !! m = Some f ->
  pending_fut w f (K_get_info p) ->
  cur_protocol (client w) = Some p ->
  c_ready (client w) = Some true ->
  f <> c_connected (client w) ->
  (forall (w0 : world) e,
     futures w0 !! f
       = Some (FutObj SyncFut (Some e) None false [K_get_info p]) ->
     isinstance e "Exception" = true ->
     isinstance e "BaseException" = true ->
     cur_protocol (client w0) <> None ->
     resume (S depth) (K_get_info p) f w0
     = (add_event (registration_failed_log e) w0, Ret tt)) /\
  (forall a c payload rest,
     cls_plain c = true -> issubclass c "Exception" = true ->
     isinstance payload "Exception" = true ->
     exists w' exc,
       message_received (resume (S depth)) p
         (Frame m a ".reply" (PTuple (PClass c :: payload :: rest))) w
         = (w', Ret tt) /\
       client w' = client w /\
       c_ready (client w') = Some true /\
       cur_protocol (client w') = Some p /\
       cache w' = cache w /\ embedder w' = embedder w /\
       (isinstance payload "BaseException" = true -> exc = payload) /\
       trace w' = trace w
                  ++ (if known_data_error c then []
                      else [EvLog Error "%s from server: %s.%s:%s"])
                  ++ [EvResolve f (Failure payload);
                      registration_failed_log exc] /\
       (forall q Q, protocols w !! q = Some Q ->
          exists Q', protocols w' !! q = Some Q' /\ p_closed Q' = p_closed Q) /\
       futures w' !! c_connected (client w')
         = futures w !! c_connected (client w)) /\
  (forall exc h,
     embedder_reliable ->
     p_closed P = false -> p_heartbeat_handle P = Some h ->
     p_futures P = {[ m := f ]} ->
     c_closed (client w) = false -> c_protocols (client w) = [] ->
     c_connected (client w) <> next_id w ->
     let err := connection_lost_error exc in
     exists w1 w' ps,
       connection_lost (resume (S depth)) p exc w
         = (upd_client (set_c_protocols ps) w', Ret tt) /\
       trace w1 = trace w
                  ++ [EvLog Debug "connection_lost %r"; EvTimerCancel h;
                      EvResolve f (Failure err);
                      registration_failed_log err;
                      EvLog Debug "disconnected %r %r";
                      EvEmb notify_disconnected] /\
       c_ready (client w1) = Some false /\
       cur_protocol (client w1) = None /\
       c_connected (client w1) = next_id w /\
       futures w1 !! (next_id w : fid) = Some (readiness None []) /\
       futures w1 !! c_connected (client w)
         = futures w !! c_connected (client w) /\
       protocols w1 = <[p := closed_protocol P]> (protocols w) /\
       cache w1 = cache w /\
       round_started (c_addrs (client w)) (c_storage_key (client w))
         (c_read_only (client w)) ps
         (add_event (EvLog Debug "try_connecting") w1) w').
Proof.
  intros HP Hf Hpend Hcur Hr Hne. split; [|split].
  - intros w0 e Hf0 He Hb Hcur0.
    cbn [resume]. unfold invoke_body.
    destruct (resume_generator_failure w0 f (K_get_info p) e
                (verify_after_get_info (resume depth)) Hf0 He)
      as (e' & _ & He' & Hgen).
    rewrite Hgen, (He' Hb).
    unfold verify_after_get_info, register_failed.
    erewrite bind_Ret by reflexivity.
    erewrite bind_Ret by reflexivity.
    erewrite bind_Ret by reflexivity.
    erewrite bind_Ret by reflexivity.
    change (cur_protocol (client (add_event (registration_failed_log e) w0)))
      with (cur_protocol (client w0)).
    by rewrite bool_decide_eq_false_2.
  - intros a c payload rest Hplain Hsub Hexc.
    by apply (get_info_reply_failure depth w p P m a c payload rest f).
  - intros exc h He Hcl Hh Hfut Hopen Hps Hfresh err.
    destruct (get_info_lost depth w p P m f h exc He HP Hcl Hh Hfut Hpend
                Hcur Hr Hopen Hps)
      as (w1 & w' & ps & Hrun & Ht1 & Hc1 & Hf1 & Hp1 & Hca1 & Hround).
    exists w1, w', ps. split; [exact Hrun|]. split; [exact Ht1|].
    rewrite Hc1, Hf1. simpl.
    do 3 (split; [reflexivity|]).
    split; [apply lookup_insert_eq|].
    split; [|split; [exact Hp1|split; [exact Hca1|exact Hround]]].
    rewrite lookup_insert_ne by done. by rewrite lookup_insert_ne.
Qed.

End Properties.

(** * Reference collaborators and scenarios *)

Module Reference.

(** Modelled from the spec: the persistent cache, which is not part of this
    module.  It maps object ids to revisions [(oid, start, end, data)] and
    remembers the last transaction id; no call raises. *)
Record ref_cache := RefCache {
  rc_entries : list (pyval * pyval * pyval * pyval);
  rc_last_tid : pyval
}.

Definition ref_cache_step (call : cache_call) (s : ref_cache)
  : ref_cache * option pyval :=
  match call with
  | setLastTid tid => (RefCache (rc_entries s) tid, None)
  | invalidate oid _ =>
      (RefCache
         (List.filter (fun e => negb (py_eqb (fst (fst (fst e))) oid))
            (rc_entries s))
         (rc_last_tid s), None)
  | store oid start_tid end_tid data =>
      (RefCache ((oid, start_tid, end_tid, data) :: rc_entries s)
         (rc_last_tid s), None)
  | clear => (RefCache [] PNone, None)
  | cache_close => (s, None)
  end.

Definition ref_loadBefore (oid tid : string) (s : ref_cache) : pyval :=
  match List.find (fun e => py_eqb (fst (fst (fst e))) (PBytes oid))
          (rc_entries s) with
  | Some (_, start_tid, end_tid, data) => PTuple [data; start_tid; end_tid]
  | None => PNone
  end.

#[export] Instance ref_cache_ops : IClientCache ref_cache := {
  cache_nonempty s := negb (Nat.eqb (length (rc_entries s)) 0);
  getLastTid := rc_last_tid;
  loadBefore := ref_loadBefore;
  cache_step := ref_cache_step
}.

(** A cache whose file has become unwritable: every mutator raises. *)
Record broken_cache := BrokenCache { bc_last_tid : pyval }.

#[export] Instance broken_cache_ops : IClientCache broken_cache := {
  cache_nonempty _ := true;
  getLastTid := bc_last_tid;
  loadBefore _ _ _ := PNone;
  cache_step _ s := (s, Some (ValueError "I/O operation on closed file"))
}.

(** An embedder that accepts every call and keeps a count of them. *)
#[export] Instance counting_embedder : Embedder nat := {
  emb_step _ n := (S n, None)
}.

Lemma ref_cache_reliable : @cache_reliable ref_cache _.
Proof. intros call c. by destruct call. Qed.

Lemma counting_embedder_reliable : @embedder_reliable nat _.
Proof. by intros call e. Qed.

Lemma ref_cache_records_tid : @cache_records_tid ref_cache _.
Proof. by intros tid c. Qed.

(** A connected protocol to address [a]: version negotiated, heartbeat
    timer 2, [n] calls made so far, [pend] pending. *)
Definition a_protocol (ro : ro_mode) (n : Z) (pend : gmap msgid fid)
  : Protocol :=
  MkProtocol "a" "1" ro false true pend n (Some "Z5") (Some 2).

(** A client attached to protocol 1, with readiness completion 0. *)
Definition a_client (ro : ro_mode) (ready : option bool)
  (candidates : list pid) : Client :=
  MkClient ["a"; "b"] "1" ro (Some (Some 1)) ready 0 candidates false None.

Definition thread_future : fut_obj := FutObj ThreadFuture None None false [].

End Reference.

(** * Scenarios

    The theorems above, run on concrete worlds built from the reference
    cache and the counting embedder. *)

Import Reference.

Definition w_ready : World ref_cache nat :=
  MkWorld (a_client RoFalse (Some true) [])
    {[ 1 := a_protocol RoFalse 2 ∅ ]}
    {[ 0 := thread_future ]}
    (RefCache [(PBytes "o1", PBytes "t5", PNone, PBytes "x")] (PBytes "t5"))
    0 [] 3 false.

Lemma invalidateTransaction_witness :
  is_ready (client w_ready) = true /\
  exists w',
    invalidateTransaction (PBytes "t9") (PList [PBytes "o1"]) w_ready
      = (w', Ret tt) /\
    getLastTid (cache w') = PBytes "t9".
Proof.
  split; [reflexivity|].
  destruct (proj1 (invalidateTransaction_applied_iff_ready w_ready
              (PBytes "t9") (PList [PBytes "o1"]) [PBytes "o1"]
              ref_cache_reliable counting_embedder_reliable
              ref_cache_records_tid eq_refl) eq_refl)
    as (w' & Hrun & _ & Htid & _).
  exists w'. split; [exact Hrun|exact Htid].
Defined.

Lemma load_before_witness :
  protocols w_ready !! 1 = Some (a_protocol RoFalse 2 ∅) /\
  exists w' f,
    load_before_many 1 "o1" "t9" 3 w_ready = (w', Ret [f; f; f]) /\
    trace w' = [EvWrite 1 (loadBefore_frame "o1" "t9")].
Proof.
  split; [reflexivity|].
  apply (proj2 (load_before_coalesces w_ready 1 (a_protocol RoFalse 2 ∅)
                  "o1" "t9" eq_refl) eq_refl 2).
Defined.

(** A connection that has just been made: nothing sent, nothing pending. *)
Definition P_handshake : Protocol :=
  MkProtocol "a" "1" RoFallback false true ∅ 0%Z None (Some 2).

Definition w_handshake : World ref_cache nat :=
  MkWorld (MkClient ["a"] "1" RoFallback (Some None) None 0 [1] false None)
    {[ 1 := P_handshake ]} {[ 0 := thread_future ]} (RefCache [] PNone)
    0 [] 3 false.

Lemma finish_connect_witness :
  (protocols w_handshake !! 1 = Some P_handshake /\
   p_futures P_handshake = ∅) /\
  (exists w' P' f,
     finish_connect (resume 0) 1 "Z6" w_handshake = (w', Ret tt) /\
     trace w' = [EvWrite 1 (WVersion "Z5");
                 EvWrite 1 (register_frame P_handshake)] /\
     protocols w' !! 1 = Some P' /\
     p_protocol_version P' = Some "Z5" /\
     p_futures P' !! MsgInt 1 = Some f /\
     futures w' !! f = Some (FutObj SyncFut None None false [K_register 1])) /\
  (exists w' P' evs,
     finish_connect (resume 0) 1 "Z311" w_handshake = (w', Ret tt) /\
     protocols w' !! 1 = Some P' /\
     p_protocol_version P' = Some "Z311" /\ p_closed P' = true /\
     trace w' = evs /\
     existsb is_write evs = false /\
     In (registration_failed_log (ProtocolError (PBytes "Z311"))) evs).
Proof.
  split; [by split|]. split.
  - destruct (finish_connect_negotiates 0 w_handshake 1 P_handshake "Z6"
                eq_refl eq_refl) as (version & [Hmin _] & Hrest).
    assert (Hlt : bytes_lt (List.last supported_protocols "") "Z6")
      by (apply ltb_bytes_lt; reflexivity).
    pose proof (Hmin Hlt) as ->. cbv zeta in Hrest.
    destruct Hrest as [_ Hyes]. apply Hyes. simpl. tauto.
  - destruct (finish_connect_negotiates 0 w_handshake 1 P_handshake "Z311"
                eq_refl eq_refl) as (version & [_ Hmin] & Hrest).
    assert (Hge : ~ bytes_lt (List.last supported_protocols "") "Z311")
      by (rewrite <- ltb_bytes_lt; discriminate).
    pose proof (Hmin Hge) as ->. cbv zeta in Hrest.
    destruct Hrest as [Hno _].
    destruct Hno as [_ Hfail].
    { simpl. intros H. repeat destruct H as [H|H]; try discriminate H.
      exact H. }
    exact Hfail.
Defined.

Definition w_calling : World ref_cache nat :=
  MkWorld (a_client RoFalse (Some true) [])
    {[ 1 := a_protocol RoFalse 2 {[ MsgInt 2 := 3 ]} ]}
    {[ 0 := thread_future; 3 := thread_future ]}
    (RefCache [] (PBytes "t5")) 0 [] 4 false.

Lemma w_calling_wf : wf w_calling.
Proof.
  apply (wf_list_to_map w_calling
           [(1, a_protocol RoFalse 2 {[ MsgInt 2 := 3 ]})]); [reflexivity|].
  repeat constructor.
Qed.

(** A load of [o1] before [t9] by caller 5 is in flight. *)
Definition P_loading : Protocol :=
  a_protocol RoFalse 2 {[ MsgKey "o1" "t9" := 3 ]}.

Definition load_future : fut_obj :=
  FutObj LoopFuture None None false [K_load_before 5 "o1" "t9"].

Definition w_loading : World ref_cache nat :=
  MkWorld (a_client RoFalse (Some true) [])
    {[ 1 := P_loading ]}
    {[ 0 := thread_future; 3 := load_future; 5 := thread_future ]}
    (RefCache [] (PBytes "t5")) 0 [] 6 false.

Lemma w_loading_wf : wf w_loading.
Proof.
  apply (wf_list_to_map w_loading [(1, P_loading)]); [reflexivity|].
  repeat constructor.
Qed.

Lemma message_received_witness :
  ((wf w_calling /\
    protocols w_calling !! 1 = Some (a_protocol RoFalse 2 {[ MsgInt 2 := 3 ]}) /\
    futures w_calling !! 3 = Some thread_future /\
    exception_reply (PBytes "data") = None) /\
   exists w2,
     message_received (resume 0) 1
       (Frame (MsgInt 2) false ".reply" (PBytes "data")) w_calling
     = run_callbacks (resume 0) 3 thread_future w2 /\
     not_pending w2 1 (MsgInt 2) /\
     trace w2 = [EvResolve 3 (Result (PBytes "data"))]) /\
  ((wf w_loading /\
    protocols w_loading !! 1 = Some P_loading /\
    futures w_loading !! 3 = Some load_future /\
    storable_exception (PInst POSKeyError_cls [PBytes "o1"]) = true) /\
   exists w2,
     message_received (resume 0) 1
       (Frame (MsgKey "o1" "t9") false ".reply"
          (PTuple [PClass POSKeyError_cls;
                   PInst POSKeyError_cls [PBytes "o1"]])) w_loading
     = run_callbacks (resume 0) 3 load_future w2 /\
     not_pending w2 1 (MsgKey "o1" "t9") /\
     futures w2 !! 3
       = Some (set_fo_exc (PInst POSKeyError_cls [PBytes "o1"]) load_future) /\
     trace w2 = [EvResolve 3 (Failure (PInst POSKeyError_cls [PBytes "o1"]))]).
Proof.
  split.
  - split; [split; [exact w_calling_wf|by repeat split]|].
    destruct (proj2 (message_received_reply 0 w_calling 1
                       (a_protocol RoFalse 2 {[ MsgInt 2 := 3 ]}) (MsgInt 2)
                       false (PBytes "data") 3 thread_future
                       w_calling_wf eq_refl eq_refl eq_refl eq_refl) eq_refl)
      as (w2 & Hrun & Hnp & _ & Htr & _).
    exists w2. by repeat split.
  - split; [split; [exact w_loading_wf|by repeat split]|].
    destruct (proj1 (message_received_reply 0 w_loading 1 P_loading
                       (MsgKey "o1" "t9") false _ 3 load_future
                       w_loading_wf eq_refl eq_refl eq_refl eq_refl)
                POSKeyError_cls (PInst POSKeyError_cls [PBytes "o1"]) []
                eq_refl eq_refl eq_refl (fun _ => eq_refl))
      as (w2 & Hrun & Hnp & Hfut & Htr & _).
    exists w2. split; [exact Hrun|]. split; [exact Hnp|].
    split; [exact Hfut|exact Htr].
Defined.

Definition w_idle : World ref_cache nat :=
  MkWorld (a_client RoFalse (Some true) [])
    {[ 1 := a_protocol RoFalse 2 ∅ ]} {[ 0 := thread_future ]}
    (RefCache [] (PBytes "t5")) 0 [] 3 false.

(** The I/O thread runs the scheduled [close_threadsafe]. *)
Definition io_close (w : World ref_cache nat) : World ref_cache nat :=
  fst (run_client_meth 1 CM_close_threadsafe 3 w).

Lemma runner_call_witness :
  let m := CM_call_threadsafe "lastTransaction" (PTuple []) in
  let w := MkWorld (a_client RoFalse (Some false) []) ∅ {[ 0 := thread_future ]}
             (RefCache [] PNone) 0 [] 1 false : World ref_cache nat in
  let w1 := fst (Runner_close io_close w_idle) in
  ((runner_closed w = false /\ is_ready (client w) = false) /\
   runner_call m id w
   = (scheduled m w,
      Raise (ClientDisconnected [PStr "timed out waiting for connection"]))) /\
  (Runner_close io_close w_idle = (w1, Ret tt) /\
   runner_call m id w1 = (w1, Raise (ClientDisconnected [PStr "closed"]))).
Proof.
  intros m w w1.
  destruct (runner_call_timeout_and_close (C := ref_cache) (E := nat) m id)
    as [Htimeout Hclosed].
  split.
  - split; [by split|].
    apply (Htimeout w eq_refl); [|reflexivity].
    exists thread_future. by repeat split.
  - assert (H : Runner_close io_close w_idle = (w1, Ret tt))
      by (vm_compute; reflexivity).
    split; [exact H|].
    exact (Hclosed io_close w_idle w1 w1 H eq_refl).
Defined.

Definition w_info : World ref_cache nat :=
  MkWorld (a_client RoFalse (Some true) [])
    {[ 1 := a_protocol RoFalse 2 {[ MsgInt 2 := 3 ]} ]}
    {[ 0 := thread_future; 3 := FutObj SyncFut None None false [K_get_info 1] ]}
    (RefCache [] (PBytes "t5")) 0 [] 4 false.

Definition StorageError_cls : pyclass :=
  exc_class "ZODB.POSException.StorageError" ["ZODB.POSException.POSError"].

Lemma get_info_failure_witness :
  (pending_fut w_info 3 (K_get_info 1) /\
   cur_protocol (client w_info) = Some 1 /\
   c_ready (client w_info) = Some true) /\
  (exists w',
     message_received (resume 1) 1
       (Frame (MsgInt 2) false ".reply"
          (PTuple [PClass StorageError_cls; PInst StorageError_cls []])) w_info
     = (w', Ret tt) /\
     client w' = client w_info /\
     trace w' = [EvLog Error "%s from server: %s.%s:%s";
                 EvResolve 3 (Failure (PInst StorageError_cls []));
                 registration_failed_log (PInst StorageError_cls [])] /\
     futures w' !! 0 = Some thread_future) /\
  (exists w1 w' ps,
     connection_lost (resume 1) 1 PNone w_info
       = (upd_client (set_c_protocols ps) w', Ret tt) /\
     trace w1 = [EvLog Debug "connection_lost %r"; EvTimerCancel 2;
                 EvResolve 3 (Failure (connection_lost_error PNone));
                 registration_failed_log (connection_lost_error PNone);
                 EvLog Debug "disconnected %r %r";
                 EvEmb notify_disconnected] /\
     c_ready (client w1) = Some false /\
     cur_protocol (client w1) = None /\
     futures w1 !! 0 = Some thread_future /\
     round_started ["a"; "b"] "1" RoFalse ps
       (add_event (EvLog Debug "try_connecting") w1) w').
Proof.
  split; [by repeat split|].
  assert (Hne : (3 : fid) <> c_connected (client w_info)) by discriminate.
  destruct (get_info_failure_outcomes 0 w_info 1
              (a_protocol RoFalse 2 {[ MsgInt 2 := 3 ]}) (MsgInt 2) 3
              eq_refl eq_refl eq_refl eq_refl eq_refl Hne)
    as (_ & Hreply & Hlost).
  split.
  - destruct (Hreply false StorageError_cls (PInst StorageError_cls []) []
                eq_refl eq_refl eq_refl)
      as (w' & e' & Hrun & Hc & _ & _ & _ & _ & He' & Htr & _ & Hconn).
    rewrite (He' eq_refl) in Htr.
    exists w'. split; [exact Hrun|]. split; [exact Hc|].
    split; [exact Htr|]. rewrite Hc in Hconn. exact Hconn.
  - assert (Hfresh : c_connected (client w_info) <> next_id w_info)
      by discriminate.
    destruct (Hlost PNone 2 counting_embedder_reliable eq_refl eq_refl eq_refl
                eq_refl eq_refl Hfresh)
      as (w1 & w' & ps & Hrun & Htr & Hr & Hcur & _ & _ & Hconn & _ & _
          & Hround).
    exists w1, w', ps. split; [exact Hrun|]. split; [exact Htr|].
    split; [exact Hr|]. split; [exact Hcur|].
    split; [exact Hconn|exact Hround].
Defined.

(** The run of [connection_lost] while the reply to [get_info] is
    awaited. *)
Definition get_info_lost_run : World ref_cache nat * res unit :=
  connection_lost (resume 2) 1 PNone w_info.

Lemma get_info_failure_counterexample :
  (pending_fut w_info 3 (K_get_info 1) /\
   cur_protocol (client w_info) = Some 1 /\
   c_ready (client w_info) = Some true) /\
  snd get_info_lost_run = Ret tt /\
  trace (fst get_info_lost_run)
    = [EvLog Debug "connection_lost %r"; EvTimerCancel 2;
       EvResolve 3 (Failure (ClientDisconnected [PStr "connection lost"]));
       registration_failed_log (ClientDisconnected [PStr "connection lost"]);
       EvLog Debug "disconnected %r %r"; EvEmb notify_disconnected;
       EvLog Debug "try_connecting"; EvConnect 5 "a"; EvConnect 6 "b"] /\
  c_ready (client (fst get_info_lost_run)) = Some false /\
  cur_protocol (client (fst get_info_lost_run)) = None /\
  protocol_closed (fst get_info_lost_run) 1 = true.
Proof. vm_compute. by repeat split. Qed.

(** A client that has just adopted protocol 1, its cache at [t5]. *)
Definition w_adopted : World ref_cache nat :=
  MkWorld (a_client RoFalse None [])
    {[ 1 := a_protocol RoFalse 1 ∅ ]} {[ 0 := thread_future ]}
    (RefCache [(PBytes "o1", PBytes "t5", PNone, PBytes "x")] (PBytes "t5"))
    0 [] 3 false.

Lemma verify_witness :
  (cur_protocol (client w_adopted) = Some 1 /\
   protocols w_adopted !! 1 = Some (a_protocol RoFalse 1 ∅) /\
   py_compare (getLastTid (cache w_adopted)) (PBytes "t9") = Some Lt) /\
  exists w1 w2,
    verify (resume 0) (PBytes "t9") w_adopted = (w1, Ret tt) /\
    message_received (resume 1) 1
      (Frame (MsgInt 2) false ".reply"
         (PTuple [PBytes "t8"; PList [PBytes "o1"]])) w1 = (w2, Ret tt) /\
    verified w_adopted w2 1
      (Quick_verification (PBytes "t8") (PList [PBytes "o1"]) [PBytes "o1"])
      (PBytes "t9").
Proof.
  split; [by repeat split|].
  pose proof (verify_case_analysis 0 w_adopted 1 (a_protocol RoFalse 1 ∅)
                (PBytes "t9") eq_refl eq_refl ltac:(discriminate))
    as (_ & _ & _ & _ & Hlt & _).
  destruct (Hlt eq_refl eq_refl eq_refl) as (Hrun & Hquick & _).
  destruct (Hquick ref_cache_reliable counting_embedder_reliable
              (PBytes "t8") (PList [PBytes "o1"]) [PBytes "o1"]
              eq_refl eq_refl) as (w2 & Hrun2 & Hv).
  eexists _, w2. split; [exact Hrun|]. split; [exact Hrun2|exact Hv].
Defined.

Lemma w_idle_commit_ready :
  commit_ready w_idle 1 (a_protocol RoFalse 2 ∅) 0.
Proof.
  split.
  { apply (wf_list_to_map w_idle [(1, a_protocol RoFalse 2 ∅)]);
      [reflexivity|repeat constructor]. }
  do 7 (split; [reflexivity|]).
  split; [exists thread_future; split; [reflexivity|]; split; [reflexivity|];
          right; by split|].
  split; [by apply quiet_pending_empty|].
  unfold pending. simpl. rewrite map_to_list_empty. apply not_elem_of_nil.
Qed.

Lemma tpc_finish_witness :
  let updates := [(PBytes "o1", PBytes "new", PBool false)] in
  commit_ready w_idle 1 (a_protocol RoFalse 2 ∅) 0 /\
  exists w1 w2 evs,
    tpc_finish_threadsafe (resume 0) 0 (PBytes "t6") updates 7 w_idle
      = (w1, Ret tt) /\
    message_received (resume 1) 1
      (Frame (MsgInt 3) false ".reply" (PBytes "t7")) w1 = (w2, Ret tt) /\
    trace w2 = [EvWrite 1 (call_frame (a_protocol RoFalse 2 ∅) "tpc_finish"
                             [PBytes "t6"]);
                EvResolve 3 (Result (PBytes "t7"));
                EvCache (invalidate (PBytes "o1") (PBytes "t7"));
                EvCache (store (PBytes "o1") (PBytes "t7") PNone (PBytes "new"));
                EvCache (setLastTid (PBytes "t7"));
                EvEmb (on_commit 7 (PBytes "t7"));
                EvResolve 0 (Result (PBytes "t7"))] ++ evs.
Proof.
  intros updates. split; [exact w_idle_commit_ready|].
  destruct (tpc_finish_commits_or_disconnects 0 w_idle 1
              (a_protocol RoFalse 2 ∅) 0 (PBytes "t6") updates 7
              w_idle_commit_ready) as (Hrun & Hok & _).
  destruct (Hok ref_cache_reliable counting_embedder_reliable (PBytes "t7")
              eq_refl) as (w2 & evs & Hrun2 & Htr & _).
  eexists _, w2, evs. split; [exact Hrun|]. split; [exact Hrun2|exact Htr].
Defined.

(** A fallback client attached read-only to protocol 1 while protocol 4
    has registered writable. *)
Definition w_fallback : World ref_cache nat :=
  MkWorld (a_client RoFallback (Some true) [4])
    {[ 1 := a_protocol RoTrue 2 ∅; 4 := a_protocol RoFalse 1 ∅ ]}
    {[ 0 := thread_future ]}
    (RefCache [] (PBytes "t5")) 0 [] 5 false.

Lemma w_fallback_candidates : candidates_quiet w_fallback [1; 4] 4.
Proof.
  intros q Hq Hne.
  assert (q = 1) as ->.
  { apply elem_of_cons in Hq as [->|Hq]; [done|].
    apply elem_of_cons in Hq as [->|Hq]; [done|].
    by apply elem_of_nil in Hq. }
  exists (a_protocol RoTrue 2 ∅). split; [reflexivity|].
  split; [by apply quiet_pending_empty|].
  intros q' Q' _ _ f Hf. unfold pending in Hf. simpl in Hf.
  rewrite map_to_list_empty in Hf. by apply elem_of_nil in Hf.
Qed.


Lemma w_calling_quiet :
  quiet_pending w_calling (a_protocol RoFalse 2 {[ MsgInt 2 := 3 ]}).
Proof.
  unfold quiet_pending, pending. simpl. rewrite map_to_list_singleton. simpl.
  split; [apply NoDup_singleton|].
  intros f Hf. apply list_elem_of_singleton in Hf as ->.
  exists thread_future. split; [reflexivity|]. split; [reflexivity|].
  right. by split.
Qed.


(** * Further scenarios *)

Lemma w_calling_quiet_3 : quiet w_calling 3.
Proof.
  exists thread_future. split; [reflexivity|]. split; [reflexivity|].
  right. by split.
Qed.

Lemma Protocol_close_witness :
  (wf w_calling /\
   protocols w_calling !! 1 = Some (a_protocol RoFalse 2 {[ MsgInt 2 := 3 ]})) /\
  let w' := fst (Protocol_close (resume 0) 1 w_calling) in
  protocol_closed w' 1 = true /\
  Protocol_close (resume 0) 1 w' = (w', Ret tt).
Proof.
  split; [split; [exact w_calling_wf|reflexivity]|].
  exact (Protocol_close_idempotent 0 w_calling 1 _ w_calling_wf eq_refl).
Defined.

Lemma late_reply_witness :
  (protocols w_calling !! 1 = Some (a_protocol RoFalse 2 {[ MsgInt 2 := 3 ]}) /\
   quiet w_calling 3) /\
  exists w',
    message_received (resume 0) 1
      (Frame (MsgInt 2) false ".reply" (PBytes "data")) w_calling
      = (w', Ret tt) /\
    message_received (resume 0) 1
      (Frame (MsgInt 2) false ".reply" (PBytes "data")) w'
      = (w', Raise (KeyError (PInt 2))).
Proof.
  split; [split; [reflexivity|exact w_calling_quiet_3]|].
  exact (proj1 (late_reply_raises_KeyError (resume 0) w_calling 1 _ eq_refl)
           (MsgInt 2) false (PBytes "data") 3 eq_refl w_calling_quiet_3).
Defined.

Lemma server_call_witness :
  ("close" <> ".reply" /\ ~ In "close" client_methods) /\
  message_received (resume 0) 1 (Frame (MsgInt 0) true "close" (PTuple []))
    w_ready
  = (w_ready, Raise (AttributeError "close")).
Proof.
  assert (Hname : "close" <> ".reply") by discriminate.
  assert (Hnot : ~ In "close" client_methods).
  { simpl. intros H. repeat destruct H as [H|H]; try discriminate H. exact H. }
  split; [by split|].
  exact (proj1 (proj2 (server_call_dispatch (resume 0) w_ready 1 (MsgInt 0) true
                         "close" (PTuple []) Hname)) eq_refl Hnot).
Defined.

Definition some_serials : pyval :=
  PList [PTuple [PBytes "o1"; PBytes "t6"];
         PTuple [PBytes "o2"; PInst ConflictError_cls []]].

Lemma serialnos_witness :
  py_iter some_serials
    = Some [PTuple [PBytes "o1"; PBytes "t6"];
            PTuple [PBytes "o2"; PInst ConflictError_cls []]] /\
  exists w', serialnos some_serials w_ready = (w', Ret tt) /\
    trace w' = [EvCache (invalidate (PBytes "o2") PNone);
                EvEmb (emb_serialnos some_serials)].
Proof.
  split; [reflexivity|].
  destruct (serialnos_invalidates_failed w_ready some_serials _
              [(PBytes "o1", PBytes "t6");
               (PBytes "o2", PInst ConflictError_cls [])]
              ref_cache_reliable counting_embedder_reliable eq_refl)
    as (w' & Hrun & Htr & _).
  { repeat constructor. }
  exists w'. split; [exact Hrun|exact Htr].
Defined.

(** A [Fallback] protocol whose [register] call is pending. *)
Definition w_registering : World ref_cache nat :=
  MkWorld (MkClient ["a"] "1" RoFallback (Some None) (Some false) 0 [1] false
             None)
    {[ 1 := MkProtocol "a" "1" RoFallback false true {[ MsgInt 1 := 3 ]} 1
              (Some "Z5") (Some 2) ]}
    {[ 0 := thread_future; 3 := FutObj SyncFut None None false [K_register 1] ]}
    (RefCache [] PNone) 0 [] 4 false.

Lemma register_reply_witness :
  (protocols w_registering !! 1
     = Some (MkProtocol "a" "1" RoFallback false true {[ MsgInt 1 := 3 ]} 1
               (Some "Z5") (Some 2)) /\
   pending_fut w_registering 3 (K_register 1)) /\
  exists w' P',
    message_received (resume 1) 1
      (Frame (MsgInt 1) false ".reply"
         (PTuple [PClass ReadOnlyError_cls; PInst ReadOnlyError_cls []]))
      w_registering = (w', Ret tt) /\
    protocols w' !! 1 = Some P' /\ p_read_only P' = RoTrue /\
    trace w' = [EvLog Error "%s from server: %s.%s:%s";
                EvResolve 3 (Failure (PInst ReadOnlyError_cls []));
                EvWrite 1 (WFrame (Frame (MsgInt 2) false "register"
                                     (PTuple [PStr "1"; PBool true])))].
Proof.
  split; [by split|].
  destruct (proj1 (register_reply_resolves_mode 0 w_registering 1 _ (MsgInt 1)
                     false 3 eq_refl eq_refl eq_refl)
              ReadOnlyError_cls (PInst ReadOnlyError_cls []) []
              eq_refl eq_refl eq_refl eq_refl eq_refl eq_refl)
    as (w' & P' & f' & Hrun & _ & HP' & Hro & _ & _ & _ & Htr).
  exists w', P'. split; [exact Hrun|]. split; [exact HP'|].
  split; [exact Hro|exact Htr].
Defined.

(** A client in [Fallback] mode with two candidates, of which the
    read-only one registers first. *)
Definition w_candidates : World ref_cache nat :=
  MkWorld (MkClient ["a"; "b"] "1" RoFallback (Some None) (Some false) 0
             [1; 2] false None)
    {[ 1 := a_protocol RoTrue 1 ∅; 2 := a_protocol RoFallback 1 ∅ ]}
    {[ 0 := thread_future ]}
    (RefCache [] PNone) 0 [] 3 false.

Lemma registered_first_witness :
  (cur_protocol (client w_candidates) = None /\
   protocols w_candidates !! 1 = Some (a_protocol RoTrue 1 ∅) /\
   c_read_only (client w_candidates) = RoFallback /\
   ro_truthy (p_read_only (a_protocol RoTrue 1 ∅)) = true) /\
  registered (resume 0) 1 (PBytes "t5") w_candidates
  = verify (resume 0) (PBytes "t5")
      (upd_client (set_c_protocol (Some (Some 1))) w_candidates).
Proof.
  split; [by repeat split|].
  exact (proj1 (registered_adopts_first 0 w_candidates 1 _ (PBytes "t5")
                  eq_refl eq_refl) eq_refl eq_refl).
Defined.

(** A writable client attached to protocol 1 while protocol 4 is still
    registering. *)
Definition w_late : World ref_cache nat :=
  MkWorld (a_client RoFalse (Some true) [])
    {[ 1 := a_protocol RoFalse 2 ∅; 4 := a_protocol RoFalse 1 ∅ ]}
    {[ 0 := thread_future ]}
    (RefCache [] (PBytes "t5")) 0 [] 5 false.

Lemma registered_late_witness :
  (cur_protocol (client w_late) = Some 1 /\
   protocols w_late !! 1 = Some (a_protocol RoFalse 2 ∅) /\
   protocols w_late !! 4 = Some (a_protocol RoFalse 1 ∅) /\ 4 <> 1 /\
   quiet_pending w_late (a_protocol RoFalse 1 ∅)) /\
  exists w',
    registered (resume 0) 4 (PBytes "t5") w_late = (w', Ret tt) /\
    client w' = client w_late /\
    protocol_closed w' 4 = true /\
    protocols w' !! 1 = Some (a_protocol RoFalse 2 ∅).
Proof.
  assert (Hq : quiet_pending w_late (a_protocol RoFalse 1 ∅))
    by (by apply quiet_pending_empty).
  assert (Hne : 4 <> 1) by discriminate.
  split; [do 3 (split; [reflexivity|]); by split|].
  destruct (registered_too_late 0 w_late 4 1 _ _ (PBytes "t5")
              eq_refl eq_refl eq_refl Hne eq_refl eq_refl Hq)
    as (w' & evs & Hrun & Hc & Hps & Hcur & _).
  exists w'. split; [exact Hrun|]. split; [exact Hc|]. split; [|exact Hcur].
  unfold protocol_closed. rewrite Hps. reflexivity.
Defined.

Definition two_calls : list call_spec :=
  [(5, "history", PTuple [PBytes "o1"]); (6, "get_info", PTuple [])].

Lemma calls_numbered_witness :
  (is_ready (client w_ready) = true /\
   cur_protocol (client w_ready) = Some 1 /\
   protocols w_ready !! 1 = Some (a_protocol RoFalse 2 ∅)) /\
  exists w',
    for_each two_calls
      (fun c => call_threadsafe (resume 0) (fst (fst c)) (snd (fst c)) (snd c))
      w_ready = (w', Ret tt) /\
    trace w' = [EvWrite 1 (WFrame (Frame (MsgInt 3) false "history"
                                     (PTuple [PBytes "o1"])));
                EvWrite 1 (WFrame (Frame (MsgInt 4) false "get_info"
                                     (PTuple [])))].
Proof.
  split; [by repeat split|].
  destruct (calls_numbered_in_order (resume 0) two_calls w_ready 1 _
              eq_refl eq_refl eq_refl)
    as (w' & Hrun & _ & _ & _ & _ & _ & Htr & _).
  { intros k _. reflexivity. }
  exists w'. split; [exact Hrun|exact Htr].
Defined.

(** A client that has not been connected yet. *)
Definition w_never : World ref_cache nat :=
  MkWorld (MkClient ["a"] "1" RoFalse (Some None) None 0 [1] false None)
    {[ 1 := fresh_protocol "a" "1" RoFalse ]}
    {[ 0 := thread_future; 5 := thread_future ]}
    (RefCache [] PNone) 0 [] 6 false.

Lemma w_never_quiet_5 : quiet w_never 5.
Proof.
  exists thread_future. split; [reflexivity|]. split; [reflexivity|].
  right. by split.
Qed.

Lemma never_connected_witness :
  (c_ready (client w_never) = None /\ quiet w_never 5) /\
  exists w',
    call_threadsafe (resume 0) 5 "history" (PTuple [PBytes "o1"]) w_never
      = (w', Ret tt) /\
    settled 5 (Failure (ClientDisconnected [PStr "never connected"]))
      w_never w'.
Proof.
  split; [split; [reflexivity|exact w_never_quiet_5]|].
  exact (proj1 (never_connected_fails_at_once (resume 0) w_never 5 eq_refl
                  w_never_quiet_5) "history" (PTuple [PBytes "o1"])).
Defined.

(** A connected client whose protocol awaits the reply to [get_info]
    while two calls wait on the readiness completion. *)
Definition w_queued : World ref_cache nat :=
  MkWorld (a_client RoFalse (Some true) [])
    {[ 1 := a_protocol RoFalse 2 {[ MsgInt 2 := 3 ]} ]}
    {[ 0 := readiness None (queued two_calls);
       3 := FutObj SyncFut None None false [K_get_info 1];
       5 := thread_future; 6 := thread_future ]}
    (RefCache [] (PBytes "t5")) 0 [] 7 false.

Lemma queued_calls_witness :
  (is_ready (client w_queued) = true /\
   cur_protocol (client w_queued) = Some 1 /\
   pending_fut w_queued 3 (K_get_info 1) /\
   futures w_queued !! c_connected (client w_queued)
     = Some (readiness None (queued two_calls))) /\
  exists w',
    message_received (resume 2) 1
      (Frame (MsgInt 2) false ".reply" (PDict [])) w_queued = (w', Ret tt) /\
    trace w' = [EvResolve 3 (Result (PDict []));
                EvEmb (notify_connected (PDict []));
                EvResolve 0 (Result PNone);
                EvWrite 1 (WFrame (Frame (MsgInt 3) false "history"
                                     (PTuple [PBytes "o1"])));
                EvWrite 1 (WFrame (Frame (MsgInt 4) false "get_info"
                                     (PTuple [])))].
Proof.
  split; [by repeat split|].
  assert (Hne : (3 : fid) <> c_connected (client w_queued)) by discriminate.
  destruct (proj2 (queued_calls_released_in_order 0 two_calls) w_queued 1 _
              (MsgInt 2) false 3 (PDict []) counting_embedder_reliable
              eq_refl eq_refl eq_refl)
    as (w1 & w' & Hrun & Htr1 & _ & _ & _ & _ & _ & _ & Htr & _);
    [|reflexivity|reflexivity|exact Hne|reflexivity|reflexivity|].
  { intros k Hk. apply lookup_singleton_ne. intros [= Hk'].
    subst k. simpl in Hk. lia. }
  exists w'. split; [exact Hrun|].
  rewrite Htr, Htr1. reflexivity.
Defined.

Lemma load_from_cache_witness :
  (futures w_ready !! 0 = Some caller_future /\
   loadBefore "o1" "t9" (cache w_ready) <> PNone) /\
  load_before_threadsafe (resume 0) 0 "o1" "t9" w_ready
  = (answered 0 (PTuple [PBytes "x"; PBytes "t5"; PNone]) w_ready, Ret tt).
Proof.
  assert (Hhit : loadBefore "o1" "t9" (cache w_ready) <> PNone)
    by discriminate.
  split; [by split|].
  exact (proj1 (load_served_from_cache (resume 0) w_ready 0 "o1" "t9" eq_refl)
           Hhit).
Defined.

(** A Ready client with an empty cache and two callers. *)
Definition w_two_callers : World ref_cache nat :=
  MkWorld (a_client RoFalse (Some true) [])
    {[ 1 := a_protocol RoFalse 2 ∅ ]}
    {[ 0 := thread_future; 5 := thread_future; 6 := thread_future ]}
    (RefCache [] (PBytes "t5")) 0 [] 7 false.

Lemma coalesced_loads_witness :
  (is_ready (client w_two_callers) = true /\
   loadBefore "o1" "t9" (cache w_two_callers) = PNone /\
   futures w_two_callers !! 5 = Some caller_future /\
   futures w_two_callers !! 6 = Some caller_future /\ 5 <> 6) /\
  let r := PTuple [PBytes "x"; PBytes "t5"; PNone] in
  let call := store (PBytes "o1") (PBytes "t5") PNone (PBytes "x") in
  exists w1 w2 w3 w4 w5,
    load_before_threadsafe (resume 0) 5 "o1" "t9" w_two_callers
      = (w1, Ret tt) /\
    load_before_threadsafe (resume 0) 6 "o1" "t9" w1 = (w2, Ret tt) /\
    message_received (resume 0) 1 (Frame (MsgKey "o1" "t9") false ".reply" r)
      w2 = (w3, Ret tt) /\
    run_task 1 (T_callback (K_load_before 5 "o1" "t9") 7) w3 = (w4, Ret tt) /\
    run_task 1 (T_callback (K_load_before 6 "o1" "t9") 7) w4 = (w5, Ret tt) /\
    trace w5 = [EvWrite 1 (loadBefore_frame "o1" "t9");
                EvResolve 7 (Result r);
                EvCallSoon (T_callback (K_load_before 5 "o1" "t9") 7);
                EvCallSoon (T_callback (K_load_before 6 "o1" "t9") 7);
                EvResolve 5 (Result r); EvCache call;
                EvResolve 6 (Result r); EvCache call].
Proof.
  assert (Hne : (5 : fid) <> 6) by discriminate.
  split; [do 4 (split; [reflexivity|]); exact Hne|].
  intros r call.
  destruct (coalesced_loads_answer_every_caller 0 w_two_callers 1 _ 5 6
              "o1" "t9" false (PBytes "x") (PBytes "t5") PNone
              ref_cache_reliable eq_refl eq_refl eq_refl eq_refl eq_refl
              eq_refl eq_refl Hne eq_refl eq_refl)
    as (w1 & w2 & w3 & w4 & w5 & H1 & H2 & H3 & H4 & H5 & Htr & _).
  exists w1, w2, w3, w4, w5.
  do 5 (split; [assumption|]). exact Htr.
Defined.

(** The server answered a load with a false value; the callback of the
    caller 5 has not run yet. *)
Definition w_answered_none : World ref_cache nat :=
  MkWorld (a_client RoFalse (Some true) [])
    {[ 1 := a_protocol RoFalse 2 ∅ ]}
    {[ 0 := thread_future; 5 := thread_future;
       7 := FutObj LoopFuture None (Some PNone) false
              [K_load_before 5 "o1" "t9"] ]}
    (RefCache [] (PBytes "t5")) 0 [] 8 false.

Lemma load_callback_witness :
  (futures w_answered_none !! 5 = Some caller_future /\
   truthy PNone = false /\
   futures w_answered_none !! 7
     = Some (FutObj LoopFuture None (Some PNone) false
               [K_load_before 5 "o1" "t9"])) /\
  run_task 1 (T_callback (K_load_before 5 "o1" "t9") 7) w_answered_none
  = (answered 5 PNone w_answered_none, Ret tt).
Proof.
  split; [by repeat split|].
  exact (proj1 (load_callback_outcomes 0 w_answered_none 5 7 "o1" "t9"
                  [K_load_before 5 "o1" "t9"] eq_refl)
           PNone eq_refl eq_refl).
Defined.

(** A Ready client whose cache file has been closed. *)
Definition w_broken_cache : World broken_cache nat :=
  MkWorld (a_client RoFalse (Some true) [])
    {[ 1 := a_protocol RoFalse 2 ∅ ]}
    {[ 0 := thread_future ]}
    (BrokenCache (PBytes "t5")) 0 [] 3 false.

Lemma broken_cache_raises_Exception :
  forall call (c : broken_cache) e,
    snd (cache_step call c) = Some e -> isinstance e "Exception" = true.
Proof. intros call c e [= <-]. reflexivity. Qed.

Lemma prefetch_callback_witness :
  (forall call (c : broken_cache) e,
     snd (cache_step call c) = Some e -> isinstance e "Exception" = true) /\
  exists w' evs,
    prefetch_done "o1" (inl (PTuple [PBytes "x"; PBytes "t5"; PNone]))
      w_broken_cache = (w', Ret tt) /\
    trace w' = evs /\ futures w' = futures w_broken_cache.
Proof.
  split; [exact broken_cache_raises_Exception|].
  destruct (prefetch_callback_never_raises "o1"
              (inl (PTuple [PBytes "x"; PBytes "t5"; PNone])) w_broken_cache
              broken_cache_raises_Exception I)
    as (w' & evs & Hrun & Htr & _ & _ & Hf & _).
  exists w', evs. split; [exact Hrun|]. split; [exact Htr|exact Hf].
Defined.

Lemma w_ready_fresh : fresh_from w_ready.
Proof.
  intros f Hf. apply lookup_singleton_ne. simpl in Hf. lia.
Qed.

Lemma w_ready_no_loads :
  loads_in_flight w_ready (a_protocol RoFalse 2 ∅) "t9" [].
Proof.
  intros oid. split; [|reflexivity].
  intros H. by apply elem_of_nil in H.
Qed.

Lemma prefetch_witness :
  (is_ready (client w_ready) = true /\
   loads_in_flight w_ready (a_protocol RoFalse 2 ∅) "t9" [] /\
   fresh_from w_ready /\
   futures w_ready !! 0 = Some caller_future) /\
  exists w',
    prefetch (resume 0) 0 ["o1"; "o2"; "o2"] "t9" w_ready = (w', Ret tt) /\
    trace w' = [EvWrite 1 (loadBefore_frame "o2" "t9");
                EvResolve 0 (Result PNone)].
Proof.
  split.
  { split; [reflexivity|]. split; [exact w_ready_no_loads|].
    split; [exact w_ready_fresh|reflexivity]. }
  destruct (prefetch_fetches_misses_once (resume 0) w_ready 1 _ 0
              ["o1"; "o2"; "o2"] "t9" [] eq_refl eq_refl eq_refl
              w_ready_no_loads w_ready_fresh eq_refl)
    as (w' & P' & Hrun & _ & _ & _ & _ & _ & _ & Htr & _).
  exists w'. split; [exact Hrun|].
  rewrite Htr. vm_compute. reflexivity.
Defined.

Lemma w_registering_wf : wf w_registering.
Proof.
  apply (wf_list_to_map w_registering
           [(1, MkProtocol "a" "1" RoFallback false true {[ MsgInt 1 := 3 ]} 1
                  (Some "Z5") (Some 2))]); [reflexivity|].
  repeat constructor.
Qed.

Lemma w_registering_alone :
  forall q, q ∈ c_protocols (client w_registering) -> q <> 1 ->
    protocol_closed w_registering q = true.
Proof.
  intros q Hq Hne. apply list_elem_of_singleton in Hq. contradiction.
Qed.

Lemma candidate_lost_witness :
  (wf w_registering /\
   cur_protocol (client w_registering) = None /\
   1 ∈ c_protocols (client w_registering) /\
   pending_fut w_registering 3 (K_register 1)) /\
  exists w' ps,
    connection_lost (resume 1) 1 PNone w_registering
      = (upd_client (set_c_protocols ps) w', Ret tt) /\
    ps = [4] /\
    trace w'
    = [EvLog Debug "connection_lost %r"; EvTimerCancel 2;
       EvResolve 3 (Failure (connection_lost_error PNone));
       EvCancelConnecting 1; EvTransportClose 1;
       registration_failed_log (connection_lost_error PNone);
       EvCallLater T_try_connecting;
       EvLog Debug "disconnected %r %r";
       EvLog Debug "try_connecting";
       EvConnect 4 "a"].
Proof.
  assert (Hin : 1 ∈ c_protocols (client w_registering))
    by (apply list_elem_of_singleton; reflexivity).
  split.
  { split; [exact w_registering_wf|]. split; [reflexivity|].
    split; [exact Hin|reflexivity]. }
  destruct (candidate_lost_while_registering 0 w_registering 1 _ (MsgInt 1) 3
              2 PNone w_registering_wf eq_refl eq_refl Hin w_registering_alone
              eq_refl eq_refl eq_refl eq_refl eq_refl)
    as (w' & ps & Hrun & Htr & Hps & _).
  exists w', ps. split; [exact Hrun|]. split; [exact Hps|exact Htr].
Defined.

Lemma w_ready_quiet_pending : quiet_pending w_ready (a_protocol RoFalse 2 ∅).
Proof. by apply quiet_pending_empty. Qed.

Lemma Client_close_witness :
  (c_closed (client w_ready) = false /\
   cur_protocol (client w_ready) = Some 1 /\
   protocols w_ready !! 1 = Some (a_protocol RoFalse 2 ∅) /\
   quiet_pending w_ready (a_protocol RoFalse 2 ∅)) /\
  exists w',
    Client_close (resume 0) w_ready = (w', Ret tt) /\
    c_closed (client w') = true /\
    Client_close (resume 0) w' = (w', Ret tt) /\
    try_connecting w' = (add_event (EvLog Debug "try_connecting") w', Ret tt).
Proof.
  split; [do 3 (split; [reflexivity|]); exact w_ready_quiet_pending|].
  destruct (Client_close_is_final 0 w_ready 1 _ 2 ref_cache_reliable
              eq_refl eq_refl eq_refl eq_refl eq_refl eq_refl
              w_ready_quiet_pending)
    as (w' & evs & Hrun & Hcl & _ & _ & _ & _ & _ & Hagain & Htry & _).
  exists w'. split; [exact Hrun|]. split; [exact Hcl|].
  split; [exact Hagain|exact Htry].
Defined.

(** A protocol that registered and awaits the reply to
    [lastTransaction]. *)
Definition w_asking_tid : World ref_cache nat :=
  MkWorld (a_client RoFalse (Some false) [])
    {[ 1 := a_protocol RoFalse 2 {[ MsgInt 2 := 3 ]} ]}
    {[ 0 := thread_future;
       3 := FutObj SyncFut None None false [K_lastTransaction 1] ]}
    (RefCache [] (PBytes "t5")) 0 [] 4 false.

Lemma lastTransaction_failure_witness :
  (protocols w_asking_tid !! 1
     = Some (a_protocol RoFalse 2 {[ MsgInt 2 := 3 ]}) /\
   pending_fut w_asking_tid 3 (K_lastTransaction 1) /\
   isinstance (PInst StorageError_cls []) "Exception" = true) /\
  exists w',
    message_received (resume 1) 1
      (Frame (MsgInt 2) false ".reply"
         (PTuple [PClass StorageError_cls; PInst StorageError_cls []]))
      w_asking_tid
    = (w', Raise (PInst StorageError_cls [])) /\
    client w' = client w_asking_tid.
Proof.
  split; [by repeat split|].
  destruct (lastTransaction_failure_escapes 0 w_asking_tid 1 _ (MsgInt 2)
              false 3 StorageError_cls (PInst StorageError_cls []) []
              eq_refl eq_refl eq_refl eq_refl eq_refl eq_refl eq_refl)
    as (w' & Hrun & Hc & _).
  exists w'. split; [exact Hrun|exact Hc].
Defined.

Lemma w_candidates_quiet :
  candidates_quiet w_candidates (c_protocols (client w_candidates)) 0.
Proof.
  assert (Hnone : forall (P : Protocol) (f : fid),
            p_futures P = ∅ -> f ∉ pending P).
  { intros P f HP Hf. unfold pending in Hf.
    rewrite HP, map_to_list_empty in Hf. by apply elem_of_nil in Hf. }
  intros q Hq _. apply elem_of_cons in Hq as [->|Hq].
  - exists (a_protocol RoTrue 1 ∅). split; [reflexivity|].
    split; [by apply quiet_pending_empty|].
    intros q' Q' _ _ f Hf. by apply Hnone in Hf.
  - apply list_elem_of_singleton in Hq as ->.
    exists (a_protocol RoFallback 1 ∅). split; [reflexivity|].
    split; [by apply quiet_pending_empty|].
    intros q' Q' _ _ f Hf. by apply Hnone in Hf.
Qed.

Lemma new_addrs_witness :
  (is_ready (client w_candidates) = false /\
   cur_protocol (client w_candidates) = None /\
   c_closed (client w_candidates) = false /\
   candidates_quiet w_candidates (c_protocols (client w_candidates)) 0) /\
  exists w1 w' ps,
    new_addrs (resume 0) ["c"; "d"] w_candidates
      = (upd_client (set_c_protocols ps) w', Ret tt) /\
    (forall q, q ∈ [1; 2] -> protocol_closed w1 q = true) /\
    c_addrs (client w1) = ["c"; "d"] /\
    round_started ["c"; "d"] "1" RoFallback ps
      (add_event (EvLog Debug "try_connecting") w1) w'.
Proof.
  split; [do 3 (split; [reflexivity|]); exact w_candidates_quiet|].
  assert (Hk : 0 ∉ c_protocols (client w_candidates)).
  { intros H. apply elem_of_cons in H as [H|H]; [discriminate H|].
    apply list_elem_of_singleton in H. discriminate H. }
  destruct (proj2 (new_addrs_restarts_only_when_connecting 0 w_candidates
                     ["c"; "d"]) 0 eq_refl eq_refl eq_refl eq_refl Hk
              w_candidates_quiet)
    as (w1 & w' & evs & ps & Hrun & _ & _ & Hcl & _ & Haddrs & _ & _ & _ & _
        & _ & _ & _ & Hround).
  exists w1, w', ps. split; [exact Hrun|]. split; [exact Hcl|].
  split; [exact Haddrs|exact Hround].
Defined.

Lemma runner_round_trip_witness :
  (runner_closed w_ready = false /\
   loadBefore "o1" "t9" (cache w_ready) <> PNone) /\
  runner_call (CM_load_before_threadsafe "o1" "t9") (run_scheduled 0) w_ready
  = (answered 3 (PTuple [PBytes "x"; PBytes "t5"; PNone])
       (scheduled (CM_load_before_threadsafe "o1" "t9") w_ready),
     Ret (PTuple [PBytes "x"; PBytes "t5"; PNone])).
Proof.
  assert (Hhit : loadBefore "o1" "t9" (cache w_ready) <> PNone)
    by discriminate.
  split; [by split|].
  exact (proj1 (runner_call_round_trip 0 w_ready eq_refl) "o1" "t9" Hhit).
Defined.

Lemma w_never_quiet_pending :
  quiet_pending w_never (fresh_protocol "a" "1" RoFalse).
Proof. by apply quiet_pending_empty. Qed.

Lemma register_failed_witness :
  (protocols w_never !! 1 = Some (fresh_protocol "a" "1" RoFalse) /\
   quiet_pending w_never (fresh_protocol "a" "1" RoFalse)) /\
  exists w',
    register_failed (resume 0) (ArgProtocol (Some 1)) PNone w_never
      = (w', Ret tt) /\
    protocol_closed w' 1 = true /\
    In (EvCallLater T_try_connecting) (trace w').
Proof.
  split; [split; [reflexivity|exact w_never_quiet_pending]|].
  destruct (register_failed_schedules_retry (resume 0) w_never 1 _ PNone
              eq_refl eq_refl w_never_quiet_pending)
    as (w' & evs & Hrun & _ & _ & _ & _ & Hps & Htr & _).
  exists w'. split; [exact Hrun|]. split.
  - unfold protocol_closed. rewrite Hps. reflexivity.
  - rewrite Htr. rewrite !in_app_iff. do 3 right. right. left. reflexivity.
Defined.

Lemma unexpected_loss_witness :
  (is_ready (client w_calling) = true /\
   cur_protocol (client w_calling) = Some 1 /\
   protocols w_calling !! 1 = Some (a_protocol RoFalse 2 {[ MsgInt 2 := 3 ]}) /\
   quiet_pending w_calling (a_protocol RoFalse 2 {[ MsgInt 2 := 3 ]})) /\
  exists w1 w' ps,
    connection_lost (resume 0) 1 PNone w_calling
      = (upd_client (set_c_protocols ps) w', Ret tt) /\
    c_ready (client w1) = Some false /\ cur_protocol (client w1) = None /\
    protocol_closed w1 1 = true /\
    round_started ["a"; "b"] "1" RoFalse ps
      (add_event (EvLog Debug "try_connecting") w1) w'.
Proof.
  split; [do 3 (split; [reflexivity|]); exact w_calling_quiet|].
  destruct (unexpected_loss_reconnects 0 w_calling 1 _ 2 PNone
              counting_embedder_reliable eq_refl eq_refl eq_refl eq_refl
              eq_refl eq_refl eq_refl w_calling_quiet)
    as (w1 & w' & evs & ps & Hrun & _ & _ & _ & Hr & Hcur & _ & _ & _ & _
        & Hps & _ & Hround).
  exists w1, w', ps. split; [exact Hrun|]. split; [exact Hr|].
  split; [exact Hcur|]. split; [|exact Hround].
  unfold protocol_closed. rewrite Hps. reflexivity.
Defined.

Lemma Runner_close_witness :
  (runner_closed w_ready = false /\ c_closed (client w_ready) = false /\
   cur_protocol (client w_ready) = Some 1 /\
   quiet_pending w_ready (a_protocol RoFalse 2 ∅)) /\
  exists w',
    Runner_close (run_scheduled 0) w_ready = (w', Ret tt) /\
    runner_closed w' = true /\ c_closed (client w') = true /\
    protocol_closed w' 1 = true.
Proof.
  split; [do 3 (split; [reflexivity|]); exact w_ready_quiet_pending|].
  destruct (Runner_close_closes_client 0 w_ready 1 _ ref_cache_reliable
              eq_refl eq_refl eq_refl eq_refl eq_refl eq_refl
              w_ready_quiet_pending eq_refl)
    as (w' & evs & Hrun & Hrc & Hcl & _ & Hps & _).
  exists w'. split; [exact Hrun|]. split; [exact Hrc|]. split; [exact Hcl|].
  unfold protocol_closed. rewrite Hps. reflexivity.
Defined.

(** An embedder whose commit hook raises; it accepts every other call and
    counts them. *)
Record strict_embedder := StrictEmbedder { se_calls : nat }.

#[export] Instance strict_embedder_ops : Embedder strict_embedder := {
  emb_step call s :=
    match call with
    | on_commit _ _ => (s, Some (ValueError "hook failed"))
    | _ => (StrictEmbedder (S (se_calls s)), None)
    end
}.

(** A transaction of caller 5 awaits the reply to [tpc_finish]. *)
Definition w_committing : World ref_cache strict_embedder :=
  MkWorld (a_client RoFalse (Some true) [])
    {[ 1 := a_protocol RoFalse 2 {[ MsgInt 2 := 3 ]} ]}
    {[ 0 := thread_future;
       3 := FutObj SyncFut None None false
              [K_tpc_finish 5 [(PBytes "o1", PBytes "x", PBool false)] 7];
       5 := thread_future ]}
    (RefCache [] (PBytes "t5")) (StrictEmbedder 0) [] 6 false.

Lemma commit_hook_failure_witness :
  (protocols w_committing !! 1
     = Some (a_protocol RoFalse 2 {[ MsgInt 2 := 3 ]}) /\
   pending_fut w_committing 3
     (K_tpc_finish 5 [(PBytes "o1", PBytes "x", PBool false)] 7) /\
   snd (emb_step (on_commit 7 (PBytes "t7")) (embedder w_committing))
     = Some (ValueError "hook failed")) /\
  exists w',
    message_received (resume 1) 1
      (Frame (MsgInt 2) false ".reply" (PBytes "t7")) w_committing
    = (w', Raise (ValueError "hook failed")) /\
    futures w' !! 5 = Some thread_future /\
    last (trace w') = Some (EvEmb (on_commit 7 (PBytes "t7"))).
Proof.
  split; [by repeat split|].
  assert (Hne : (5 : fid) <> 3) by discriminate.
  assert (Hhook : snd (emb_step (on_commit 7 (PBytes "t7"))
                         (embedder w_committing))
                  = Some (ValueError "hook failed")) by reflexivity.
  destruct (commit_hook_failure_escapes 0 w_committing 1 _ (MsgInt 2) false
              3 5 [(PBytes "o1", PBytes "x", PBool false)] 7 (PBytes "t7")
              (ValueError "hook failed") ref_cache_reliable
              eq_refl eq_refl eq_refl Hne eq_refl Hhook)
    as (w' & Hrun & Htr & _ & Hf & _).
  exists w'. split; [exact Hrun|]. split; [exact Hf|].
  rewrite Htr. reflexivity.
Defined.

(** A protocol that awaits the reply to [getInvalidations]. *)
Definition w_verifying : World ref_cache nat :=
  MkWorld (a_client RoFalse (Some false) [])
    {[ 1 := a_protocol RoFalse 2 {[ MsgInt 2 := 3 ]} ]}
    {[ 0 := thread_future;
       3 := FutObj SyncFut None None false
              [K_getInvalidations 1 (PBytes "t7")] ]}
    (RefCache [(PBytes "o1", PBytes "t5", PNone, PBytes "x")] (PBytes "t5"))
    0 [] 4 false.

Lemma malformed_invalidations_witness :
  (protocols w_verifying !! 1
     = Some (a_protocol RoFalse 2 {[ MsgInt 2 := 3 ]}) /\
   pending_fut w_verifying 3 (K_getInvalidations 1 (PBytes "t7")) /\
   truthy (PTuple [PBytes "t7"]) = true /\
   py_iter (PTuple [PBytes "t7"]) = Some [PBytes "t7"]) /\
  exists w1,
    message_received (resume 1) 1
      (Frame (MsgInt 2) false ".reply" (PTuple [PBytes "t7"])) w_verifying
    = register_failed (resume 0) (ArgProtocol (Some 1))
        (ValueError "wrong number of values to unpack") w1 /\
    cur_protocol (client w1) = None /\
    trace w1 = [EvResolve 3 (Result (PTuple [PBytes "t7"]))].
Proof.
  split; [by repeat split|].
  assert (Hlen : length [PBytes "t7"] <> 2) by discriminate.
  destruct (malformed_invalidations_fail_verification 0 w_verifying 1 _
              (MsgInt 2) false 3 (PBytes "t7") (PTuple [PBytes "t7"])
              [PBytes "t7"] (Some 1) eq_refl eq_refl eq_refl eq_refl eq_refl
              eq_refl eq_refl Hlen)
    as (w1 & Hrun & _ & _ & Hcur & _ & _ & _ & Htr).
  exists w1. split; [exact Hrun|]. split; [exact Hcur|exact Htr].
Defined.

(** * Completions whose callback raises

    While [verify(None)] awaits the reply to [lastTransaction], the
    completion pending on the protocol is a [Fut] whose callback resumes the
    generator outside its [try] block: failing that completion raises out
    of the loop that fails the pending completions. *)

(** A client in [Fallback] mode on its first round, with candidates 1 and
    2.  Protocol 1 registered read-only at its second attempt and is the
    client's protocol; [verify(None)] awaits the reply to its
    [lastTransaction] call (message 3, completion 5).  Protocol 2 has just
    been accepted writable by its server. *)
Definition P_verifying : Protocol :=
  MkProtocol "a" "1" RoTrue false true {[ MsgInt 3 := 5 ]} 3 (Some "Z5")
    (Some 2).

Definition P_writable : Protocol :=
  MkProtocol "b" "1" RoFalse false true ∅ 1 (Some "Z5") (Some 4).

Definition w_fallback_verifying : World ref_cache nat :=
  MkWorld (MkClient ["a"; "b"] "1" RoFallback (Some (Some 1)) None 0 [1; 2]
             false None)
    {[ 1 := P_verifying; 2 := P_writable ]}
    {[ 0 := thread_future;
       5 := FutObj SyncFut None None false [K_lastTransaction 1] ]}
    (RefCache [] (PBytes "t5")) 0 [] 7 false.

Definition upgrade_while_verifying_run : World ref_cache nat * res unit :=
  registered (resume 2) 2 (PBytes "t5") w_fallback_verifying.


Definition lost_while_verifying_run : World ref_cache nat * res unit :=
  connection_lost (resume 2) 1 PNone w_asking_tid.

